(* ===== verification/_CoqProject ===== *)
-Q . S2P
Prelude.v
Timeline.v
Model.v
Playback.v
Transport.v
Host.v
Export.v
Capture.v
Probe.v
Bridge.v
Persistence.v
Shell.v
Views.v
Equiv.v
Menu.v
Settle.v
Lifecycle.v
Wire.v
Main.v
System.v
Render.v
Process.v
