(* ===== verification/Prelude.v ===== *)
(** * ClipForge: a verification development

    ClipForge is an Electron desktop video editor.  Its sources are

    - [src/src/App_simple.js]: the renderer's React application: the asset
      library (imported media), the timeline (an array of clips), the
      playback clock driven by [requestAnimationFrame], and the views
      [SimpleTimeline] and [AssetLibraryPanel];
    - [src/src/components/ScreenRecorder.js]: the screen-capture component
      around [getUserMedia] and [MediaRecorder];
    - [src/public/electron.js]: the main process: the windows, the console
      latch, and the IPC handlers that call ffmpeg, the dialogs and the file
      system (open files, probe, thumbnail, trim, export by concatenation
      manifest, project save and load, the controller window);
    - [src/public/preload.js] and [src/src/utils/electronAPI.js]: the bridge
      that exposes the IPC channels to the renderer, and the renderer's
      guarded wrapper around it.

    The renderer calls the wrapper, the wrapper calls the exposed objects,
    these invoke channels, and the main process answers on them; the
    renderer's own state (library, timeline, clock, recorder) never leaves
    the renderer except as the arguments of such a request.

    ** Files of the development, in the order they build

    - [Prelude] (this file): the JavaScript idioms every component uses
      (truthiness, [a || b] defaults, [Math.max]); components as step
      functions with a guard ([reachable], [runO], [runG]); the [result] of a
      call that may throw and the errors thrown ([JsError]); the monad [prog]
      of handlers that read and write a state and may throw; the hint
      database [clipforge].
    - [Timeline]: [App] of App_simple.js: the data ([Media], [Clip],
      [AppState], one field per [useState] cell) and the handlers
      [handleAddToTimeline], [handleVideoImported], [handleMediaDelete],
      [handleMediaReorder], play/pause and seek; [app_step] runs one handler
      per render.  Theorems: the timeline stays well formed and sorted, hence
      free of overlap, in every reachable state; a clip is appended at the
      end of the last one with the media's duration or 5; appends are
      contiguous; delete cascades to the clips; reorder is a permutation;
      two appends from one render overlap.
    - [Model]: the registry and the timeline as the design describes them,
      a machine with validated requests ([register], [remove], [addClip]
      with sequential append placement, each accepted with every invariant
      kept or rejected), and the proof that [App] implements it: [abs]
      reads a state of [App] as a state of the design, and every run of
      [App] whose imports bring new ids is an accepted run of the design.
      The design's invariants (clips well formed, referring to registered
      assets, disjoint per track) thereby hold of the states [App] reaches.
    - [Playback]: the playback effect of [App]: [tick], the effect body and
      cleanup, [commit] (React running the effect when [isVideoPlaying]
      changed), with the browser's scheduled frames as state.  Theorems: at
      most one frame is scheduled, exactly one while playing and none after
      a pause, so the loop of [tick] ends with a pause; the play-head
      advances by the wall-clock time elapsed; it is not clamped to the
      timeline.
    - [Transport]: the playback clock of the design ([onFrame]: advance by
      the wall-clock delta, clamp to the timeline, stop at the end), and
      [transportOf], which reads a state of [Playback] as a state of it.
      Theorems: the design keeps the play-head between zero and the end;
      as long as the frames keep the play-head inside the timeline the
      loop of [App] does what the design does ([frames_refine]); the frame
      that reaches the end is where they part.
    - [Host]: what the main process calls and does not define: the class
      [FileSystem] ([existsSync], [statSync], [readFileSync],
      [writeFileSync], [unlinkSync] with their laws) and its model [Disk];
      the events of an ffmpeg command; [MainState], what a handler of the
      main process can change (disk, messages sent, and the lines passed
      to [console.error] and [console.warn], which [Process] sends through
      the replaced console methods).
    - [Export]: the [export-timeline] and [trim-video] handlers of
      electron.js: [concatContent] (the manifest), [exportStart] (up to
      [.run()]), [exportOn] (the listeners), [exportTimeline] (both over a
      run of engine events).  Theorems: every exit path settles the promise
      and unlinks the manifest; the manifest lists the paths in order;
      progress is forwarded in order; two exports in one millisecond share a
      manifest; paths are not escaped.
    - [Capture]: the [ScreenRecorder] component: state cells, refs, every
      handler and callback as programs of [prog], the browser objects behind
      the handles, and [capture_step] over user and browser events.
      Theorems: a session hands over the chunks in order and releases
      stream, timer and URL; an invariant of every reachable state; what
      happens on each failing path of [startRecording]; two starts in flight;
      a stream that the ref no longer holds is never stopped.  [stopTracks],
      the call of [track.stop()] in [onstop], takes the stream from the live
      ones and ends every recorder that still records it, which queues the
      [stop] event of that recorder.
    - [Probe]: the handlers [open-file-dialog], [get-video-info],
      [get-screen-sources], [start-screen-recording], [get-metadata] and
      [extract-thumbnail] of electron.js, with [invoke], the calling
      convention of [ipcMain.handle].  Theorems: what each handler answers on
      each path, errors included.
    - [Bridge]: the table of methods preload.js exposes ([preload]), the
      wrapper of electronAPI.js ([electronAPI], [isElectron],
      [callWrapped]), and the channels electron.js handles ([handled]) or
      sends on ([sentByMain]); [request] composes them.  Theorems: every
      wrapper method reaches a handler; outside Electron every request is
      refused.
    - [Persistence]: the [save-project] and [load-project] handlers over
      [FileSystem] and the class [Json] of the three operations the
      handlers use: [stringify], which gives a text, [undefined] or an
      exception, [parse], and [nameText], the template literal of the default
      path, which throws on a project that is [null] or [undefined].  The
      class has no law.  Theorems: each handler on every path, the two
      failures before the write included; save followed by load gives back
      every project whose text parses back to it ([readsBack], a condition
      on that one value).
    - [Shell]: [createWindow] and its [ready-to-show] listener,
      [createControllerWindow], the four controller handlers, the [close]
      and [closed] listeners, [window-all-closed],
      [activate] and Quit as [shell_step] (the [close] listener of a
      controller window hides the window the variable [controllerWindow]
      refers to when it runs, not the window being closed); [safeLog],
      [safeError], the
      replaced console methods and the process listeners around
      [consoleDisabled].  Theorems: the window variables refer to existing
      windows; a controller window is never destroyed, so it blocks quitting
      and one is left behind per show/close cycle; [safeLog] coincides with
      the replaced console method.
    - [Views]: the arithmetic of [SimpleTimeline] (click to time, time to
      pixels), the import of files by [AssetLibraryPanel], and [panel_step],
      the events of both views bound to the handlers of [App].  Theorems:
      the play-head lands 10 pixels right of a click; exactly the video
      files are imported, in order; ids of the same millisecond coincide;
      every state reached through the views is a state of [App] reached
      under its guard, so that the clip boxes never overlap on screen; the
      metadata callbacks of the imported files may fire in any order
      without a file being lost or imported twice.
    - [Equiv]: a check of the model, not a claim about the program.  A
      number is a rational here and a rational has many fractions; the file
      compares the states and events of [Timeline] with their numbers taken
      by value (an equivalence [≡] on [Media], [Clip], [AppState] and
      [AppEvent]) and gives [Proper] instances for every handler of [App],
      for the arithmetic of the strip and for the invariants, so that no
      theorem of [Timeline] depends on the fraction that stands for a
      number.
    - [Menu]: the menu template of electron.js item by item ([template]),
      the installed menu, and what picking an item ([menu_step]) or pressing
      its accelerator ([press]) does to the windows of [Shell].  Theorems:
      the menu keeps the windows reachable; New Project, Open Project and
      Export Video change nothing; a key combination reaches at most one
      item.
    - [Settle]: the delivery of the [stop] events of the recorders of
      [Capture].  A delivery runs [onstop], which may end another recorder
      and so add an event; [backlog] counts the events that wait, [pending]
      those that wait or can still come (one more per recorder that
      records), and [settle] delivers until none waits, by well-founded
      recursion on [pending].  The counts are bookkeeping of the browser's
      event queue and model no line of the sources.  Theorems: a delivery
      takes at least one from [pending] and at most one from [backlog];
      draining ends in a state where no [stop] event can be delivered, after
      between [backlog] and [pending] deliveries, with the stream of
      [streamRef] released; it hands over one recording per delivery, all
      with the same chunks.
    - [Lifecycle]: the capture state machine of the design ([Idle],
      [SourceSelected], [Recording], [Finalizing], abort from every phase
      but [Idle]) as a labelled transition relation [lifecycle] and as a
      function [lifecycle_step]; [machineOf] reads a state of [Capture] as
      a state of that machine and [labels] an event as its transitions.
      Theorems: every run of the recorder in which a recording is started
      only when none is being started or finalised, and no device is lost,
      is a run of the design, event by event ([orderly_run_refines]); a
      [stop] event that fires while the component shows a recording, and a
      start during finalising, are where the recorder leaves the design: the
      start is answered by an empty recording, and the [onstop] of the old
      recorder ends the new one ([restart_while_finalizing]).
    - [Wire]: the plain data that crosses between renderer and main process
      ([Value]), the reads the handlers make of it ([field],
      [destructure], [orDefault]), and a language of types ([Ty],
      [has_type]) with a decision procedure ([check]) proved sound and
      complete.
    - [Main]: the main process as one function: [bindParams] applies the
      parameter list of the listener registered on a channel to the
      arguments, [handle] runs its body by calling the handlers of [Probe],
      [Export], [Persistence] and [Shell] on the state [MainProcess] with
      the answers of the surroundings in [Env], [dispatch] is the two
      together and [call] puts the wrapper of [Bridge] in front.  Theorems:
      every reply has the result type of its channel and arguments of the
      parameter type reach the body; the three handlers with a parameter
      pattern reject a call without options before their body runs; the
      channels bound are exactly the ones [Bridge] lists; requests keep the
      windows reachable; clips and media survive the copy.
    - [System]: the components together: the timeline the views build,
      handed to [export-timeline], and the effect of [ScreenRecorder] on
      mount answered by [get-screen-sources] through wrapper, bridge and
      handler.  Theorems: media imported in the views have no path, so no
      such timeline can be exported, whatever object carries its clips to
      the handler (the sources have no caller of [export-timeline]; the
      theorem quantifies over the argument); when [desktopCapturer] fails
      the recorder stays without sources and nothing tells the user.
    - [Render]: what the components put on screen, as data: the props
      [VideoPreviewPanel] passes on, the children of [SimpleTimeline] with
      position, stacking level, [onClick] and key, and the browser's rule
      for the element a click lands on ([hit]).  Theorems: the preview is
      never told to play; a click on a clip seeks, since the click area lies
      over the clips; the play-head swallows the clicks on it; keys of clips
      added in one millisecond collide.
    - [Process]: the main process as a whole: the windows and handlers of
      [Main] together with the console of [Shell] and [isDev] as one state
      ([Process]) and one step function ([process_step]); [createWindowP]
      is [createWindow] with the line on the URL and the developer tools,
      [windowReady] the [ready-to-show] listener with its line and the
      exception it throws without a window, [invokeP] a request whose
      handler's lines go through the replaced console methods,
      [closeThrows] the exceptions of the [close] listeners that find
      [controllerWindow] [null].  Theorems: through any run the lines
      printed stay printed and once [consoleDisabled] is set the console is
      left alone for good ([process_run_later]); the windows stay in a
      reachable state of [Shell]; the console decides nothing but what is
      printed; on a console that works a request prints exactly the lines
      of its handler.

    ** Modelling conventions

    - A JavaScript number that holds a time or a length in pixels is a
      rational [Q]; arithmetic is exact, so IEEE-754 rounding, [NaN] and
      [Infinity] are not modelled.  That the model does not depend on the
      fraction chosen for a number is proved in [Equiv].  A field that may
      be [undefined] (or [NaN], which is falsy as well) is an [option].  Statements about times
      use [==] ([Qeq]).  Sizes and counts are [N] or [nat].
    - [Date.now()] is an integer number of milliseconds, a [Z], passed to the
      handler that reads it.
    - React state is passed explicitly.  A handler created by [useCallback]
      closes over the state of the render that created it and issues
      functional updates [setX(prev => ...)] that apply to the pending state;
      such a handler takes both (see [Timeline]).  A ref is a field that
      handlers read and write at once.
    - Objects the code holds by reference and does not define (animation
      frames, streams, recorders, intervals, object URLs, windows) are
      handles: natural numbers from a counter that starts at 1, with the
      observable part of each object in a finite map or set of the state.
      A ref or variable that is [null] is [None].
    - A call that may throw returns a [result]; a handler with state is a
      function to a [result] and the new state, so that writes made before a
      throw stay, as in JavaScript.
    - Asynchrony is explicit: the part of a handler before an [await] and the
      part after it are two steps with the request in flight in between, and
      what the browser or the engine does on its own is an event.  A promise
      settles once: [jobRun] of [Export] keeps the first settlement.
    - A value that crosses from one process to the other is a [Value] of
      [Wire]; the models of the handlers work on records, and [Main]
      converts between the two ([ofClip] and [toClip] and the like, with
      their round trips).  An object member that is absent and one that is
      [undefined] read alike, so both are the absence of the member.
    - What a library decides (the engine's events, the answer of a dialog,
      [JSON], [path.join], [path.basename], [eval], what a write to the
      console does) is an argument, a section variable or a class, and the
      theorems hold for every value of it; the worked runs at the end of each
      file instantiate them.

    ** Bounds

    Every function is structurally recursive on the list of events or of
    items it processes, so every run of a component is defined for event
    lists of any length; the one exception is [settle] of [Settle], defined
    by well-founded recursion on [pending], the number of [stop] events
    that wait or can still come, and therefore total.  [settleN] is the
    same function with fuel, and [settle_settleN] shows that [pending] is
    fuel enough.  The only bounded statement is
    [formatTime_clockFace] of [Capture], checked by computation for the
    recording times below 6000 seconds, the range in which the clock face
    has two digits of minutes; [formatTime_wide] shows the first time
    outside it.

    ** What is not modelled

    - The ffmpeg engine, the dialogs, [desktopCapturer], [JSON] and the
      [path] module: libraries the sources only call (see above).
    - What the menu items with a role (undo, copy, zoom and the like) do
      inside the focused page, the options of the windows, the URLs they
      load and the developer tools: that a page loads or fails to, and
      that the developer tools open or throw, are events of [Process].
    - Colours, fonts, heights and the flex layout of the components; of the
      rendering the bindings of events to handlers ([panel_step] of
      [Views]) and the horizontal position, stacking level and key of the
      children of the strip ([Render]) are modelled.
    - [components/VideoPreview], which App_simple.js imports and which is
      not among the sources; what [App] hands to it is modelled.
    - The text of [JSON.stringify] and the parser: [Json] is a class
      without laws, and the round trip of [Persistence] is stated for the
      projects whose text parses back to them.  The [File] object of a
      media item: it has no [Value], the handlers read no member of that
      name, and whether Electron delivers an argument that holds one is
      outside the model.
    - [handleMediaReorder] with an index past the end of the library
      splices [undefined] into it; [reorder] is undefined there
      ([reorder_None]), and [dispatch] is undefined on arguments that the
      body of a handler is not written for ([Untyped]).  Both are where
      the model stops, not answers of the program.
    - The values interpolated into a console line when they are objects
      or errors: such a line is its first argument.
    - Floating-point rounding of times.

    Every theorem is closed under the global context: the development
    assumes nothing. *)

From Stdlib Require Import QArith Qminmax Lqa ZArith List.
From stdpp Require Import base tactics option list strings sorting.

#[global] Open Scope Q_scope.

Create HintDb clipforge discriminated.

(** ** JavaScript truthiness and defaults *)

(** A number is falsy when it is [0] (or [NaN], which the model has not). *)
Definition truthyQ (q : Q) : bool := negb (Qeq_bool q 0).

(** [a || d] where [a] is a number or [undefined] and [d] a number. *)
Definition orNum (a : option Q) (d : Q) : Q :=
  match a with
  | Some q => if truthyQ q then q else d
  | None => d
  end.

(** A string is falsy when it is empty. *)
Definition truthyS (s : string) : bool := negb (String.eqb s "").

(** Whether a character occurs in a string. *)
Fixpoint occurs (a : Ascii.ascii) (s : string) : bool :=
  match s with
  | EmptyString => false
  | String c s' => Ascii.eqb c a || occurs a s'
  end.

(** [a || b] where both are strings or [undefined]. *)
Definition orStr (a b : option string) : option string :=
  match a with
  | Some s => if truthyS s then Some s else b
  | None => b
  end.

(** [Math.max(x, ...xs)]: the maximum of a non-empty argument list. *)
Definition Math_max (x : Q) (xs : list Q) : Q := fold_left Qmax xs x.

(** ** Running a handler over a sequence of events

    The run stops at the first event whose step is undefined. *)
Section RunO.
Context {S E : Type} (step : S -> E -> option S).

Fixpoint runO (evs : list E) (s : S) : option S :=
  match evs with
  | [] => Some s
  | e :: evs => match step s e with Some s' => runO evs s' | None => None end
  end.

Lemma runO_app evs1 evs2 s :
  runO (evs1 ++ evs2) s = match runO evs1 s with Some s' => runO evs2 s' | None => None end.
Proof.
  revert s. induction evs1 as [|e evs1 IH]; intros s; simpl; [done|].
  destruct (step s e); [apply IH|done].
Qed.

Lemma runO_invariant (I : S -> Prop) :
  (forall s e s', I s -> step s e = Some s' -> I s') ->
  forall evs s s', I s -> runO evs s = Some s' -> I s'.
Proof.
  intros Hstep evs. induction evs as [|e evs IH]; simpl; intros s s' Hs Hrun.
  - by injection Hrun as <-.
  - destruct (step s e) as [s1|] eqn:He; [|done]. eauto.
Qed.

End RunO.

(** ** Facts about [Math_max] *)

#[global] Instance Math_max_proper :
  Proper (Qeq ==> eq ==> Qeq) Math_max.
Proof.
  intros x y Hxy xs ? <-. revert x y Hxy.
  induction xs as [|z xs IH]; simpl; intros x y Hxy; [done|].
  apply IH. by rewrite Hxy.
Qed.

Lemma Math_max_cons x y xs : Math_max x (y :: xs) = Math_max (Qmax x y) xs.
Proof. reflexivity. Qed.

Lemma Math_max_ge_first x xs : x <= Math_max x xs.
Proof.
  revert x. induction xs as [|y xs IH]; intros x; simpl; [lra|].
  eapply Qle_trans; [apply (Q.le_max_l x y)|apply IH].
Qed.

(** [Math.max] is an upper bound of its arguments ... *)
Lemma Math_max_upper x xs y : In y (x :: xs) -> y <= Math_max x xs.
Proof.
  revert x. induction xs as [|z xs IH]; intros x [<-|Hin].
  - simpl. lra.
  - destruct Hin.
  - apply Math_max_ge_first.
  - rewrite Math_max_cons. destruct Hin as [<-|Hin].
    + eapply Qle_trans; [apply (Q.le_max_r x z)|apply Math_max_ge_first].
    + apply IH. by right.
Qed.

(** ... the least one ... *)
Lemma Math_max_lub x xs b :
  (forall y, In y (x :: xs) -> y <= b) -> Math_max x xs <= b.
Proof.
  revert x. induction xs as [|z xs IH]; intros x Hb; simpl.
  - apply Hb. by left.
  - apply IH. intros y [<-|Hin].
    + apply Q.max_lub; apply Hb; simpl; auto.
    + apply Hb. simpl; auto.
Qed.

(** ... and one of them. *)
Lemma Math_max_attained x xs : exists y, In y (x :: xs) /\ Math_max x xs == y.
Proof.
  revert x. induction xs as [|z xs IH]; intros x; simpl.
  - exists x. split; [by left|reflexivity].
  - destruct (IH (Qmax x z)) as (y & [<-|Hin] & Hy).
    + destruct (Q.max_spec x z) as [[_ Hm]|[_ Hm]].
      * exists z. split; [simpl; auto|]. by rewrite Hy.
      * exists x. split; [simpl; auto|]. by rewrite Hy.
    + exists y. split; [simpl; auto|done].
Qed.

#[export] Hint Resolve Math_max_ge_first Math_max_upper : clipforge.

(** ** Facts about truthiness *)

Lemma truthyQ_true q : truthyQ q = true <-> ~ q == 0.
Proof.
  unfold truthyQ. rewrite negb_true_iff, <- not_true_iff_false.
  by rewrite Qeq_bool_iff.
Qed.

Lemma truthyQ_false q : truthyQ q = false <-> q == 0.
Proof. unfold truthyQ. by rewrite negb_false_iff, Qeq_bool_iff. Qed.

Lemma truthyQ_pos q : 0 < q -> truthyQ q = true.
Proof. intros Hq. apply truthyQ_true. lra. Qed.

(** [a || d] is positive as soon as the default is and a defined [a] is not
    negative. *)
Lemma orNum_pos a d :
  0 < d -> (forall q, a = Some q -> 0 <= q) -> 0 < orNum a d.
Proof.
  intros Hd Ha. unfold orNum. destruct a as [q|]; [|done].
  destruct (truthyQ q) eqn:Hq; [|done].
  apply truthyQ_true in Hq. specialize (Ha q eq_refl). lra.
Qed.

Lemma orNum_truthy q d : truthyQ q = true -> orNum (Some q) d = q.
Proof. unfold orNum. by intros ->. Qed.

#[export] Hint Resolve truthyQ_pos orNum_pos : clipforge.

(** ** Deciding comparisons of rationals *)

#[global] Instance Qeq_decision : RelDecision Qeq := Qeq_dec.

#[global] Instance Qle_decision : RelDecision Qle.
Proof.
  intros x y. destruct (Qlt_le_dec y x) as [H|H]; [right|left]; [|done].
  by apply Qlt_not_le.
Defined.

#[global] Instance Qlt_decision : RelDecision Qlt.
Proof.
  intros x y. destruct (Qlt_le_dec x y) as [H|H]; [left|right]; [done|].
  by apply Qle_not_lt.
Defined.

(** ** Strongly sorted lists *)

Section Sorted.
Context {A : Type} (R : relation A).

Lemma StronglySorted_snoc l x :
  StronglySorted R (l ++ [x]) <-> StronglySorted R l /\ Forall (fun y => R y x) l.
Proof.
  rewrite StronglySorted_app, Forall_forall. split.
  - intros (H & Hl & _). split; [done|]. intros y Hy. apply H; [done|]. by left.
  - intros [Hl H]. split_and!; [|done|repeat constructor].
    intros y ? Hy ->%list_elem_of_singleton. by apply H.
Qed.

Lemma StronglySorted_filter (P : A -> Prop) `{!forall x, Decision (P x)} l :
  StronglySorted R l -> StronglySorted R (filter P l).
Proof.
  induction 1 as [|x l Hl IH Hx]; [constructor|].
  rewrite filter_cons. case_decide; [|done].
  constructor; [done|]. rewrite Forall_forall in *.
  intros y [_ Hy]%list_elem_of_filter. auto.
Qed.

(** Position in a strongly sorted list decides the order. *)
Lemma StronglySorted_lookup l i j x y :
  StronglySorted R l -> l !! i = Some x -> l !! j = Some y -> (i < j)%nat -> R x y.
Proof.
  intros Hl. revert i j. induction Hl as [|z l Hl IH Hz]; intros i j Hi Hj Hij.
  - done.
  - destruct j as [|j]; [lia|]. destruct i as [|i]; simpl in *.
    + injection Hi as ->. rewrite Forall_forall in Hz.
      apply Hz. by eapply list_elem_of_lookup_2.
    + apply (IH i j); [done..|lia].
Qed.

End Sorted.

(** ** Filtering *)

Section Filter.
Context {A B : Type}.

Lemma Forall_filter (P Q : A -> Prop) `{!forall x, Decision (P x)} l :
  Forall Q l -> Forall Q (filter P l).
Proof. rewrite !Forall_forall. intros HQ x [_ Hx]%list_elem_of_filter. auto. Qed.

Lemma filter_Forall_id (P : A -> Prop) `{!forall x, Decision (P x)} l :
  Forall P l -> filter P l = l.
Proof.
  induction 1 as [|x l Hx _ IH]; [done|]. by rewrite filter_cons_True, IH.
Qed.

Lemma filter_fmap (f : A -> B) (P : B -> Prop) `{!forall y, Decision (P y)} (l : list A) :
  filter P (f <$> l) = f <$> filter (fun x => P (f x)) l.
Proof.
  induction l as [|x l IH]; [done|]. csimpl. rewrite !filter_cons, IH.
  by destruct (decide (P (f x))).
Qed.

End Filter.

(** ** Reachable states of a component

    A component is given by its initial state, the events its environment
    can raise in a state ([enabled]: what the user interface offers, what
    the host can deliver) and its handler [step]. *)

Section Reach.
Context {S E : Type}.
Context (init : S) (enabled : S -> E -> Prop) (step : S -> E -> option S).

Inductive reachable : S -> Prop :=
| reach_init : reachable init
| reach_step s e s' :
    reachable s -> enabled s e -> step s e = Some s' -> reachable s'.

(** Rule induction, packaged: an invariant holds initially and every
    enabled step preserves it. *)
Lemma reachable_invariant (I : S -> Prop) :
  I init ->
  (forall s e s', I s -> enabled s e -> step s e = Some s' -> I s') ->
  forall s, reachable s -> I s.
Proof. intros Hi Hs s Hr. induction Hr; eauto. Qed.

End Reach.

(** Runs of enabled events: [runG] stops at the first event that is not
    enabled or whose step is undefined, so that a run it completes is a
    path of the transition system. *)
Section RunG.
Context {S E : Type}.
Context (enabled : S -> E -> Prop) `{!forall s e, Decision (enabled s e)}.
Context (step : S -> E -> option S).

Fixpoint runG (evs : list E) (s : S) : option S :=
  match evs with
  | [] => Some s
  | e :: evs => if decide (enabled s e) then step s e ≫= runG evs else None
  end.

Lemma runG_cons e evs s s1 :
  enabled s e -> step s e = Some s1 -> runG (e :: evs) s = runG evs s1.
Proof. intros He Hs. simpl. rewrite decide_True by done. by rewrite Hs. Qed.

Lemma runG_app evs1 evs2 s :
  runG (evs1 ++ evs2) s = runG evs1 s ≫= runG evs2.
Proof.
  revert s. induction evs1 as [|e evs1 IH]; intros s; simpl; [done|].
  case_decide; [|done]. destruct (step s e); simpl; [apply IH|done].
Qed.

Lemma runG_runO evs s s' : runG evs s = Some s' -> runO step evs s = Some s'.
Proof.
  revert s. induction evs as [|e evs IH]; intros s; simpl; [done|].
  case_decide; [|done]. destruct (step s e); simpl; [apply IH|done].
Qed.

(** A completed run leads from reachable states to reachable states. *)
Lemma runG_reachable init evs s s' :
  reachable init enabled step s -> runG evs s = Some s' ->
  reachable init enabled step s'.
Proof.
  revert s. induction evs as [|e evs IH]; intros s Hs; simpl.
  - by intros [= <-].
  - case_decide; [|done]. destruct (step s e) as [s1|] eqn:He; [|done]. simpl.
    apply IH. by eapply reach_step.
Qed.

End RunG.

(** ** Calls that can throw

    A JavaScript call either returns a value or throws; [result] is the sum
    of the two, with stdpp's monad notation ([x ← e; k]). *)

Inductive result (E A : Type) : Type :=
| Ok (a : A)
| Throw (e : E).
Arguments Ok {E A} a.
Arguments Throw {E A} e.

#[global] Instance result_ret {E} : MRet (result E) := fun A a => Ok a.

#[global] Instance result_bind {E} : MBind (result E) := fun A B f r =>
  match r with
  | Ok a => f a
  | Throw e => Throw e
  end.

#[global] Instance result_fmap {E} : FMap (result E) := fun A B f r =>
  match r with
  | Ok a => Ok (f a)
  | Throw e => Throw e
  end.

Definition is_Ok {E A} (r : result E A) : Prop := exists a, r = Ok a.
Definition is_Throw {E A} (r : result E A) : Prop := exists e, r = Throw e.

#[global] Instance is_Ok_dec {E A} (r : result E A) : Decision (is_Ok r).
Proof. destruct r; [left|right]; unfold is_Ok; [by eauto|by intros [? ?]]. Defined.

Lemma result_bind_Ok {E A B} (f : A -> result E B) r b :
  r ≫= f = Ok b <-> exists a, r = Ok a /\ f a = Ok b.
Proof.
  destruct r as [a|e]; simpl; split.
  - by eauto.
  - by intros (? & [= <-] & ?).
  - done.
  - by intros (? & ? & ?).
Qed.

Lemma result_fmap_Ok {E A B} (f : A -> B) (r : result E A) b :
  f <$> r = Ok b <-> exists a, r = Ok a /\ b = f a.
Proof.
  destruct r as [a|e]; simpl; split.
  - intros [= <-]. by eauto.
  - by intros (? & [= <-] & ->).
  - done.
  - by intros (? & ? & ?).
Qed.

Lemma result_bind_Throw {E A B} (f : A -> result E B) r e :
  r ≫= f = Throw e <-> r = Throw e \/ exists a, r = Ok a /\ f a = Throw e.
Proof.
  destruct r as [a|e']; simpl; split.
  - by eauto.
  - by intros [?|(? & [= <-] & ?)].
  - by intros [= ->]; left.
  - by intros [[= ->]|(? & ? & ?)].
Qed.

(** The error values the sources throw or receive. *)
Inductive JsError :=
| TypeError (msg : string)
| SyntaxError (msg : string)
| SystemError (code path : string)
| EngineError (msg : string)
| DOMException (name msg : string).

(** [error.message] *)
Definition message (e : JsError) : string :=
  match e with
  | TypeError msg | SyntaxError msg | EngineError msg | DOMException _ msg => msg
  | SystemError code path => code +:+ ": " +:+ path
  end.

#[global] Instance JsError_eq_dec : EqDecision JsError.
Proof. solve_decision. Defined.

#[global] Instance result_eq_dec {E A} `{EqDecision E, EqDecision A} :
  EqDecision (result E A).
Proof. solve_decision. Defined.

(** ** Handlers with state and exceptions

    A handler that reads and writes the state [S] of its component and may
    throw: [prog S E A] runs from a state to a result and the state it
    leaves.  A throw keeps the writes made before it, as in the sources;
    [tryCatch] is [try { m } catch (e) { h e }]. *)

Definition prog (S E A : Type) : Type := S -> result E A * S.

Section Prog.
Context {S E : Type}.

#[global] Instance prog_ret : MRet (prog S E) := fun A a s => (Ok a, s).

#[global] Instance prog_bind : MBind (prog S E) := fun A B k m s =>
  match m s with
  | (Ok a, s') => k a s'
  | (Throw e, s') => (Throw e, s')
  end.

Definition throw {A} (e : E) : prog S E A := fun s => (Throw e, s).

Definition tryCatch {A} (m : prog S E A) (h : E -> prog S E A) : prog S E A := fun s =>
  match m s with
  | (Ok a, s') => (Ok a, s')
  | (Throw e, s') => h e s'
  end.

Definition gets {A} (f : S -> A) : prog S E A := fun s => (Ok (f s), s).
Definition modify (f : S -> S) : prog S E unit := fun s => (Ok tt, f s).

(** [if (c) m] *)
Definition when (c : bool) (m : prog S E unit) : prog S E unit :=
  if c then m else mret tt.

(** [if (x) m(x)] for a reference [x] that is null or an object *)
Definition whenSome {A} (x : option A) (m : A -> prog S E unit) : prog S E unit :=
  match x with
  | Some a => m a
  | None => mret tt
  end.

(** The state a handler leaves. *)
Definition exec {A} (m : prog S E A) (s : S) : S := (m s).2.

Lemma prog_bind_ret_l {A B} (a : A) (k : A -> prog S E B) s : (mret a ≫= k) s = k a s.
Proof. reflexivity. Qed.

Lemma prog_bind_ret_r {A} (m : prog S E A) s : (m ≫= mret) s = m s.
Proof. unfold mbind, prog_bind. by destruct (m s) as [[a|e] s']. Qed.

Lemma prog_bind_assoc {A B C} (m : prog S E A) (k : A -> prog S E B) (h : B -> prog S E C) s :
  ((m ≫= k) ≫= h) s = (m ≫= fun a => k a ≫= h) s.
Proof. unfold mbind, prog_bind. by destruct (m s) as [[a|e] s']. Qed.

(** A handler wrapped in a [try] whose [catch] does not throw returns. *)
Lemma tryCatch_Ok {A} (m : prog S E A) (h : E -> prog S E A) s :
  (forall e s', is_Ok (h e s').1) -> is_Ok (tryCatch m h s).1.
Proof.
  intros Hh. unfold tryCatch. destruct (m s) as [[a|e] s']; [by eexists|apply Hh].
Qed.

End Prog.

Arguments throw {S E A} e.
