(* ===== verification/Timeline.v ===== *)
(** * Timeline: the asset library and the timeline of [App]

    Models the state of the [App] component of src/src/App_simple.js (the
    [useState] cells) and the handlers that change the asset library and the
    timeline.  The playback clock of the same component is in [Playback].

    - [Media] is a media object as the renderer builds it ([mediaItem] in
      [handleVideoImport]); [Clip] is the object literal [newClip] of
      [handleAddToTimeline]; [AppState] holds the seven [useState] cells.
    - Each handler is a function on [AppState].  [handleAddToTimeline] closes
      over [timelineClips] (its [useCallback] dependency), so it takes the
      clips of the render that created it ([snap]) beside the pending state
      its functional update applies to.  [app_step] runs one handler per
      render, the way React flushes discrete events; [handleAddToTimeline]
      with a stale [snap] models two calls from one render.

    Theorems: the timeline stays well formed and sorted (hence without
    overlap) under every handler; a clip is appended at the end of the last
    one; a sequence of appends is contiguous; deleting a media removes every
    clip that refers to it and nothing else; two appends from one render
    overlap. *)

From Stdlib Require Import QArith Qminmax Lqa ZArith List Sorting.Sorted.
From stdpp Require Import base tactics option list sets strings pretty.
From S2P Require Import Prelude.

(** ** Data model *)

(** A media object.  [handleVideoImport] sets [id], [name], [duration],
    [type], [size] and [url]; the recorder's file has no [id] and no
    [duration]; a file chosen through the main process has a [path]. *)
Record Media := mkMedia {
  media_id : option string;
  media_name : string;
  media_duration : option Q;
  media_type : string;
  media_size : N;
  media_url : option string;
  media_path : option string;
}.

(** A clip on the timeline; [clip_name] and [clip_path] are read by the view
    and by the export and are absent from the clips [App] creates. *)
Record Clip := mkClip {
  clip_id : string;
  clip_media : option Media;
  startTime : Q;
  clip_duration : Q;
  endTime : Q;
  track : nat;
  trimStart : Q;
  trimEnd : Q;
  clip_name : option string;
  clip_path : option string;
}.

(** The [useState] cells of [App]. *)
Record AppState := mkApp {
  importedVideo : option Media;
  importedMedia : list Media;
  timelineClips : list Clip;
  selectedClip : option Clip;
  showClipDetails : bool;
  currentTimelineTime : Q;
  isVideoPlaying : bool;
}.

Definition initialApp : AppState :=
  {| importedVideo := None; importedMedia := []; timelineClips := [];
     selectedClip := None; showClipDetails := false;
     currentTimelineTime := 0; isVideoPlaying := false |}.

(** The state setters, applied to an updater function. *)
Definition setImportedMedia (f : list Media -> list Media) (st : AppState) : AppState :=
  {| importedVideo := importedVideo st; importedMedia := f (importedMedia st);
     timelineClips := timelineClips st; selectedClip := selectedClip st;
     showClipDetails := showClipDetails st;
     currentTimelineTime := currentTimelineTime st;
     isVideoPlaying := isVideoPlaying st |}.

Definition setTimelineClips (f : list Clip -> list Clip) (st : AppState) : AppState :=
  {| importedVideo := importedVideo st; importedMedia := importedMedia st;
     timelineClips := f (timelineClips st); selectedClip := selectedClip st;
     showClipDetails := showClipDetails st;
     currentTimelineTime := currentTimelineTime st;
     isVideoPlaying := isVideoPlaying st |}.

Definition setCurrentTimelineTime (f : Q -> Q) (st : AppState) : AppState :=
  {| importedVideo := importedVideo st; importedMedia := importedMedia st;
     timelineClips := timelineClips st; selectedClip := selectedClip st;
     showClipDetails := showClipDetails st;
     currentTimelineTime := f (currentTimelineTime st);
     isVideoPlaying := isVideoPlaying st |}.

Definition setIsVideoPlaying (f : bool -> bool) (st : AppState) : AppState :=
  {| importedVideo := importedVideo st; importedMedia := importedMedia st;
     timelineClips := timelineClips st; selectedClip := selectedClip st;
     showClipDetails := showClipDetails st;
     currentTimelineTime := currentTimelineTime st;
     isVideoPlaying := f (isVideoPlaying st) |}.

(** ** Handlers *)

(** [clip.endTime || (clip.startTime + (clip.duration || 0))] *)
Definition clipEnd (c : Clip) : Q :=
  orNum (Some (endTime c)) (startTime c + orNum (Some (clip_duration c)) 0).

(** [timelineClips.length > 0 ? Math.max(...timelineClips.map(...)) : 0] *)
Definition lastClipEndTime (clips : list Clip) : Q :=
  match map clipEnd clips with
  | [] => 0
  | e :: es => Math_max e es
  end.

(** The object literal [newClip]. *)
Definition newClip (now : Z) (media : Media) (last : Q) : Clip :=
  {| clip_id := "clip-" +:+ pretty now;
     clip_media := Some media;
     startTime := last;
     clip_duration := orNum (media_duration media) 5;
     endTime := last + orNum (media_duration media) 5;
     track := 0;
     trimStart := 0;
     trimEnd := orNum (media_duration media) 5;
     clip_name := None;
     clip_path := None |}.

(** [handleAddToTimeline]: [snap] is the [timelineClips] the callback closed
    over, [st] the state the functional update applies to. *)
Definition handleAddToTimeline (snap : list Clip) (now : Z) (media : Media)
    (st : AppState) : AppState :=
  let st1 :=
    setTimelineClips
      (fun prev => prev ++ [newClip now media (lastClipEndTime snap)]) st in
  if Nat.eqb (length snap) 0 then setIsVideoPlaying (fun _ => true) st1 else st1.

Definition handleVideoImported (media : Media) (st : AppState) : AppState :=
  setImportedMedia (fun prev => prev ++ [media]) st.

(** [clip.media?.id] *)
Definition clipMediaId (c : Clip) : option string :=
  match clip_media c with
  | Some m => media_id m
  | None => None
  end.

Definition handleMediaDelete (mediaId : option string) (st : AppState) : AppState :=
  setTimelineClips (filter (fun c => clipMediaId c <> mediaId))
    (setImportedMedia (filter (fun m => media_id m <> mediaId)) st).

(** [handleMediaReorder]: two [splice] calls on a copy.  When [fromIndex] is
    past the end nothing is removed and [undefined] is inserted, which the
    typed list cannot hold: the updater is then undefined ([None]). *)
Definition reorder (fromIndex toIndex : nat) (prev : list Media) : option (list Media) :=
  match prev !! fromIndex with
  | Some removed =>
      let rest := take fromIndex prev ++ drop (S fromIndex) prev in
      Some (take toIndex rest ++ removed :: drop toIndex rest)
  | None => None
  end.

Definition handleMediaReorder (fromIndex toIndex : nat) (st : AppState) : option AppState :=
  match reorder fromIndex toIndex (importedMedia st) with
  | Some l => Some (setImportedMedia (fun _ => l) st)
  | None => None
  end.

Definition handleTimelinePlayPause (st : AppState) : AppState :=
  setIsVideoPlaying negb st.

Definition handleTimelineSeek (newTime : Q) (st : AppState) : AppState :=
  setCurrentTimelineTime (fun _ => newTime) st.

Definition handleVideoTimeUpdate (newTime : Q) (st : AppState) : AppState :=
  setCurrentTimelineTime (fun _ => newTime) st.

(** ** The component as a state machine *)

Inductive AppEvent :=
| AddToTimeline (now : Z) (media : Media)
| VideoImported (media : Media)
| MediaDelete (mediaId : option string)
| MediaReorder (fromIndex toIndex : nat)
| TimelinePlayPause
| TimelineSeek (newTime : Q)
| VideoTimeUpdate (newTime : Q).

(** One event per render: the handler's snapshot is the current state.  The
    step is [None] when the reorder's updater is undefined. *)
Definition app_step (st : AppState) (ev : AppEvent) : option AppState :=
  match ev with
  | AddToTimeline now media =>
      Some (handleAddToTimeline (timelineClips st) now media st)
  | VideoImported media => Some (handleVideoImported media st)
  | MediaDelete mediaId => Some (handleMediaDelete mediaId st)
  | MediaReorder i j => handleMediaReorder i j st
  | TimelinePlayPause => Some (handleTimelinePlayPause st)
  | TimelineSeek t => Some (handleTimelineSeek t st)
  | VideoTimeUpdate t => Some (handleVideoTimeUpdate t st)
  end.

(** What the user interface and the browser can raise: the "Add to Timeline"
    button belongs to an item of the asset library; a video element reports
    a duration that is not negative (or [NaN], here [None]). *)
Definition media_wf (m : Media) : Prop :=
  match media_duration m with
  | Some q => 0 <= q
  | None => True
  end.

Definition app_enabled (st : AppState) (ev : AppEvent) : Prop :=
  match ev with
  | AddToTimeline _ media => media ∈ importedMedia st
  | VideoImported media => media_wf media
  | _ => True
  end.

Definition app_reachable : AppState -> Prop :=
  reachable initialApp app_enabled app_step.

(** ** Well-formedness of the timeline *)

(** The clip invariants of the data model: the end is derived from start and
    duration, the trim window is not empty and spans the duration. *)
Definition clip_wf (c : Clip) : Prop :=
  0 <= startTime c /\ 0 < clip_duration c /\
  endTime c == startTime c + clip_duration c /\
  0 <= trimStart c /\ trimStart c < trimEnd c /\
  trimEnd c - trimStart c == clip_duration c.

(** [a] ends before [b] starts. *)
Definition before (a b : Clip) : Prop := endTime a <= startTime b.

(** Two clips share a stretch of time. *)
Definition overlap (a b : Clip) : Prop :=
  startTime a < endTime b /\ startTime b < endTime a.

(** A track: every clip well formed, and each ends before the later ones
    start. *)
Definition timeline_ok (clips : list Clip) : Prop :=
  Forall clip_wf clips /\ StronglySorted before clips.

Definition app_ok (st : AppState) : Prop :=
  Forall media_wf (importedMedia st) /\ timeline_ok (timelineClips st).

#[global] Instance media_wf_dec m : Decision (media_wf m).
Proof. unfold media_wf. destruct (media_duration m); apply _. Defined.

(** Media objects are compared field by field; rationals as fractions, not
    as numbers. *)
#[global] Instance Q_eq_dec : EqDecision Q.
Proof. solve_decision. Defined.

#[global] Instance Media_eq_dec : EqDecision Media.
Proof. solve_decision. Defined.

#[global] Instance app_enabled_dec st ev : Decision (app_enabled st ev).
Proof. unfold app_enabled. destruct ev; apply _. Defined.

#[global] Instance clip_wf_dec c : Decision (clip_wf c).
Proof. unfold clip_wf. apply _. Defined.

#[global] Instance before_dec : RelDecision before.
Proof. intros a b. unfold before. apply _. Defined.

#[global] Instance overlap_dec : RelDecision overlap.
Proof. intros a b. unfold overlap. apply _. Defined.

#[global] Instance timeline_ok_dec clips : Decision (timeline_ok clips).
Proof. unfold timeline_ok. apply _. Defined.

(** The clips appear one after the other from time [t] on, without gap. *)
Fixpoint contiguous_from (t : Q) (clips : list Clip) : Prop :=
  match clips with
  | [] => True
  | c :: cs => startTime c == t /\ contiguous_from (endTime c) cs
  end.

(** ** The end of the last clip *)

Lemma clip_wf_end_pos c : clip_wf c -> 0 < endTime c.
Proof. unfold clip_wf. intros (? & ? & ? & _). lra. Qed.

Lemma clip_wf_start_le_end c : clip_wf c -> startTime c <= endTime c.
Proof. unfold clip_wf. intros (? & ? & ? & _). lra. Qed.

(** On a well-formed clip [clip.endTime] is truthy: the fallback of
    [clipEnd] is not taken. *)
Lemma clipEnd_wf c : clip_wf c -> clipEnd c = endTime c.
Proof.
  intros Hc. unfold clipEnd. apply orNum_truthy, truthyQ_pos.
  by apply clip_wf_end_pos.
Qed.

(** A clip whose [endTime] is [0] falls back to start plus duration. *)
Lemma clipEnd_fallback c :
  endTime c == 0 ->
  clipEnd c = startTime c + orNum (Some (clip_duration c)) 0.
Proof. intros H. unfold clipEnd, orNum at 1. by apply truthyQ_false in H as ->. Qed.

Lemma lastClipEndTime_nil : lastClipEndTime [] = 0.
Proof. reflexivity. Qed.

Lemma lastClipEndTime_cons c cs :
  lastClipEndTime (c :: cs) = Math_max (clipEnd c) (map clipEnd cs).
Proof. reflexivity. Qed.

(** [lastClipEndTime] bounds the end of every clip ... *)
Lemma lastClipEndTime_upper clips c :
  c ∈ clips -> clipEnd c <= lastClipEndTime clips.
Proof.
  destruct clips as [|c0 cs]; [by intros ?%elem_of_nil|].
  intros Hc. rewrite lastClipEndTime_cons. apply Math_max_upper.
  change (In (clipEnd c) (map clipEnd (c0 :: cs))).
  apply in_map. by apply list_elem_of_In.
Qed.

(** ... and is the end of one of them. *)
Lemma lastClipEndTime_attained clips :
  clips <> [] -> exists c, c ∈ clips /\ lastClipEndTime clips == clipEnd c.
Proof.
  destruct clips as [|c0 cs]; [done|]. intros _. rewrite lastClipEndTime_cons.
  destruct (Math_max_attained (clipEnd c0) (map clipEnd cs)) as (y & Hin & Hy).
  change (In y (map clipEnd (c0 :: cs))) in Hin.
  apply in_map_iff in Hin as (c & <- & Hc%list_elem_of_In). eauto.
Qed.

Lemma lastClipEndTime_nonneg clips :
  Forall clip_wf clips -> 0 <= lastClipEndTime clips.
Proof.
  intros Hwf. destruct (decide (clips = [])) as [->|Hne]; [done|].
  destruct (lastClipEndTime_attained clips Hne) as (c & Hc & ->).
  rewrite Forall_forall in Hwf. rewrite clipEnd_wf by auto.
  apply Qlt_le_weak, clip_wf_end_pos. auto.
Qed.

(** Every clip of a well-formed timeline ends before [lastClipEndTime]. *)
Lemma lastClipEndTime_bounds clips :
  Forall clip_wf clips ->
  Forall (fun c => endTime c <= lastClipEndTime clips) clips.
Proof.
  intros Hwf. rewrite Forall_forall in *. intros c Hc.
  rewrite <- (clipEnd_wf c) by auto. by apply lastClipEndTime_upper.
Qed.

(** On a sorted track the maximum is the end of the last clip. *)
Lemma lastClipEndTime_last clips c :
  timeline_ok clips -> last clips = Some c -> lastClipEndTime clips == endTime c.
Proof.
  intros [Hwf Hs] Hlast.
  apply last_Some in Hlast as [l ->].
  apply StronglySorted_snoc in Hs as [_ Hb].
  rewrite Forall_forall in Hwf, Hb.
  assert (Hc : clip_wf c) by (apply Hwf; set_solver).
  apply Qle_antisym.
  - destruct (lastClipEndTime_attained (l ++ [c])) as (c' & Hc' & ->).
    { by destruct l. }
    rewrite clipEnd_wf by auto.
    apply elem_of_app in Hc' as [Hc'|Hc']; [|apply list_elem_of_singleton in Hc' as ->; lra].
    specialize (Hb c' Hc'). unfold before in Hb.
    pose proof (clip_wf_start_le_end c Hc). lra.
  - rewrite <- (clipEnd_wf c) by done. apply lastClipEndTime_upper. set_solver.
Qed.

(** ** [handleAddToTimeline] *)

Lemma newClip_wf now media t : media_wf media -> 0 <= t -> clip_wf (newClip now media t).
Proof.
  intros Hm Ht. unfold clip_wf; simpl.
  assert (0 < orNum (media_duration media) 5).
  { apply orNum_pos; [lra|]. unfold media_wf in Hm. intros q Hq. by rewrite Hq in Hm. }
  repeat split; lra.
Qed.

Lemma handleAddToTimeline_clips snap now media st :
  timelineClips (handleAddToTimeline snap now media st)
  = timelineClips st ++ [newClip now media (lastClipEndTime snap)].
Proof. unfold handleAddToTimeline. by destruct (Nat.eqb _ _). Qed.

Lemma handleAddToTimeline_media snap now media st :
  importedMedia (handleAddToTimeline snap now media st) = importedMedia st.
Proof. unfold handleAddToTimeline. by destruct (Nat.eqb _ _). Qed.

(** A well-formed clip that starts where every present clip has ended may
    be appended. *)
Lemma timeline_ok_snoc clips c :
  timeline_ok clips -> clip_wf c ->
  Forall (fun c' => endTime c' <= startTime c) clips ->
  timeline_ok (clips ++ [c]).
Proof.
  intros [Hwf Hs] Hc Hb. split.
  - apply Forall_app. split; [done|]. by constructor.
  - by apply StronglySorted_snoc.
Qed.

(** Sequential append placement keeps the track well formed: after
    [handleAddToTimeline] run from the current render, every clip is well
    formed and each clip ends before the later ones start. *)
Lemma handleAddToTimeline_ok now media st :
  timeline_ok (timelineClips st) -> media_wf media ->
  timeline_ok (timelineClips (handleAddToTimeline (timelineClips st) now media st)).
Proof.
  intros Hok Hm. rewrite handleAddToTimeline_clips.
  apply timeline_ok_snoc; [done| |].
  - apply newClip_wf; [done|]. apply lastClipEndTime_nonneg, Hok.
  - apply lastClipEndTime_bounds, Hok.
Qed.

(** C9. The appended clip starts exactly where the last clip of the track
    ends, and lasts for the media's duration (5 seconds when the media has
    none). *)
Theorem handleAddToTimeline_placement now media st prev c :
  timeline_ok (timelineClips st) ->
  last (timelineClips st) = Some prev ->
  last (timelineClips (handleAddToTimeline (timelineClips st) now media st)) = Some c ->
  startTime c == endTime prev /\
  endTime c - startTime c == orNum (media_duration media) 5.
Proof.
  intros Hok Hprev. rewrite handleAddToTimeline_clips, last_snoc.
  intros [= <-]; simpl. rewrite (lastClipEndTime_last _ prev) by done.
  split; [reflexivity|ring].
Qed.

(** On an empty track the clip is placed at time [0] and playback starts. *)
Lemma handleAddToTimeline_first now media st :
  timelineClips st = [] ->
  timelineClips (handleAddToTimeline [] now media st) = [newClip now media 0] /\
  isVideoPlaying (handleAddToTimeline [] now media st) = true.
Proof. intros H. unfold handleAddToTimeline; simpl. by rewrite H. Qed.

(** ** A worked scenario: two imports, two appends *)

Definition assetA : Media :=
  {| media_id := Some "media-1000"; media_name := "a.mp4";
     media_duration := Some 5; media_type := "video/mp4"; media_size := 1024;
     media_url := Some "blob:a"; media_path := None |}.

Definition assetB : Media :=
  {| media_id := Some "media-2000"; media_name := "b.mp4";
     media_duration := Some 3; media_type := "video/mp4"; media_size := 2048;
     media_url := Some "blob:b"; media_path := None |}.

(** The state after importing both assets and appending [assetA]. *)
Definition stateA : AppState :=
  handleAddToTimeline [] 3000 assetA
    (handleVideoImported assetB (handleVideoImported assetA initialApp)).

Definition stateAB : AppState :=
  handleAddToTimeline (timelineClips stateA) 4000 assetB stateA.

Lemma stateA_ok : timeline_ok (timelineClips stateA).
Proof. by apply (bool_decide_unpack _). Qed.

Lemma handleAddToTimeline_placement_witness :
  startTime (newClip 4000 assetB 5) == endTime (newClip 3000 assetA 0) /\
  endTime (newClip 4000 assetB 5) - startTime (newClip 4000 assetB 5)
    == orNum (media_duration assetB) 5.
Proof.
  apply (handleAddToTimeline_placement 4000 assetB stateA
           (newClip 3000 assetA 0) (newClip 4000 assetB 5)).
  - by apply (bool_decide_unpack _).
  - reflexivity.
  - reflexivity.
Defined.

(** ** No overlap *)

Lemma before_no_overlap a b : before a b -> ~ overlap a b.
Proof. unfold before, overlap. lra. Qed.

(** On a well-formed track no two clips at different positions share a
    stretch of time. *)
Lemma timeline_ok_no_overlap clips i j a b :
  timeline_ok clips -> clips !! i = Some a -> clips !! j = Some b ->
  i <> j -> ~ overlap a b.
Proof.
  intros [_ Hs] Hi Hj Hij.
  destruct (Nat.lt_total i j) as [Hlt|[->|Hlt]]; [|done|].
  - apply before_no_overlap. by apply (StronglySorted_lookup before clips i j).
  - intros [H1 H2]. eapply before_no_overlap; [|split; [exact H2|exact H1]].
    by apply (StronglySorted_lookup before clips j i).
Qed.

(** ** Two appends from one render

    [handleAddToTimeline] reads [timelineClips] from its closure.  When it
    is called twice before React renders again, both calls see the same
    clips and compute the same start. *)

(** C37. Two appends issued from the same render place both clips at the same
    start: they overlap, and the track is no longer well formed. *)
Theorem handleAddToTimeline_stale_overlap now1 now2 m1 m2 st :
  media_wf m1 -> media_wf m2 ->
  let snap := timelineClips st in
  let st2 := handleAddToTimeline snap now2 m2 (handleAddToTimeline snap now1 m1 st) in
  exists c1 c2,
    timelineClips st2 = timelineClips st ++ [c1; c2] /\
    startTime c1 = startTime c2 /\ overlap c1 c2 /\ ~ timeline_ok (timelineClips st2).
Proof.
  intros Hm1 Hm2 snap st2. subst st2 snap.
  set (t := lastClipEndTime (timelineClips st)).
  exists (newClip now1 m1 t), (newClip now2 m2 t).
  assert (Hov : overlap (newClip now1 m1 t) (newClip now2 m2 t)).
  { unfold overlap; simpl.
    assert (0 < orNum (media_duration m1) 5 /\ 0 < orNum (media_duration m2) 5) as [??].
    { unfold media_wf in *. split; apply orNum_pos; try lra; intros q Hq.
      - by rewrite Hq in Hm1.
      - by rewrite Hq in Hm2. }
    lra. }
  rewrite !handleAddToTimeline_clips, <- app_assoc. split_and!; [done..|].
  intros Hok. revert Hov.
  apply (timeline_ok_no_overlap _ (length (timelineClips st)) (S (length (timelineClips st))) _ _ Hok).
  - by rewrite lookup_app_r, Nat.sub_diag by lia.
  - rewrite lookup_app_r by lia. by replace (_ - _)%nat with 1%nat by lia.
  - lia.
Qed.

Lemma handleAddToTimeline_stale_overlap_witness :
  exists c1 c2,
    timelineClips (handleAddToTimeline [] 4000 assetB (handleAddToTimeline [] 3000 assetA initialApp))
      = [] ++ [c1; c2] /\
    startTime c1 = startTime c2 /\ overlap c1 c2 /\
    ~ timeline_ok (timelineClips (handleAddToTimeline [] 4000 assetB (handleAddToTimeline [] 3000 assetA initialApp))).
Proof.
  apply (handleAddToTimeline_stale_overlap 3000 4000 assetA assetB initialApp).
  - by apply (bool_decide_unpack _).
  - by apply (bool_decide_unpack _).
Defined.

(** ** Sequences of appends *)

(** The end of a chain of clips that starts at [t]: the end of its last
    clip, [t] when it is empty. *)
Definition chainEnd (t : Q) (clips : list Clip) : Q :=
  match last clips with
  | Some c => endTime c
  | None => t
  end.

(** The end of the track. *)
Definition trackEnd (clips : list Clip) : Q := chainEnd 0 clips.

(** One "Add to Timeline" click per render, for each media in turn. *)
Definition appendAll (adds : list (Z * Media)) (st : AppState) : AppState :=
  fold_left (fun st a => handleAddToTimeline (timelineClips st) a.1 a.2 st) adds st.

Lemma lastClipEndTime_trackEnd clips :
  timeline_ok clips -> lastClipEndTime clips == trackEnd clips.
Proof.
  intros Hok. unfold trackEnd, chainEnd. destruct (last clips) as [c|] eqn:Hl.
  - by apply lastClipEndTime_last.
  - by apply last_None in Hl as ->.
Qed.

Lemma contiguous_from_proper t t' clips :
  t == t' -> contiguous_from t clips -> contiguous_from t' clips.
Proof. destruct clips; simpl; [done|]. intros Ht [Hs Hc]. split; [lra|done]. Qed.

Lemma chainEnd_cons t c cs : chainEnd t (c :: cs) = chainEnd (endTime c) cs.
Proof.
  unfold chainEnd. destruct cs as [|c1 cs]; [done|].
  change (last (c :: c1 :: cs)) with (last (c1 :: cs)).
  destruct (last (c1 :: cs)) eqn:E; [done|]. by apply last_None in E.
Qed.

Lemma contiguous_from_snoc t clips c :
  contiguous_from t clips -> startTime c == chainEnd t clips ->
  contiguous_from t (clips ++ [c]).
Proof.
  revert t. induction clips as [|c0 cs IH]; simpl; intros t Hc Hs; [by split|].
  destruct Hc as [H0 Hc]. split; [done|]. apply IH; [done|].
  by rewrite <- (chainEnd_cons t).
Qed.

Lemma appendAll_snoc adds now media st :
  appendAll (adds ++ [(now, media)]) st
  = handleAddToTimeline (timelineClips (appendAll adds st)) now media (appendAll adds st).
Proof. unfold appendAll. by rewrite fold_left_app. Qed.

(** C21. Any sequence of appends to an empty track, one per render, gives a
    track that is well formed and contiguous from time [0]: each clip starts
    where the previous one ends, and there is one clip per append. *)
Theorem appendAll_contiguous adds :
  Forall (fun a => media_wf a.2) adds ->
  timeline_ok (timelineClips (appendAll adds initialApp)) /\
  contiguous_from 0 (timelineClips (appendAll adds initialApp)) /\
  length (timelineClips (appendAll adds initialApp)) = length adds.
Proof.
  induction adds as [|[now media] adds IH] using rev_ind; intros Hwf.
  - split_and!; [|done..]. split; constructor.
  - apply Forall_app in Hwf as [Hadds Hm]. rewrite Forall_singleton in Hm.
    destruct (IH Hadds) as (Hok & Hc & Hlen).
    rewrite appendAll_snoc. split_and!.
    + by apply handleAddToTimeline_ok.
    + rewrite handleAddToTimeline_clips.
      apply contiguous_from_snoc; [done|]. simpl.
      by rewrite lastClipEndTime_trackEnd.
    + rewrite handleAddToTimeline_clips, !length_app, Hlen. simpl. lia.
Qed.

Lemma appendAll_contiguous_witness :
  timeline_ok (timelineClips (appendAll [(3000%Z, assetA); (4000%Z, assetB)] initialApp)) /\
  contiguous_from 0 (timelineClips (appendAll [(3000%Z, assetA); (4000%Z, assetB)] initialApp)) /\
  length (timelineClips (appendAll [(3000%Z, assetA); (4000%Z, assetB)] initialApp)) = 2%nat.
Proof.
  apply (appendAll_contiguous [(3000%Z, assetA); (4000%Z, assetB)]).
  by apply (bool_decide_unpack _).
Defined.

(** ** [handleMediaDelete] *)

Lemma handleMediaDelete_clips mediaId st :
  timelineClips (handleMediaDelete mediaId st)
  = filter (fun c => clipMediaId c <> mediaId) (timelineClips st).
Proof. reflexivity. Qed.

Lemma handleMediaDelete_media mediaId st :
  importedMedia (handleMediaDelete mediaId st)
  = filter (fun m => media_id m <> mediaId) (importedMedia st).
Proof. reflexivity. Qed.

(** C14. Deleting a media cascades: afterwards the library holds exactly the
    media with another id and the timeline exactly the clips that refer to
    another media, both in their former order. *)
Theorem handleMediaDelete_cascade mediaId st :
  (forall m, m ∈ importedMedia (handleMediaDelete mediaId st)
             <-> m ∈ importedMedia st /\ media_id m <> mediaId) /\
  (forall c, c ∈ timelineClips (handleMediaDelete mediaId st)
             <-> c ∈ timelineClips st /\ clipMediaId c <> mediaId) /\
  sublist (importedMedia (handleMediaDelete mediaId st)) (importedMedia st) /\
  sublist (timelineClips (handleMediaDelete mediaId st)) (timelineClips st).
Proof.
  rewrite handleMediaDelete_clips, handleMediaDelete_media. split_and!.
  - intros m. rewrite list_elem_of_filter. tauto.
  - intros c. rewrite list_elem_of_filter. tauto.
  - apply sublist_filter.
  - apply sublist_filter.
Qed.

Lemma timeline_ok_filter (P : Clip -> Prop) `{!forall c, Decision (P c)} clips :
  timeline_ok clips -> timeline_ok (filter P clips).
Proof.
  intros [Hwf Hs]. split; [|by apply StronglySorted_filter].
  rewrite Forall_forall in *. intros c [_ Hc]%list_elem_of_filter. auto.
Qed.

(** Deleting a media keeps the track well formed: the clips that remain
    keep their times, so gaps may appear but no overlap can. *)
Lemma handleMediaDelete_ok mediaId st :
  app_ok st -> app_ok (handleMediaDelete mediaId st).
Proof.
  intros [Hm Hc]. split.
  - rewrite handleMediaDelete_media, Forall_forall in *.
    intros m [_ Hin]%list_elem_of_filter. auto.
  - rewrite handleMediaDelete_clips. by apply timeline_ok_filter.
Qed.

Lemma stateAB_ok : app_ok stateAB.
Proof. split; by apply (bool_decide_unpack _). Qed.

(** Deleting the first asset of the scenario leaves the second clip alone at
    [5, 8): the track now starts with a gap. *)
Example handleMediaDelete_gap :
  map (fun c => (startTime c, endTime c))
      (timelineClips (handleMediaDelete (Some "media-1000") stateAB))
  = [(5, 5 + 3)].
Proof. reflexivity. Qed.

(** ** [handleMediaReorder] *)

Lemma reorder_Some i j l x :
  l !! i = Some x ->
  reorder i j l
  = Some (take j (take i l ++ drop (S i) l) ++ x :: drop j (take i l ++ drop (S i) l)).
Proof. intros H. unfold reorder. by rewrite H. Qed.

(** Past the end of the array the first [splice] removes nothing and the
    second inserts [undefined]: no list of media results. *)
Lemma reorder_None i j l : (length l <= i)%nat -> reorder i j l = None.
Proof.
  intros H. unfold reorder. by rewrite lookup_ge_None_2.
Qed.

Lemma reorder_is_Some i j l : is_Some (reorder i j l) <-> (i < length l)%nat.
Proof.
  rewrite <- lookup_lt_is_Some. unfold reorder.
  destruct (l !! i); split; intros [? ?]; by eauto.
Qed.

Lemma reorder_rest_perm i (l : list Media) x :
  l !! i = Some x -> x :: (take i l ++ drop (S i) l) ≡ₚ l.
Proof. intros H. rewrite Permutation_middle. by rewrite take_drop_middle. Qed.

Lemma reorder_perm i j l l' : reorder i j l = Some l' -> l' ≡ₚ l.
Proof.
  unfold reorder. destruct (l !! i) as [x|] eqn:Hi; [|done]. intros [= <-].
  rewrite <- Permutation_middle, take_drop. by apply reorder_rest_perm.
Qed.

(** A reorder moves one media and loses none: the new library is a
    permutation of the old one, and the media that was at [fromIndex] is at
    [toIndex] (at the end when [toIndex] is past it). *)
Theorem reorder_spec i j l l' :
  reorder i j l = Some l' ->
  l' ≡ₚ l /\ l' !! (j `min` (length l - 1)) = l !! i.
Proof.
  intros Hr. split; [by eapply reorder_perm|]. revert Hr. unfold reorder.
  destruct (l !! i) as [x|] eqn:Hi; [|done]. intros [= <-].
  set (rest := take i l ++ drop (S i) l).
  assert (Hlen : length rest = (length l - 1)%nat).
  { pose proof (Permutation_length (reorder_rest_perm i l x Hi)) as H.
    simpl in H. fold rest in H. lia. }
  destruct (Nat.min_spec j (length l - 1)) as [[Hlt ->]|[Hge ->]].
  - rewrite lookup_app_r; rewrite length_take; [|lia].
    by replace (j - j `min` length rest)%nat with 0%nat by lia.
  - rewrite take_ge, drop_ge by lia. rewrite lookup_app_r by lia.
    by replace (length l - 1 - length rest)%nat with 0%nat by lia.
Qed.

Lemma reorder_spec_witness :
  [assetB; assetA] ≡ₚ [assetA; assetB] /\
  [assetB; assetA] !! (1 `min` (length [assetA; assetB] - 1)) = [assetA; assetB] !! 0%nat.
Proof. apply (reorder_spec 0 1 [assetA; assetB] [assetB; assetA]). reflexivity. Defined.

Lemma handleMediaReorder_clips i j st st' :
  handleMediaReorder i j st = Some st' -> timelineClips st' = timelineClips st.
Proof.
  unfold handleMediaReorder. destruct (reorder _ _ _); [|done]. by intros [= <-].
Qed.

Lemma handleMediaReorder_media i j st st' :
  handleMediaReorder i j st = Some st' -> importedMedia st' ≡ₚ importedMedia st.
Proof.
  unfold handleMediaReorder. destruct (reorder _ _ _) as [l|] eqn:Hr; [|done].
  intros [= <-]. simpl. by eapply reorder_perm.
Qed.

(** ** Every reachable state is well formed *)

Lemma app_step_ok st ev st' :
  app_ok st -> app_enabled st ev -> app_step st ev = Some st' -> app_ok st'.
Proof.
  intros [Hm Hc] Hen Hstep. destruct ev; simpl in *; simplify_eq.
  - split.
    + by rewrite handleAddToTimeline_media.
    + apply handleAddToTimeline_ok; [done|].
      rewrite Forall_forall in Hm. auto.
  - split; [|done]. simpl. apply Forall_app. split; [done|]. by constructor.
  - by apply handleMediaDelete_ok.
  - split.
    + by rewrite (handleMediaReorder_media _ _ _ _ Hstep).
    + by rewrite (handleMediaReorder_clips _ _ _ _ Hstep).
  - done.
  - done.
  - done.
Qed.

Lemma app_reachable_ok st : app_reachable st -> app_ok st.
Proof.
  apply reachable_invariant.
  - split; [constructor|split; constructor].
  - intros. by eapply app_step_ok.
Qed.

(** C1. In every state the application reaches through its user interface,
    one event per render, no two clips of the timeline overlap in time. *)
Theorem app_reachable_no_overlap st i j a b :
  app_reachable st ->
  timelineClips st !! i = Some a -> timelineClips st !! j = Some b ->
  i <> j -> ~ overlap a b.
Proof.
  intros [_ Hok]%app_reachable_ok. by apply timeline_ok_no_overlap.
Qed.

(** The scenario is a run of the machine. *)
Definition state0 : AppState :=
  handleVideoImported assetB (handleVideoImported assetA initialApp).

Lemma state0_reachable : app_reachable state0.
Proof.
  apply (reach_step _ _ _ (handleVideoImported assetA initialApp) (VideoImported assetB));
    [|by apply (bool_decide_unpack _)|reflexivity].
  apply (reach_step _ _ _ initialApp (VideoImported assetA));
    [apply reach_init|by apply (bool_decide_unpack _)|reflexivity].
Qed.

Lemma stateAB_reachable : app_reachable stateAB.
Proof.
  apply (reach_step _ _ _ stateA (AddToTimeline 4000 assetB));
    [|simpl; set_solver|reflexivity].
  apply (reach_step _ _ _ state0 (AddToTimeline 3000 assetA));
    [apply state0_reachable|simpl; set_solver|reflexivity].
Qed.

Lemma app_reachable_no_overlap_witness :
  ~ overlap (newClip 3000 assetA 0) (newClip 4000 assetB 5).
Proof.
  apply (app_reachable_no_overlap stateAB 0 1).
  - exact stateAB_reachable.
  - reflexivity.
  - reflexivity.
  - lia.
Defined.

(** ** Clip identifiers *)

(** The identifier of a clip is a function of the millisecond in which
    it was created and of nothing else: two clips created in the same
    millisecond share their identifier, and only those do. *)
Theorem newClip_id_eq now1 now2 m1 m2 t1 t2 :
  clip_id (newClip now1 m1 t1) = clip_id (newClip now2 m2 t2) <-> now1 = now2.
Proof.
  simpl. split; [|by intros ->].
  intros H. apply (inj (String.append "clip-")) in H. by apply (inj pretty).
Qed.

(** ** The scenario of the specification

    Track empty; add asset A (5 s): clip at [0, 5).  Add asset B (3 s): clip
    at [5, 8). *)
Example scenario_two_appends :
  map (fun c => (startTime c, endTime c, clip_duration c)) (timelineClips stateAB)
  = [(0, 0 + 5, 5); (5, 5 + 3, 3)].
Proof. reflexivity. Qed.

Example scenario_autoplay :
  isVideoPlaying stateA = true /\ isVideoPlaying stateAB = true.
Proof. split; reflexivity. Qed.
