(* ===== verification/Model.v ===== *)
(** * Model: the design's registry and timeline, and [App] as an implementation

    The design describes a MediaAsset Registry and a Timeline Model with
    validated operations: [register], [remove] with its cascade, and
    [addClip] with sequential append placement, each either keeping every
    invariant or rejecting the request.  This file states that design as a
    small machine ([Design], [design_step]), proves that it keeps its
    invariants ([design_ok]), and shows that the handlers of [App]
    ([Timeline.app_step]) implement it: [abs] reads a state of [App] as a
    state of the design, and every step of [App] is the step of the design
    on the states read, which never rejects.

    The refinement needs what the design takes for granted and [App] does not
    enforce: that the ids of the library are distinct.  [fresh] is that
    condition on an import; [Views.same_millisecond_twins] shows how [App]
    can violate it.

    - A media without duration counts as [assetDuration] seconds long, the
      length [handleAddToTimeline] gives its clips.
    - Reordering the library, play, pause and seek are not operations of the
      design: [abs_event] maps them to no event, and they leave [abs]
      unchanged. *)

From Stdlib Require Import QArith Qminmax Lqa ZArith List.
From stdpp Require Import base tactics option list strings gmap sorting.
From S2P Require Import Prelude Timeline.

(** ** The design *)

Abbreviation AssetId := (option string).

Inductive ModelError :=
| NotFound
| DuplicateImportError
| InvalidClipError
| OverlapError.

#[global] Instance ModelError_eq_dec : EqDecision ModelError.
Proof. solve_decision. Defined.

(** A clip of the design: a reference to its asset, its track, and its
    times. *)
Record Placement := mkPlacement {
  mediaAssetId : AssetId;
  p_track : nat;
  p_start : Q;
  p_duration : Q;
  p_end : Q;
  p_trimStart : Q;
  p_trimEnd : Q;
}.

(** The registry maps an id to the duration of its asset; the timeline
    holds the clips of all tracks in the order they were added. *)
Record Design := mkDesign {
  registry : gmap AssetId Q;
  timeline : list Placement;
}.

Definition emptyDesign : Design := {| registry := ∅; timeline := [] |}.

(** The invariants of a clip. *)
Definition placement_wf (p : Placement) : Prop :=
  0 <= p_start p /\ 0 < p_duration p /\
  p_end p == p_start p + p_duration p /\
  0 <= p_trimStart p /\ p_trimStart p < p_trimEnd p /\
  p_trimEnd p - p_trimStart p == p_duration p.

Definition overlaps (p q : Placement) : Prop :=
  p_start p < p_end q /\ p_start q < p_end p.

(** [p] can be placed beside the clips of its track. *)
Definition fits (p : Placement) (tl : list Placement) : Prop :=
  Forall (fun q => p_track q = p_track p -> ~ overlaps p q) tl.

#[global] Instance placement_wf_dec p : Decision (placement_wf p).
Proof. unfold placement_wf. apply _. Defined.

#[global] Instance overlaps_dec : RelDecision overlaps.
Proof. intros p q. unfold overlaps. apply _. Defined.

#[global] Instance fits_dec p tl : Decision (fits p tl).
Proof. unfold fits. apply _. Defined.

(** The latest end on a track, [0] on an empty track. *)
Definition maxEnd (tr : nat) (tl : list Placement) : Q :=
  match map p_end (filter (fun p => p_track p = tr) tl) with
  | [] => 0
  | e :: es => Math_max e es
  end.

(** [register]: the id must be new. *)
Definition register (id : AssetId) (duration : Q) (d : Design) : result ModelError Design :=
  match registry d !! id with
  | Some _ => Throw DuplicateImportError
  | None => Ok {| registry := <[id := duration]> (registry d); timeline := timeline d |}
  end.

(** [remove], cascading to every clip of the asset. *)
Definition remove (id : AssetId) (d : Design) : Design :=
  {| registry := delete id (registry d);
     timeline := filter (fun p => mediaAssetId p <> id) (timeline d) |}.

(** [addClip]: without [at], sequential append placement; the clip is
    validated before it is committed. *)
Definition addClip (id : AssetId) (tr : nat) (at_ : option Q) (d : Design)
    : result ModelError Design :=
  match registry d !! id with
  | None => Throw NotFound
  | Some duration =>
      let start := default (maxEnd tr (timeline d)) at_ in
      let p := {| mediaAssetId := id; p_track := tr; p_start := start; p_duration := duration;
                  p_end := start + duration; p_trimStart := 0; p_trimEnd := duration |} in
      if decide (placement_wf p) then
        if decide (fits p (timeline d)) then
          Ok {| registry := registry d; timeline := timeline d ++ [p] |}
        else Throw OverlapError
      else Throw InvalidClipError
  end.

Inductive DesignEvent :=
| Register (id : AssetId) (duration : Q)
| Remove (id : AssetId)
| AddClip (id : AssetId) (tr : nat) (at_ : option Q).

(** One request, or none. *)
Definition design_step (d : Design) (ev : option DesignEvent) : result ModelError Design :=
  match ev with
  | Some (Register id duration) => register id duration d
  | Some (Remove id) => Ok (remove id d)
  | Some (AddClip id tr at_) => addClip id tr at_ d
  | None => Ok d
  end.

Fixpoint design_run (evs : list (option DesignEvent)) (d : Design) : result ModelError Design :=
  match evs with
  | [] => Ok d
  | ev :: evs => d' ← design_step d ev; design_run evs d'
  end.

(** Two clips that are not in each other's way: on different tracks, or
    without a common stretch of time. *)
Definition apart (p q : Placement) : Prop := p_track p = p_track q -> ~ overlaps p q.

(** A clip refers to a registered asset and trims within it. *)
Definition registered (r : gmap AssetId Q) (p : Placement) : Prop :=
  exists duration, r !! mediaAssetId p = Some duration /\ p_trimEnd p <= duration.

(** The invariants of the design: every clip is well formed and refers to
    a registered asset, and every clip is apart from the later ones. *)
Record design_ok (d : Design) : Prop := {
  ok_wf : Forall placement_wf (timeline d);
  ok_refs : Forall (registered (registry d)) (timeline d);
  ok_apart : StronglySorted apart (timeline d);
}.

(** ** Reading [App] as the design *)

(** The length of an asset: a media without duration counts as five
    seconds, as its clips do. *)
Definition assetDuration (m : Media) : Q := orNum (media_duration m) 5.

Definition abs_registry (l : list Media) : gmap AssetId Q :=
  list_to_map ((fun m => (media_id m, assetDuration m)) <$> l).

Definition abs_clip (c : Clip) : Placement :=
  {| mediaAssetId := clipMediaId c; p_track := track c; p_start := startTime c;
     p_duration := clip_duration c; p_end := endTime c;
     p_trimStart := trimStart c; p_trimEnd := trimEnd c |}.

Definition abs (st : AppState) : Design :=
  {| registry := abs_registry (importedMedia st);
     timeline := abs_clip <$> timelineClips st |}.

Definition abs_event (ev : AppEvent) : option DesignEvent :=
  match ev with
  | AddToTimeline _ media => Some (AddClip (media_id media) 0 None)
  | VideoImported media => Some (Register (media_id media) (assetDuration media))
  | MediaDelete mediaId => Some (Remove mediaId)
  | _ => None
  end.

(** An import brings an id the library does not have. *)
Definition fresh (st : AppState) (ev : AppEvent) : Prop :=
  match ev with
  | VideoImported media => media_id media ∉ media_id <$> importedMedia st
  | _ => True
  end.

#[global] Instance fresh_dec st ev : Decision (fresh st ev).
Proof. unfold fresh. destruct ev; apply _. Defined.

(** A clip of [App] is linked to a media of the library, on track 0, with
    the whole media as its trim window. *)
Definition clip_linked (l : list Media) (c : Clip) : Prop :=
  track c = 0%nat /\
  exists m, clip_media c = Some m /\ m ∈ l /\ trimEnd c = assetDuration m.

(** What the refinement needs of a state of [App]. *)
Record app_sound (st : AppState) : Prop := {
  sound_ok : app_ok st;
  sound_ids : NoDup (media_id <$> importedMedia st);
  sound_linked : Forall (clip_linked (importedMedia st)) (timelineClips st);
}.

(** The states [App] reaches when every import brings a new id. *)
Definition app_enabled_fresh (st : AppState) (ev : AppEvent) : Prop :=
  app_enabled st ev /\ fresh st ev.

#[global] Instance app_enabled_fresh_dec st ev : Decision (app_enabled_fresh st ev).
Proof. unfold app_enabled_fresh. apply _. Defined.

Definition app_reachable_fresh : AppState -> Prop :=
  reachable initialApp app_enabled_fresh app_step.

(** ** The design keeps its invariants *)

Lemma overlaps_sym p q : overlaps p q -> overlaps q p.
Proof. unfold overlaps. tauto. Qed.

Lemma apart_sym p q : apart p q -> apart q p.
Proof. unfold apart. intros H Ht Ho. apply H; [done|by apply overlaps_sym]. Qed.

(** On a design that is in order no two clips of a track overlap. *)
Lemma design_ok_no_overlap d i j p q :
  design_ok d -> timeline d !! i = Some p -> timeline d !! j = Some q -> i <> j ->
  p_track p = p_track q -> ~ overlaps p q.
Proof.
  intros [_ _ Hs] Hi Hj Hij. destruct (Nat.lt_total i j) as [Hlt|[->|Hlt]]; [|done|].
  - by apply (StronglySorted_lookup apart (timeline d) i j).
  - apply apart_sym. by apply (StronglySorted_lookup apart (timeline d) j i).
Qed.

Lemma emptyDesign_ok : design_ok emptyDesign.
Proof. split; constructor. Qed.

Lemma registered_insert r id duration p :
  r !! id = None -> registered r p -> registered (<[id := duration]> r) p.
Proof.
  intros Hid (x & Hp & Hle). exists x. split; [|done].
  rewrite lookup_insert_ne; [done|]. intros ->. congruence.
Qed.

Lemma register_ok id duration d d' :
  design_ok d -> register id duration d = Ok d' -> design_ok d'.
Proof.
  intros [Hwf Hrefs Hs]. unfold register.
  destruct (registry d !! id) eqn:Hid; [done|]. intros [= <-].
  split; simpl; [done| |done].
  eapply Forall_impl; [exact Hrefs|]. intros p. by apply registered_insert.
Qed.

Lemma remove_ok id d : design_ok d -> design_ok (remove id d).
Proof.
  intros [Hwf Hrefs Hs]. split; simpl.
  - by apply Forall_filter.
  - rewrite Forall_forall in *. intros p [Hne Hp]%list_elem_of_filter.
    destruct (Hrefs p Hp) as (x & Hx & Hle). exists x.
    by rewrite lookup_delete_ne.
  - by apply StronglySorted_filter.
Qed.

Lemma addClip_ok id tr at_ d d' :
  design_ok d -> addClip id tr at_ d = Ok d' -> design_ok d'.
Proof.
  intros [Hwf Hrefs Hs]. unfold addClip.
  destruct (registry d !! id) as [duration|] eqn:Hid; [|done].
  case_decide as Hp; [|done]. case_decide as Hfits; [|done]. intros [= <-].
  split; simpl.
  - apply Forall_app. split; [done|]. by constructor.
  - apply Forall_app. split; [done|]. constructor; [|done].
    exists duration. split; [done|]. simpl. lra.
  - apply StronglySorted_snoc. split; [done|].
    eapply Forall_impl; [exact Hfits|]. intros q Hq. apply apart_sym.
    intros Ht. by apply Hq.
Qed.

(** Every request the design accepts leaves it in order; a request it
    rejects leaves no state at all. *)
Lemma design_step_ok d ev d' : design_ok d -> design_step d ev = Ok d' -> design_ok d'.
Proof.
  intros Hd. destruct ev as [[id duration|id|id tr at_]|]; simpl.
  - by apply register_ok.
  - intros [= <-]. by apply remove_ok.
  - by apply addClip_ok.
  - by intros [= <-].
Qed.

(** ** How [abs] reads the state *)

Lemma abs_registry_keys l :
  ((fun m => (media_id m, assetDuration m)) <$> l).*1 = media_id <$> l.
Proof. by rewrite <- list_fmap_compose. Qed.

Lemma abs_registry_lookup l m :
  NoDup (media_id <$> l) -> m ∈ l ->
  abs_registry l !! media_id m = Some (assetDuration m).
Proof.
  intros Hnd Hm. apply elem_of_list_to_map_1; [by rewrite abs_registry_keys|].
  by apply (list_elem_of_fmap_2 (fun m => (media_id m, assetDuration m))).
Qed.

Lemma abs_registry_fresh l id : id ∉ media_id <$> l -> abs_registry l !! id = None.
Proof. intros Hid. apply not_elem_of_list_to_map_1. by rewrite abs_registry_keys. Qed.

Lemma abs_registry_snoc l m :
  media_id m ∉ media_id <$> l ->
  abs_registry (l ++ [m]) = <[media_id m := assetDuration m]> (abs_registry l).
Proof.
  intros Hid. unfold abs_registry. rewrite fmap_app. apply list_to_map_snoc.
  by rewrite abs_registry_keys.
Qed.

Lemma abs_registry_filter l id :
  abs_registry (filter (fun m => media_id m <> id) l) = delete id (abs_registry l).
Proof.
  unfold abs_registry. induction l as [|m l IH]; csimpl; [by rewrite delete_empty|].
  rewrite filter_cons. destruct (decide (media_id m <> id)) as [Hne|Heq]; csimpl.
  - by rewrite IH, delete_insert_ne.
  - apply dec_stable in Heq as ->. by rewrite IH, delete_insert_eq.
Qed.

Lemma abs_registry_perm l l' :
  NoDup (media_id <$> l) -> l ≡ₚ l' -> abs_registry l = abs_registry l'.
Proof.
  intros Hnd Hp. apply list_to_map_proper; [by rewrite abs_registry_keys|].
  by apply fmap_Permutation.
Qed.

Lemma abs_clip_wf c : placement_wf (abs_clip c) <-> clip_wf c.
Proof. done. Qed.

(** On track 0 of a well-formed timeline the design's latest end is
    [lastClipEndTime]. *)
Lemma maxEnd_abs clips :
  Forall clip_wf clips -> Forall (fun c => track c = 0%nat) clips ->
  maxEnd 0 (abs_clip <$> clips) = lastClipEndTime clips.
Proof.
  intros Hwf Ht. unfold maxEnd, lastClipEndTime.
  rewrite filter_Forall_id by (by apply Forall_fmap).
  change (map p_end (abs_clip <$> clips)) with (p_end <$> (abs_clip <$> clips)).
  change (map clipEnd clips) with (clipEnd <$> clips).
  rewrite <- list_fmap_compose.
  rewrite (Forall_fmap_ext_1 (p_end ∘ abs_clip) clipEnd clips); [done|].
  eapply Forall_impl; [exact Hwf|]. intros c Hc. simpl. by rewrite clipEnd_wf.
Qed.

(** ** Soundness is kept *)

Lemma clip_linked_mono l l' c : l ⊆ l' -> clip_linked l c -> clip_linked l' c.
Proof. intros Hl (Ht & m & Hm & Hin & He). split; [done|]. exists m. auto. Qed.

Lemma clip_linked_id l c : clip_linked l c -> clipMediaId c ∈ media_id <$> l.
Proof.
  intros (_ & m & Hm & Hin & _). unfold clipMediaId. rewrite Hm.
  by apply list_elem_of_fmap_2.
Qed.

Lemma newClip_linked l now media t : media ∈ l -> clip_linked l (newClip now media t).
Proof. intros Hm. split; [done|]. by exists media. Qed.

Lemma clip_linked_filter l id c :
  clipMediaId c <> id -> clip_linked l c ->
  clip_linked (filter (fun m => media_id m <> id) l) c.
Proof.
  intros Hne (Ht & m & Hm & Hin & He). split; [done|]. exists m. split_and!; [done| |done].
  apply list_elem_of_filter. split; [|done]. unfold clipMediaId in Hne. by rewrite Hm in Hne.
Qed.

Lemma NoDup_ids_filter (l : list Media) id :
  NoDup (media_id <$> l) -> NoDup (media_id <$> filter (fun m => media_id m <> id) l).
Proof.
  intros Hnd. eapply sublist_NoDup; [exact Hnd|]. apply fmap_sublist, sublist_filter.
Qed.

Lemma app_step_sound st ev st' :
  app_sound st -> app_enabled_fresh st ev -> app_step st ev = Some st' -> app_sound st'.
Proof.
  intros [Hok Hnd Hl] [Hen Hfr] Hstep.
  split; [by eapply app_step_ok| |]; destruct ev; simpl in *; simplify_eq; simpl; try done.
  - by rewrite handleAddToTimeline_media.
  - rewrite fmap_app. apply NoDup_app. split_and!; [done| |apply NoDup_singleton].
    by intros id Hid ->%list_elem_of_singleton.
  - by apply NoDup_ids_filter.
  - by rewrite (handleMediaReorder_media _ _ _ _ Hstep).
  - rewrite handleAddToTimeline_media, handleAddToTimeline_clips.
    apply Forall_app. split; [done|]. constructor; [|done]. by apply newClip_linked.
  - eapply Forall_impl; [exact Hl|]. intros c. apply clip_linked_mono.
    intros m Hm. apply elem_of_app. by left.
  - rewrite Forall_forall in *. intros c [Hne Hc]%list_elem_of_filter.
    apply clip_linked_filter; auto.
  - rewrite (handleMediaReorder_clips _ _ _ _ Hstep).
    eapply Forall_impl; [exact Hl|]. intros c. apply clip_linked_mono.
    intros m Hm. by rewrite (handleMediaReorder_media _ _ _ _ Hstep).
Qed.

(** ** [App] implements the design *)

(** A clip placed at [lastClipEndTime] passes the design's validation. *)
Lemma newClip_fits clips now media :
  Forall clip_wf clips ->
  fits (abs_clip (newClip now media (lastClipEndTime clips))) (abs_clip <$> clips).
Proof.
  intros Hwf. unfold fits. apply Forall_fmap.
  eapply Forall_impl; [exact (lastClipEndTime_bounds clips Hwf)|].
  intros c Hc _ [Ho _]. simpl in *. lra.
Qed.

Lemma addClip_abs st now media :
  app_sound st -> media ∈ importedMedia st ->
  addClip (media_id media) 0 None (abs st)
  = Ok (abs (handleAddToTimeline (timelineClips st) now media st)).
Proof.
  intros [[Hm [Hwf Hs]] Hnd Hl] Hin. unfold addClip, abs.
  rewrite handleAddToTimeline_media, handleAddToTimeline_clips, fmap_app.
  cbn [registry timeline default]. rewrite (abs_registry_lookup _ media Hnd Hin).
  cbn [default]. rewrite maxEnd_abs; [|done|eapply Forall_impl; [exact Hl|]; by intros c [? _]].
  case_decide as Hp.
  - case_decide as Hf; [done|]. destruct Hf. by apply (newClip_fits _ now media).
  - destruct Hp. apply (newClip_wf now media); [|by apply lastClipEndTime_nonneg].
    rewrite Forall_forall in Hm. auto.
Qed.

Lemma register_abs st media :
  media_id media ∉ media_id <$> importedMedia st ->
  register (media_id media) (assetDuration media) (abs st)
  = Ok (abs (handleVideoImported media st)).
Proof.
  intros Hid. unfold register, abs. cbn [registry timeline].
  rewrite abs_registry_fresh by done.
  change (importedMedia (handleVideoImported media st)) with (importedMedia st ++ [media]).
  by rewrite abs_registry_snoc.
Qed.

Lemma remove_abs st id : remove id (abs st) = abs (handleMediaDelete id st).
Proof.
  unfold remove, abs. rewrite handleMediaDelete_clips, handleMediaDelete_media.
  cbn [registry timeline]. rewrite abs_registry_filter. f_equal.
  by rewrite (filter_fmap abs_clip (fun p => mediaAssetId p <> id)).
Qed.

(** One step of [App] is the design's step on the states read, and the
    design accepts it. *)
Lemma app_step_refines st ev st' :
  app_sound st -> app_enabled_fresh st ev -> app_step st ev = Some st' ->
  design_step (abs st) (abs_event ev) = Ok (abs st').
Proof.
  intros Hs [Hen Hfr] Hstep. destruct ev; simpl in *; simplify_eq; try done.
  - by apply addClip_abs.
  - by apply register_abs.
  - by rewrite remove_abs.
  - f_equal. unfold abs. rewrite (handleMediaReorder_clips _ _ _ _ Hstep). f_equal.
    apply abs_registry_perm; [apply (sound_ids _ Hs)|].
    symmetry. by eapply handleMediaReorder_media.
Qed.

Lemma initialApp_sound : app_sound initialApp.
Proof. split; [split; [constructor|split; constructor]|constructor|constructor]. Qed.

(** C2. Refinement.  Every run of [App] in which each import brings a new
    id is a run of the design on the states read by [abs]: the design
    accepts every request, among them the validation of each appended clip,
    and ends in the state read from the state of [App]. *)
Theorem app_run_refines evs st st' :
  app_sound st ->
  runG app_enabled_fresh app_step evs st = Some st' ->
  design_run (abs_event <$> evs) (abs st) = Ok (abs st') /\ app_sound st'.
Proof.
  revert st. induction evs as [|ev evs IH]; intros st Hs; simpl.
  - by intros [= <-].
  - case_decide as Hen; [|done].
    destruct (app_step st ev) as [st1|] eqn:Hstep; [|done]. simpl.
    rewrite (app_step_refines st ev st1) by done. simpl.
    apply IH. by eapply app_step_sound.
Qed.

(** C17. The invariants of the design hold of every state [App] reaches
    when each import brings a new id: every clip refers to a media of the
    library and trims within its length, and no two clips of a track
    overlap. *)
Theorem app_reachable_design_ok st : app_reachable_fresh st -> design_ok (abs st).
Proof.
  intros Hr. cut (app_sound st /\ design_ok (abs st)); [tauto|].
  revert st Hr. apply reachable_invariant.
  - split; [apply initialApp_sound|apply emptyDesign_ok].
  - intros st ev st' [Hs Hd] Hen Hstep. split; [by eapply app_step_sound|].
    eapply design_step_ok; [exact Hd|]. by apply app_step_refines.
Qed.

(** ** Worked runs *)

Definition session : list AppEvent :=
  [VideoImported assetA; VideoImported assetB; AddToTimeline 3000 assetA;
   AddToTimeline 4000 assetB; MediaReorder 0 1; AddToTimeline 5000 assetA;
   MediaDelete (media_id assetB); TimelineSeek 2].

Definition afterSession : AppState :=
  default initialApp (runG app_enabled_fresh app_step session initialApp).

Lemma app_run_refines_witness :
  design_run (abs_event <$> session) (abs initialApp) = Ok (abs afterSession).
Proof.
  apply (app_run_refines session initialApp afterSession initialApp_sound).
  by vm_compute.
Defined.

Lemma afterSession_reachable : app_reachable_fresh afterSession.
Proof.
  apply (runG_reachable app_enabled_fresh app_step initialApp session initialApp);
    [constructor|by vm_compute].
Qed.

Lemma app_reachable_design_ok_witness : design_ok (abs afterSession).
Proof. apply (app_reachable_design_ok afterSession afterSession_reachable). Defined.

(** After the session two clips of the first media are left, with the gap
    the deleted clip leaves between them. *)
Example scenario_session :
  (fun p => (p_start p, p_end p)) <$> timeline (abs afterSession) = [(0, 5); (8, 13)].
Proof. by vm_compute. Qed.

(** Without new ids the design and [App] part ways: the design rejects a
    second asset with the id of the first, [App] takes it. *)
Example scenario_twins_rejected :
  let twin := mkMedia (media_id assetA) "twin.mp4" (Some 7) "video/mp4" 1 None None in
  let st := handleVideoImported assetA initialApp in
  design_step (abs st) (abs_event (VideoImported twin)) = Throw DuplicateImportError /\
  length (importedMedia (handleVideoImported twin st)) = 2%nat.
Proof. by vm_compute. Qed.

(** The validation is not idle: a clip placed by hand over another is
    rejected, the same clip on another track is taken, and an asset that was
    removed is not found. *)
Example scenario_explicit_placement :
  addClip (media_id assetA) 0 (Some 3) (abs afterSession) = Throw OverlapError /\
  is_Ok (addClip (media_id assetA) 1 (Some 3) (abs afterSession)) /\
  addClip (media_id assetB) 0 None (abs afterSession) = Throw NotFound.
Proof. split_and!; [by vm_compute|apply (bool_decide_unpack _); by vm_compute|by vm_compute]. Qed.
