(* ===== verification/Playback.v ===== *)
(** * Playback: the playback clock of [App]

    Models the "timeline playback animation" effect of [App] in
    src/src/App_simple.js: the two refs ([animationFrameRef], [lastTickRef]),
    the [tick] callback and the [useEffect] that starts and stops it.

    The browser side is part of the state: [pending] is the set of animation
    frame requests that are scheduled and not cancelled, [nextHandle] the
    next request id ([requestAnimationFrame] returns non-zero ids, so the
    first one is [1]).  React's side is [committed]: the value of
    [isVideoPlaying] the current effect instance was created with, [None]
    before the first commit; the effect runs again only when the dependency
    [isVideoPlaying] differs from it.

    Events: a handler of [App] runs ([User]); React commits a render and
    flushes effects ([Commit], with the two readings of [Date.now()] it
    makes); the browser runs a scheduled frame callback ([Frame]).

    Theorems: at most one frame is ever scheduled and none once a pause is
    committed; while play is committed exactly one frame is scheduled (the
    loop never dies); the play-head advances by exactly the wall-clock time
    between the start and the last frame, whatever the frame intervals; the
    play-head is not clamped to the timeline and playback never stops by
    itself. *)

From Stdlib Require Import QArith Qminmax Qround Lqa ZArith List.
From stdpp Require Import base tactics option list gmap sets.
From S2P Require Import Prelude Timeline.

(** ** State *)

Record Clock := mkClock {
  app : AppState;
  committed : option bool;
  animationFrameRef : option nat;
  lastTickRef : Z;
  nextHandle : nat;
  pending : gset nat;
}.

(** [useRef(null)], [useRef(Date.now())] at mount time [now]. *)
Definition initialClock (now : Z) : Clock :=
  {| app := initialApp; committed := None; animationFrameRef := None;
     lastTickRef := now; nextHandle := 1; pending := ∅ |}.

Definition withApp (f : AppState -> AppState) (c : Clock) : Clock :=
  {| app := f (app c); committed := committed c;
     animationFrameRef := animationFrameRef c; lastTickRef := lastTickRef c;
     nextHandle := nextHandle c; pending := pending c |}.

Definition withCommitted (b : bool) (c : Clock) : Clock :=
  {| app := app c; committed := Some b;
     animationFrameRef := animationFrameRef c; lastTickRef := lastTickRef c;
     nextHandle := nextHandle c; pending := pending c |}.

Definition withLastTick (now : Z) (c : Clock) : Clock :=
  {| app := app c; committed := committed c;
     animationFrameRef := animationFrameRef c; lastTickRef := now;
     nextHandle := nextHandle c; pending := pending c |}.

(** ** The browser's animation frames *)

(** [animationFrameRef.current = requestAnimationFrame(tick)] *)
Definition requestAnimationFrame (c : Clock) : Clock :=
  {| app := app c; committed := committed c;
     animationFrameRef := Some (nextHandle c); lastTickRef := lastTickRef c;
     nextHandle := S (nextHandle c); pending := {[nextHandle c]} ∪ pending c |}.

Definition cancelAnimationFrame (id : nat) (c : Clock) : Clock :=
  {| app := app c; committed := committed c;
     animationFrameRef := animationFrameRef c; lastTickRef := lastTickRef c;
     nextHandle := nextHandle c; pending := pending c ∖ {[id]} |}.

(** [if (animationFrameRef.current) cancelAnimationFrame(animationFrameRef.current)]:
    [null] and [0] are falsy. *)
Definition cancelIfSet (c : Clock) : Clock :=
  match animationFrameRef c with
  | Some (S n) => cancelAnimationFrame (S n) c
  | _ => c
  end.

(** ** The effect *)

(** [tick]: advance the play-head by the wall-clock time since the last
    tick, then schedule the next frame. *)
Definition tick (now : Z) (c : Clock) : Clock :=
  let deltaSeconds := inject_Z (now - lastTickRef c) / 1000 in
  requestAnimationFrame
    (withApp (setCurrentTimelineTime (fun prev => prev + deltaSeconds))
       (withLastTick now c)).

(** The body of the effect; [now0] is read by the body, [now1] by the first
    [tick]. *)
Definition effectBody (now0 now1 : Z) (c : Clock) : Clock :=
  if isVideoPlaying (app c) then tick now1 (withLastTick now0 c)
  else cancelIfSet c.

(** The function the effect returns. *)
Definition effectCleanup (c : Clock) : Clock := cancelIfSet c.

(** React commits a render: when [isVideoPlaying] changed since the effect
    last ran (or on mount) it runs the previous cleanup and then the body. *)
Definition commit (now0 now1 : Z) (c : Clock) : Clock :=
  if decide (committed c = Some (isVideoPlaying (app c))) then c
  else
    let c1 := match committed c with
              | Some _ => effectCleanup c
              | None => c
              end in
    withCommitted (isVideoPlaying (app c)) (effectBody now0 now1 c1).

(** ** The clock as a state machine *)

Inductive ClockEvent :=
| User (ev : AppEvent)
| Commit (now0 now1 : Z)
| Frame (id : nat) (now : Z).

Definition clock_step (c : Clock) (ev : ClockEvent) : option Clock :=
  match ev with
  | User e =>
      match app_step (app c) e with
      | Some a => Some (withApp (fun _ => a) c)
      | None => None
      end
  | Commit now0 now1 => Some (commit now0 now1 c)
  | Frame id now =>
      if decide (id ∈ pending c) then Some (tick now (cancelAnimationFrame id c))
      else None
  end.

(** The browser only runs callbacks that are scheduled. *)
Definition clock_enabled (c : Clock) (ev : ClockEvent) : Prop :=
  match ev with
  | User e => app_enabled (app c) e
  | Commit _ _ => True
  | Frame id _ => id ∈ pending c
  end.

Definition clock_reachable (mount : Z) : Clock -> Prop :=
  reachable (initialClock mount) clock_enabled clock_step.

(** ** The frame invariant *)

(** While play is committed exactly one frame is scheduled and the ref
    holds its (non-zero) id; otherwise none is. *)
Definition clock_ok (c : Clock) : Prop :=
  (1 <= nextHandle c)%nat /\
  match committed c with
  | Some true => exists n, animationFrameRef c = Some (S n) /\ pending c = {[S n]}
  | _ => pending c = ∅
  end.

Lemma cancelIfSet_pending_empty c : pending c = ∅ -> pending (cancelIfSet c) = ∅.
Proof.
  intros H. unfold cancelIfSet. destruct (animationFrameRef c) as [[|n]|]; simpl;
    rewrite ?H; set_solver.
Qed.

Lemma cancelIfSet_pending_ref c n :
  animationFrameRef c = Some (S n) -> pending c = {[S n]} ->
  pending (cancelIfSet c) = ∅.
Proof. intros Hr H. unfold cancelIfSet. rewrite Hr; simpl. rewrite H. set_solver. Qed.

Lemma cancelIfSet_nextHandle c : nextHandle (cancelIfSet c) = nextHandle c.
Proof. unfold cancelIfSet. by destruct (animationFrameRef c) as [[|n]|]. Qed.

Lemma cancelIfSet_app c : app (cancelIfSet c) = app c.
Proof. unfold cancelIfSet. by destruct (animationFrameRef c) as [[|n]|]. Qed.

(** A tick that starts with no frame scheduled leaves exactly its own. *)
Lemma tick_pending now c :
  (1 <= nextHandle c)%nat -> pending c = ∅ ->
  exists n, animationFrameRef (tick now c) = Some (S n) /\
            pending (tick now c) = {[S n]} /\
            nextHandle (tick now c) = S (S n).
Proof.
  intros Hn Hp. destruct (nextHandle c) as [|n] eqn:E; [lia|].
  exists n. unfold tick; simpl. rewrite E, Hp. split_and!; [done| |done].
  set_solver.
Qed.

Lemma clock_ok_pending_empty c :
  clock_ok c -> committed c <> None -> pending (effectCleanup c) = ∅.
Proof.
  intros [_ H] _. unfold effectCleanup.
  destruct (committed c) as [[]|].
  - destruct H as (n & Hr & Hp). by eapply cancelIfSet_pending_ref.
  - by apply cancelIfSet_pending_empty.
  - by apply cancelIfSet_pending_empty.
Qed.

Lemma effectBody_ok now0 now1 c :
  (1 <= nextHandle c)%nat -> pending c = ∅ ->
  clock_ok (withCommitted (isVideoPlaying (app c)) (effectBody now0 now1 c)).
Proof.
  intros Hn Hp. unfold effectBody, clock_ok.
  destruct (isVideoPlaying (app c)) eqn:Hplay; simpl.
  - destruct (tick_pending now1 (withLastTick now0 c) Hn Hp) as (n & Hr & Hq & Hh).
    split; [|by eauto]. unfold tick in Hh; simpl in Hh. lia.
  - rewrite cancelIfSet_nextHandle. split; [done|].
    by apply cancelIfSet_pending_empty.
Qed.

Lemma commit_ok now0 now1 c : clock_ok c -> clock_ok (commit now0 now1 c).
Proof.
  intros Hok. unfold commit. case_decide as Hc; [done|].
  destruct (committed c) as [b|] eqn:Hb.
  - rewrite <- (cancelIfSet_app c). apply effectBody_ok.
    + unfold effectCleanup. rewrite cancelIfSet_nextHandle. apply Hok.
    + apply clock_ok_pending_empty; [done|]. by rewrite Hb.
  - apply effectBody_ok; [apply Hok|]. destruct Hok as [_ H]. by rewrite Hb in H.
Qed.

Lemma frame_ok id now c :
  clock_ok c -> id ∈ pending c -> clock_ok (tick now (cancelAnimationFrame id c)).
Proof.
  intros [Hn H] Hid. unfold clock_ok.
  destruct (committed c) as [[]|] eqn:Hc; [|set_solver..].
  destruct H as (n & Hr & Hp).
  destruct (tick_pending now (cancelAnimationFrame id c)) as (m & Hr' & Hp' & Hh').
  { done. }
  { simpl. rewrite Hp in *. set_solver. }
  split; [lia|]. change (committed (tick now (cancelAnimationFrame id c))) with (committed c).
  rewrite Hc. eauto.
Qed.

Lemma clock_step_ok c ev c' :
  clock_ok c -> clock_enabled c ev -> clock_step c ev = Some c' -> clock_ok c'.
Proof.
  intros Hok Hen Hstep. destruct ev as [e|now0 now1|id now]; simpl in *.
  - destruct (app_step (app c) e); simplify_eq. exact Hok.
  - simplify_eq. by apply commit_ok.
  - case_decide; simplify_eq. by apply frame_ok.
Qed.

Lemma clock_reachable_ok mount c : clock_reachable mount c -> clock_ok c.
Proof.
  apply reachable_invariant.
  - split; [simpl; lia|done].
  - apply clock_step_ok.
Qed.

(** C5. The frame loop is well behaved in every reachable state: at most
    one animation frame is scheduled; while play is committed exactly one is,
    and [animationFrameRef] holds its id; once a pause is committed none is. *)
Theorem clock_reachable_frames mount c :
  clock_reachable mount c ->
  (size (pending c) <= 1)%nat /\
  (committed c = Some true ->
     exists id, animationFrameRef c = Some id /\ pending c = {[id]}) /\
  (committed c = Some false -> pending c = ∅).
Proof.
  intros [_ H]%clock_reachable_ok. destruct (committed c) as [[]|].
  - destruct H as (n & Hr & ->). rewrite size_singleton.
    split_and!; [lia|by eauto|done].
  - rewrite H, size_empty. split_and!; [lia|done|done].
  - rewrite H, size_empty. split_and!; [lia|done|done].
Qed.

(** The effect runs with the value of [isVideoPlaying] it was created
    for. *)
Lemma commit_committed now0 now1 c :
  committed (commit now0 now1 c) = Some (isVideoPlaying (app c)).
Proof. unfold commit. by case_decide. Qed.

(** The loop of [tick] ends with a pause: once React commits a render in
    which [isVideoPlaying] is false, no scheduled callback is left, so
    [tick] does not run again before play is committed anew. *)
Theorem pause_ends_loop mount c now0 now1 id now :
  clock_reachable mount c -> isVideoPlaying (app c) = false ->
  ~ clock_enabled (commit now0 now1 c) (Frame id now) /\
  clock_step (commit now0 now1 c) (Frame id now) = None.
Proof.
  intros Hok%clock_reachable_ok Hplay.
  pose proof (commit_ok now0 now1 c Hok) as [_ Hp].
  rewrite commit_committed, Hplay in Hp. simpl. rewrite Hp.
  split; [set_solver|]. by rewrite decide_False by set_solver.
Qed.

(** ** Elapsed time *)

(** Milliseconds as seconds. *)
Definition seconds (ms : Z) : Q := inject_Z ms / 1000.

Lemma seconds_sub a b : seconds (a - b) == seconds a - seconds b.
Proof.
  unfold seconds, Z.sub. rewrite inject_Z_plus, inject_Z_opp. field.
Qed.

Lemma tick_time now c :
  currentTimelineTime (app (tick now c))
  == currentTimelineTime (app c) + (seconds now - seconds (lastTickRef c)).
Proof. simpl. fold (seconds (now - lastTickRef c)). by rewrite seconds_sub. Qed.

Lemma tick_lastTick now c : lastTickRef (tick now c) = now.
Proof. reflexivity. Qed.

Lemma tick_playing now c : isVideoPlaying (app (tick now c)) = isVideoPlaying (app c).
Proof. reflexivity. Qed.

Lemma tick_clips now c : timelineClips (app (tick now c)) = timelineClips (app c).
Proof. reflexivity. Qed.

(** The browser runs the frame the ref points to, at time [now]. *)
Definition advance (c : Clock) (now : Z) : option Clock :=
  match animationFrameRef c with
  | Some id => clock_step c (Frame id now)
  | None => None
  end.

(** While play is committed the next frame can always run, and it is a tick. *)
Lemma advance_playing c now :
  clock_ok c -> committed c = Some true ->
  exists id, id ∈ pending c /\
    advance c now = Some (tick now (cancelAnimationFrame id c)) /\
    clock_ok (tick now (cancelAnimationFrame id c)).
Proof.
  intros Hok Hc. pose proof Hok as [_ H]. rewrite Hc in H.
  destruct H as (n & Hr & Hp). exists (S n).
  assert (Hin : S n ∈ pending c) by (rewrite Hp; set_solver).
  unfold advance. rewrite Hr. simpl. rewrite decide_True by done.
  split_and!; [done..|]. by apply frame_ok.
Qed.

(** C19. No drift: while play is committed, any number of frames at any
    times all run, and afterwards the play-head has advanced by exactly the
    wall-clock time between the last tick before them and the last frame. *)
Theorem frames_elapsed ts c :
  clock_ok c -> committed c = Some true ->
  exists c',
    runO advance ts c = Some c' /\
    clock_ok c' /\ committed c' = Some true /\
    lastTickRef c' = default (lastTickRef c) (last ts) /\
    currentTimelineTime (app c')
    == currentTimelineTime (app c) + (seconds (lastTickRef c') - seconds (lastTickRef c)).
Proof.
  revert c. induction ts as [|now ts IH]; intros c Hok Hc.
  - exists c. split_and!; [done..|]. ring.
  - destruct (advance_playing c now Hok Hc) as (id & _ & Hadv & Hok').
    destruct (IH _ Hok' Hc) as (c' & Hrun & Hok'' & Hc' & Hlast & Htime).
    exists c'. simpl runO. rewrite Hadv. split_and!; [done..| |].
    + rewrite Hlast, tick_lastTick, last_cons. by destruct (last ts).
    + rewrite Htime, tick_time, tick_lastTick. simpl. ring.
Qed.

(** ** The play-head is not clamped *)

(** [lra] with the terms [seconds k] taken as atoms. *)
Ltac lra_seconds :=
  repeat match goal with
  | |- context [seconds ?k] =>
      let s := fresh "s" in let E := fresh in
      remember (seconds k) as s eqn:E; clear E
  | H : context [seconds ?k] |- _ =>
      let s := fresh "s" in let E := fresh in
      remember (seconds k) as s eqn:E; clear E
  end; lra.

Lemma seconds_add a b : seconds (a + b) == seconds a + seconds b.
Proof. unfold seconds. rewrite inject_Z_plus. field. Qed.

Lemma seconds_opp a : seconds (- a) == - seconds a.
Proof. unfold seconds. rewrite inject_Z_opp. field. Qed.

(** A frame [k] milliseconds after the last tick moves the play-head by
    [k / 1000] seconds, whatever [k] is. *)
Lemma advance_by c k :
  clock_ok c -> committed c = Some true ->
  exists c',
    advance c (lastTickRef c + k) = Some c' /\
    currentTimelineTime (app c') == currentTimelineTime (app c) + seconds k /\
    isVideoPlaying (app c') = isVideoPlaying (app c) /\
    timelineClips (app c') = timelineClips (app c) /\
    committed c' = Some true.
Proof.
  intros Hok Hc.
  destruct (advance_playing c (lastTickRef c + k) Hok Hc) as (id & _ & -> & _).
  eexists. split_and!; [done| |done..].
  rewrite tick_time. change (lastTickRef (cancelAnimationFrame id c)) with (lastTickRef c).
  rewrite seconds_add. simpl. ring.
Qed.

(** Some whole number of milliseconds is more than [q] seconds. *)
Lemma seconds_above q : exists k, q < seconds k.
Proof.
  exists (Qceiling (1000 * q) + 1)%Z. unfold seconds.
  rewrite inject_Z_plus. pose proof (Qle_ceiling (1000 * q)).
  apply Qlt_shift_div_l; [reflexivity|]. change (inject_Z 1) with 1. lra.
Qed.

(** C40. The play-head is not kept within the timeline: while play is
    committed, a late enough frame puts it beyond the end of the last clip
    and playback goes on; and a frame stamped before the last tick (the wall
    clock stepped back) puts it below zero. *)
Theorem playhead_not_clamped c :
  clock_ok c -> committed c = Some true ->
  (exists now c', advance c now = Some c' /\
     lastClipEndTime (timelineClips (app c')) < currentTimelineTime (app c') /\
     isVideoPlaying (app c') = isVideoPlaying (app c) /\ committed c' = Some true) /\
  (exists now c', advance c now = Some c' /\ currentTimelineTime (app c') < 0).
Proof.
  intros Hok Hc. split.
  - destruct (seconds_above (lastClipEndTime (timelineClips (app c))
                             - currentTimelineTime (app c))) as [k Hk].
    destruct (advance_by c k Hok Hc) as (c' & Hadv & Ht & Hp & Hcl & Hc').
    exists (lastTickRef c + k)%Z, c'. rewrite Hcl, Ht. split_and!; [done| |done..].
    lra_seconds.
  - destruct (seconds_above (currentTimelineTime (app c))) as [k Hk].
    destruct (advance_by c (- k) Hok Hc) as (c' & Hadv & Ht & _).
    exists (lastTickRef c + - k)%Z, c'. split; [done|]. rewrite Ht.
    rewrite seconds_opp. lra_seconds.
Qed.

(** ** A worked run: mount, press play, three frames *)

Definition clockMounted : Clock := commit 0 0 (initialClock 0).

Definition clockPlaying : Clock :=
  commit 1000 1001 (withApp (fun a => handleTimelinePlayPause a) clockMounted).

Lemma clockPlaying_reachable : clock_reachable 0 clockPlaying.
Proof.
  apply (reach_step _ _ _ (withApp (fun a => handleTimelinePlayPause a) clockMounted)
           (Commit 1000 1001)); [|done|reflexivity].
  apply (reach_step _ _ _ clockMounted (User TimelinePlayPause)); [|done|reflexivity].
  apply (reach_step _ _ _ (initialClock 0) (Commit 0 0)); [|done|reflexivity].
  apply reach_init.
Qed.

Lemma clockPlaying_ok : clock_ok clockPlaying.
Proof. exact (clock_reachable_ok 0 _ clockPlaying_reachable). Qed.

Lemma clock_reachable_frames_witness :
  (size (pending clockPlaying) <= 1)%nat /\
  (committed clockPlaying = Some true ->
     exists id, animationFrameRef clockPlaying = Some id /\ pending clockPlaying = {[id]}) /\
  (committed clockPlaying = Some false -> pending clockPlaying = ∅).
Proof. exact (clock_reachable_frames 0 clockPlaying clockPlaying_reachable). Defined.

Lemma frames_elapsed_witness :
  exists c',
    runO advance [1017; 1034; 2001]%Z clockPlaying = Some c' /\
    clock_ok c' /\ committed c' = Some true /\
    lastTickRef c' = default (lastTickRef clockPlaying) (last [1017; 1034; 2001]%Z) /\
    currentTimelineTime (app c')
    == currentTimelineTime (app clockPlaying)
       + (seconds (lastTickRef c') - seconds (lastTickRef clockPlaying)).
Proof.
  apply (frames_elapsed [1017; 1034; 2001]%Z clockPlaying clockPlaying_ok).
  reflexivity.
Defined.

Lemma playhead_not_clamped_witness :
  (exists now c', advance clockPlaying now = Some c' /\
     lastClipEndTime (timelineClips (app c')) < currentTimelineTime (app c') /\
     isVideoPlaying (app c') = isVideoPlaying (app clockPlaying) /\
     committed c' = Some true) /\
  (exists now c', advance clockPlaying now = Some c' /\ currentTimelineTime (app c') < 0).
Proof. apply (playhead_not_clamped clockPlaying clockPlaying_ok). reflexivity. Defined.

Lemma pause_ends_loop_witness :
  let c := withApp (fun a => handleTimelinePlayPause a) clockPlaying in
  ~ clock_enabled (commit 3000 3000 c) (Frame 1 3016) /\
  clock_step (commit 3000 3000 c) (Frame 1 3016) = None.
Proof.
  apply (pause_ends_loop 0); [|reflexivity].
  apply (reach_step _ _ _ clockPlaying (User TimelinePlayPause)); [|done|reflexivity].
  apply clockPlaying_reachable.
Defined.

(** Pressing play at 1000 ms and running frames up to 2001 ms puts the
    play-head at 1.001 s: the time since the effect read the clock. *)
Example run_play_three_frames :
  match runO advance [1017; 1034; 2001]%Z clockPlaying with
  | Some c => Qred (currentTimelineTime (app c)) = 1001 # 1000
  | None => False
  end.
Proof. vm_compute. reflexivity. Qed.

(** Pausing cancels the scheduled frame. *)
Example run_pause_cancels :
  pending (commit 3000 3000 (withApp (fun a => handleTimelinePlayPause a) clockPlaying)) = ∅.
Proof. by vm_compute. Qed.
