(* ===== verification/Transport.v ===== *)
(** * Transport: the playback clock of the design, and the clock of App as its implementation

    The design describes the clock by what its frame callback does: it
    advances the play-head by the wall-clock time since the last tick, keeps
    it within the timeline, and stops playback when the end is reached.
    This file states that clock ([onFrame], with [play] and [pause]) and
    relates the clock of src/src/App_simple.js ([Playback]) to it.

    - [transportOf] reads a state of [Playback] as a state of the design:
      the play-head, [isVideoPlaying] and [lastTickRef].
    - [within] says that a sequence of frames keeps the design's play-head
      inside the timeline: before its end, and not below zero.

    Theorems: the design keeps the play-head between zero and the end and
    never resumes by itself; as long as the frames stay [within] the
    timeline, the clock of [App] does what the design does, frame by frame
    ([frames_refine]); the first frame that reaches the end is where they
    part: the design stops at the end, [App] plays on beyond it. *)

From Stdlib Require Import QArith Qminmax Lqa ZArith List.
From stdpp Require Import base tactics option list gmap sets.
From S2P Require Import Prelude Timeline Playback.

(** ** The design *)

Record Transport := mkTransport {
  tr_playhead : Q;
  tr_playing : bool;
  tr_lastTick : Z;
}.

(** The play-head kept within [0, limit]. *)
Definition clamp (limit q : Q) : Q := Qmax 0 (Qmin q limit).

(** The frame callback at time [now]; [limit] is the end of the timeline. *)
Definition onFrame (limit : Q) (now : Z) (t : Transport) : Transport :=
  if tr_playing t then
    let p := tr_playhead t + seconds (now - tr_lastTick t) in
    mkTransport (clamp limit p) (bool_decide (p < limit)) now
  else t.

Definition play (now : Z) (t : Transport) : Transport :=
  mkTransport (tr_playhead t) true now.

Definition pause (t : Transport) : Transport :=
  mkTransport (tr_playhead t) false (tr_lastTick t).

(** Frames at the times [ts], one after the other. *)
Definition onFrames (limit : Q) (ts : list Z) (t : Transport) : Transport :=
  foldl (fun t now => onFrame limit now t) t ts.

(** Two states of the design with the same play-head. *)
Definition same (a b : Transport) : Prop :=
  tr_playhead a == tr_playhead b /\ tr_playing a = tr_playing b /\
  tr_lastTick a = tr_lastTick b.

(** ** The clock of App as a state of the design *)

Definition transportOf (c : Clock) : Transport :=
  mkTransport (currentTimelineTime (app c)) (isVideoPlaying (app c)) (lastTickRef c).

(** The end of the timeline as the clock sees it. *)
Definition limitOf (c : Clock) : Q := lastClipEndTime (timelineClips (app c)).

(** The frames at [ts] keep the play-head of the design inside the
    timeline. *)
Fixpoint within (limit : Q) (ts : list Z) (t : Transport) : Prop :=
  match ts with
  | [] => True
  | now :: ts =>
      let p := tr_playhead t + seconds (now - tr_lastTick t) in
      0 <= p /\ p < limit /\ within limit ts (onFrame limit now t)
  end.

#[global] Instance within_dec limit ts t : Decision (within limit ts t).
Proof. revert t. induction ts; intros t; simpl; apply _. Defined.

(** ** The design by itself *)

#[global] Instance same_equiv : Equivalence same.
Proof.
  split.
  - by intros a.
  - intros a b (? & ? & ?). by split_and!.
  - intros a b c (? & ? & ?) (? & ? & ?). split_and!; by etrans.
Qed.

Lemma clamp_bounds limit q : 0 <= limit -> 0 <= clamp limit q <= limit.
Proof.
  intros Hl. unfold clamp. split; [apply Q.le_max_l|].
  apply Q.max_lub; [done|apply Q.le_min_r].
Qed.

Lemma clamp_inside limit q : 0 <= q -> q <= limit -> clamp limit q == q.
Proof. intros H0 H1. unfold clamp. rewrite Q.min_l by done. by rewrite Q.max_r. Qed.

Lemma clamp_end limit q : 0 <= limit -> limit <= q -> clamp limit q == limit.
Proof. intros H0 H1. unfold clamp. rewrite Q.min_r by done. by rewrite Q.max_r. Qed.

#[global] Instance clamp_proper : Proper (Qeq ==> Qeq ==> Qeq) clamp.
Proof. intros l l' Hl q q' Hq. unfold clamp. rewrite Hl, Hq. reflexivity. Qed.

#[global] Instance onFrame_proper : Proper (Qeq ==> eq ==> same ==> same) onFrame.
Proof.
  intros l l' Hl now ? <- a b (Hp & Hb & Ht). unfold onFrame. rewrite Hb, Ht.
  destruct (tr_playing b) eqn:E; [|split; [done|split; congruence]].
  split_and!; simpl; [by rewrite Hl, Hp| |done].
  apply bool_decide_ext. by rewrite Hl, Hp.
Qed.

(** The play-head of the design stays between zero and the end. *)
Theorem onFrames_bounds limit ts t :
  0 <= limit -> 0 <= tr_playhead t <= limit ->
  0 <= tr_playhead (onFrames limit ts t) <= limit.
Proof.
  intros Hl. revert t. induction ts as [|now ts IH]; intros t Ht; simpl; [done|].
  apply IH. unfold onFrame. destruct (tr_playing t); [|done]. by apply clamp_bounds.
Qed.

(** Once stopped, the design stays stopped and the play-head stays where
    it is. *)
Lemma onFrames_stopped limit ts t : tr_playing t = false -> onFrames limit ts t = t.
Proof.
  intros Ht. induction ts as [|now ts IH]; simpl; [done|].
  assert (onFrame limit now t = t) as -> by (unfold onFrame; by rewrite Ht). done.
Qed.

(** A frame that reaches the end stops the design at the end. *)
Lemma onFrame_end limit now t :
  0 <= limit -> tr_playing t = true ->
  limit <= tr_playhead t + seconds (now - tr_lastTick t) ->
  tr_playing (onFrame limit now t) = false /\ tr_playhead (onFrame limit now t) == limit.
Proof.
  intros Hl Hp He. unfold onFrame. rewrite Hp. simpl. split; [|by apply clamp_end].
  apply bool_decide_eq_false. lra.
Qed.

(** ** Frames inside the timeline *)

(** What a frame of [App] does, read as a state of the design: the
    play-head moves by the time since the last tick, nothing is clamped and
    nothing stops. *)
Lemma transportOf_tick now c id :
  transportOf (tick now (cancelAnimationFrame id c))
  = mkTransport (currentTimelineTime (app c) + seconds (now - lastTickRef c))
      (isVideoPlaying (app c)) now.
Proof. reflexivity. Qed.

(** One frame inside the timeline: [App] does what the design does. *)
Lemma frame_refines limit now c t :
  clock_ok c -> committed c = Some true -> tr_playing t = true ->
  same (transportOf c) t ->
  0 <= tr_playhead t + seconds (now - tr_lastTick t) ->
  tr_playhead t + seconds (now - tr_lastTick t) < limit ->
  exists c',
    advance c now = Some c' /\ clock_ok c' /\ committed c' = Some true /\
    same (transportOf c') (onFrame limit now t) /\
    timelineClips (app c') = timelineClips (app c).
Proof.
  intros Hok Hc Hplay (Hp & Hb & Ht) H0 H1.
  destruct (advance_playing c now Hok Hc) as (id & _ & Hadv & Hok').
  eexists. split_and!; [done..| |done].
  rewrite transportOf_tick. unfold onFrame. rewrite Hplay. simpl in Hp, Hb, Ht.
  split_and!; simpl.
  - rewrite clamp_inside by lra. by rewrite Hp, Ht.
  - by rewrite Hb, Hplay, bool_decide_eq_true_2.
  - done.
Qed.

(** C8. The clock of [App] implements the clock of the design inside the
    timeline: as long as the frames keep the play-head before the end and
    not below zero, every frame runs, and after them play-head,
    [isVideoPlaying] and the time of the last tick are those of the design;
    the loop is still alive. *)
Theorem frames_refine limit ts c t :
  clock_ok c -> committed c = Some true -> tr_playing t = true ->
  same (transportOf c) t -> within limit ts t ->
  exists c',
    runO advance ts c = Some c' /\ clock_ok c' /\ committed c' = Some true /\
    same (transportOf c') (onFrames limit ts t) /\
    tr_playing (onFrames limit ts t) = true /\
    timelineClips (app c') = timelineClips (app c).
Proof.
  revert c t. induction ts as [|now ts IH]; intros c t Hok Hc Hplay Hsame Hin.
  - exists c. by split_and!.
  - destruct Hin as (H0 & H1 & Hin).
    destruct (frame_refines limit now c t Hok Hc Hplay Hsame H0 H1)
      as (c1 & Hadv & Hok1 & Hc1 & Hsame1 & Hclips1).
    assert (tr_playing (onFrame limit now t) = true) as Hplay1.
    { unfold onFrame. rewrite Hplay. simpl. by apply bool_decide_eq_true_2. }
    destruct (IH c1 _ Hok1 Hc1 Hplay1 Hsame1 Hin) as (c' & Hrun & ? & ? & ? & ? & Hclips).
    exists c'. simpl. rewrite Hadv. split_and!; [done..|]. by rewrite Hclips.
Qed.

(** ** Where they part *)

(** The frame that reaches the end: the design stops with the play-head at
    the end; [App] puts the play-head where the time takes it, and goes on
    playing. *)
Theorem frame_past_the_end limit now c :
  clock_ok c -> committed c = Some true -> isVideoPlaying (app c) = true ->
  0 <= limit ->
  limit < currentTimelineTime (app c) + seconds (now - lastTickRef c) ->
  exists c',
    advance c now = Some c' /\
    tr_playing (onFrame limit now (transportOf c)) = false /\
    tr_playhead (onFrame limit now (transportOf c)) == limit /\
    isVideoPlaying (app c') = true /\ committed c' = Some true /\
    limit < currentTimelineTime (app c') /\
    ~ same (transportOf c') (onFrame limit now (transportOf c)).
Proof.
  intros Hok Hc Hplay Hl He.
  destruct (advance_playing c now Hok Hc) as (id & _ & Hadv & Hok').
  destruct (onFrame_end limit now (transportOf c) Hl Hplay) as [Hstop Hend]; [simpl; lra|].
  eexists. split_and!; [done..| | | |]; try done.
  - intros (_ & Hb & _). rewrite Hstop in Hb. simpl in Hb. congruence.
Qed.

(** ** Worked runs *)

(** Play was pressed at second one; three frames follow, the last a second
    later.  The timeline ends at second five. *)
Lemma frames_refine_witness :
  exists c',
    runO advance [1017; 1034; 2001]%Z clockPlaying = Some c' /\
    clock_ok c' /\ committed c' = Some true /\
    same (transportOf c') (onFrames 5 [1017; 1034; 2001]%Z (transportOf clockPlaying)) /\
    tr_playing (onFrames 5 [1017; 1034; 2001]%Z (transportOf clockPlaying)) = true /\
    timelineClips (app c') = timelineClips (app clockPlaying).
Proof.
  apply (frames_refine 5 [1017; 1034; 2001]%Z clockPlaying (transportOf clockPlaying)).
  - apply clockPlaying_ok.
  - reflexivity.
  - reflexivity.
  - reflexivity.
  - apply (bool_decide_unpack _). by vm_compute.
Defined.

(** A frame six seconds later: the design is at the end and has stopped,
    [App] is a second past the end and plays on. *)
Example scenario_past_the_end :
  let t := onFrame 5 7001 (transportOf clockPlaying) in
  let c' := default clockPlaying (advance clockPlaying 7001) in
  tr_playing t = false /\ tr_playhead t == 5 /\
  isVideoPlaying (app c') = true /\ currentTimelineTime (app c') == 6001 # 1000.
Proof. by vm_compute. Qed.
