(* ===== verification/Host.v ===== *)
(** * Host: what the main process calls

    The main process (src/public/electron.js) works through services it does
    not implement: the file system ([fs]), the ffmpeg wrapper
    ([fluent-ffmpeg]) and the channel to the renderer ([event.sender]).  This
    file states what the handlers rely on.

    - [FileSystem] is the interface to [fs]: the synchronous calls the
      sources make ([statSync], [readFileSync], [writeFileSync],
      [unlinkSync]) and the observation [existsSync], with the laws the
      handlers' theorems use.  [Disk] is a
      model of it (a finite map from paths to contents, with a set of
      protected paths on which writing and unlinking fail) and discharges
      the laws; the handlers' theorems are proved for every [FileSystem].
    - [FfmpegEvent] are the events a [fluent-ffmpeg] command emits to the
      listeners registered with [.on]: any number of [progress] events, then
      [end] or [error].
    - [Message] is a message sent to the renderer with
      [event.sender.send(channel, data)].
    - [MainState] is what a handler of the main process can change. *)

From Stdlib Require Import QArith ZArith List.
From stdpp Require Import base tactics option list strings gmap sets.
From S2P Require Import Prelude.

(** ** The file system *)

Class FileSystem (F : Type) := {
  existsSync : string -> F -> bool;
  (** [fs.statSync(p).size] *)
  statSync : string -> F -> result JsError N;
  readFileSync : string -> F -> result JsError string;
  writeFileSync : string -> string -> F -> result JsError F;
  unlinkSync : string -> F -> result JsError F;
  (** exactly the files that exist have a size *)
  fs_stat_exists p fs : is_Ok (statSync p fs) <-> existsSync p fs = true;
  (** a file that can be read exists *)
  fs_read_exists p fs data : readFileSync p fs = Ok data -> existsSync p fs = true;
  (** a write is read back, and a written file exists *)
  fs_write_read p data fs fs' :
    writeFileSync p data fs = Ok fs' -> readFileSync p fs' = Ok data;
  (** a write touches no other path *)
  fs_write_other p data fs fs' q :
    writeFileSync p data fs = Ok fs' -> p <> q ->
    readFileSync q fs' = readFileSync q fs /\ existsSync q fs' = existsSync q fs;
  (** an unlinked file is gone *)
  fs_unlink_gone p fs fs' : unlinkSync p fs = Ok fs' -> existsSync p fs' = false;
  (** an unlink touches no other path *)
  fs_unlink_other p fs fs' q :
    unlinkSync p fs = Ok fs' -> p <> q ->
    readFileSync q fs' = readFileSync q fs /\ existsSync q fs' = existsSync q fs;
  (** unlinking a file that does not exist throws *)
  fs_unlink_missing p fs : existsSync p fs = false -> is_Throw (unlinkSync p fs);
}.

(** A written file exists. *)
Lemma fs_write_exists `{FileSystem F} p data (fs fs' : F) :
  writeFileSync p data fs = Ok fs' -> existsSync p fs' = true.
Proof. intros Hw. eapply fs_read_exists, fs_write_read, Hw. Qed.

(** *** A model of the file system *)

Record Disk := mkDisk {
  files : gmap string string;
  protected : gset string;
}.

Definition disk_exists (p : string) (d : Disk) : bool :=
  bool_decide (is_Some (files d !! p)).

Definition disk_stat (p : string) (d : Disk) : result JsError N :=
  match files d !! p with
  | Some data => Ok (N.of_nat (String.length data))
  | None => Throw (SystemError "ENOENT" p)
  end.

Definition disk_read (p : string) (d : Disk) : result JsError string :=
  match files d !! p with
  | Some data => Ok data
  | None => Throw (SystemError "ENOENT" p)
  end.

Definition disk_write (p data : string) (d : Disk) : result JsError Disk :=
  if decide (p ∈ protected d) then Throw (SystemError "EACCES" p)
  else Ok {| files := <[p := data]> (files d); protected := protected d |}.

Definition disk_unlink (p : string) (d : Disk) : result JsError Disk :=
  match files d !! p with
  | None => Throw (SystemError "ENOENT" p)
  | Some _ =>
      if decide (p ∈ protected d) then Throw (SystemError "EPERM" p)
      else Ok {| files := delete p (files d); protected := protected d |}
  end.

#[global, refine] Instance Disk_fs : FileSystem Disk := {|
  existsSync := disk_exists;
  statSync := disk_stat;
  readFileSync := disk_read;
  writeFileSync := disk_write;
  unlinkSync := disk_unlink;
|}.
Proof.
  - intros p d. unfold disk_stat, disk_exists. rewrite bool_decide_eq_true.
    destruct (files d !! p); split; try done; [by eexists|by intros [? ?]..].
  - intros p d data. unfold disk_read, disk_exists.
    destruct (files d !! p) eqn:E; [|done]. intros _. by apply bool_decide_eq_true.
  - intros p data d d'. unfold disk_write, disk_read. case_decide; [done|].
    intros [= <-]; simpl. by rewrite lookup_insert_eq.
  - intros p data d d' q. unfold disk_write, disk_read, disk_exists.
    case_decide; [done|]. intros [= <-] Hne; simpl. by rewrite lookup_insert_ne.
  - intros p d d'. unfold disk_unlink, disk_exists.
    destruct (files d !! p); [|done]. case_decide; [done|]. intros [= <-]; simpl.
    rewrite lookup_delete_eq. apply bool_decide_eq_false. by intros [? ?].
  - intros p d d' q. unfold disk_unlink, disk_read, disk_exists.
    destruct (files d !! p); [|done]. case_decide; [done|]. intros [= <-] Hne; simpl.
    by rewrite lookup_delete_ne.
  - intros p d. unfold disk_exists, disk_unlink. intros Hex.
    destruct (files d !! p) eqn:E; [|by eexists].
    apply bool_decide_eq_false in Hex. destruct Hex. by eexists.
Defined.

(** The empty disk, and a disk with the given files. *)
Definition emptyDisk : Disk := {| files := ∅; protected := ∅ |}.

Definition diskOf (l : list (string * string)) : Disk :=
  {| files := list_to_map l; protected := ∅ |}.

(** ** ffmpeg *)

(** What a command emits.  [percent] is [p.percent], which fluent-ffmpeg
    leaves undefined when it cannot compute it. *)
Inductive FfmpegEvent :=
| FfProgress (percent : option Q)
| FfEnd
| FfError (e : JsError).

(** A command as the builder calls assemble it. *)
Record FfmpegCommand := mkCommand {
  ff_input : option string;
  ff_inputOptions : list string;
  ff_startTime : option Q;
  ff_duration : option Q;
  ff_videoCodec : option string;
  ff_audioCodec : option string;
  ff_outputOptions : list string;
  ff_output : string;
}.

(** ** Messages to the renderer *)

Record Message := mkMessage {
  msg_channel : string;
  msg_data : option Q;
}.

(** ** The main process state a handler touches

    The files, whether the renderer that sent the request is still there,
    what was sent to it, and the lines passed to [console.error] and
    [console.warn]. *)

Record MainState (F : Type) := mkMain {
  fs : F;
  senderAlive : bool;
  sent : list Message;
  console : list string;
}.
Arguments mkMain {F}.
Arguments fs {F}.
Arguments senderAlive {F}.
Arguments sent {F}.
Arguments console {F}.

Definition withFs {F} (f : F) (st : MainState F) : MainState F :=
  {| fs := f; senderAlive := senderAlive st; sent := sent st; console := console st |}.

(** [console.error] / [console.warn] *)
Definition logLine {F} (line : string) (st : MainState F) : MainState F :=
  {| fs := fs st; senderAlive := senderAlive st; sent := sent st;
     console := console st ++ [line] |}.
