(* ===== verification/Export.v ===== *)
(** * Export: the [export-timeline] and [trim-video] handlers

    Models the two ffmpeg job handlers of src/public/electron.js.

    [export-timeline] writes a concat manifest (one [file '<path>'] line per
    clip, in the order given, backslashes turned into slashes), builds one
    ffmpeg command over it with fixed output options, forwards the engine's
    progress events to the renderer while the sender is alive, and on [end]
    or [error] unlinks the manifest before settling the promise; a failing
    unlink is logged and changes nothing else.  [trim-video] builds a stream
    copy command and forwards progress; it has nothing to clean up.

    The handler is split the way it runs: [exportStart] is the synchronous
    part up to [.run()], [exportOn] the listener that runs per engine event,
    [exportTimeline] both over a whole engine run ([jobRun]).  All of it is stated over an
    arbitrary [FileSystem]; [tempDir] is [app.getPath('temp')] and [pathJoin]
    is [path.join].

    Theorems: the manifest lists the clips' paths in the order given and
    depends on nothing else; a run settles with the output path or the
    engine's error and leaves no manifest behind; the renderer receives the
    engine's progress values in order; a second export is accepted while one
    runs, and two exports started in the same millisecond share and destroy
    each other's manifest; a quote in a path makes two different clip lists
    produce the same manifest. *)

From Stdlib Require Import QArith ZArith List Ascii String.
From stdpp Require Import base tactics option list strings pretty gmap sets.
From S2P Require Import Prelude Timeline Host.

(** ** The manifest *)

Definition backslash : ascii := "092"%char.
Definition newline : string := String "010"%char EmptyString.

(** [filePath.replace(/\\/g, '/')] *)
Fixpoint normalizeSeparators (s : string) : string :=
  match s with
  | EmptyString => EmptyString
  | String c s' =>
      String (if Ascii.eqb c backslash then "/"%char else c) (normalizeSeparators s')
  end.

(** [clip.media?.path || clip.path] *)
Definition clipFilePath (c : Clip) : option string :=
  orStr (clip_media c ≫= media_path) (clip_path c).

(** The manifest line of a path. *)
Definition fileLine (p : string) : string :=
  "file '" +:+ normalizeSeparators p +:+ "'".

(** The callback of [clips.map]: calling [replace] on [undefined] throws. *)
Definition concatLine (c : Clip) : result JsError string :=
  match clipFilePath c with
  | Some p => Ok (fileLine p)
  | None => Throw (TypeError "Cannot read properties of undefined (reading 'replace')")
  end.

(** [clips.map(...)]: stops at the first callback that throws. *)
Fixpoint concatLines (clips : list Clip) : result JsError (list string) :=
  match clips with
  | [] => Ok []
  | c :: cs => l ← concatLine c; ls ← concatLines cs; Ok (l :: ls)
  end.

(** [clips.map(...).join('\n')] *)
Definition concatContent (clips : list Clip) : result JsError string :=
  ls ← concatLines clips; Ok (String.concat newline ls).

(** ** Jobs *)

(** What happens while a job runs: the engine emits an event, or the
    renderer's window goes away. *)
Inductive RunEvent :=
| Engine (ev : FfmpegEvent)
| SenderDestroyed.

(** A started export: the manifest it wrote, its command and the path its
    promise resolves to. *)
Record ExportJob := mkExportJob {
  job_concatFile : string;
  job_command : FfmpegCommand;
  job_outputPath : string;
}.

Section Handlers.
Context {F : Type} `{!FileSystem F}.
Context (tempDir : string) (pathJoin : string -> string -> string).

(** [if (event.sender && !event.sender.isDestroyed()) event.sender.send(channel, p.percent)] *)
Definition sendProgress (channel : string) (percent : option Q) (st : MainState F) : MainState F :=
  if senderAlive st then
    {| fs := fs st; senderAlive := true;
       sent := sent st ++ [mkMessage channel percent]; console := console st |}
  else st.

(** ** [export-timeline] *)

(** [path.join(app.getPath('temp'), `concat_${Date.now()}.txt`)] *)
Definition concatFile (now : Z) : string :=
  pathJoin tempDir ("concat_" +:+ pretty now +:+ ".txt").

(** The command built by the [ffmpeg()] chain. *)
Definition exportCommand (manifest outputPath resolution : string) : FfmpegCommand :=
  {| ff_input := Some manifest;
     ff_inputOptions := ["-f concat"; "-safe 0"];
     ff_startTime := None; ff_duration := None;
     ff_videoCodec := None; ff_audioCodec := None;
     ff_outputOptions :=
       ["-c:v libx264"; "-preset fast"; "-crf 23"; "-s " +:+ resolution;
        "-c:a aac"; "-movflags +faststart"];
     ff_output := outputPath |}.

(** The handler up to [.run()]: build the manifest, write it, start the
    command.  Whatever throws is logged and thrown again. *)
Definition exportStart (now : Z) (clips : list Clip) (outputPath : string)
    (resolution : option string) (st : MainState F)
    : result JsError ExportJob * MainState F :=
  let manifest := concatFile now in
  match content ← concatContent clips; writeFileSync manifest content (fs st) with
  | Ok fs' =>
      (Ok {| job_concatFile := manifest;
             job_command := exportCommand manifest outputPath (default "1920x1080" resolution);
             job_outputPath := outputPath |},
       withFs fs' st)
  | Throw e => (Throw e, logLine "Error exporting timeline:" st)
  end.

(** [try { fs.unlinkSync(concatFile) } catch (err) { console.warn(...) }] *)
Definition removeManifest (manifest : string) (st : MainState F) : MainState F :=
  match unlinkSync manifest (fs st) with
  | Ok fs' => withFs fs' st
  | Throw _ => logLine "Could not delete concat file:" st
  end.

(** The listeners of the export command: the new state, and the settlement
    of the promise when the event is a final one. *)
Definition exportOn (j : ExportJob) (ev : FfmpegEvent) (st : MainState F)
    : MainState F * option (result JsError string) :=
  match ev with
  | FfProgress p => (sendProgress "export-progress" p st, None)
  | FfEnd => (removeManifest (job_concatFile j) st, Some (Ok (job_outputPath j)))
  | FfError e => (removeManifest (job_concatFile j) st, Some (Throw e))
  end.

(** [webContents] is destroyed. *)
Definition destroySender (st : MainState F) : MainState F :=
  {| fs := fs st; senderAlive := false; sent := sent st; console := console st |}.

(** A job over a run of events.  A promise settles once: the first
    settlement stays, later events still run the listeners. *)
Fixpoint jobRun (on : FfmpegEvent -> MainState F -> MainState F * option (result JsError string))
    (evs : list RunEvent) (st : MainState F)
    : MainState F * option (result JsError string) :=
  match evs with
  | [] => (st, None)
  | SenderDestroyed :: evs => jobRun on evs (destroySender st)
  | Engine ev :: evs =>
      let '(st1, r1) := on ev st in
      let '(st2, r2) := jobRun on evs st1 in
      (st2, match r1 with Some r => Some r | None => r2 end)
  end.

(** The whole handler over one engine run. *)
Definition exportTimeline (now : Z) (clips : list Clip) (outputPath : string)
    (resolution : option string) (evs : list RunEvent) (st : MainState F)
    : MainState F * option (result JsError string) :=
  match exportStart now clips outputPath resolution st with
  | (Ok j, st1) => jobRun (exportOn j) evs st1
  | (Throw e, st1) => (st1, Some (Throw e))
  end.

(** ** [trim-video] *)

Definition trimCommand (inputPath outputPath : string) (startTime duration : Q)
    : FfmpegCommand :=
  {| ff_input := Some inputPath;
     ff_inputOptions := [];
     ff_startTime := Some startTime; ff_duration := Some duration;
     ff_videoCodec := Some "copy"; ff_audioCodec := Some "copy";
     ff_outputOptions := [];
     ff_output := outputPath |}.

(** The listeners of the trim command. *)
Definition trimOn (outputPath : string) (ev : FfmpegEvent) (st : MainState F)
    : MainState F * option (result JsError string) :=
  match ev with
  | FfProgress p => (sendProgress "trim-progress" p st, None)
  | FfEnd => (st, Some (Ok outputPath))
  | FfError e => (st, Some (Throw e))
  end.

Definition trimVideo (inputPath outputPath : string) (startTime duration : Q)
    (evs : list RunEvent) (st : MainState F)
    : MainState F * option (result JsError string) :=
  jobRun (trimOn outputPath) evs st.

End Handlers.

(** ** The manifest lists the paths in order *)

Lemma concatLines_Ok clips ps :
  Forall2 (fun c p => clipFilePath c = Some p) clips ps ->
  concatLines clips = Ok (map fileLine ps).
Proof.
  induction 1 as [|c p cs ps Hc _ IH]; simpl; [done|].
  unfold concatLine. by rewrite Hc, IH.
Qed.

Lemma concatLines_Throw clips :
  Exists (fun c => clipFilePath c = None) clips -> is_Throw (concatLines clips).
Proof.
  induction 1 as [c cs Hc|c cs _ [e IH]]; simpl; unfold concatLine.
  - rewrite Hc. by eexists.
  - destruct (clipFilePath c); [|by eexists]. simpl. rewrite IH. by eexists.
Qed.

(** C15. The manifest is a function of the clips' file paths alone, in the
    order the clips are given: one [file '...'] line per clip, joined by
    newlines.  Start times and trim bounds play no part. *)
Theorem concatContent_paths clips ps :
  Forall2 (fun c p => clipFilePath c = Some p) clips ps ->
  concatContent clips = Ok (String.concat newline (map fileLine ps)).
Proof. intros H. unfold concatContent. by rewrite (concatLines_Ok clips ps H). Qed.

(** A clip with neither [media.path] nor [path] makes the handler throw
    before it writes anything. *)
Lemma concatContent_Throw clips :
  Exists (fun c => clipFilePath c = None) clips -> is_Throw (concatContent clips).
Proof.
  intros [e He]%concatLines_Throw. unfold concatContent. rewrite He. by eexists.
Qed.

(** ** Separators *)

Lemma normalizeSeparators_length s :
  String.length (normalizeSeparators s) = String.length s.
Proof. induction s as [|c s IH]; simpl; congruence. Qed.

(** Normalisation leaves no backslash, changes no other character and
    keeps the length; a path without backslash is left as it is. *)
Theorem normalizeSeparators_spec s :
  occurs backslash (normalizeSeparators s) = false /\
  String.length (normalizeSeparators s) = String.length s /\
  (forall i, String.get i (normalizeSeparators s)
             = (fun c => if Ascii.eqb c backslash then "/"%char else c) <$> String.get i s) /\
  (occurs backslash s = false -> normalizeSeparators s = s).
Proof.
  split_and!; [| apply normalizeSeparators_length | |].
  - induction s as [|c s IH]; simpl; [done|]. rewrite IH, orb_false_r.
    destruct (Ascii.eqb c backslash) eqn:E; [reflexivity|done].
  - induction s as [|c s IH]; intros [|i]; simpl; auto.
  - induction s as [|c s IH]; simpl; [done|].
    intros [Hc Hs]%orb_false_iff. by rewrite Hc, IH.
Qed.

(** ** Outcome of a run *)

(** How an engine run ends: [None] for [end], [Some e] for [error]. *)
Definition finalEvent (final : option JsError) : FfmpegEvent :=
  match final with
  | None => FfEnd
  | Some e => FfError e
  end.

(** What the promise settles with. *)
Definition settlement (final : option JsError) (outputPath : string)
    : result JsError string :=
  match final with
  | None => Ok outputPath
  | Some e => Throw e
  end.

(** The progress values that reach the renderer: those emitted while the
    sender is alive. *)
Fixpoint forwarded (alive : bool) (evs : list RunEvent) : list (option Q) :=
  match evs with
  | [] => []
  | SenderDestroyed :: evs => forwarded false evs
  | Engine (FfProgress p) :: evs =>
      if alive then p :: forwarded alive evs else forwarded alive evs
  | Engine _ :: evs => forwarded alive evs
  end.

(** A run of progress events. *)
Definition progressEvents (ps : list (option Q)) : list RunEvent :=
  map (fun p => Engine (FfProgress p)) ps.

Section Outcome.
Context {F : Type} `{!FileSystem F}.
Context (tempDir : string) (pathJoin : string -> string -> string).

#[local] Abbreviation exportStart := (exportStart tempDir pathJoin).
#[local] Abbreviation exportTimeline := (exportTimeline tempDir pathJoin).
#[local] Abbreviation concatFile := (concatFile tempDir pathJoin).

Lemma sendProgress_fs channel p (st : MainState F) :
  fs (sendProgress channel p st) = fs st /\
  console (sendProgress channel p st) = console st /\
  senderAlive (sendProgress channel p st) = senderAlive st.
Proof. unfold sendProgress. by destruct (senderAlive st) eqn:E. Qed.

(** Progress events settle nothing and leave the files alone. *)
Lemma jobRun_progress on ps (st : MainState F) :
  (forall p st, (on (FfProgress p) st).2 = None /\ fs (on (FfProgress p) st).1 = fs st) ->
  (jobRun on (progressEvents ps) st).2 = None /\
  fs (jobRun on (progressEvents ps) st).1 = fs st.
Proof.
  intros Hon. revert st. induction ps as [|p ps IH]; intros st; simpl; [done|].
  destruct (Hon p st) as [Hr Hf]. destruct (on (FfProgress p) st) as [st1 r1].
  simpl in *. subst r1. destruct (IH st1) as [Hr' Hf'].
  destruct (jobRun on (progressEvents ps) st1) as [st2 r2]. simpl in *.
  by rewrite Hr', Hf', Hf.
Qed.

Lemma jobRun_app on evs1 evs2 (st : MainState F) :
  jobRun on (evs1 ++ evs2) st
  = let '(st1, r1) := jobRun on evs1 st in
    let '(st2, r2) := jobRun on evs2 st1 in
    (st2, match r1 with Some r => Some r | None => r2 end).
Proof.
  revert st. induction evs1 as [|[ev|] evs1 IH]; intros st; simpl.
  - by destruct (jobRun on evs2 st).
  - destruct (on ev st) as [st1 r1]. rewrite IH.
    destruct (jobRun on evs1 st1) as [st2 r2].
    destruct (jobRun on evs2 st2) as [st3 r3]. by destruct r1.
  - apply IH.
Qed.

Lemma exportOn_progress j p (st : MainState F) :
  (exportOn j (FfProgress p) st).2 = None /\
  fs (exportOn j (FfProgress p) st).1 = fs st.
Proof. simpl. split; [done|]. apply sendProgress_fs. Qed.

Lemma removeManifest_gone manifest (st : MainState F) :
  is_Ok (unlinkSync manifest (fs st)) ->
  existsSync manifest (fs (removeManifest manifest st)) = false.
Proof.
  intros [fs' Hu]. unfold removeManifest. rewrite Hu. simpl.
  by eapply fs_unlink_gone.
Qed.

Lemma removeManifest_failed manifest (st : MainState F) :
  is_Throw (unlinkSync manifest (fs st)) ->
  fs (removeManifest manifest st) = fs st /\
  console (removeManifest manifest st) = console st ++ ["Could not delete concat file:"].
Proof. intros [e Hu]. unfold removeManifest. by rewrite Hu. Qed.

(** A started export that runs to its final event. *)
Lemma exportRun_final j ps final (st : MainState F) :
  jobRun (exportOn j) (progressEvents ps ++ [Engine (finalEvent final)]) st
  = (removeManifest (job_concatFile j) (jobRun (exportOn j) (progressEvents ps) st).1,
     Some (settlement final (job_outputPath j))).
Proof.
  rewrite jobRun_app.
  destruct (jobRun_progress (exportOn j) ps st (exportOn_progress j)) as [Hr _].
  destruct (jobRun (exportOn j) (progressEvents ps) st) as [st1 r1].
  simpl in Hr. subst r1. by destruct final.
Qed.

(** C3. Export, every exit path: if building or writing the manifest
    throws, the promise rejects with that error and no file has changed;
    otherwise the promise settles with the output path on [end] and with the
    engine's error on [error], and in both cases the manifest is unlinked
    first: it is gone when unlinking succeeds, and when it fails only a
    warning is logged and the outcome is the same. *)
Theorem exportTimeline_outcome now clips outputPath resolution ps final (st : MainState F) :
  let run := exportTimeline now clips outputPath resolution
               (progressEvents ps ++ [Engine (finalEvent final)]) st in
  match content ← concatContent clips; writeFileSync (concatFile now) content (fs st) with
  | Throw e => run.2 = Some (Throw e) /\ fs run.1 = fs st
  | Ok fs1 =>
      run.2 = Some (settlement final outputPath) /\
      (is_Ok (unlinkSync (concatFile now) fs1) ->
         existsSync (concatFile now) (fs run.1) = false) /\
      (is_Throw (unlinkSync (concatFile now) fs1) ->
         fs run.1 = fs1 /\ last (console run.1) = Some "Could not delete concat file:")
  end.
Proof.
  intros run. subst run. unfold exportTimeline, Export.exportTimeline, Export.exportStart.
  destruct (_ ≫= _) as [fs1|e] eqn:Hstart; [|done].
  rewrite exportRun_final; simpl.
  destruct (jobRun_progress (exportOn {| job_concatFile := concatFile now;
              job_command := exportCommand (concatFile now) outputPath (default "1920x1080" resolution);
              job_outputPath := outputPath |}) ps (withFs fs1 st) (exportOn_progress _)) as [_ Hfs].
  simpl in Hfs. split_and!; [done| |].
  - intros Hu. apply removeManifest_gone. by rewrite Hfs.
  - intros Hu. destruct (removeManifest_failed (concatFile now) _ ltac:(by rewrite Hfs)) as [-> ->].
    by rewrite last_snoc.
Qed.

End Outcome.

(** ** Progress reaches the renderer in order *)

Section Progress.
Context {F : Type} `{!FileSystem F}.

Lemma removeManifest_sent manifest (st : MainState F) :
  sent (removeManifest manifest st) = sent st /\
  senderAlive (removeManifest manifest st) = senderAlive st.
Proof. unfold removeManifest. by destruct (unlinkSync _ _). Qed.

Lemma sendProgress_sent channel p (st : MainState F) :
  sent (sendProgress channel p st)
  = sent st ++ (if senderAlive st then [mkMessage channel p] else []).
Proof. unfold sendProgress. destruct (senderAlive st); simpl; by rewrite ?app_nil_r. Qed.

(** What a listener does to the renderer's channel: a progress event sends
    its value on [channel] when the sender is alive, the other events send
    nothing; none changes whether the sender is alive. *)
Definition forwards (channel : string)
    (on : FfmpegEvent -> MainState F -> MainState F * option (result JsError string)) : Prop :=
  forall ev st,
    senderAlive (on ev st).1 = senderAlive st /\
    sent (on ev st).1
    = sent st ++ match ev with
                 | FfProgress p => if senderAlive st then [mkMessage channel p] else []
                 | _ => []
                 end.

Lemma exportOn_forwards j : forwards "export-progress" (exportOn j).
Proof.
  intros [p| |e] st; simpl; rewrite ?app_nil_r.
  - split; [apply sendProgress_fs|apply sendProgress_sent].
  - split; apply removeManifest_sent.
  - split; apply removeManifest_sent.
Qed.

Lemma trimOn_forwards outputPath : forwards "trim-progress" (trimOn outputPath).
Proof.
  intros [p| |e] st; simpl; rewrite ?app_nil_r; [|done..].
  split; [apply sendProgress_fs|apply sendProgress_sent].
Qed.

Lemma jobRun_sent channel on evs (st : MainState F) :
  forwards channel on ->
  sent (jobRun on evs st).1
  = sent st ++ map (mkMessage channel) (forwarded (senderAlive st) evs).
Proof.
  intros Hon. revert st. induction evs as [|[ev|] evs IH]; intros st; simpl.
  - by rewrite app_nil_r.
  - destruct (Hon ev st) as [Ha Hs]. destruct (on ev st) as [st1 r1]. simpl in *.
    specialize (IH st1). destruct (jobRun on evs st1) as [st2 r2]. simpl in *.
    rewrite IH, Hs, Ha, <- app_assoc. f_equal.
    destruct ev as [p| |e]; [|done..]. by destruct (senderAlive st).
  - apply IH.
Qed.

(** C25. The renderer receives on [export-progress] exactly the progress
    values the engine emits while the sender is alive, in the order the
    engine emits them, and nothing else. *)
Theorem exportOn_progress_stream j evs (st : MainState F) :
  sent (jobRun (exportOn j) evs st).1
  = sent st ++ map (mkMessage "export-progress") (forwarded (senderAlive st) evs).
Proof. apply jobRun_sent, exportOn_forwards. Qed.

Lemma forwarded_progress alive ps :
  forwarded alive (progressEvents ps) = if alive then ps else [].
Proof. induction ps as [|p ps IH]; destruct alive; simpl in *; congruence. Qed.

Lemma forwarded_app alive evs1 evs2 :
  forwarded alive (evs1 ++ evs2)
  = forwarded alive evs1
    ++ forwarded (alive && forallb (fun ev => match ev with SenderDestroyed => false | _ => true end) evs1) evs2.
Proof.
  revert alive. induction evs1 as [|[[p| |e]|] evs1 IH]; intros alive; simpl.
  - by rewrite andb_true_r.
  - rewrite IH. by destruct alive.
  - by rewrite IH.
  - by rewrite IH.
  - by rewrite IH, andb_false_r.
Qed.

(** Trim, every exit path: the promise settles with the output path on
    [end] and with the engine's error on [error]; the progress values reach
    the renderer on [trim-progress] in order; no file is touched by the
    handler itself (it leaves whatever the engine wrote). *)
Theorem trimVideo_outcome inputPath outputPath startTime duration ps final (st : MainState F) :
  let run := trimVideo inputPath outputPath startTime duration
               (progressEvents ps ++ [Engine (finalEvent final)]) st in
  run.2 = Some (settlement final outputPath) /\
  fs run.1 = fs st /\
  sent run.1 = sent st ++ map (mkMessage "trim-progress") (if senderAlive st then ps else []).
Proof.
  intros run. subst run. unfold trimVideo. split_and!.
  - rewrite jobRun_app.
    destruct (jobRun_progress (trimOn outputPath) ps st) as [Hr _].
    { intros p st'. split; [done|apply sendProgress_fs]. }
    destruct (jobRun (trimOn outputPath) (progressEvents ps) st) as [st1 r1].
    simpl in Hr. subst r1. by destruct final.
  - rewrite jobRun_app.
    destruct (jobRun_progress (trimOn outputPath) ps st) as [_ Hf].
    { intros p st'. split; [done|apply sendProgress_fs]. }
    destruct (jobRun (trimOn outputPath) (progressEvents ps) st) as [st1 r1].
    simpl in Hf. by destruct final.
  - rewrite (jobRun_sent "trim-progress") by apply trimOn_forwards.
    rewrite forwarded_app, forwarded_progress. f_equal. f_equal.
    destruct final, (senderAlive st), (forallb _ _); simpl; by rewrite ?app_nil_r.
Qed.

End Progress.

(** ** Exports are not serialised *)

Section Concurrent.
Context {F : Type} `{!FileSystem F}.
Context (tempDir : string) (pathJoin : string -> string -> string).

#[local] Abbreviation exportStart := (exportStart tempDir pathJoin).

Lemma exportStart_Ok now clips outputPath resolution (st st1 : MainState F) j :
  exportStart now clips outputPath resolution st = (Ok j, st1) ->
  exists content,
    concatContent clips = Ok content /\
    writeFileSync (concatFile tempDir pathJoin now) content (fs st) = Ok (fs st1) /\
    job_concatFile j = concatFile tempDir pathJoin now /\
    job_outputPath j = outputPath.
Proof.
  unfold exportStart, Export.exportStart.
  destruct (concatContent clips) as [content|e] eqn:Hc; simpl; [|done].
  destruct (writeFileSync _ _ _) as [fs'|e] eqn:Hw; [|done].
  intros [= <- <-]. by exists content.
Qed.

(** C39. Nothing keeps a second export from starting while one runs, and
    the manifest's name is the millisecond: two exports started in the same
    millisecond use one manifest, the first job's engine reads the second
    job's clip list, and when the first job ends it unlinks the manifest the
    second job is still running on. *)
Theorem export_same_millisecond now clips1 clips2 out1 out2 res1 res2
    (st st1 st2 : MainState F) j1 j2 :
  exportStart now clips1 out1 res1 st = (Ok j1, st1) ->
  exportStart now clips2 out2 res2 st1 = (Ok j2, st2) ->
  ff_input (job_command j1) = ff_input (job_command j2) /\
  (exists content2, concatContent clips2 = Ok content2 /\
     (ff_input (job_command j1) ≫= fun p => Some (readFileSync p (fs st2)))
     = Some (Ok content2)) /\
  (is_Ok (unlinkSync (job_concatFile j1) (fs st2)) ->
   existsSync (job_concatFile j2) (fs (exportOn j1 FfEnd st2).1) = false).
Proof.
  intros H1 H2.
  destruct (exportStart_Ok _ _ _ _ _ _ _ H1) as (c1 & Hc1 & Hw1 & Hf1 & _).
  destruct (exportStart_Ok _ _ _ _ _ _ _ H2) as (c2 & Hc2 & Hw2 & Hf2 & _).
  unfold exportStart, Export.exportStart in H1, H2.
  rewrite Hc1 in H1. rewrite Hc2 in H2. simpl in H1, H2.
  rewrite Hw1 in H1. rewrite Hw2 in H2. simplify_eq/=.
  split_and!; [done| |].
  - exists c2. split; [done|]. f_equal. by eapply fs_write_read.
  - intros Hu. by apply removeManifest_gone.
Qed.

End Concurrent.

(** ** Paths are not quoted *)

(** A clip that carries only a [path]. *)
Definition clipOfPath (p : string) : Clip :=
  {| clip_id := ""; clip_media := None; startTime := 0; clip_duration := 1;
     endTime := 1; track := 0; trimStart := 0; trimEnd := 1;
     clip_name := None; clip_path := Some p |}.

(** The manifest does not escape quotes or line breaks: one clip whose
    path contains [' newline file '] produces the same manifest as two
    clips, so the manifest does not determine the clip list. *)
Theorem concatContent_not_injective :
  exists clips1 clips2,
    length clips1 <> length clips2 /\
    is_Ok (concatContent clips1) /\
    concatContent clips1 = concatContent clips2.
Proof.
  exists [clipOfPath ("a'" +:+ newline +:+ "file 'b")], [clipOfPath "a"; clipOfPath "b"].
  split_and!; [simpl; lia| by eexists | reflexivity].
Qed.

(** ** A worked run on the disk model *)

Definition posixJoin (a b : string) : string := a +:+ "/" +:+ b.

Definition clipX : Clip := clipOfPath "C:\videos\x.mp4".
Definition clipY : Clip :=
  {| clip_id := "clip-2"; clip_media := Some (mkMedia None "y" None "video" 0 None (Some "/media/y.mp4"));
     startTime := 0; clip_duration := 1; endTime := 1; track := 0;
     trimStart := 0; trimEnd := 1; clip_name := None; clip_path := Some "ignored" |}.

Definition main0 : MainState Disk :=
  {| fs := emptyDisk; senderAlive := true; sent := []; console := [] |}.

(** Exporting [X; Y] lists X before Y, with slashes. *)
Example scenario_manifest_order :
  concatContent [clipX; clipY]
  = Ok ("file 'C:/videos/x.mp4'" +:+ newline +:+ "file '/media/y.mp4'").
Proof. reflexivity. Qed.

Lemma concatContent_paths_witness :
  concatContent [clipX; clipY]
  = Ok (String.concat newline (map fileLine ["C:\videos\x.mp4"; "/media/y.mp4"])).
Proof.
  apply (concatContent_paths [clipX; clipY] ["C:\videos\x.mp4"; "/media/y.mp4"]).
  repeat constructor.
Defined.

(** The manifest is on disk while the engine runs and gone after the run,
    whether the engine ends or fails. *)
Example scenario_manifest_removed :
  let manifest := concatFile "/tmp" posixJoin 1700000000000 in
  existsSync manifest (fs (exportStart "/tmp" posixJoin 1700000000000 [clipX; clipY] "/out.mp4" None main0).2) = true /\
  existsSync manifest
    (fs (exportTimeline "/tmp" posixJoin 1700000000000 [clipX; clipY] "/out.mp4" None
           [Engine (FfProgress (Some 50)); Engine FfEnd] main0).1) = false /\
  existsSync manifest
    (fs (exportTimeline "/tmp" posixJoin 1700000000000 [clipX; clipY] "/out.mp4" None
           [Engine (FfError (EngineError "ffmpeg exited with code 1"))] main0).1) = false.
Proof. by vm_compute. Qed.

(** The engine need not report 100 before it ends: the last value the
    renderer sees is then whatever came last. *)
Example scenario_progress_short :
  sent (exportTimeline "/tmp" posixJoin 1700000000000 [clipX; clipY] "/out.mp4" None
          [Engine (FfProgress (Some 10)); Engine (FfProgress (Some 50)); Engine FfEnd] main0).1
  = [mkMessage "export-progress" (Some 10); mkMessage "export-progress" (Some 50)].
Proof. by vm_compute. Qed.

Lemma export_same_millisecond_witness :
  let st1 := (exportStart "/tmp" posixJoin 5 [clipX] "/o1.mp4" None main0).2 in
  let st2 := (exportStart "/tmp" posixJoin 5 [clipY] "/o2.mp4" None st1).2 in
  let j1 := {| job_concatFile := "/tmp/concat_5.txt";
               job_command := exportCommand "/tmp/concat_5.txt" "/o1.mp4" "1920x1080";
               job_outputPath := "/o1.mp4" |} in
  let j2 := {| job_concatFile := "/tmp/concat_5.txt";
               job_command := exportCommand "/tmp/concat_5.txt" "/o2.mp4" "1920x1080";
               job_outputPath := "/o2.mp4" |} in
  ff_input (job_command j1) = ff_input (job_command j2) /\
  (exists content2, concatContent [clipY] = Ok content2 /\
     (ff_input (job_command j1) ≫= fun p => Some (readFileSync p (fs st2)))
     = Some (Ok content2)) /\
  (is_Ok (unlinkSync (job_concatFile j1) (fs st2)) ->
   existsSync (job_concatFile j2) (fs (exportOn j1 FfEnd st2).1) = false).
Proof.
  intros st1 st2 j1 j2.
  apply (export_same_millisecond "/tmp" posixJoin 5 [clipX] [clipY] "/o1.mp4" "/o2.mp4"
           None None main0 st1 st2 j1 j2); reflexivity.
Defined.
