(* ===== verification/Capture.v ===== *)
(** * Capture: the [ScreenRecorder] component

    Models src/src/components/ScreenRecorder.js: the component's five state
    cells and four refs, the handlers [loadScreenSources], [startRecording],
    [stopRecording], the recorder's [ondataavailable] and [onstop] callbacks,
    the timer callback and [formatTime].

    The handlers run against browser objects the component only holds
    handles of: media streams, [MediaRecorder]s, intervals and object URLs.
    [Browser] holds what the handlers can observe of them; a handle is a
    positive number taken from one counter, so that a ref that was never
    assigned ([null]) is [None] and [if (ref.current)] is a match on it.

    [startRecording] is asynchronous: it awaits [getUserMedia].  The part
    before the [await] and the part after it are two steps
    ([startRecording_click], [startRecording_granted] or
    [startRecording_denied]) with the request in flight in between, so that
    whatever the user or the browser does meanwhile is an interleaving of
    steps.  What the browser does on its own (a data chunk arrives, the
    [stop] event of a stopped recorder fires, an interval fires, the tracks
    of a stream end) is an event of [capture_step] as well.

    Stopping the tracks of a stream ([stopTracks], the [track.stop()] of
    [onstop]) does what the browser does when a stream ends: the stream
    is no longer live, and every recorder that still records it becomes
    inactive with its [stop] event queued ([endedOn]).  The [onstop] of one
    recorder can so end another, the one of a later start.

    Handlers are written in the [prog] monad of the prelude. *)

From Stdlib Require Import ZArith List Ascii Strings.Byte.
From stdpp Require Import base tactics option list strings pretty gmap sets.
From S2P Require Import Prelude.

#[local] Open Scope Z_scope.

(** ** Data *)

(** A capture source, as [get-screen-sources] returns it. *)
Record Source := mkSource {
  source_id : string;
  source_name : string;
  source_thumbnail : string;
  source_type : string;
}.

#[global] Instance Source_eq_dec : EqDecision Source.
Proof. solve_decision. Defined.

Record Blob := mkBlob {
  blob_data : list byte;
  blob_type : string;
}.

(** [blob.size] *)
Definition blob_size (b : Blob) : nat := length (blob_data b).

(** [new Blob(parts, { type })] *)
Definition newBlob (parts : list Blob) (type : string) : Blob :=
  {| blob_data := concat (map blob_data parts); blob_type := type |}.

(** The object handed to [onRecordingComplete]. *)
Record RecordingFile := mkRecordingFile {
  rec_name : string;
  rec_size : nat;
  rec_type : string;
  rec_url : nat;
  rec_blob : Blob;
  rec_isRecording : bool;
}.

(** [mediaRecorder.state] *)
Inductive RecorderState := inactive | recording | paused.

#[global] Instance RecorderState_eq_dec : EqDecision RecorderState.
Proof. solve_decision. Defined.

(** A [MediaRecorder]: the stream it records, its state, and whether its
    [stop] event is queued and has not fired yet. *)
Record MediaRecorder := mkMediaRecorder {
  mr_stream : nat;
  mr_state : RecorderState;
  mr_stopQueued : bool;
}.

(** ** State *)

(** The [useState] cells. *)
Record View := mkView {
  isRecording : bool;
  screenSources : list Source;
  selectedSource : option Source;
  recordingTime : Z;
  showSourceSelector : bool;
}.

(** The [useRef] cells. *)
Record Refs := mkRefs {
  mediaRecorderRef : option nat;
  streamRef : option nat;
  chunksRef : list Blob;
  timerRef : option nat;
}.

(** The browser objects behind the handles. *)
Record Browser := mkBrowser {
  recorders : gmap nat MediaRecorder;
  liveStreams : gset nat;
  intervals : gset nat;
  objectURLs : gset nat;
  nextId : nat;
}.

(** The component with its surroundings: the [getUserMedia] requests in
    flight (the source id each was made for), whether the source list is
    still being loaded, what [onRecordingComplete] received, and what went
    to [alert] and to the console. *)
Record Session := mkSession {
  view : View;
  refs : Refs;
  browser : Browser;
  requests : list string;
  loadPending : bool;
  delivered : list RecordingFile;
  alerts : list string;
  errors : list string;
}.

Definition initialSession (isElectron : bool) : Session :=
  {| view := {| isRecording := false; screenSources := []; selectedSource := None;
                recordingTime := 0; showSourceSelector := false |};
     refs := {| mediaRecorderRef := None; streamRef := None; chunksRef := [];
                timerRef := None |};
     browser := {| recorders := ∅; liveStreams := ∅; intervals := ∅; objectURLs := ∅;
                   nextId := 1 |};
     requests := [];
     loadPending := isElectron;
     delivered := []; alerts := []; errors := [] |}.

Definition onView (f : View -> View) (st : Session) : Session :=
  {| view := f (view st); refs := refs st; browser := browser st; requests := requests st;
     loadPending := loadPending st; delivered := delivered st; alerts := alerts st;
     errors := errors st |}.

Definition onRefs (f : Refs -> Refs) (st : Session) : Session :=
  {| view := view st; refs := f (refs st); browser := browser st; requests := requests st;
     loadPending := loadPending st; delivered := delivered st; alerts := alerts st;
     errors := errors st |}.

Definition onBrowser (f : Browser -> Browser) (st : Session) : Session :=
  {| view := view st; refs := refs st; browser := f (browser st); requests := requests st;
     loadPending := loadPending st; delivered := delivered st; alerts := alerts st;
     errors := errors st |}.

Definition withRequests (rs : list string) (st : Session) : Session :=
  {| view := view st; refs := refs st; browser := browser st; requests := rs;
     loadPending := loadPending st; delivered := delivered st; alerts := alerts st;
     errors := errors st |}.

(** A handler of the component. *)
Abbreviation handler := (prog Session JsError).

(** *** State setters *)

Definition setIsRecording (b : bool) : handler unit :=
  modify (onView (fun v => mkView b (screenSources v) (selectedSource v) (recordingTime v)
                             (showSourceSelector v))).

Definition setScreenSources (l : list Source) : handler unit :=
  modify (onView (fun v => mkView (isRecording v) l (selectedSource v) (recordingTime v)
                             (showSourceSelector v))).

Definition setSelectedSource (s : option Source) : handler unit :=
  modify (onView (fun v => mkView (isRecording v) (screenSources v) s (recordingTime v)
                             (showSourceSelector v))).

(** [setRecordingTime(prev => f prev)] *)
Definition setRecordingTime (f : Z -> Z) : handler unit :=
  modify (onView (fun v => mkView (isRecording v) (screenSources v) (selectedSource v)
                             (f (recordingTime v)) (showSourceSelector v))).

Definition setShowSourceSelector (b : bool) : handler unit :=
  modify (onView (fun v => mkView (isRecording v) (screenSources v) (selectedSource v)
                             (recordingTime v) b)).

(** *** Refs *)

Definition setMediaRecorderRef (r : nat) : handler unit :=
  modify (onRefs (fun r0 => mkRefs (Some r) (streamRef r0) (chunksRef r0) (timerRef r0))).

Definition setStreamRef (s : nat) : handler unit :=
  modify (onRefs (fun r0 => mkRefs (mediaRecorderRef r0) (Some s) (chunksRef r0) (timerRef r0))).

Definition setChunksRef (l : list Blob) : handler unit :=
  modify (onRefs (fun r0 => mkRefs (mediaRecorderRef r0) (streamRef r0) l (timerRef r0))).

(** [chunksRef.current.push(b)] *)
Definition pushChunk (b : Blob) : handler unit :=
  modify (onRefs (fun r0 => mkRefs (mediaRecorderRef r0) (streamRef r0) (chunksRef r0 ++ [b])
                              (timerRef r0))).

Definition setTimerRef (t : nat) : handler unit :=
  modify (onRefs (fun r0 => mkRefs (mediaRecorderRef r0) (streamRef r0) (chunksRef r0) (Some t))).

(** *** The browser *)

(** A handle no object has had. *)
Definition freshId : handler nat := fun st =>
  (Ok (nextId (browser st)),
   onBrowser (fun b => mkBrowser (recorders b) (liveStreams b) (intervals b) (objectURLs b)
                         (S (nextId b))) st).

Definition onRecorders (f : gmap nat MediaRecorder -> gmap nat MediaRecorder) : handler unit :=
  modify (onBrowser (fun b => mkBrowser (f (recorders b)) (liveStreams b) (intervals b)
                                (objectURLs b) (nextId b))).

Definition onLiveStreams (f : gset nat -> gset nat) : handler unit :=
  modify (onBrowser (fun b => mkBrowser (recorders b) (f (liveStreams b)) (intervals b)
                                (objectURLs b) (nextId b))).

Definition onIntervals (f : gset nat -> gset nat) : handler unit :=
  modify (onBrowser (fun b => mkBrowser (recorders b) (liveStreams b) (f (intervals b))
                                (objectURLs b) (nextId b))).

Definition onObjectURLs (f : gset nat -> gset nat) : handler unit :=
  modify (onBrowser (fun b => mkBrowser (recorders b) (liveStreams b) (intervals b)
                                (f (objectURLs b)) (nextId b))).

(** The stream a granted [getUserMedia] request resolves with. *)
Definition openStream : handler nat :=
  s ← freshId; onLiveStreams (union {[ s ]});; mret s.

(** [new MediaRecorder(stream, options)]; [thrown] is what the constructor
    throws, if it does (an unsupported [mimeType]). *)
Definition newMediaRecorder (stream : nat) (thrown : option JsError) : handler nat :=
  match thrown with
  | Some e => throw e
  | None =>
      r ← freshId;
      onRecorders (insert r (mkMediaRecorder stream inactive false));;
      mret r
  end.

(** [mediaRecorder.start(timeslice)] *)
Definition recorder_start (r : nat) (thrown : option JsError) : handler unit :=
  match thrown with
  | Some e => throw e
  | None => onRecorders (alter (fun m => mkMediaRecorder (mr_stream m) recording false) r)
  end.

(** [mediaRecorder.stop()]: the recorder is inactive at once; its last
    [dataavailable] and its [stop] event come later. *)
Definition recorder_stop (r : nat) : handler unit :=
  onRecorders (alter (fun m => mkMediaRecorder (mr_stream m) inactive true) r).

(** [mediaRecorderRef.current.state], when the ref holds a recorder *)
Definition recorder_state (st : Session) : option RecorderState :=
  r ← mediaRecorderRef (refs st); mr_state <$> recorders (browser st) !! r.

Definition setInterval : handler nat :=
  t ← freshId; onIntervals (union {[ t ]});; mret t.

Definition clearInterval (t : nat) : handler unit :=
  onIntervals (fun ts => ts ∖ {[ t ]}).

Definition createObjectURL : handler nat :=
  u ← freshId; onObjectURLs (union {[ u ]});; mret u.

Definition revokeObjectURL (u : nat) : handler unit :=
  onObjectURLs (fun us => us ∖ {[ u ]}).

(** What the end of the tracks of stream [s] does to a recorder. *)
Definition endedOn (s : nat) (m : MediaRecorder) : MediaRecorder :=
  if bool_decide (mr_stream m = s /\ mr_state m = recording)
  then mkMediaRecorder (mr_stream m) inactive true else m.

(** [stream.getTracks().forEach(track => track.stop())]: the stream is no
    longer live, and a recorder that still records it has nothing left to
    record: it becomes inactive and queues its [stop] event. *)
Definition stopTracks (s : nat) : handler unit :=
  onLiveStreams (fun ss => ss ∖ {[ s ]});;
  onRecorders (fmap (endedOn s)).

Definition alert (text : string) : handler unit := fun st =>
  (Ok tt,
   {| view := view st; refs := refs st; browser := browser st; requests := requests st;
      loadPending := loadPending st; delivered := delivered st;
      alerts := alerts st ++ [text]; errors := errors st |}).

(** [console.error] *)
Definition consoleError (text : string) : handler unit := fun st =>
  (Ok tt,
   {| view := view st; refs := refs st; browser := browser st; requests := requests st;
      loadPending := loadPending st; delivered := delivered st;
      alerts := alerts st; errors := errors st ++ [text] |}).

(** The [onRecordingComplete] prop. *)
Definition onRecordingComplete (f : RecordingFile) : handler unit := fun st =>
  (Ok tt,
   {| view := view st; refs := refs st; browser := browser st; requests := requests st;
      loadPending := loadPending st; delivered := delivered st ++ [f];
      alerts := alerts st; errors := errors st |}).

(** ** Handlers *)

(** [loadScreenSources], when [getScreenSources] has resolved. *)
Definition loadScreenSources (sources : list Source) : handler unit := fun st =>
  setScreenSources sources
    {| view := view st; refs := refs st; browser := browser st; requests := requests st;
       loadPending := false; delivered := delivered st; alerts := alerts st;
       errors := errors st |}.

(** The click on a source of the selector. *)
Definition selectSource (s : Source) : handler unit :=
  setSelectedSource (Some s);; setShowSourceSelector false.

(** The click on [Select Source]. *)
Definition toggleSourceSelector : handler unit :=
  b ← gets (fun st => showSourceSelector (view st)); setShowSourceSelector (negb b).

(** The [catch] of [startRecording]. *)
Definition startRecording_catch (e : JsError) : handler unit :=
  consoleError "Error starting recording:";;
  alert ("Failed to start recording: " +:+ message e).

(** [startRecording] up to the [await]: without a selected source it opens
    the selector and returns; otherwise it asks for the stream. *)
Definition startRecording_click : handler unit :=
  sel ← gets (fun st => selectedSource (view st));
  match sel with
  | None => setShowSourceSelector true
  | Some s => modify (fun st => withRequests (requests st ++ [source_id s]) st)
  end.

(** [mediaRecorder.ondataavailable] *)
Definition ondataavailable (data : Blob) : handler unit :=
  when (bool_decide (0 < blob_size data)%nat) (pushChunk data).

(** The object [onstop] builds; [stamp] is [new Date().toLocaleString()]. *)
Definition recordingFile (stamp : string) (blob : Blob) (url : nat) : RecordingFile :=
  {| rec_name := "Screen Recording " +:+ stamp +:+ ".webm";
     rec_size := blob_size blob;
     rec_type := "video/webm";
     rec_url := url;
     rec_blob := blob;
     rec_isRecording := true |}.

(** [mediaRecorder.onstop] *)
Definition onstop (stamp : string) : handler unit :=
  chunks ← gets (fun st => chunksRef (refs st));
  let blob := newBlob chunks "video/webm" in
  url ← createObjectURL;
  onRecordingComplete (recordingFile stamp blob url);;
  stream ← gets (fun st => streamRef (refs st));
  whenSome stream stopTracks;;
  revokeObjectURL url.

(** The interval's callback. *)
Definition timerTick : handler unit := setRecordingTime (fun prev => prev + 1).

(** [startRecording] after the [await], when the request was granted.
    [ctor] and [start] are what [new MediaRecorder] and [start] throw. *)
Definition startRecording_granted (ctor start : option JsError) : handler unit :=
  tryCatch
    (stream ← openStream;
     setStreamRef stream;;
     mediaRecorder ← newMediaRecorder stream ctor;
     setMediaRecorderRef mediaRecorder;;
     setChunksRef [];;
     recorder_start mediaRecorder start;;
     setIsRecording true;;
     setRecordingTime (fun _ => 0);;
     t ← setInterval;
     setTimerRef t)
    startRecording_catch.

(** [startRecording] after the [await], when the request was rejected. *)
Definition startRecording_denied (e : JsError) : handler unit :=
  tryCatch (throw e) startRecording_catch.

(** [stopRecording] *)
Definition stopRecording : handler unit :=
  state ← gets recorder_state;
  r ← gets (fun st => mediaRecorderRef (refs st));
  when (bool_decide (state = Some recording)) (whenSome r recorder_stop);;
  setIsRecording false;;
  setRecordingTime (fun _ => 0);;
  t ← gets (fun st => timerRef (refs st));
  whenSome t clearInterval.

(** The tracks of a stream end on their own (the source goes away, the
    user withdraws the permission), with the effect of stopping them. *)
Definition tracksEnded (s : nat) : handler unit := stopTracks s.

(** The [stop] event of recorder [r] fires. *)
Definition fireStop (r : nat) (stamp : string) : handler unit :=
  onRecorders (alter (fun m => mkMediaRecorder (mr_stream m) (mr_state m) false) r);;
  onstop stamp.

(** [s.padStart(n, pad)] for a pad of one character *)
Definition padStart (n : nat) (pad : Ascii.ascii) (s : string) : string :=
  Nat.iter (n - String.length s) (String pad) s.

(** [formatTime]; [%] is the remainder that takes the sign of the dividend. *)
Definition formatTime (seconds : Z) : string :=
  let mins := seconds / 60 in
  let secs := Z.rem seconds 60 in
  padStart 2 "0"%char (pretty mins) +:+ ":" +:+ padStart 2 "0"%char (pretty secs).

(** ** The component as a transition system *)

Inductive CaptureEvent :=
| SourcesLoaded (sources : list Source)
| ToggleSelector
| SelectSource (s : Source)
| ClickStart
| Granted (i : nat) (ctor start : option JsError)
| Denied (i : nat) (e : JsError)
| DataAvailable (r : nat) (data : Blob)
| ClickStop
| StopFired (r : nat) (stamp : string)
| TimerFired (t : nat)
| TracksEnded (s : nat).

(** What each event runs. *)
Definition capture_handler (ev : CaptureEvent) : handler unit :=
  match ev with
  | SourcesLoaded sources => loadScreenSources sources
  | ToggleSelector => toggleSourceSelector
  | SelectSource s => selectSource s
  | ClickStart => startRecording_click
  | Granted i ctor start =>
      modify (fun st => withRequests (delete i (requests st)) st);;
      startRecording_granted ctor start
  | Denied i e =>
      modify (fun st => withRequests (delete i (requests st)) st);;
      startRecording_denied e
  | DataAvailable _ data => ondataavailable data
  | ClickStop => stopRecording
  | StopFired r stamp => fireStop r stamp
  | TimerFired _ => timerTick
  | TracksEnded s => tracksEnded s
  end.

(** When an event can happen: the buttons are the ones the component
    renders, a request resolves while it is in flight, a recorder delivers
    data while it records or before its [stop] event, a [stop] event fires
    when queued, an interval fires while set, tracks end while live. *)
Definition capture_enabled (st : Session) (ev : CaptureEvent) : Prop :=
  match ev with
  | SourcesLoaded _ => loadPending st = true
  | ToggleSelector | ClickStart => isRecording (view st) = false
  | SelectSource s => showSourceSelector (view st) = true /\ s ∈ screenSources (view st)
  | Granted i _ _ | Denied i _ => is_Some (requests st !! i)
  | DataAvailable r _ =>
      match recorders (browser st) !! r with
      | Some m => mr_state m = recording \/ mr_stopQueued m = true
      | None => False
      end
  | ClickStop => isRecording (view st) = true
  | StopFired r _ => mr_stopQueued <$> recorders (browser st) !! r = Some true
  | TimerFired t => t ∈ intervals (browser st)
  | TracksEnded s => s ∈ liveStreams (browser st)
  end.

#[global] Instance capture_enabled_dec st ev : Decision (capture_enabled st ev).
Proof.
  destruct ev; simpl; try apply _.
  destruct (recorders (browser st) !! r); apply _.
Defined.

Definition capture_step (st : Session) (ev : CaptureEvent) : option Session :=
  Some (exec (capture_handler ev) st).

Definition capture_reachable (isElectron : bool) : Session -> Prop :=
  reachable (initialSession isElectron) capture_enabled capture_step.

(** ** Evaluating handlers *)

(** Unfolds the handlers down to functions on the state. *)
Ltac handler_unfold :=
  unfold capture_step, capture_handler, exec;
  unfold fireStop, startRecording_granted, startRecording_denied, stopRecording, selectSource,
    toggleSourceSelector, startRecording_click, loadScreenSources, tracksEnded, timerTick;
  unfold startRecording_catch, ondataavailable, onstop, recordingFile;
  unfold openStream, newMediaRecorder, recorder_start, recorder_stop, setInterval,
    clearInterval, createObjectURL, revokeObjectURL, stopTracks, endedOn, alert, consoleError,
    onRecordingComplete;
  unfold setIsRecording, setScreenSources, setSelectedSource, setRecordingTime,
    setShowSourceSelector, setMediaRecorderRef, setStreamRef, setChunksRef, pushChunk,
    setTimerRef, onRecorders, onLiveStreams, onIntervals, onObjectURLs, freshId;
  unfold when, whenSome, tryCatch, throw, gets, modify, mbind, prog_bind, mret, prog_ret.

(** Two states with the same cells are the same. *)
Lemma session_ext (a b : Session) :
  view a = view b -> refs a = refs b -> browser a = browser b ->
  requests a = requests b -> loadPending a = loadPending b ->
  delivered a = delivered b -> alerts a = alerts b -> errors a = errors b -> a = b.
Proof. destruct a, b; simpl; congruence. Qed.

(** Splits a state into its cells. *)
Ltac destruct_session st :=
  destruct st as [[rec srcs sel time sel_open] [mref sref chunks tref]
                    [recs live timers urls next] reqs pending files alerted logged].

(** Case analysis of a step: one goal per event and per branch of its
    handler, each with the new state written out. *)
Ltac step_cases st ev :=
  destruct_session st;
  destruct ev as [ev_sources| |ev_source| |ev_i ev_ctor ev_start|ev_i ev_e|ev_r ev_data|
                  |ev_r ev_stamp|ev_t|ev_s];
  handler_unfold; cbn;
  repeat match goal with
    | |- context [match ?x with _ => _ end] =>
        match type of x with
        | option _ => destruct x
        | bool => destruct x eqn:?
        | sumbool _ _ => destruct x
        end; cbn
    end.

(** ** Invariants *)

Definition nonempty (b : Blob) : Prop := (0 < blob_size b)%nat.

#[global] Instance nonempty_dec b : Decision (nonempty b).
Proof. unfold nonempty. apply _. Defined.

(** Handles come from one counter: every handle in use is below it. *)
Record handles_fresh (st : Session) : Prop := {
  fresh_pos : (0 < nextId (browser st))%nat;
  fresh_recorders r m :
    recorders (browser st) !! r = Some m ->
    (r < nextId (browser st))%nat /\ (mr_stream m < nextId (browser st))%nat;
  fresh_streams s : s ∈ liveStreams (browser st) -> (s < nextId (browser st))%nat;
  fresh_intervals t : t ∈ intervals (browser st) -> (t < nextId (browser st))%nat;
  fresh_mediaRecorderRef r :
    mediaRecorderRef (refs st) = Some r -> (r < nextId (browser st))%nat;
  fresh_streamRef s : streamRef (refs st) = Some s -> (s < nextId (browser st))%nat;
  fresh_timerRef t : timerRef (refs st) = Some t -> (t < nextId (browser st))%nat;
}.

(** What a recording handed to [onRecordingComplete] looks like. *)
Definition recording_ok (f : RecordingFile) : Prop :=
  rec_size f = blob_size (rec_blob f) /\
  rec_type f = "video/webm" /\ blob_type (rec_blob f) = "video/webm" /\
  rec_isRecording f = true.

Record capture_ok (st : Session) : Prop := {
  (** only chunks with data are kept *)
  ok_chunks : Forall nonempty (chunksRef (refs st));
  (** no object URL outlives the handler that made it *)
  ok_urls : objectURLs (browser st) = ∅;
  (** while the component shows a recording, its timer runs *)
  ok_timer :
    isRecording (view st) = true ->
    exists t, timerRef (refs st) = Some t /\ t ∈ intervals (browser st);
  (** a recorder is never paused, and none records with a stop pending *)
  ok_recorders r m :
    recorders (browser st) !! r = Some m ->
    mr_state m <> paused /\ (mr_state m = recording -> mr_stopQueued m = false);
  ok_delivered : Forall recording_ok (delivered st);
}.

(** Case analysis of lookups in updated maps and sets. *)
Ltac lookup_cases :=
  repeat match goal with
    | H : alter _ _ _ !! _ = Some _ |- _ =>
        apply lookup_alter_Some in H as [(? & ? & ? & ?)|[? ?]]; simplify_eq
    | H : <[_:=_]> _ !! _ = Some _ |- _ =>
        apply lookup_insert_Some in H as [[? ?]|[? ?]]; simplify_eq
    | H : (_ <$> _) !! _ = Some _ |- _ => apply lookup_fmap_Some in H as (? & <- & ?)
    | H : _ ∈ _ ∪ _ |- _ => apply elem_of_union in H as [H|H]
    | H : _ ∈ {[ _ ]} |- _ => apply elem_of_singleton in H; subst
    | H : _ ∈ _ ∖ _ |- _ => apply elem_of_difference in H as [H ?]
    end.

(** Uses what is known of every recorder, stream, interval or ref. *)
Ltac use_known :=
  repeat match goal with
    | Hr : (forall r m, ?recs !! r = Some m -> _), H : ?recs !! _ = Some _ |- _ =>
        apply Hr in H as [? ?]
    | Hs : (forall s, s ∈ ?X -> _), H : _ ∈ ?X |- _ => apply Hs in H
    | H : (forall x, Some _ = Some x -> _) |- _ => specialize (H _ eq_refl)
    | Hx : (forall x, ?a = Some x -> _), H : ?a = Some _ |- _ => apply Hx in H
    end.

Lemma capture_step_fresh st ev st' :
  handles_fresh st -> capture_step st ev = Some st' -> handles_fresh st'.
Proof.
  intros [Hp Hr Hs Ht Hmr Hsr Htr] [= <-]. revert Hp Hr Hs Ht Hmr Hsr Htr.
  step_cases st ev; intros Hp Hr Hs Ht Hmr Hsr Htr; split; cbn; try done.
  all: intros; lookup_cases; simplify_eq/=; use_known; repeat case_bool_decide; simpl.
  all: try split; lia.
Qed.

Lemma initialSession_fresh isElectron : handles_fresh (initialSession isElectron).
Proof. split; simpl; try done; lia. Qed.

Lemma capture_reachable_fresh isElectron st :
  capture_reachable isElectron st -> handles_fresh st.
Proof.
  apply reachable_invariant; [apply initialSession_fresh|].
  intros s e s' Hs _. by apply capture_step_fresh.
Qed.

Lemma capture_step_ok st ev st' :
  capture_ok st -> capture_step st ev = Some st' -> capture_ok st'.
Proof.
  intros [Hc Hu Ht Hr Hd] [= <-]. revert Hc Hu Ht Hr Hd.
  step_cases st ev; intros Hc Hu Ht Hr Hd; split; cbn; try done.
  all: intros; lookup_cases; simplify_eq/=; use_known; repeat case_bool_decide; simpl;
    try done.
  - eexists. split; [done|set_solver].
  - apply Forall_app. by split; [|repeat constructor].
  - set_solver.
  - apply Forall_app. by split; [|repeat constructor].
  - set_solver.
  - apply Forall_app. by split; [|repeat constructor].
Qed.

Lemma initialSession_ok isElectron : capture_ok (initialSession isElectron).
Proof. split; simpl; try done. all: constructor. Qed.

Lemma capture_reachable_ok isElectron st :
  capture_reachable isElectron st -> capture_ok st.
Proof.
  apply reachable_invariant; [apply initialSession_ok|].
  intros s e s' Hs _. by apply capture_step_ok.
Qed.

(** ** A recording from start to stop *)

Abbreviation capture_run := (runG capture_enabled capture_step).

(** The state a successful start leaves: stream, recorder and interval are
    the next three handles. *)
Definition started (st : Session) : Session :=
  let n := nextId (browser st) in
  {| view := mkView true (screenSources (view st)) (selectedSource (view st)) 0
               (showSourceSelector (view st));
     refs := mkRefs (Some (S n)) (Some n) [] (Some (S (S n)));
     browser :=
       mkBrowser (<[S n := mkMediaRecorder n recording false]> (recorders (browser st)))
         ({[ n ]} ∪ liveStreams (browser st)) ({[ S (S n) ]} ∪ intervals (browser st))
         (objectURLs (browser st)) (S (S (S n)));
     requests := requests st; loadPending := loadPending st; delivered := delivered st;
     alerts := alerts st; errors := errors st |}.

Lemma startRecording_granted_started st :
  exec (startRecording_granted None None) st = started st.
Proof.
  destruct_session st. apply session_ext; handler_unfold; cbn; try done.
  by rewrite alter_insert_eq.
Qed.

Lemma run_start st s :
  isRecording (view st) = false -> selectedSource (view st) = Some s ->
  capture_run [ClickStart; Granted (length (requests st)) None None] st = Some (started st).
Proof.
  intros Hrec Hsel.
  erewrite runG_cons; [|done|reflexivity].
  erewrite runG_cons; [reflexivity| |].
  - unfold exec, capture_handler, startRecording_click, gets, modify, mbind, prog_bind.
    rewrite Hsel; cbn. by rewrite lookup_app_r, Nat.sub_diag.
  - unfold capture_step, capture_handler. f_equal.
    rewrite <- startRecording_granted_started.
    destruct_session st. cbn in Hsel; subst.
    apply session_ext; handler_unfold; cbn; try done.
    by rewrite delete_middle, app_nil_r.
Qed.

Lemma exec_ondataavailable data st :
  exec (ondataavailable data) st
  = exec (setChunksRef (chunksRef (refs st) ++ filter nonempty [data])) st.
Proof.
  rewrite filter_cons, filter_nil. unfold ondataavailable, nonempty.
  destruct (decide _) as [Hd|Hd].
  - by rewrite bool_decide_eq_true_2.
  - rewrite bool_decide_eq_false_2, app_nil_r by done. by destruct_session st.
Qed.

(** Chunks are kept in the order they arrive, the empty ones dropped. *)
Lemma run_data r datas st :
  capture_enabled st (DataAvailable r (mkBlob [] "")) ->
  capture_run (map (DataAvailable r) datas) st
  = Some (exec (setChunksRef (chunksRef (refs st) ++ filter nonempty datas)) st).
Proof.
  revert st. induction datas as [|c cs IH]; intros st Hen; simpl.
  - rewrite app_nil_r. f_equal. by destruct_session st.
  - rewrite decide_True by done. simpl. unfold capture_step at 1; simpl.
    rewrite exec_ondataavailable, IH by done.
    change (filter nonempty (c :: cs)) with (filter nonempty ([c] ++ cs)).
    by rewrite filter_app, app_assoc.
Qed.

Lemma concat_filter_nonempty datas :
  concat (map blob_data (filter nonempty datas)) = concat (map blob_data datas).
Proof.
  induction datas as [|c cs IH]; [done|]. rewrite filter_cons. unfold nonempty at 1, blob_size.
  destruct (decide _) as [|Hn]; simpl; [by rewrite IH|].
  destruct (blob_data c); [done|simpl in Hn; lia].
Qed.

(** Stop while the recorder of the ref records stream [s] with timer [t]:
    the recording of the chunks gathered so far is handed over, the stream
    is stopped, the timer cleared and the URL revoked. *)
Lemma run_stop st r s t stamp :
  isRecording (view st) = true ->
  mediaRecorderRef (refs st) = Some r -> streamRef (refs st) = Some s ->
  timerRef (refs st) = Some t ->
  recorders (browser st) !! r = Some (mkMediaRecorder s recording false) ->
  exists st',
    capture_run [ClickStop; StopFired r stamp] st = Some st' /\
    delivered st'
    = delivered st ++ [recordingFile stamp (newBlob (chunksRef (refs st)) "video/webm")
                         (nextId (browser st))] /\
    isRecording (view st') = false /\
    liveStreams (browser st') = liveStreams (browser st) ∖ {[ s ]} /\
    intervals (browser st') = intervals (browser st) ∖ {[ t ]} /\
    objectURLs (browser st') = ({[ nextId (browser st) ]} ∪ objectURLs (browser st))
                                 ∖ {[ nextId (browser st) ]} /\
    requests st' = requests st /\
    (forall r', r' <> r ->
       recorders (browser st') !! r' = endedOn s <$> recorders (browser st) !! r').
Proof.
  intros Hrec Hm Hs Ht Hr. destruct_session st. cbn in Hrec, Hm, Hs, Ht, Hr. subst.
  eexists. split.
  - erewrite runG_cons; [|done|reflexivity].
    erewrite runG_cons; [reflexivity| |reflexivity].
    handler_unfold; cbn. rewrite Hr, bool_decide_eq_true_2 by done; cbn.
    by rewrite lookup_alter_eq, Hr.
  - handler_unfold; cbn. rewrite Hr, bool_decide_eq_true_2 by done. cbn.
    split_and!; try done. intros r' Hr'. by rewrite lookup_fmap, !lookup_alter_ne.
Qed.

(** A whole recording: the click on start, the grant, the chunks, the click
    on stop, the stop event. *)
Definition recordingRun (i r : nat) (datas : list Blob) (stamp : string) : list CaptureEvent :=
  [ClickStart; Granted i None None] ++ map (DataAvailable r) datas
    ++ [ClickStop; StopFired r stamp].

(** C4. A recording session that receives the chunks [datas] and is then
    stopped hands over exactly one recording, whose content is the chunks
    concatenated in arrival order; afterwards the stream is stopped, the
    timer cleared, the object URL revoked and the component idle. *)
Theorem capture_session st s datas stamp :
  isRecording (view st) = false -> selectedSource (view st) = Some s ->
  let n := nextId (browser st) in
  exists st',
    capture_run (recordingRun (length (requests st)) (S n) datas stamp) st = Some st' /\
    delivered st'
    = delivered st ++ [recordingFile stamp (mkBlob (concat (map blob_data datas)) "video/webm")
                         (S (S (S n)))] /\
    isRecording (view st') = false /\
    (n ∉ liveStreams (browser st')) /\
    (S (S n) ∉ intervals (browser st')) /\
    (S (S (S n)) ∉ objectURLs (browser st')) /\
    requests st' = requests st.
Proof.
  intros Hrec Hsel n. unfold recordingRun.
  rewrite runG_app, (run_start st s Hrec Hsel). cbn [mbind option_bind].
  rewrite runG_app, run_data by (cbn; rewrite lookup_insert_eq; by left).
  cbn [mbind option_bind].
  edestruct (run_stop (exec (setChunksRef (chunksRef (refs (started st))
                                           ++ filter nonempty datas)) (started st))
               (S n) n (S (S n)) stamp)
    as (st' & -> & Hd & ? & Hl & Hi & Hu & ? & _); [done..|apply lookup_insert_eq|].
  exists st'. split_and!; [done| |done|set_solver..|done].
  rewrite Hd. cbn. unfold newBlob. by rewrite concat_filter_nonempty.
Qed.

(** ** Streams that are never stopped *)

(** A live stream that is not the one [streamRef] holds stays live, and
    out of the ref, through every step that is not the end of its tracks. *)
Lemma capture_step_live st ev st' s :
  handles_fresh st -> s ∈ liveStreams (browser st) -> streamRef (refs st) <> Some s ->
  ev <> TracksEnded s -> capture_step st ev = Some st' ->
  s ∈ liveStreams (browser st') /\ streamRef (refs st') <> Some s.
Proof.
  intros [_ _ Hs _ _ _ _] Hl Hne Hev [= <-]. apply Hs in Hl as Hlt.
  revert Hl Hne Hev Hlt. clear Hs.
  step_cases st ev; intros Hl Hne Hev Hlt; split; try done.
  all: try (apply elem_of_union; by right).
  all: try (intros [= ->]; lia).
  all: apply elem_of_difference; split; [done|]; rewrite elem_of_singleton; congruence.
Qed.

(** C32. The component stops only the stream its ref holds at the time a
    stop event fires.  A live stream the ref no longer holds (the stream of
    an earlier start that failed after the grant, or of a start that was
    overtaken by another) is live after every further run of events, unless
    its tracks end on their own. *)
Theorem superseded_stream_stays_live isElectron st s evs st' :
  capture_reachable isElectron st ->
  s ∈ liveStreams (browser st) -> streamRef (refs st) <> Some s ->
  TracksEnded s ∉ evs -> runO capture_step evs st = Some st' ->
  s ∈ liveStreams (browser st').
Proof.
  intros Hf%capture_reachable_fresh. revert st Hf.
  induction evs as [|ev evs IH]; intros st Hf Hl Hne Hevs; simpl.
  - by intros [= <-].
  - apply not_elem_of_cons in Hevs as [Hev Hevs].
    destruct (capture_step_live st ev _ s Hf Hl Hne ltac:(done) eq_refl) as [Hl' Hne'].
    apply IH; [|done..]. by eapply capture_step_fresh.
Qed.

(** ** Every way a start can end *)

(** C22. [startRecording] after the grant, on every exit path.  The stream
    is open and in [streamRef] in all of them.  When [new MediaRecorder]
    throws, the user is alerted and nothing else has changed: the stream
    stays open.  When [start] throws, the recorder is also in its ref and the
    chunk buffer has been emptied.  Otherwise the component records. *)
Theorem startRecording_granted_outcome ctor start st :
  let st' := exec (startRecording_granted ctor start) st in
  let n := nextId (browser st) in
  n ∈ liveStreams (browser st') /\ streamRef (refs st') = Some n /\
  match ctor, start with
  | Some e, _ =>
      alerts st' = alerts st ++ ["Failed to start recording: " +:+ message e] /\
      view st' = view st /\ recorders (browser st') = recorders (browser st) /\
      intervals (browser st') = intervals (browser st) /\
      mediaRecorderRef (refs st') = mediaRecorderRef (refs st) /\
      chunksRef (refs st') = chunksRef (refs st)
  | None, Some e =>
      alerts st' = alerts st ++ ["Failed to start recording: " +:+ message e] /\
      view st' = view st /\
      recorders (browser st') = <[S n := mkMediaRecorder n inactive false]> (recorders (browser st)) /\
      intervals (browser st') = intervals (browser st) /\
      mediaRecorderRef (refs st') = Some (S n) /\
      chunksRef (refs st') = []
  | None, None => st' = started st
  end.
Proof.
  intros st' n. subst st' n. destruct ctor as [e|], start as [e'|].
  4: { rewrite startRecording_granted_started. split_and!; [set_solver|done..]. }
  all: destruct_session st; handler_unfold; cbn; split_and!; try done; set_solver.
Qed.

(** ** The tracks end while recording *)

(** When the tracks of the recorded stream end on their own, the stop
    event hands over what was recorded so far as a recording, and the
    component still shows a recording in progress with its timer running. *)
Theorem tracksEnded_promotes_partial st r s t stamp :
  isRecording (view st) = true ->
  mediaRecorderRef (refs st) = Some r -> streamRef (refs st) = Some s ->
  timerRef (refs st) = Some t -> t ∈ intervals (browser st) ->
  s ∈ liveStreams (browser st) ->
  recorders (browser st) !! r = Some (mkMediaRecorder s recording false) ->
  exists st',
    capture_run [TracksEnded s; StopFired r stamp] st = Some st' /\
    delivered st'
    = delivered st ++ [recordingFile stamp (newBlob (chunksRef (refs st)) "video/webm")
                         (nextId (browser st))] /\
    isRecording (view st') = true /\
    t ∈ intervals (browser st') /\
    timerRef (refs st') = Some t.
Proof.
  intros Hrec Hm Hs Ht Hti Hsl Hr. destruct_session st.
  cbn in Hrec, Hm, Hs, Ht, Hti, Hsl, Hr. subst.
  eexists. split.
  - erewrite runG_cons; [|done|reflexivity].
    erewrite runG_cons; [reflexivity| |reflexivity].
    handler_unfold; cbn. rewrite lookup_fmap, Hr; cbn.
    by rewrite bool_decide_eq_true_2.
  - by handler_unfold; cbn.
Qed.

(** ** Two starts in flight *)

(** Until a request is granted the component still shows the start button:
    a second click starts a second request. *)
Lemma run_two_starts st s :
  isRecording (view st) = false -> selectedSource (view st) = Some s ->
  capture_run [ClickStart; ClickStart; Granted (length (requests st)) None None;
               Granted (length (requests st)) None None] st
  = Some (started (started st)).
Proof.
  intros Hrec Hsel. destruct_session st. cbn in Hrec, Hsel. subst.
  erewrite runG_cons; [|done|reflexivity].
  erewrite runG_cons; [|done|reflexivity].
  erewrite runG_cons; [|handler_unfold; cbn|reflexivity].
  2: { rewrite <- app_assoc. by rewrite lookup_app_r, Nat.sub_diag. }
  erewrite runG_cons; [reflexivity|handler_unfold; cbn|].
  - rewrite <- app_assoc; cbn [app]. rewrite delete_middle.
    by rewrite lookup_app_r, Nat.sub_diag.
  - unfold capture_step. f_equal. rewrite <- !startRecording_granted_started.
    apply session_ext; handler_unfold; cbn; try done.
    rewrite <- app_assoc; cbn [app]. by rewrite !delete_middle, app_nil_r.
Qed.

(** C38. Two starts in flight share the refs.  Both recorders record, and
    both push into the one chunk buffer: the recording handed over at stop
    holds the chunks of both.  Stop reaches only the second recorder, stream
    and timer; the first recorder keeps recording, its stream stays live and
    its timer keeps firing while the component shows itself idle. *)
Theorem concurrent_starts st s a b stamp :
  isRecording (view st) = false -> selectedSource (view st) = Some s ->
  nonempty a -> nonempty b ->
  let n := nextId (browser st) in
  let i := length (requests st) in
  exists st',
    capture_run ([ClickStart; ClickStart; Granted i None None; Granted i None None]
                   ++ [DataAvailable (S n) a] ++ [DataAvailable (4 + n) b]
                   ++ [ClickStop; StopFired (4 + n) stamp]) st = Some st' /\
    delivered st'
    = delivered st ++ [recordingFile stamp (mkBlob (blob_data a ++ blob_data b) "video/webm")
                         (6 + n)] /\
    isRecording (view st') = false /\
    n ∈ liveStreams (browser st') /\
    S (S n) ∈ intervals (browser st') /\
    mr_state <$> recorders (browser st') !! S n = Some recording.
Proof.
  intros Hrec Hsel Ha Hb n i. subst n i.
  change [DataAvailable ?r a] with (map (DataAvailable r) [a]).
  change [DataAvailable ?r b] with (map (DataAvailable r) [b]).
  rewrite runG_app, (run_two_starts st s Hrec Hsel). cbn [mbind option_bind].
  rewrite runG_app, (run_data _ [a]).
  2: { cbn. rewrite lookup_insert_ne, lookup_insert_eq by lia. by left. }
  cbn [mbind option_bind]. rewrite runG_app, (run_data _ [b]).
  2: { cbn. rewrite lookup_insert_eq. by left. }
  cbn [mbind option_bind]. rewrite !(filter_cons_True nonempty), !filter_nil by done.
  edestruct (run_stop (exec (setChunksRef [a; b]) (started (started st)))
               (4 + nextId (browser st)) (3 + nextId (browser st)) (5 + nextId (browser st)) stamp)
    as (st' & Hrun & Hd & ? & Hl & Hi & Hu & ? & Hrs); [done..|apply lookup_insert_eq|].
  exists st'. split_and!; [|rewrite Hd|done|rewrite Hl|rewrite Hi|rewrite Hrs by lia].
  - by rewrite <- Hrun.
  - cbn. unfold newBlob. cbn. by rewrite app_nil_r.
  - cbn. apply elem_of_difference. rewrite elem_of_singleton. split; [|lia].
    apply elem_of_union_r, elem_of_union_l. by apply elem_of_singleton.
  - cbn. apply elem_of_difference. rewrite elem_of_singleton. split; [|lia].
    apply elem_of_union_r, elem_of_union_l. by apply elem_of_singleton.
  - cbn. rewrite lookup_insert_ne, lookup_insert_eq by lia. cbn. unfold endedOn.
    by rewrite bool_decide_eq_false_2 by (cbn; lia).
Qed.

(** ** What holds in every reachable state *)

(** C18. In every state the component reaches: the chunk buffer holds only
    chunks with data; every recording handed to [onRecordingComplete] is a
    webm file whose size is that of its blob, and its object URL has been
    revoked; while the component shows a recording its timer is running; no
    recorder is ever paused. *)
Theorem capture_reachable_invariant isElectron st :
  capture_reachable isElectron st ->
  Forall nonempty (chunksRef (refs st)) /\
  (forall f, f ∈ delivered st -> recording_ok f /\ rec_url f ∉ objectURLs (browser st)) /\
  (isRecording (view st) = true ->
   exists t, timerRef (refs st) = Some t /\ t ∈ intervals (browser st)) /\
  (forall r m, recorders (browser st) !! r = Some m -> mr_state m <> paused).
Proof.
  intros [Hc Hu Ht Hr Hd]%capture_reachable_ok. split_and!; [done| |done|].
  - intros f Hf. rewrite Hu. split; [|set_solver]. by eapply Forall_forall in Hd.
  - intros r m Hm. by apply Hr in Hm as [? _].
Qed.

(** ** The elapsed time shown *)

Definition digit (d : Z) : ascii := ascii_of_nat (48 + Z.to_nat d).

(** The text [formatTime] should show for a time below a hundred minutes. *)
Definition clockFace (seconds : Z) : string :=
  String (digit (seconds / 600)) (String (digit (seconds / 60 mod 10))
    (String ":" (String (digit (seconds mod 60 / 10)) (String (digit (seconds mod 10)) "")))).

Lemma formatTime_table :
  forallb (fun k => String.eqb (formatTime (Z.of_nat k)) (clockFace (Z.of_nat k))) (seq 0 (Z.to_nat 6000))
  = true.
Proof. vm_compute. reflexivity. Qed.

(** Below a hundred minutes [formatTime] shows two digits of minutes
    and two digits of seconds, with leading zeros. *)
Theorem formatTime_clockFace seconds :
  0 <= seconds < 6000 -> formatTime seconds = clockFace seconds.
Proof.
  intros Hs. pose proof formatTime_table as Ht.
  rewrite forallb_forall in Ht. specialize (Ht (Z.to_nat seconds)).
  rewrite Z2Nat.id in Ht by lia. apply String.eqb_eq, Ht, in_seq. lia.
Qed.

(** From a hundred minutes on the minutes take three digits. *)
Example formatTime_wide : formatTime 6000 = "100:00".
Proof. reflexivity. Qed.

(** ** Worked runs *)

Definition screen0 : Source := mkSource "screen:0" "Entire Screen" "" "screen".

Definition chunk (l : list byte) : Blob := mkBlob l "video/webm".
Definition c1 : Blob := chunk [x01; x02].
Definition c2 : Blob := chunk [].
Definition c3 : Blob := chunk [x03].

Definition runFrom (st : Session) (evs : list CaptureEvent) : Session :=
  default st (capture_run evs st).

(** The source list is loaded; a click on start without a source opens the
    selector; the user picks the screen. *)
Definition sessionReady : Session :=
  runFrom (initialSession true) [SourcesLoaded [screen0]; ClickStart; SelectSource screen0].

(** Recording, one chunk in. *)
Definition sessionRecording : Session :=
  runFrom sessionReady [ClickStart; Granted 0 None None; DataAvailable 2 c1].

(** Two starts were granted before the first showed. *)
Definition sessionTwice : Session :=
  runFrom sessionReady [ClickStart; ClickStart; Granted 0 None None; Granted 0 None None].

Lemma runFrom_reachable st evs :
  is_Some (capture_run evs st) ->
  capture_reachable true st -> capture_reachable true (runFrom st evs).
Proof. intros [st' Hrun] Hst. unfold runFrom. rewrite Hrun. by eapply runG_reachable. Qed.

Lemma sessionReady_reachable : capture_reachable true sessionReady.
Proof.
  apply runFrom_reachable; [apply (bool_decide_unpack _); by vm_compute|apply reach_init].
Qed.

Lemma sessionRecording_reachable : capture_reachable true sessionRecording.
Proof.
  apply runFrom_reachable; [apply (bool_decide_unpack _); by vm_compute|apply sessionReady_reachable].
Qed.

Lemma sessionTwice_reachable : capture_reachable true sessionTwice.
Proof.
  apply runFrom_reachable; [apply (bool_decide_unpack _); by vm_compute|apply sessionReady_reachable].
Qed.

(** Chunks [c1], [c2] (empty), [c3], then stop: one recording holding the
    bytes of [c1] and [c3] in that order. *)
Lemma capture_session_witness :
  exists st',
    capture_run (recordingRun 0 2 [c1; c2; c3] "11/8/2026, 10:00:00 AM") sessionReady
    = Some st' /\
    map (fun f => blob_data (rec_blob f)) (delivered st') = [[x01; x02; x03]] /\
    liveStreams (browser st') = ∅ /\ intervals (browser st') = ∅.
Proof.
  destruct (capture_session sessionReady screen0 [c1; c2; c3] "11/8/2026, 10:00:00 AM"
              eq_refl eq_refl) as (st' & Hrun & Hd & _).
  exists st'. split; [exact Hrun|]. rewrite Hd. split; [reflexivity|].
  vm_compute in Hrun. injection Hrun as <-. by vm_compute.
Defined.

(** After two overlapping starts and a stop the first stream is still live,
    also after a further recording. *)
Lemma superseded_stream_stays_live_witness :
  1%nat ∈ liveStreams (browser (runFrom sessionTwice
         [ClickStop; StopFired 5 "a"; ClickStart; Granted 0 None None; ClickStop;
          StopFired 9 "b"])).
Proof.
  apply (superseded_stream_stays_live true sessionTwice 1
           [ClickStop; StopFired 5 "a"; ClickStart; Granted 0 None None; ClickStop;
            StopFired 9 "b"]).
  - apply sessionTwice_reachable.
  - by vm_compute.
  - by vm_compute.
  - intros H. repeat (apply elem_of_cons in H as [H|H]; [discriminate H|]).
    by apply elem_of_nil in H.
  - by vm_compute.
Defined.

Lemma tracksEnded_promotes_partial_witness :
  exists st',
    capture_run [TracksEnded 1; StopFired 2 "a"] sessionRecording = Some st' /\
    map (fun f => blob_data (rec_blob f)) (delivered st') = [[x01; x02]] /\
    isRecording (view st') = true.
Proof.
  destruct (tracksEnded_promotes_partial sessionRecording 2 1 3 "a")
    as (st' & Hrun & Hd & Hrec & _); try reflexivity; try (by vm_compute).
  exists st'. split; [exact Hrun|]. rewrite Hd. by split.
Defined.

Lemma concurrent_starts_witness :
  exists st',
    capture_run [ClickStart; ClickStart; Granted 0 None None; Granted 0 None None;
                 DataAvailable 2 c1; DataAvailable 5 c3; ClickStop; StopFired 5 "a"]
      sessionReady = Some st' /\
    map (fun f => blob_data (rec_blob f)) (delivered st') = [[x01; x02; x03]] /\
    isRecording (view st') = false /\ 1%nat ∈ liveStreams (browser st').
Proof.
  destruct (concurrent_starts sessionReady screen0 c1 c3 "a" eq_refl eq_refl)
    as (st' & Hrun & Hd & Hrec & Hl & _); [apply (bool_decide_unpack _); by vm_compute..|].
  exists st'. split; [exact Hrun|]. rewrite Hd. by split_and!.
Defined.

Lemma capture_reachable_invariant_witness :
  isRecording (view sessionRecording) = true /\
  exists t, timerRef (refs sessionRecording) = Some t /\
            t ∈ intervals (browser sessionRecording).
Proof.
  split; [reflexivity|].
  by apply (capture_reachable_invariant true sessionRecording sessionRecording_reachable).
Defined.

Lemma formatTime_clockFace_witness : formatTime 75 = "01:15".
Proof. apply (formatTime_clockFace 75). lia. Defined.

(** A start whose recorder cannot be built leaves the stream open with the
    component idle; nothing the user can do afterwards closes it. *)
Example scenario_failed_start_leaks :
  let st := runFrom sessionReady
              [ClickStart; Granted 0 (Some (DOMException "NotSupportedError" "mimeType")) None] in
  isRecording (view st) = false /\ liveStreams (browser st) = {[ 1%nat ]} /\
  alerts st = ["Failed to start recording: mimeType"] /\
  liveStreams (browser (runFrom st [ClickStart; Granted 0 None None; ClickStop;
                                    StopFired 3 "a"])) = {[ 1%nat ]}.
Proof. by vm_compute. Qed.
