(* ===== verification/Probe.v ===== *)
(** * Probe: the handlers that describe files and sources

    Models the handlers of src/public/electron.js that answer questions
    about media: [open-file-dialog] (the files the user picked, with size and
    kind), [get-video-info], [get-screen-sources], [start-screen-recording],
    [get-metadata] and [extract-thumbnail].

    What the handlers call and do not define is a parameter here: the
    [FileSystem], [path.basename], [path.extname], [String.toLowerCase],
    [eval], and the answers of the dialog, of [desktopCapturer] and of
    [ffprobe].

    A handler registered with [ipcMain.handle] is called with the event as
    its first argument and the renderer's arguments after it; [invoke] is
    that call.  The promise a handler returns settles with a value, rejects
    with an error, or, when a callback the handler left behind throws, never
    settles: [Outcome]. *)

From Stdlib Require Import QArith ZArith List Ascii String.
From stdpp Require Import base tactics option list strings pretty.
From S2P Require Import Prelude Host.

(** ** Calls through [ipcMain] *)

(** An argument a handler receives: the event object, a string the
    renderer sent, or something else the renderer sent. *)
Inductive Arg :=
| ArgEvent
| ArgString (s : string)
| ArgOther.

(** [ipcMain] calls the handler with the event first. *)
Definition invoke {A} (handler : list Arg -> A) (args : list Arg) : A :=
  handler (ArgEvent :: args).

(** How the promise of a handler ends. *)
Inductive Outcome (A : Type) :=
| Resolved (a : A)
| Rejected (e : JsError)
| NeverSettles (uncaught : JsError).
Arguments Resolved {A} a.
Arguments Rejected {A} e.
Arguments NeverSettles {A} uncaught.

(** [xs.map(f)] for a callback that can throw: the first throw ends it. *)
Fixpoint mapR {E A B} (f : A -> result E B) (xs : list A) : result E (list B) :=
  match xs with
  | [] => Ok []
  | x :: xs => y ← f x; ys ← mapR f xs; Ok (y :: ys)
  end.

(** ** Data *)

(** An entry of the answer of [open-file-dialog]. *)
Record FileEntry := mkFileEntry {
  fe_path : string;
  fe_name : string;
  fe_size : N;
  fe_type : string;
}.

(** The answer of [dialog.showOpenDialog]. *)
Record OpenDialogResult := mkOpenDialogResult {
  od_canceled : bool;
  od_filePaths : list string;
}.

(** The answer of [get-video-info]. *)
Record VideoInfo := mkVideoInfo {
  vi_path : option Arg;
  vi_name : option string;
  vi_size : option N;
  vi_exists : bool;
  vi_error : option string;
}.

(** A source as [desktopCapturer.getSources] returns it; [ds_thumbnail] is
    [thumbnail.toDataURL()]. *)
Record DesktopSource := mkDesktopSource {
  ds_id : string;
  ds_name : string;
  ds_thumbnail : string;
}.

(** An entry of the answer of [get-screen-sources]. *)
Record ScreenSource := mkScreenSource {
  ss_id : string;
  ss_name : string;
  ss_thumbnail : string;
  ss_type : string;
}.

(** What [ffprobe] reports of a stream and of the container. *)
Record ProbeStream := mkProbeStream {
  codec_type : string;
  ps_width : option N;
  ps_height : option N;
  r_frame_rate : option string;
  codec_name : option string;
  ps_channels : option N;
  sample_rate : option string;
}.

Record ProbeFormat := mkProbeFormat {
  pf_duration : option Q;
  pf_size : option N;
  bit_rate : option N;
}.

Record ProbeData := mkProbeData {
  streams : list ProbeStream;
  format : ProbeFormat;
}.

(** The answer of [get-metadata]; [fps] is whatever [eval] returned. *)
Record Metadata (V : Type) := mkMetadata {
  md_duration : option Q;
  md_size : option N;
  md_width : option N;
  md_height : option N;
  md_fps : option V;
  md_bitrate : option N;
  md_codec : option string;
  md_audioCodec : option string;
  md_audioChannels : option N;
  md_audioSampleRate : option string;
}.
Arguments mkMetadata {V}.
Arguments md_fps {V}.
Arguments md_width {V}.
Arguments md_height {V}.
Arguments md_codec {V}.
Arguments md_audioCodec {V}.
Arguments md_duration {V}.
Arguments md_size {V}.
Arguments md_bitrate {V}.
Arguments md_audioChannels {V}.
Arguments md_audioSampleRate {V}.

Section Handlers.
Context {F : Type} `{!FileSystem F}.
Context (basename extname toLowerCase : string -> string).

(** ** [open-file-dialog] *)

Definition imageExtensions : list string := [".jpg"; ".jpeg"; ".png"; ".gif"; ".bmp"].

(** The kind of a file, from its extension. *)
Definition fileType (filePath : string) : string :=
  if bool_decide (toLowerCase (extname filePath) ∈ imageExtensions) then "image" else "video".

(** The callback of [result.filePaths.map]. *)
Definition fileEntry (fs : F) (filePath : string) : result JsError FileEntry :=
  size ← statSync filePath fs;
  Ok {| fe_path := filePath; fe_name := basename filePath; fe_size := size;
        fe_type := fileType filePath |}.

(** The handler, given the answer of the dialog.  It has no [try]: a throw
    of [statSync] rejects the promise. *)
Definition openFileDialog (answer : OpenDialogResult) (fs : F) : result JsError (list FileEntry) :=
  if negb (od_canceled answer) && bool_decide (0 < length (od_filePaths answer))%nat
  then mapR (fileEntry fs) (od_filePaths answer)
  else Ok [].

(** ** [get-video-info] *)

(** [fs.statSync(x)] for an argument of any kind: anything but a path is a
    type error. *)
Definition statArg (x : Arg) (fs : F) : result JsError N :=
  match x with
  | ArgString p => statSync p fs
  | ArgEvent | ArgOther => Throw (TypeError "path must be a string")
  end.

(** [path.basename(x)] likewise. *)
Definition basenameArg (x : Arg) : result JsError string :=
  match x with
  | ArgString p => Ok (basename p)
  | ArgEvent | ArgOther => Throw (TypeError "path must be a string")
  end.

(** The body of the handler for the value of its parameter [filePath]. *)
Definition videoInfo (filePath : Arg) (fs : F) : VideoInfo :=
  match size ← statArg filePath fs; name ← basenameArg filePath; Ok (size, name) with
  | Ok (size, name) =>
      {| vi_path := Some filePath; vi_name := Some name; vi_size := Some size;
         vi_exists := true; vi_error := None |}
  | Throw e =>
      {| vi_path := None; vi_name := None; vi_size := None;
         vi_exists := false; vi_error := Some (message e) |}
  end.

(** The handler as registered: [async (filePath) => ...], one parameter,
    which [ipcMain] binds to the event. *)
Definition getVideoInfo (fs : F) (args : list Arg) : VideoInfo :=
  match args with
  | filePath :: _ => videoInfo filePath fs
  | [] => videoInfo ArgEvent fs
  end.

(** ** [get-screen-sources] and [start-screen-recording] *)

(** The callback of [sources.map]. *)
Definition mappedSource (source : DesktopSource) : ScreenSource :=
  {| ss_id := ds_id source; ss_name := ds_name source; ss_thumbnail := ds_thumbnail source;
     ss_type := if String.prefix "screen:" (ds_id source) then "screen" else "window" |}.

(** The handler, given what [desktopCapturer.getSources] settles with. *)
Definition getScreenSources (answer : result JsError (list DesktopSource)) : list ScreenSource :=
  match answer with
  | Ok sources => map mappedSource sources
  | Throw _ => []
  end.

(** [start-screen-recording] answers [{ success: true, sourceId }]. *)
Definition startScreenRecording {A} (sourceId : A) : bool * A := (true, sourceId).

(** ** [get-metadata] *)

Section Metadata.
Context {V : Type} (eval : string -> result JsError V).

(** [data.streams.find(s => s.codec_type === kind)] *)
Definition findStream (kind : string) (data : ProbeData) : option ProbeStream :=
  list_find (fun s => codec_type s = kind) (streams data) ≫= fun p => Some p.2.

(** [video?.r_frame_rate ? eval(video.r_frame_rate) : null] *)
Definition frameRate (video : option ProbeStream) : result JsError (option V) :=
  match video ≫= r_frame_rate with
  | Some rate => if truthyS rate then Some <$> eval rate else Ok None
  | None => Ok None
  end.

(** The callback given to [ffprobe].  It runs after the handler has
    returned its promise: when it throws, nothing settles the promise. *)
Definition getMetadata (answer : result JsError ProbeData) : Outcome (Metadata V) :=
  match answer with
  | Throw err => Rejected err
  | Ok data =>
      let video := findStream "video" data in
      let audio := findStream "audio" data in
      match frameRate video with
      | Throw e => NeverSettles e
      | Ok fps =>
          Resolved
            {| md_duration := pf_duration (format data);
               md_size := pf_size (format data);
               md_width := video ≫= ps_width;
               md_height := video ≫= ps_height;
               md_fps := fps;
               md_bitrate := bit_rate (format data);
               md_codec := video ≫= codec_name;
               md_audioCodec := audio ≫= codec_name;
               md_audioChannels := audio ≫= ps_channels;
               md_audioSampleRate := audio ≫= sample_rate |}
      end
  end.

End Metadata.

(** ** [extract-thumbnail] *)

Section Thumbnail.
Context (tempDir : string) (pathJoin : string -> string -> string).
Context (base64 : string -> string).

(** [path.join(app.getPath('temp'), `thumb_${Date.now()}.jpg`)] *)
Definition thumbnailFile (now : Z) : string :=
  pathJoin tempDir ("thumb_" +:+ pretty now +:+ ".jpg").

(** The [end] listener: read the picture, unlink it, resolve; whatever
    throws rejects. *)
Definition thumbnailEnd (output : string) (fs : F) : F * result JsError string :=
  match readFileSync output fs with
  | Throw err => (fs, Throw err)
  | Ok data =>
      match unlinkSync output fs with
      | Throw err => (fs, Throw err)
      | Ok fs' => (fs', Ok ("data:image/jpeg;base64," +:+ base64 data))
      end
  end.

(** The listeners of the screenshot command: the files afterwards and the
    settlement, if the event is a final one.  No progress listener is
    registered. *)
Definition thumbnailOn (output : string) (ev : FfmpegEvent) (fs : F)
    : F * option (result JsError string) :=
  match ev with
  | FfProgress _ => (fs, None)
  | FfEnd => let '(fs', r) := thumbnailEnd output fs in (fs', Some r)
  | FfError e => (fs, Some (Throw e))
  end.

End Thumbnail.

End Handlers.

(** ** [get-video-info] never finds the file *)

Section VideoInfo.
Context {F : Type} `{!FileSystem F}.
Context (basename : string -> string).

(** The body does what it is meant to for a path. *)
Lemma videoInfo_path p (fs : F) :
  vi_exists (videoInfo basename (ArgString p) fs) = existsSync p fs.
Proof.
  unfold videoInfo; simpl. destruct (statSync p fs) as [size|e] eqn:Hs; simpl.
  - symmetry. apply fs_stat_exists. by eexists.
  - destruct (existsSync p fs) eqn:Hex; [|done].
    apply fs_stat_exists in Hex as [? ?]. congruence.
Qed.

(** C35. The handler of [get-video-info] declares one parameter and is
    called with the event first: for a file that exists, whatever else the
    renderer sends, the answer is [exists: false] with the message of the type error
    [statSync] throws and no size, although the body says [exists: true] when
    it is given the path. *)
Theorem getVideoInfo_never_exists (fs : F) p rest :
  existsSync p fs = true ->
  vi_exists (invoke (getVideoInfo basename fs) (ArgString p :: rest)) = false /\
  is_Some (vi_error (invoke (getVideoInfo basename fs) (ArgString p :: rest))) /\
  vi_size (invoke (getVideoInfo basename fs) (ArgString p :: rest)) = None /\
  vi_exists (videoInfo basename (ArgString p) fs) = true.
Proof. intros Hex. split_and!; [done|by eexists|done|]. by rewrite videoInfo_path. Qed.

End VideoInfo.

(** ** [open-file-dialog] *)

Section OpenFile.
Context {F : Type} `{!FileSystem F}.
Context (basename extname toLowerCase : string -> string).

#[local] Abbreviation fileEntry := (fileEntry basename extname toLowerCase).
#[local] Abbreviation openFileDialog := (openFileDialog basename extname toLowerCase).
#[local] Abbreviation fileType := (fileType extname toLowerCase).

(** What an entry says of its file. *)
Definition entry_of (fs : F) (e : FileEntry) : Prop :=
  statSync (fe_path e) fs = Ok (fe_size e) /\
  fe_name e = basename (fe_path e) /\
  fe_type e = fileType (fe_path e).

Lemma fileEntry_stat (fs : F) p :
  fileEntry fs p
  = (fun size => mkFileEntry p (basename p) size (fileType p)) <$> statSync p fs.
Proof. unfold fileEntry, Probe.fileEntry. by destruct (statSync p fs). Qed.

Lemma mapR_fileEntry_Ok (fs : F) paths :
  Forall (fun p => existsSync p fs = true) paths ->
  exists entries,
    mapR (fileEntry fs) paths = Ok entries /\
    map fe_path entries = paths /\ Forall (entry_of fs) entries.
Proof.
  induction 1 as [|p ps Hp _ (entries & IH & Hpaths & Hall)]; simpl.
  - by exists [].
  - apply fs_stat_exists in Hp as [size Hs].
    rewrite fileEntry_stat, Hs, IH; simpl. eexists. split; [done|]. simpl.
    split; [by f_equal|]. by constructor.
Qed.

Lemma mapR_fileEntry_Throw (fs : F) paths :
  Exists (fun p => existsSync p fs = false) paths -> is_Throw (mapR (fileEntry fs) paths).
Proof.
  induction 1 as [p ps Hp|p ps _ [e IH]]; simpl; rewrite fileEntry_stat.
  - destruct (statSync p fs) as [size|e] eqn:Hs; [|by eexists].
    assert (existsSync p fs = true) by (apply fs_stat_exists; by eexists). congruence.
  - destruct (statSync p fs); simpl; [|by eexists]. rewrite IH. by eexists.
Qed.

(** C16. [open-file-dialog] answers with one entry per picked file, in the
    order picked, each with the size of its file, its base name and its
    kind, when every picked file exists. *)
Theorem openFileDialog_entries (fs : F) answer :
  od_canceled answer = false ->
  Forall (fun p => existsSync p fs = true) (od_filePaths answer) ->
  exists entries,
    openFileDialog answer fs = Ok entries /\
    map fe_path entries = od_filePaths answer /\ Forall (entry_of fs) entries.
Proof.
  intros Hc Hall. unfold openFileDialog, Probe.openFileDialog. rewrite Hc; simpl.
  case_bool_decide as Hlen; [by apply mapR_fileEntry_Ok|].
  destruct (od_filePaths answer); [by exists []|simpl in Hlen; lia].
Qed.

(** A cancelled dialog answers with no entry and does not look at the
    disk. *)
Lemma openFileDialog_canceled (fs : F) answer :
  od_canceled answer = true -> openFileDialog answer fs = Ok [].
Proof. intros Hc. unfold openFileDialog, Probe.openFileDialog. by rewrite Hc. Qed.

(** One picked file that is gone rejects the whole answer. *)
Lemma openFileDialog_missing (fs : F) answer :
  od_canceled answer = false ->
  Exists (fun p => existsSync p fs = false) (od_filePaths answer) ->
  is_Throw (openFileDialog answer fs).
Proof.
  intros Hc Hex. unfold openFileDialog, Probe.openFileDialog. rewrite Hc; simpl.
  rewrite bool_decide_eq_true_2; [by apply mapR_fileEntry_Throw|].
  destruct Hex; simpl; lia.
Qed.

End OpenFile.

(** ** [get-screen-sources] *)

(** [get-screen-sources] keeps the sources in the order
    [desktopCapturer] gives them, with their ids, names and thumbnails; an
    entry is a screen exactly when its id starts with [screen:], a window
    otherwise; a failure of [desktopCapturer] gives the empty list, as if
    there were no sources. *)
Theorem getScreenSources_spec answer :
  match answer with
  | Ok sources =>
      map ss_id (getScreenSources answer) = map ds_id sources /\
      map ss_name (getScreenSources answer) = map ds_name sources /\
      map ss_thumbnail (getScreenSources answer) = map ds_thumbnail sources /\
      Forall (fun s => (ss_type s = "screen" <-> String.prefix "screen:" (ss_id s) = true) /\
                       (ss_type s = "window" <-> String.prefix "screen:" (ss_id s) = false))
        (getScreenSources answer)
  | Throw _ => getScreenSources answer = []
  end.
Proof.
  destruct answer as [sources|e]; [|done]. simpl. rewrite !map_map. split_and!; try done.
  apply Forall_map, Forall_forall. intros s _. simpl.
  by destruct (String.prefix _ _).
Qed.

(** ** [get-metadata] *)

Section MetadataFacts.
Context {V : Type} (eval : string -> result JsError V).

Lemma findStream_first kind data i s :
  streams data !! i = Some s -> codec_type s = kind ->
  (forall j s', streams data !! j = Some s' -> (j < i)%nat -> codec_type s' <> kind) ->
  findStream kind data = Some s.
Proof.
  intros Hi Hk Hfirst. unfold findStream.
  assert (list_find (fun s => codec_type s = kind) (streams data) = Some (i, s)) as ->; [|done].
  apply list_find_Some. by split_and!.
Qed.

Lemma findStream_none kind data :
  Forall (fun s => codec_type s <> kind) (streams data) -> findStream kind data = None.
Proof.
  intros Hall. unfold findStream.
  assert (list_find (fun s => codec_type s = kind) (streams data) = None) as ->; [|done].
  by apply list_find_None.
Qed.

(** C23. [get-metadata] on every path: an error of [ffprobe] rejects;
    without a video stream the answer has no width, height, codec or frame
    rate, and [eval] is not called; with one, the answer describes the first
    video stream, and its frame rate is what [eval] makes of the stream's
    [r_frame_rate]: when [eval] throws, the promise never settles. *)
Theorem getMetadata_outcome answer :
  match answer with
  | Throw err => getMetadata eval answer = Rejected err
  | Ok data =>
      (Forall (fun s => codec_type s <> "video") (streams data) ->
       exists md, getMetadata eval answer = Resolved md /\
                  md_fps md = None /\ md_width md = None /\ md_height md = None /\
                  md_codec md = None) /\
      (forall i s rate,
         streams data !! i = Some s -> codec_type s = "video" ->
         (forall j s', streams data !! j = Some s' -> (j < i)%nat -> codec_type s' <> "video") ->
         r_frame_rate s = Some rate -> rate <> "" ->
         match eval rate with
         | Throw e => getMetadata eval answer = NeverSettles e
         | Ok v =>
             exists md, getMetadata eval answer = Resolved md /\
                        md_fps md = Some v /\ md_width md = ps_width s /\
                        md_height md = ps_height s /\ md_codec md = codec_name s
         end)
  end.
Proof.
  destruct answer as [data|err]; [|done]. split.
  - intros Hnone. unfold getMetadata. rewrite (findStream_none "video") by done.
    by eexists.
  - intros i s rate Hi Hk Hfirst Hrate Hne. unfold getMetadata.
    rewrite (findStream_first "video" data i s) by done. unfold frameRate; simpl.
    rewrite Hrate. unfold truthyS.
    destruct (String.eqb_spec rate "") as [|_]; [done|]. simpl.
    destruct (eval rate); simpl; [by eexists|done].
Qed.

End MetadataFacts.

(** ** [extract-thumbnail] *)

Section ThumbnailFacts.
Context {F : Type} `{!FileSystem F}.
Context (base64 : string -> string).

(** [extract-thumbnail] when the command ends: with the picture on
    disk and removable, the promise resolves with the data URL of its
    content and the picture is gone; when it cannot be read or cannot be
    removed the promise rejects and the disk is as it was.  When the command
    fails the promise rejects and nothing is removed: a picture the engine
    left behind stays in the temporary directory. *)
Theorem thumbnailOn_outcome output ev (fs : F) :
  match ev with
  | FfProgress _ => thumbnailOn base64 output ev fs = (fs, None)
  | FfError e => thumbnailOn base64 output ev fs = (fs, Some (Throw e))
  | FfEnd =>
      match readFileSync output fs, unlinkSync output fs with
      | Ok data, Ok fs' =>
          thumbnailOn base64 output ev fs
          = (fs', Some (Ok ("data:image/jpeg;base64," +:+ base64 data))) /\
          existsSync output fs' = false
      | Throw err, _ | Ok _, Throw err =>
          thumbnailOn base64 output ev fs = (fs, Some (Throw err))
      end
  end.
Proof.
  destruct ev as [p| |e]; try done. simpl. unfold thumbnailEnd.
  destruct (readFileSync output fs) as [data|err]; [|done].
  destruct (unlinkSync output fs) as [fs'|err] eqn:Hu; [|done].
  split; [done|]. by eapply fs_unlink_gone.
Qed.

End ThumbnailFacts.

(** ** Worked answers *)

(** Stand-ins for [path.basename], [path.extname] and [toLowerCase] on
    POSIX paths and ASCII letters. *)
Fixpoint posixBasename (s : string) : string :=
  match s with
  | EmptyString => EmptyString
  | String c s' =>
      if occurs "/" s' then posixBasename s' else if Ascii.eqb c "/" then s' else s
  end.

Fixpoint lastDot (s : string) : option string :=
  match s with
  | EmptyString => None
  | String c s' =>
      match lastDot s' with
      | Some e => Some e
      | None => if Ascii.eqb c "." then Some s else None
      end
  end.

Definition posixExtname (p : string) : string :=
  match posixBasename p with
  | EmptyString => EmptyString
  | String _ rest => default EmptyString (lastDot rest)
  end.

Definition asciiLower (c : ascii) : ascii :=
  let n := nat_of_ascii c in
  if (65 <=? n)%nat && (n <=? 90)%nat then ascii_of_nat (n + 32) else c.

Fixpoint asciiLowerCase (s : string) : string :=
  match s with
  | EmptyString => EmptyString
  | String c s' => String (asciiLower c) (asciiLowerCase s')
  end.

Definition mediaDisk : Disk :=
  diskOf [("/media/Intro.MP4", "0123456789"); ("/media/logo.PNG", "01234");
          ("/media/notes.txt", "0")].

Lemma getVideoInfo_never_exists_witness :
  vi_exists (invoke (getVideoInfo posixBasename mediaDisk) [ArgString "/media/Intro.MP4"])
  = false /\
  vi_exists (videoInfo posixBasename (ArgString "/media/Intro.MP4") mediaDisk) = true.
Proof.
  assert (existsSync "/media/Intro.MP4" mediaDisk = true) as Hex by (by vm_compute).
  destruct (getVideoInfo_never_exists posixBasename mediaDisk "/media/Intro.MP4" [] Hex)
    as (Hno & _ & _ & Hyes).
  by split.
Defined.

Lemma openFileDialog_entries_witness :
  exists entries,
    openFileDialog posixBasename posixExtname asciiLowerCase
      (mkOpenDialogResult false ["/media/Intro.MP4"; "/media/logo.PNG"; "/media/notes.txt"])
      mediaDisk = Ok entries /\
    map fe_path entries = ["/media/Intro.MP4"; "/media/logo.PNG"; "/media/notes.txt"].
Proof.
  destruct (openFileDialog_entries posixBasename posixExtname asciiLowerCase mediaDisk
              (mkOpenDialogResult false
                 ["/media/Intro.MP4"; "/media/logo.PNG"; "/media/notes.txt"]) eq_refl)
    as (entries & Hrun & Hpaths & _); [repeat constructor; by vm_compute|].
  by exists entries.
Defined.

(** A file that is neither a known picture nor a known video is listed as
    a video. *)
Example scenario_open_files :
  openFileDialog posixBasename posixExtname asciiLowerCase
    (mkOpenDialogResult false ["/media/Intro.MP4"; "/media/logo.PNG"; "/media/notes.txt"])
    mediaDisk
  = Ok [mkFileEntry "/media/Intro.MP4" "Intro.MP4" 10 "video";
        mkFileEntry "/media/logo.PNG" "logo.PNG" 5 "image";
        mkFileEntry "/media/notes.txt" "notes.txt" 1 "video"].
Proof. by vm_compute. Qed.

(** Frame rates as [ffprobe] writes them, and an evaluator that knows only
    ratios: anything else throws. *)
Definition ratioOnly (rate : string) : result JsError Q :=
  if String.eqb rate "30000/1001" then Ok (30000 # 1001)
  else if String.eqb rate "25/1" then Ok (25 # 1)
  else Throw (SyntaxError "Unexpected identifier").

Definition videoStream (rate : string) : ProbeStream :=
  mkProbeStream "video" (Some 1920%N) (Some 1080%N) (Some rate) (Some "h264") None None.

Definition audioStream : ProbeStream :=
  mkProbeStream "audio" None None (Some "0/0") (Some "aac") (Some 2%N) (Some "48000").

Definition probeOf (l : list ProbeStream) : ProbeData :=
  mkProbeData l (mkProbeFormat (Some 12) (Some 1000%N) (Some 800%N)).

Example scenario_metadata :
  (md_fps <$> (match getMetadata ratioOnly (Ok (probeOf [audioStream; videoStream "25/1"])) with
               | Resolved md => Some md | _ => None end)) = Some (Some (25 # 1)) /\
  getMetadata ratioOnly (Ok (probeOf [videoStream "N/A"; audioStream]))
  = NeverSettles (SyntaxError "Unexpected identifier").
Proof. by vm_compute. Qed.
