(* ===== verification/Bridge.v ===== *)
(** * Bridge: from the renderer's wrapper to the handlers of the main process

    A request of the renderer passes three tables: the wrapper object of
    src/src/utils/electronAPI.js, which guards every method with
    [isElectron()] and the presence of the exposed object; the two objects
    src/public/preload.js exposes with [contextBridge], whose methods invoke
    a channel or register a listener on one; and the channels
    src/public/electron.js registers with [ipcMain.handle] or sends on.

    The tables are data here, and [request] composes them.  The theorems say
    that the three agree: every method of the wrapper reaches a method the
    preload script exposes, every channel invoked has exactly one handler,
    every channel listened on is one the main process sends on, and without
    Electron every request is rejected with the same text. *)

From Stdlib Require Import List String.
From stdpp Require Import base tactics option list strings.
From S2P Require Import Prelude.

(** ** preload.js *)

(** The two objects [contextBridge.exposeInMainWorld] creates. *)
Inductive Exposed := Ffmpeg | ElectronAPI.

#[global] Instance Exposed_eq_dec : EqDecision Exposed.
Proof. solve_decision. Defined.

(** What an exposed method does with [ipcRenderer]. *)
Inductive BridgeAction :=
| Invoke (channel : string)
| Listen (channel : string)
| RemoveAllListeners (channel : string).

#[global] Instance BridgeAction_eq_dec : EqDecision BridgeAction.
Proof. solve_decision. Defined.

(** The methods of [window.ffmpeg] and [window.electronAPI]. *)
Definition preload : list (Exposed * string * BridgeAction) :=
  [ (Ffmpeg, "extractThumbnail", Invoke "extract-thumbnail");
    (Ffmpeg, "getMetadata", Invoke "get-metadata");
    (Ffmpeg, "trimVideo", Invoke "trim-video");
    (Ffmpeg, "exportTimeline", Invoke "export-timeline");
    (Ffmpeg, "onTrimProgress", Listen "trim-progress");
    (Ffmpeg, "onExportProgress", Listen "export-progress");
    (Ffmpeg, "removeTrimProgressListener", RemoveAllListeners "trim-progress");
    (Ffmpeg, "removeExportProgressListener", RemoveAllListeners "export-progress");
    (ElectronAPI, "openFileDialog", Invoke "open-file-dialog");
    (ElectronAPI, "getVideoInfo", Invoke "get-video-info");
    (ElectronAPI, "getScreenSources", Invoke "get-screen-sources");
    (ElectronAPI, "startScreenRecording", Invoke "start-screen-recording");
    (ElectronAPI, "saveProject", Invoke "save-project");
    (ElectronAPI, "loadProject", Invoke "load-project");
    (ElectronAPI, "showController", Invoke "show-controller");
    (ElectronAPI, "hideController", Invoke "hide-controller");
    (ElectronAPI, "closeController", Invoke "close-controller");
    (ElectronAPI, "sendControllerCommand", Invoke "controller-command");
    (ElectronAPI, "onControllerCommand", Listen "controller-command");
    (ElectronAPI, "removeControllerCommandListener", RemoveAllListeners "controller-command") ].

(** [window.<object>.<method>]: what the method does, if the object has it. *)
Definition exposedMethod (object : Exposed) (method : string) : option BridgeAction :=
  snd <$> List.find (fun e => bool_decide (e.1 = (object, method))) preload.

(** ** electron.js *)

(** The channels registered with [ipcMain.handle], in the order of the
    file. *)
Definition handled : list string :=
  [ "open-file-dialog"; "get-video-info"; "get-screen-sources"; "start-screen-recording";
    "extract-thumbnail"; "get-metadata"; "trim-video"; "export-timeline"; "save-project";
    "load-project"; "show-controller"; "hide-controller"; "close-controller";
    "controller-command" ].

(** The channels the main process sends on with [webContents.send] or
    [event.sender.send]. *)
Definition sentByMain : list string := [ "trim-progress"; "export-progress"; "controller-command" ].

(** ** electronAPI.js *)

(** What [isElectron] and the guards look at. *)
Record Window := mkWindow {
  processType : bool;          (** [window.process && window.process.type] *)
  hasElectronAPI : bool;       (** [window.electronAPI] *)
  hasFfmpeg : bool;            (** [window.ffmpeg] *)
  userAgentElectron : bool;    (** the user agent includes [Electron] *)
  processVersionsElectron : bool;  (** [process.versions.electron] *)
}.

Definition isElectron (w : Window) : bool :=
  processType w || hasElectronAPI w || userAgentElectron w || processVersionsElectron w.

Definition hasObject (w : Window) (object : Exposed) : bool :=
  match object with
  | Ffmpeg => hasFfmpeg w
  | ElectronAPI => hasElectronAPI w
  end.

(** A method of the wrapper: the object it guards on and calls, the method
    it calls there, and whether it returns the call's promise (and rejects
    when the guard fails) or returns nothing. *)
Record Wrapped := mkWrapped {
  wr_name : string;
  wr_object : Exposed;
  wr_method : string;
  wr_returns : bool;
}.

Definition electronAPI : list Wrapped :=
  [ mkWrapped "openFileDialog" ElectronAPI "openFileDialog" true;
    mkWrapped "getVideoInfo" ElectronAPI "getVideoInfo" true;
    mkWrapped "getScreenSources" ElectronAPI "getScreenSources" true;
    mkWrapped "startScreenRecording" ElectronAPI "startScreenRecording" true;
    mkWrapped "extractThumbnail" Ffmpeg "extractThumbnail" true;
    mkWrapped "getMetadata" Ffmpeg "getMetadata" true;
    mkWrapped "trimVideo" Ffmpeg "trimVideo" true;
    mkWrapped "exportTimeline" Ffmpeg "exportTimeline" true;
    mkWrapped "onTrimProgress" Ffmpeg "onTrimProgress" false;
    mkWrapped "onExportProgress" Ffmpeg "onExportProgress" false;
    mkWrapped "removeTrimProgressListener" Ffmpeg "removeTrimProgressListener" false;
    mkWrapped "removeExportProgressListener" Ffmpeg "removeExportProgressListener" false;
    mkWrapped "saveProject" ElectronAPI "saveProject" true;
    mkWrapped "loadProject" ElectronAPI "loadProject" true ].

(** How a call of a wrapper method ends on the renderer's side. *)
Inductive CallResult :=
| Does (action : BridgeAction)        (** the exposed method ran *)
| RejectedWith (reason : string)      (** [Promise.reject(reason)] *)
| Nothing                             (** the method returned [undefined] *)
| NotAFunction.                       (** the exposed object lacks the method *)

#[global] Instance CallResult_eq_dec : EqDecision CallResult.
Proof. solve_decision. Defined.

(** The body of a wrapper method. *)
Definition callWrapped (w : Window) (m : Wrapped) : CallResult :=
  if isElectron w && hasObject w (wr_object m) then
    match exposedMethod (wr_object m) (wr_method m) with
    | Some action => Does action
    | None => NotAFunction
    end
  else if wr_returns m then RejectedWith "Not running in Electron"
  else Nothing.

(** [electronAPI.<name>(...)] *)
Definition request (w : Window) (name : string) : option CallResult :=
  callWrapped w <$> List.find (fun m => String.eqb (wr_name m) name) electronAPI.

(** Where a call ends in the main process: the handler of the channel for
    an invoke; for a listener, whether the channel is one the main process
    sends on. *)
Definition served (r : CallResult) : bool :=
  match r with
  | Does (Invoke channel) => bool_decide (channel ∈ handled)
  | Does (Listen channel) | Does (RemoveAllListeners channel) =>
      bool_decide (channel ∈ sentByMain)
  | _ => false
  end.

(** The window the preload script sets up, and a browser tab. *)
Definition electronWindow : Window := mkWindow false true true true false.
Definition browserTab : Window := mkWindow false false false false false.

(** ** The tables agree *)

(** Every exposed method that invokes reaches a handler, every one that
    listens does so on a channel that is sent on; checked entry by entry. *)
Lemma preload_served :
  forallb (fun e => served (Does e.2)) preload = true.
Proof. by vm_compute. Qed.

Lemma electronAPI_exposed :
  forallb (fun m => bool_decide (is_Some (exposedMethod (wr_object m) (wr_method m))))
    electronAPI = true.
Proof. by vm_compute. Qed.

Lemma find_electronAPI name m :
  List.find (fun m => String.eqb (wr_name m) name) electronAPI = Some m ->
  m ∈ electronAPI /\ wr_name m = name.
Proof.
  intros Hf. apply find_some in Hf as [Hin Hname].
  split; [by apply list_elem_of_In|by apply String.eqb_eq].
Qed.

Lemma exposedMethod_preload object method action :
  exposedMethod object method = Some action -> (object, method, action) ∈ preload.
Proof.
  unfold exposedMethod. destruct (List.find _ _) as [[[o m] a]|] eqn:Hf; [|done].
  intros [= <-]. apply find_some in Hf as [Hin Heq].
  apply bool_decide_eq_true in Heq. simpl in Heq. injection Heq as -> ->.
  by apply list_elem_of_In.
Qed.

(** C34. In a window where the preload script ran, every method of the
    wrapper reaches the method of the same name on the exposed object, and
    that method invokes a channel the main process handles or listens on a
    channel the main process sends on: no request is lost between the three
    files. *)
Theorem request_served w name m :
  List.find (fun m => String.eqb (wr_name m) name) electronAPI = Some m ->
  hasElectronAPI w = true -> hasFfmpeg w = true ->
  exists action,
    request w name = Some (Does action) /\
    (wr_object m, name, action) ∈ preload /\
    served (Does action) = true.
Proof.
  intros Hf Hapi Hff.
  assert (isElectron w && hasObject w (wr_object m) = true) as Hg.
  { unfold isElectron. rewrite Hapi, orb_true_r. simpl. by destruct (wr_object m). }
  pose proof electronAPI_exposed as Hex. rewrite forallb_forall in Hex.
  destruct (find_electronAPI _ _ Hf) as [Hin Hname].
  specialize (Hex m ltac:(by apply list_elem_of_In)).
  apply bool_decide_eq_true in Hex as [action Ha].
  exists action. split.
  { unfold request. rewrite Hf. cbn [fmap option_fmap option_map]. unfold callWrapped.
    by rewrite Hg, Ha. }
  apply exposedMethod_preload in Ha as Hp. split.
  - subst name. revert Hin Ha Hp. clear. intros Hin.
    repeat (apply elem_of_cons in Hin as [->|Hin]; [by vm_compute; intros [= <-]|]).
    by apply elem_of_nil in Hin.
  - pose proof preload_served as Hs. rewrite forallb_forall in Hs.
    by apply (Hs (wr_object m, wr_method m, action)), list_elem_of_In.
Qed.

(** Outside Electron (no exposed object, nothing that looks like
    Electron) every method of the wrapper that returns a promise rejects with
    [Not running in Electron], and the listener methods do nothing; the same
    holds for the methods of an object that is not exposed even when the
    window is Electron's. *)
Theorem request_guarded w name m :
  List.find (fun m => String.eqb (wr_name m) name) electronAPI = Some m ->
  isElectron w && hasObject w (wr_object m) = false ->
  request w name
  = Some (if wr_returns m then RejectedWith "Not running in Electron" else Nothing).
Proof.
  intros Hf Hg. unfold request. rewrite Hf. cbn [fmap option_fmap option_map].
  unfold callWrapped. by rewrite Hg.
Qed.

(** Each channel has one handler: [ipcMain.handle] throws on a second
    registration. *)
Lemma handled_NoDup : NoDup handled.
Proof. apply (bool_decide_unpack _). by vm_compute. Qed.

(** Every handler is reachable from an exposed method. *)
Lemma handled_exposed channel :
  channel ∈ handled -> exists object method, (object, method, Invoke channel) ∈ preload.
Proof.
  intros Hin.
  assert (forallb (fun c => existsb (fun e => bool_decide (e.2 = Invoke c)) preload) handled
          = true) as Hall by (by vm_compute).
  rewrite forallb_forall in Hall. apply list_elem_of_In, Hall, existsb_exists in Hin.
  destruct Hin as ([[object method] action] & Hin & Ha).
  apply bool_decide_eq_true in Ha. simpl in Ha. subst action.
  exists object, method. by apply list_elem_of_In.
Qed.

Lemma request_served_witness :
  request electronWindow "exportTimeline" = Some (Does (Invoke "export-timeline")).
Proof.
  destruct (request_served electronWindow "exportTimeline"
              (mkWrapped "exportTimeline" Ffmpeg "exportTimeline" true) eq_refl eq_refl eq_refl)
    as (action & Hreq & Hin & _).
  rewrite Hreq. vm_compute in Hreq. by injection Hreq as <-.
Defined.

Lemma request_guarded_witness :
  request browserTab "saveProject" = Some (RejectedWith "Not running in Electron") /\
  request browserTab "onExportProgress" = Some Nothing.
Proof.
  split.
  - apply (request_guarded browserTab "saveProject"
             (mkWrapped "saveProject" ElectronAPI "saveProject" true) eq_refl eq_refl).
  - apply (request_guarded browserTab "onExportProgress"
             (mkWrapped "onExportProgress" Ffmpeg "onExportProgress" false) eq_refl eq_refl).
Defined.

(** The controller methods are exposed by the preload script and have no
    counterpart in the wrapper. *)
Example controller_not_wrapped :
  exposedMethod ElectronAPI "showController" = Some (Invoke "show-controller") /\
  request electronWindow "showController" = None.
Proof. by vm_compute. Qed.
