(* ===== verification/Persistence.v ===== *)
(** * Persistence: the [save-project] and [load-project] handlers

    Models the two project handlers of src/public/electron.js.  Saving
    builds the options of the save dialog from the project's [name], asks
    for a destination and writes [JSON.stringify] of the project there;
    loading asks for a source with an open dialog and answers with
    [JSON.parse] of what it reads.  A cancelled dialog is an answer, not an
    error; everything that throws inside the [try] is logged and thrown
    again: the dialog, the read and the write, and also the template
    literal that reads [projectData.name] (of a project that is [null] or
    [undefined]) and a [JSON.stringify] that throws or answers
    [undefined].

    The project is whatever the renderer sends: the handlers look only at
    its [name].  [Json] is what they need of [JSON]: a printer, a parser
    and the [name] field, each with the ways it fails.  Nothing is assumed
    of them: the round trip is stated of the documents that the parser
    reads back as the printer wrote them ([readsBack]).  The dialogs'
    answers are arguments. *)

From Stdlib Require Import List String.
From stdpp Require Import base tactics option list strings gmap sets.
From S2P Require Import Prelude Host.

(** ** JSON *)

Class Json (V : Type) := {
  (** [JSON.stringify(v, null, 2)]: a text; [undefined] for a value that has
      no JSON text ([undefined], a function); an exception for a value
      that cannot be printed (a cycle, a BigInt) *)
  stringify : V -> result JsError (option string);
  (** [JSON.parse(text)] *)
  parse : string -> result JsError V;
  (** [`${v.name}`]: the member [name] as a template literal prints it; a
      [TypeError] when [v] is [null] or [undefined] *)
  nameText : V -> result JsError string;
}.

(** A document that [JSON.parse] reads back as [JSON.stringify] wrote it. *)
Definition readsBack {V} `{!Json V} (v : V) : Prop :=
  forall text, stringify v = Ok (Some text) -> parse text = Ok v.

(** ** Data *)

(** The answer of [dialog.showSaveDialog]. *)
Record SaveDialogResult := mkSaveDialogResult {
  sd_canceled : bool;
  sd_filePath : option string;
}.

(** The answer of [dialog.showOpenDialog]. *)
Record LoadDialogResult := mkLoadDialogResult {
  ld_canceled : bool;
  ld_filePaths : list string;
}.

(** What [save-project] answers. *)
Inductive SaveAnswer :=
| Saved (path : string)        (** [{ success: true, path }] *)
| SaveCanceled.                (** [{ success: false, canceled: true }] *)

(** What [load-project] answers. *)
Inductive LoadAnswer (V : Type) :=
| Loaded (data : V) (path : string)   (** [{ success: true, data, path }] *)
| LoadCanceled.                       (** [{ success: false, canceled: true }] *)
Arguments Loaded {V} data path.
Arguments LoadCanceled {V}.

(** The options of the save dialog that depend on the project:
    [`${projectData.name}.clipforge`]. *)
Definition defaultPath {V} `{!Json V} (projectData : V) : result JsError string :=
  name ← nameText projectData; Ok (name +:+ ".clipforge").

(** The file filters of both dialogs. *)
Definition projectFilters : list (string * list string) :=
  [("ClipForge Projects", ["clipforge"]); ("JSON Files", ["json"]); ("All Files", ["*"])].

Section Handlers.
Context {F : Type} `{!FileSystem F}.
Context {V : Type} `{!Json V}.

(** An answer, or the error thrown after it was logged. *)
Definition logged {A} (line : string) (r : result JsError A * MainState F)
    : result JsError A * MainState F :=
  match r with
  | (Throw e, st) => (Throw e, logLine line st)
  | ok => ok
  end.

(** [fs.writeFileSync(path, JSON.stringify(projectData, null, 2))]: the text
    is computed first; [writeFileSync] refuses [undefined]. *)
Definition writeProject (filePath : string) (projectData : V) (f : F) : result JsError F :=
  text ← stringify projectData;
  match text with
  | Some text => writeFileSync filePath text f
  | None => Throw (TypeError "The data argument must be of type string")
  end.

(** [save-project]; [answer] is what the dialog settles with, once its
    options are built. *)
Definition saveProject (projectData : V) (answer : result JsError SaveDialogResult)
    (st : MainState F) : result JsError SaveAnswer * MainState F :=
  logged "Error saving project:"
    match defaultPath projectData, answer with
    | Throw e, _ | Ok _, Throw e => (Throw e, st)
    | Ok _, Ok r =>
        match sd_filePath r with
        | Some filePath =>
            if negb (sd_canceled r) && truthyS filePath then
              match writeProject filePath projectData (fs st) with
              | Ok fs' => (Ok (Saved filePath), withFs fs' st)
              | Throw e => (Throw e, st)
              end
            else (Ok SaveCanceled, st)
        | None => (Ok SaveCanceled, st)
        end
    end.

(** [load-project] *)
Definition loadProject (answer : result JsError LoadDialogResult) (st : MainState F)
    : result JsError (LoadAnswer V) * MainState F :=
  logged "Error loading project:"
    match answer with
    | Throw e => (Throw e, st)
    | Ok r =>
        match ld_filePaths r with
        | filePath :: _ =>
            if negb (ld_canceled r) then
              (text ← readFileSync filePath (fs st);
               projectData ← parse text;
               Ok (Loaded projectData filePath), st)
            else (Ok LoadCanceled, st)
        | [] => (Ok LoadCanceled, st)
        end
    end.

(** ** Save *)

(** The dialog answers that make [save-project] write. *)
Definition chosen (r : SaveDialogResult) : option string :=
  if sd_canceled r then None
  else match sd_filePath r with
       | Some p => if truthyS p then Some p else None
       | None => None
       end.

Lemma saveProject_chosen projectData name r p (st : MainState F) :
  nameText projectData = Ok name -> chosen r = Some p ->
  saveProject projectData (Ok r) st
  = logged "Error saving project:"
      match writeProject p projectData (fs st) with
      | Ok fs' => (Ok (Saved p), withFs fs' st)
      | Throw e => (Throw e, st)
      end.
Proof.
  unfold chosen, saveProject, defaultPath. intros ->. simpl. destruct (sd_canceled r); [done|].
  destruct (sd_filePath r) as [q|]; [|done]. destruct (truthyS q) eqn:Hq; [|done].
  by intros [= ->].
Qed.

Lemma saveProject_not_chosen projectData name r (st : MainState F) :
  nameText projectData = Ok name -> chosen r = None ->
  saveProject projectData (Ok r) st = (Ok SaveCanceled, st).
Proof.
  unfold chosen, saveProject, defaultPath. intros ->. simpl.
  destruct (sd_canceled r), (sd_filePath r) as [q|]; simpl; try done.
  by destruct (truthyS q).
Qed.

(** A project without a readable [name] is refused before the dialog is
    shown: whatever the user would have answered, nothing is written. *)
Lemma saveProject_nameless projectData e answer (st : MainState F) :
  nameText projectData = Throw e ->
  saveProject projectData answer st = (Throw e, logLine "Error saving project:" st).
Proof. unfold saveProject, defaultPath. by intros ->. Qed.

(** A save that succeeded wrote the text of the project at the path the
    user chose, and nothing to the console. *)
Lemma saveProject_Saved projectData answer p (st st1 : MainState F) :
  saveProject projectData answer st = (Ok (Saved p), st1) ->
  exists r text,
    answer = Ok r /\ chosen r = Some p /\ stringify projectData = Ok (Some text) /\
    writeFileSync p text (fs st) = Ok (fs st1) /\ st1 = withFs (fs st1) st.
Proof.
  unfold saveProject, writeProject.
  destruct (defaultPath projectData); [|done]. destruct answer as [r|]; [|done].
  destruct (sd_filePath r) as [q|] eqn:Hp; [|done].
  destruct (sd_canceled r) eqn:Hc; simpl; [done|].
  destruct (truthyS q) eqn:Hq; simpl; [|done].
  destruct (stringify projectData) as [[text|]|]; simpl; try done.
  destruct (writeFileSync q text (fs st)) as [fs'|] eqn:Hw; simpl; [|done].
  intros [= <- <-]. exists r, text. unfold chosen. by rewrite Hc, Hp, Hq.
Qed.

(** [save-project] on every path.  A project whose [name] cannot be read
    is an error before the dialog.  When the user picks a destination the
    project's text is written there and the answer names it; when the
    dialog is cancelled, or gives no path, the answer is a cancellation and
    neither the disk nor the console changes; when the dialog, the printer
    or the write throws, the error is thrown again after one line on the
    console, and the disk is unchanged. *)
Theorem saveProject_outcome projectData answer (st : MainState F) :
  let run := saveProject projectData answer st in
  let failed e := run = (Throw e, logLine "Error saving project:" st) in
  match nameText projectData, answer with
  | Throw e, _ | Ok _, Throw e => failed e
  | Ok _, Ok r =>
      match chosen r with
      | None => run = (Ok SaveCanceled, st)
      | Some p =>
          match writeProject p projectData (fs st) with
          | Ok fs' =>
              run.1 = Ok (Saved p) /\ fs run.2 = fs' /\ console run.2 = console st /\
              exists text, stringify projectData = Ok (Some text) /\
                           readFileSync p (fs run.2) = Ok text
          | Throw e => failed e
          end
      end
  end.
Proof.
  intros run failed. subst run failed.
  destruct (nameText projectData) as [name|e] eqn:Hn; [|by apply saveProject_nameless].
  destruct answer as [r|e]; [|unfold saveProject, defaultPath; by rewrite Hn].
  destruct (chosen r) as [p|] eqn:Hc.
  - rewrite (saveProject_chosen _ _ _ _ _ Hn Hc). unfold writeProject.
    destruct (stringify projectData) as [[text|]|]; simpl; try done.
    destruct (writeFileSync p text _) as [fs'|e] eqn:Hw; [|done].
    simpl. split_and!; try done. exists text. split; [done|]. by eapply fs_write_read.
  - by eapply saveProject_not_chosen.
Qed.

(** ** Load *)

(** [load-project] on every path.  A cancelled dialog, or one without
    a path, is a cancellation.  Otherwise the first picked file is read and
    parsed: the answer is the parsed project with that path; a file that
    cannot be read or parsed is an error, logged and thrown again.  The disk
    never changes, and the parsed project is not looked at: whatever parses
    is accepted. *)
Theorem loadProject_outcome answer (st : MainState F) :
  let run := loadProject answer st in
  fs run.2 = fs st /\
  match answer with
  | Throw e => run = (Throw e, logLine "Error loading project:" st)
  | Ok r =>
      match ld_filePaths r with
      | [] => run = (Ok LoadCanceled, st)
      | filePath :: _ =>
          if ld_canceled r then run = (Ok LoadCanceled, st)
          else
            match readFileSync filePath (fs st) ≫= parse with
            | Ok projectData => run = (Ok (Loaded projectData filePath), st)
            | Throw e => run = (Throw e, logLine "Error loading project:" st)
            end
      end
  end.
Proof.
  intros run. subst run. unfold loadProject.
  destruct answer as [r|e]; [|done].
  destruct (ld_filePaths r) as [|filePath rest]; [done|].
  destruct (ld_canceled r); [done|]. simpl.
  destruct (readFileSync filePath (fs st)) as [text|e]; [|done]. simpl.
  by destruct (parse text).
Qed.

(** ** Save, then load *)

(** C11. Round trip: a project saved to the path the user picked and then
    loaded from that path is the project that was saved, whatever else is on
    the disk and whatever other paths the open dialog lists after it,
    provided the document is one that [JSON.parse] reads back as
    [JSON.stringify] wrote it. *)
Theorem save_load_roundtrip projectData answer p rest (st st1 : MainState F) :
  readsBack projectData ->
  saveProject projectData answer st = (Ok (Saved p), st1) ->
  loadProject (Ok (mkLoadDialogResult false (p :: rest))) st1
  = (Ok (Loaded projectData p), st1).
Proof.
  intros Hback (r & text & _ & _ & Ht & Hw & _)%saveProject_Saved.
  unfold loadProject; simpl.
  rewrite (fs_write_read _ _ _ _ Hw); simpl. by rewrite (Hback _ Ht).
Qed.

End Handlers.

(** ** Worked runs *)

(** A stand-in for [JSON] on documents that are their own text. *)
#[global] Instance text_json : Json string := {|
  stringify s := Ok (Some s);
  parse s := Ok s;
  nameText _ := Ok "undefined";
|}.

Lemma text_readsBack (s : string) : readsBack s.
Proof. by intros text [= <-]. Qed.

Definition mainOf (d : Disk) : MainState Disk :=
  {| fs := d; senderAlive := true; sent := []; console := [] |}.

Lemma save_load_roundtrip_witness :
  let st1 := (saveProject "{}" (Ok (mkSaveDialogResult false (Some "/p/a.clipforge")))
                (mainOf emptyDisk)).2 in
  loadProject (Ok (mkLoadDialogResult false ["/p/a.clipforge"; "/p/b.clipforge"])) st1
  = (Ok (Loaded "{}" "/p/a.clipforge"), st1).
Proof.
  apply (save_load_roundtrip "{}" (Ok (mkSaveDialogResult false (Some "/p/a.clipforge")))
           "/p/a.clipforge" ["/p/b.clipforge"] (mainOf emptyDisk));
    [apply text_readsBack|reflexivity].
Defined.

(** A dialog that gives an empty path writes nothing; a protected
    destination is an error on the console. *)
Example scenario_save_paths :
  saveProject "{}" (Ok (mkSaveDialogResult false (Some ""))) (mainOf emptyDisk)
  = (Ok SaveCanceled, mainOf emptyDisk) /\
  saveProject "{}" (Ok (mkSaveDialogResult false (Some "/etc/p")))
    (mainOf (mkDisk ∅ {[ "/etc/p" ]}))
  = (Throw (SystemError "EACCES" "/etc/p"),
     logLine "Error saving project:" (mainOf (mkDisk ∅ {[ "/etc/p" ]}))).
Proof. split; reflexivity. Qed.
