(* ===== verification/Shell.v ===== *)
(** * Shell: windows, application life cycle and the console latch

    Models the parts of src/public/electron.js that are not request
    handlers for media.

    - Windows: [createWindow] with its [ready-to-show] listener,
      [createControllerWindow] and the handlers
      [show-controller], [hide-controller], [close-controller] and
      [controller-command], with the [close] and [closed] listeners the two
      functions register, [window-all-closed], [activate] and the [Quit] menu
      item.  [Shell] holds the two module variables [mainWindow] and
      [controllerWindow] and the windows that exist.  A window whose [close]
      listener calls [preventDefault] is not closed, by the user or by
      [app.quit()]; [app.quit()] ends the application only when every window
      closed.  The [close] listener of a controller window hides
      [controllerWindow], the window the variable refers to when the
      listener runs: the window being closed, a newer one, or none, in
      which case the listener throws after it prevented the close
      ([Process] reports the exception).
    - Console: [safeLog], [safeError], the three replaced console methods
      and the [uncaughtException] and [unhandledRejection] listeners, all
      around the one latch [consoleDisabled].  What a write to the console
      does (it succeeds, or throws with a code) is given by a script of
      outcomes, one per attempt. *)

From Stdlib Require Import ZArith List String.
From stdpp Require Import base tactics option list strings gmap sets.
From S2P Require Import Prelude.

(** ** Windows *)

Inductive WindowKind := MainWindow | ControllerWindow.

#[global] Instance WindowKind_eq_dec : EqDecision WindowKind.
Proof. solve_decision. Defined.

(** A window that exists: its kind and whether it is shown. *)
Record BrowserWindow := mkBrowserWindow {
  bw_kind : WindowKind;
  bw_visible : bool;
}.

Record Shell := mkShell {
  mainWindow : option nat;
  controllerWindow : option nat;
  windows : gmap nat BrowserWindow;
  nextWindow : nat;
  running : bool;
  darwin : bool;
  (** what was sent to the main window on [controller-command] *)
  commandsSent : list string;
}.

Definition initialShell (isDarwin : bool) : Shell :=
  {| mainWindow := None; controllerWindow := None; windows := ∅; nextWindow := 1;
     running := true; darwin := isDarwin; commandsSent := [] |}.

Definition withWindows (ws : gmap nat BrowserWindow) (sh : Shell) : Shell :=
  {| mainWindow := mainWindow sh; controllerWindow := controllerWindow sh; windows := ws;
     nextWindow := nextWindow sh; running := running sh; darwin := darwin sh;
     commandsSent := commandsSent sh |}.

Definition withController (c : option nat) (sh : Shell) : Shell :=
  {| mainWindow := mainWindow sh; controllerWindow := c; windows := windows sh;
     nextWindow := nextWindow sh; running := running sh; darwin := darwin sh;
     commandsSent := commandsSent sh |}.

Definition withMain (m : option nat) (sh : Shell) : Shell :=
  {| mainWindow := m; controllerWindow := controllerWindow sh; windows := windows sh;
     nextWindow := nextWindow sh; running := running sh; darwin := darwin sh;
     commandsSent := commandsSent sh |}.

(** [new BrowserWindow(options)]; [show] is the [show] option. *)
Definition newWindow (kind : WindowKind) (show : bool) (sh : Shell) : nat * Shell :=
  (nextWindow sh,
   {| mainWindow := mainWindow sh; controllerWindow := controllerWindow sh;
      windows := <[nextWindow sh := mkBrowserWindow kind show]> (windows sh);
      nextWindow := S (nextWindow sh); running := running sh; darwin := darwin sh;
      commandsSent := commandsSent sh |}).

(** [w.show()] / [w.hide()] *)
Definition setVisible (w : nat) (v : bool) (sh : Shell) : Shell :=
  withWindows (alter (fun b => mkBrowserWindow (bw_kind b) v) w (windows sh)) sh.

(** [createWindow]: the main window is created hidden ([show: false]). *)
Definition createWindow (sh : Shell) : Shell :=
  let '(w, sh) := newWindow MainWindow false sh in
  withMain (Some w) sh.

(** The [ready-to-show] listener [createWindow] registers: it shows the
    window [mainWindow] refers to when it runs.  When the window was closed
    meanwhile the variable is [null] and the call throws inside the
    listener, which changes no window. *)
Definition readyToShow (sh : Shell) : Shell :=
  match mainWindow sh with
  | Some w => setVisible w true sh
  | None => sh
  end.

(** [createControllerWindow] *)
Definition createControllerWindow (sh : Shell) : Shell :=
  match controllerWindow sh with
  | Some _ => sh
  | None =>
      let '(w, sh) := newWindow ControllerWindow true sh in
      withController (Some w) sh
  end.

(** The [show-controller] handler. *)
Definition showController (sh : Shell) : Shell :=
  let sh := createControllerWindow sh in
  match controllerWindow sh with
  | Some w => setVisible w true sh
  | None => sh
  end.

(** The [hide-controller] handler. *)
Definition hideController (sh : Shell) : Shell :=
  match controllerWindow sh with
  | Some w => setVisible w false sh
  | None => sh
  end.

(** [w.close()], or the user closing the window.  The [close] listener of a
    controller window prevents the close and hides the window the variable
    [controllerWindow] refers to at that time, which need not be the
    window being closed; when the variable is [null] the call of [hide]
    throws inside the listener, after the close was prevented, and no
    window changes.  The main window has no [close] listener: it is
    destroyed and its [closed] listener clears [mainWindow]. *)
Definition closeWindow (w : nat) (sh : Shell) : Shell :=
  match windows sh !! w with
  | Some b =>
      match bw_kind b with
      | ControllerWindow => hideController sh
      | MainWindow => withMain None (withWindows (delete w (windows sh)) sh)
      end
  | None => sh
  end.

(** The [close-controller] handler. *)
Definition closeController (sh : Shell) : Shell :=
  match controllerWindow sh with
  | Some w => withController None (closeWindow w sh)
  | None => sh
  end.

(** The [controller-command] handler. *)
Definition controllerCommand (command : string) (sh : Shell) : Shell :=
  match mainWindow sh with
  | Some _ =>
      {| mainWindow := mainWindow sh; controllerWindow := controllerWindow sh;
         windows := windows sh; nextWindow := nextWindow sh; running := running sh;
         darwin := darwin sh; commandsSent := commandsSent sh ++ [command] |}
  | None => sh
  end.

(** Whether a window is of a kind. *)
Definition ofKind (kind : WindowKind) (p : nat * BrowserWindow) : Prop := bw_kind p.2 = kind.

#[global] Instance ofKind_dec kind p : Decision (ofKind kind p).
Proof. unfold ofKind. apply _. Defined.

(** The controller windows that exist. *)
Definition controllers (sh : Shell) : gmap nat BrowserWindow :=
  filter (ofKind ControllerWindow) (windows sh).

(** [app.quit()]: every window is asked to close, which destroys the main
    window and runs the [close] listener of each controller window; the
    application ends when no window is left. *)
Definition quit (sh : Shell) : Shell :=
  let ws :=
    match controllerWindow sh with
    | Some c => alter (fun b => mkBrowserWindow (bw_kind b) false) c (controllers sh)
    | None => controllers sh
    end in
  {| mainWindow :=
       if decide (filter (ofKind MainWindow) (windows sh) = ∅) then mainWindow sh else None;
     controllerWindow := controllerWindow sh;
     windows := ws; nextWindow := nextWindow sh;
     running := bool_decide (ws <> ∅); darwin := darwin sh;
     commandsSent := commandsSent sh |}.

(** The [window-all-closed] listener, run when the last window closed. *)
Definition windowAllClosed (sh : Shell) : Shell :=
  if bool_decide (windows sh = ∅) && negb (darwin sh) then quit sh else sh.

(** The user closes the main window. *)
Definition userClosesMain (sh : Shell) : Shell :=
  match mainWindow sh with
  | Some w => windowAllClosed (closeWindow w sh)
  | None => sh
  end.

(** The [activate] listener. *)
Definition activate (sh : Shell) : Shell :=
  if bool_decide (windows sh = ∅) then createWindow sh else sh.

Inductive ShellEvent :=
| Ready
| ShowController
| HideController
| CloseController
| ControllerCommand (command : string)
| UserCloses (w : nat)
| Activate
| MenuQuit
| ReadyToShow.

Definition shell_step (sh : Shell) (ev : ShellEvent) : option Shell :=
  Some match ev with
       | Ready => createWindow sh
       | ShowController => showController sh
       | HideController => hideController sh
       | CloseController => closeController sh
       | ControllerCommand command => controllerCommand command sh
       | UserCloses w =>
           if bool_decide (mainWindow sh = Some w) then userClosesMain sh else closeWindow w sh
       | Activate => activate sh
       | MenuQuit => quit sh
       | ReadyToShow => readyToShow sh
       end.

(** [Ready] happens once, at start; everything else while the application
    runs; a user can only close a window that exists. *)
Definition shell_enabled (sh : Shell) (ev : ShellEvent) : Prop :=
  running sh = true /\
  match ev with
  | Ready => nextWindow sh = 1%nat
  | UserCloses w => is_Some (windows sh !! w)
  | Activate => darwin sh = true
  | _ => True
  end.

#[global] Instance shell_enabled_dec sh ev : Decision (shell_enabled sh ev).
Proof. unfold shell_enabled. destruct ev; apply _. Defined.

Definition shell_reachable (isDarwin : bool) : Shell -> Prop :=
  reachable (initialShell isDarwin) shell_enabled shell_step.

(** ** The console latch *)

(** What an attempt to write to the console does. *)
Inductive WriteOutcome :=
| Written
| WriteThrows (code : string).

Record Console := mkConsole {
  consoleDisabled : bool;
  (** what the coming attempts will do; attempts beyond the script succeed *)
  script : list WriteOutcome;
  (** the lines that reached the console *)
  printed : list string;
}.

(** [originalConsoleLog.apply(console, args)] and its two siblings: one
    attempt. *)
Definition writeOriginal (line : string) (c : Console) : result JsError unit * Console :=
  match script c with
  | [] | Written :: _ =>
      (Ok tt, mkConsole (consoleDisabled c) (tail (script c)) (printed c ++ [line]))
  | WriteThrows code :: rest =>
      (Throw (SystemError code "write"), mkConsole (consoleDisabled c) rest (printed c))
  end.

(** [error.code === 'EPIPE'] *)
Definition isEPIPE (e : JsError) : bool :=
  match e with
  | SystemError code _ => String.eqb code "EPIPE"
  | _ => false
  end.

Definition disable (c : Console) : Console := mkConsole true (script c) (printed c).

(** The replaced [console.log], [console.error] and [console.warn]. *)
Definition consoleMethod (line : string) (c : Console) : result JsError unit * Console :=
  if consoleDisabled c then (Ok tt, c)
  else match writeOriginal line c with
       | (Ok _, c') => (Ok tt, c')
       | (Throw e, c') => (Ok tt, if isEPIPE e then disable c' else c')
       end.

(** [safeLog], calling the [console.log] and [console.error] given. *)
Definition safeLogWith (log error : string -> Console -> result JsError unit * Console)
    (line : string) (c : Console) : result JsError unit * Console :=
  if consoleDisabled c then (Ok tt, c)
  else match log line c with
       | (Ok _, c') => (Ok tt, c')
       | (Throw e, c') =>
           if isEPIPE e then (Ok tt, disable c')
           else match error "Console error:" c' with
                | (Ok _, c'') => (Ok tt, c'')
                | (Throw _, c'') => (Ok tt, disable c'')
                end
       end.

(** [safeError] likewise. *)
Definition safeErrorWith (error : string -> Console -> result JsError unit * Console)
    (line : string) (c : Console) : result JsError unit * Console :=
  if consoleDisabled c then (Ok tt, c)
  else match error line c with
       | (Ok _, c') => (Ok tt, c')
       | (Throw e, c') => (Ok tt, if isEPIPE e then disable c' else c')
       end.

(** The two functions as they run: after the console methods were
    replaced. *)
Definition safeLog : string -> Console -> result JsError unit * Console :=
  safeLogWith consoleMethod consoleMethod.

Definition safeError : string -> Console -> result JsError unit * Console :=
  safeErrorWith consoleMethod.

(** The [uncaughtException] and [unhandledRejection] listeners; [label]
    is the text each puts before the error. *)
Definition uncaughtWith (error : string -> Console -> result JsError unit * Console)
    (label : string) (e : JsError) (c : Console) : Console :=
  if isEPIPE e then disable c
  else if negb (consoleDisabled c) then
    match error label c with
    | (Ok _, c') => c'
    | (Throw _, c') => disable c'
    end
  else c.

Definition uncaughtException : JsError -> Console -> Console :=
  uncaughtWith consoleMethod "Uncaught Exception:".

Definition unhandledRejection : JsError -> Console -> Console :=
  uncaughtWith consoleMethod "Unhandled Rejection at:".

(** The test at startup. *)
Definition startupTest (log : string -> Console -> result JsError unit * Console)
    (c : Console) : Console :=
  match log "ClipForge starting..." c with
  | (Ok _, c') => c'
  | (Throw e, c') => if isEPIPE e then disable c' else c'
  end.

(** ** The window references *)

(** What the module variables refer to, and where window ids come from. *)
Record shell_ok (sh : Shell) : Prop := {
  ok_main w :
    mainWindow sh = Some w -> exists b, windows sh !! w = Some b /\ bw_kind b = MainWindow;
  ok_controller w :
    controllerWindow sh = Some w ->
    exists b, windows sh !! w = Some b /\ bw_kind b = ControllerWindow;
  ok_one_main w b :
    windows sh !! w = Some b -> bw_kind b = MainWindow -> mainWindow sh = Some w;
  ok_fresh w : is_Some (windows sh !! w) -> (0 < w < nextWindow sh)%nat;
  ok_next : (0 < nextWindow sh)%nat;
}.

(** Splits a shell into its cells. *)
Ltac destruct_shell sh :=
  destruct sh as [main ctl ws next run mac sent].

Ltac shell_unfold :=
  unfold shell_step, userClosesMain, windowAllClosed, activate, showController,
    hideController, closeController, controllerCommand, createControllerWindow, createWindow,
    readyToShow,
    closeWindow, setVisible, newWindow, withController, withMain, withWindows.

Lemma lookup_hide (ws : gmap nat BrowserWindow) v w w' b :
  alter (fun b => mkBrowserWindow (bw_kind b) v) w ws !! w' = Some b ->
  exists b0, ws !! w' = Some b0 /\ bw_kind b0 = bw_kind b.
Proof.
  intros [(-> & b0 & ? & ->)|[? ?]]%lookup_alter_Some; by eexists.
Qed.

Lemma lookup_hide_kind (ws : gmap nat BrowserWindow) v w w' b :
  ws !! w' = Some b ->
  exists b', alter (fun b => mkBrowserWindow (bw_kind b) v) w ws !! w' = Some b' /\
             bw_kind b' = bw_kind b.
Proof.
  intros Hw. destruct (decide (w = w')) as [->|Hne].
  - rewrite lookup_alter_eq, Hw. by eexists.
  - rewrite lookup_alter_ne by done. by eexists.
Qed.

(** The windows [quit] leaves are the controller windows. *)
Lemma quit_lookup sh w b :
  windows (quit sh) !! w = Some b ->
  exists b0, windows sh !! w = Some b0 /\ bw_kind b0 = ControllerWindow /\
             bw_kind b = ControllerWindow.
Proof.
  unfold quit, controllers; simpl. intros Hb.
  assert (exists b0, filter (ofKind ControllerWindow) (windows sh) !! w = Some b0 /\
                     bw_kind b0 = bw_kind b) as (b0 & [Hw Hk]%map_lookup_filter_Some & Hkk).
  { destruct (controllerWindow sh); [by eapply lookup_hide|by exists b]. }
  exists b0. unfold ofKind in Hk; simpl in Hk. split_and!; congruence.
Qed.

Lemma quit_lookup_controller sh w b0 :
  windows sh !! w = Some b0 -> bw_kind b0 = ControllerWindow ->
  exists b, windows (quit sh) !! w = Some b /\ bw_kind b = ControllerWindow.
Proof.
  intros Hw Hk. unfold quit, controllers; simpl.
  assert (filter (ofKind ControllerWindow) (windows sh) !! w = Some b0) as Hf
    by by apply map_lookup_filter_Some.
  destruct (controllerWindow sh) as [c|]; [|by exists b0].
  destruct (lookup_hide_kind _ false c w b0 Hf) as (b & ? & ?). exists b. split; congruence.
Qed.

Lemma quit_ok sh : shell_ok sh -> shell_ok (quit sh).
Proof.
  intros [Hm Hc H1 Hf Hn]. split.
  - unfold quit at 1; simpl. intros w. case_decide as He; [|done].
    intros Hw. destruct (Hm w Hw) as (b & Hb & Hk).
    assert (filter (ofKind MainWindow) (windows sh) !! w = Some b) as Hin
      by by apply map_lookup_filter_Some.
    by rewrite He, lookup_empty in Hin.
  - intros w Hw. destruct (Hc w Hw) as (b & Hb & Hk). by eapply quit_lookup_controller.
  - intros w b (b0 & _ & _ & Hk)%quit_lookup. congruence.
  - intros w [b (b0 & Hw & _)%quit_lookup]. apply Hf. by eexists.
  - done.
Qed.

Lemma setVisible_ok w v sh : shell_ok sh -> shell_ok (setVisible w v sh).
Proof.
  intros [Hm Hc H1 Hf Hn]. split; unfold setVisible; simpl.
  - intros w' Hw. destruct (Hm w' Hw) as (b & Hb & Hk).
    destruct (lookup_hide_kind (windows sh) v w w' b Hb) as (b' & ? & ?).
    exists b'. split; congruence.
  - intros w' Hw. destruct (Hc w' Hw) as (b & Hb & Hk).
    destruct (lookup_hide_kind (windows sh) v w w' b Hb) as (b' & ? & ?).
    exists b'. split; congruence.
  - intros w' b (b0 & Hb & Hk)%lookup_hide Hmain. apply (H1 w' b0 Hb). congruence.
  - intros w' [b (b0 & Hb & _)%lookup_hide]. apply Hf. by eexists.
  - done.
Qed.

Lemma hideController_ok sh : shell_ok sh -> shell_ok (hideController sh).
Proof.
  intros Hok. unfold hideController. destruct (controllerWindow sh); [by apply setVisible_ok|done].
Qed.

(** A new window gets a fresh id, and the others stay. *)
Lemma newWindow_lookup kind show sh w b :
  windows (newWindow kind show sh).2 !! w = Some b <->
  (w = nextWindow sh /\ b = mkBrowserWindow kind show) \/
  (w <> nextWindow sh /\ windows sh !! w = Some b).
Proof. unfold newWindow; simpl. rewrite lookup_insert_Some. naive_solver. Qed.

Lemma createController_ok sh :
  shell_ok sh -> controllerWindow sh = None -> shell_ok (createControllerWindow sh).
Proof.
  intros [Hm Hc H1 Hf Hn] Hnone. unfold createControllerWindow. rewrite Hnone.
  split; simpl.
  - intros w Hw. destruct (Hm w Hw) as (b & Hb & Hk). exists b. split; [|done].
    rewrite lookup_insert_ne; [done|]. intros <-.
    assert (0 < nextWindow sh < nextWindow sh)%nat by (apply Hf; by eexists). lia.
  - intros w [= <-]. eexists. by rewrite lookup_insert_eq.
  - intros w b [[<- <-]|[? Hb]]%lookup_insert_Some Hk; [done|]. by eapply H1.
  - intros w [b [[<- <-]|[? Hb]]%lookup_insert_Some]; [lia|].
    assert (0 < w < nextWindow sh)%nat by (apply Hf; by eexists). lia.
  - lia.
Qed.

Lemma createWindow_ok sh :
  shell_ok sh -> windows sh = ∅ -> shell_ok (createWindow sh).
Proof.
  intros [Hm Hc H1 Hf Hn] Hempty. unfold createWindow, newWindow.
  split; simpl; rewrite ?Hempty.
  - intros w [= <-]. eexists. by rewrite lookup_insert_eq.
  - intros w Hw. destruct (Hc w Hw) as (b & Hb & _). by rewrite Hempty, lookup_empty in Hb.
  - intros w b [[<- <-]|[? Hb]]%lookup_insert_Some Hk; [done|].
    by rewrite lookup_empty in Hb.
  - intros w [b [[<- <-]|[? Hb]]%lookup_insert_Some]; [lia|].
    by rewrite lookup_empty in Hb.
  - lia.
Qed.

Lemma closeWindow_ok w sh : shell_ok sh -> shell_ok (closeWindow w sh).
Proof.
  intros Hok. unfold closeWindow. destruct (windows sh !! w) as [b|] eqn:Hw; [|done].
  destruct (bw_kind b) eqn:Hk; [|by apply hideController_ok].
  destruct Hok as [Hm Hc H1 Hf Hn]. split; simpl; try done.
  - intros w' Hw'. destruct (Hc w' Hw') as (b' & Hb' & Hk'). exists b'. split; [|done].
    rewrite lookup_delete_ne; [done|]. intros <-. congruence.
  - intros w' b' [Hne Hb']%lookup_delete_Some Hk'.
    pose proof (H1 w b Hw Hk). pose proof (H1 w' b' Hb' Hk'). congruence.
  - intros w' [b' [_ Hb']%lookup_delete_Some]. apply Hf. by eexists.
Qed.

Lemma withController_None_ok sh : shell_ok sh -> shell_ok (withController None sh).
Proof. intros [Hm Hc H1 Hf Hn]. by split. Qed.

Lemma shell_step_ok sh ev sh' :
  shell_ok sh -> shell_enabled sh ev -> shell_step sh ev = Some sh' -> shell_ok sh'.
Proof.
  intros Hok [_ Hen] [= <-]. destruct ev; simpl in Hen.
  - apply createWindow_ok; [done|]. apply map_empty. intros w.
    destruct (windows sh !! w) as [b|] eqn:Hw; [|done].
    assert (0 < w < nextWindow sh)%nat by (apply Hok; by eexists). lia.
  - unfold showController. destruct (controllerWindow sh) as [w|] eqn:Hc.
    + unfold createControllerWindow. rewrite Hc, Hc. by apply setVisible_ok.
    + pose proof (createController_ok sh Hok Hc) as Hok'.
      destruct (controllerWindow (createControllerWindow sh)); [by apply setVisible_ok|done].
  - by apply hideController_ok.
  - unfold closeController. destruct (controllerWindow sh); [|done].
    by apply withController_None_ok, closeWindow_ok.
  - unfold controllerCommand. destruct (mainWindow sh) eqn:Hm; [|done].
    destruct Hok as [? ? ? ? ?]. split; simpl; by rewrite <- ?Hm.
  - case_bool_decide as Hmain; [|by apply closeWindow_ok].
    unfold userClosesMain. rewrite Hmain. unfold windowAllClosed.
    destruct (_ && _); [apply quit_ok|]; by apply closeWindow_ok.
  - unfold activate. case_bool_decide; [by apply createWindow_ok|done].
  - by apply quit_ok.
  - unfold readyToShow. destruct (mainWindow sh); [by apply setVisible_ok|done].
Qed.

Lemma initialShell_ok isDarwin : shell_ok (initialShell isDarwin).
Proof. split; simpl; try done; [intros w [b Hb]; by rewrite lookup_empty in Hb|lia]. Qed.

Lemma shell_reachable_ok isDarwin sh : shell_reachable isDarwin sh -> shell_ok sh.
Proof.
  apply reachable_invariant; [apply initialShell_ok|].
  intros s e s' Hs He Hstep. by eapply shell_step_ok.
Qed.

(** C13. In every state the main process reaches, [mainWindow] and
    [controllerWindow] are null or refer to a window that exists and is of
    the right kind, and there is at most one main window. *)
Theorem shell_reachable_refs isDarwin sh :
  shell_reachable isDarwin sh ->
  (forall w, mainWindow sh = Some w -> bw_kind <$> windows sh !! w = Some MainWindow) /\
  (forall w, controllerWindow sh = Some w ->
             bw_kind <$> windows sh !! w = Some ControllerWindow) /\
  (forall w w', bw_kind <$> windows sh !! w = Some MainWindow ->
                bw_kind <$> windows sh !! w' = Some MainWindow -> w = w').
Proof.
  intros [Hm Hc H1 _ _]%shell_reachable_ok. split_and!.
  - intros w (b & -> & <-)%Hm. done.
  - intros w (b & -> & <-)%Hc. done.
  - intros w w' (b & Hb & Hk)%fmap_Some (b' & Hb' & Hk')%fmap_Some.
    pose proof (H1 w b Hb (eq_sym Hk)). pose proof (H1 w' b' Hb' (eq_sym Hk')). congruence.
Qed.

(** ** Controller windows are never destroyed *)

(** [w] is a controller window that exists. *)
Definition isController (sh : Shell) (w : nat) : Prop :=
  bw_kind <$> windows sh !! w = Some ControllerWindow.

#[global] Instance isController_dec sh w : Decision (isController sh w).
Proof. unfold isController. apply _. Defined.

Lemma isController_setVisible sh w v w' :
  isController sh w -> isController (setVisible w' v sh) w.
Proof.
  unfold isController, setVisible; simpl. intros (b & Hb & Hk)%fmap_Some.
  destruct (lookup_hide_kind (windows sh) v w' w b Hb) as (b' & -> & Hk'). simpl. congruence.
Qed.

Lemma isController_newWindow sh w kind show :
  shell_ok sh -> isController sh w -> isController (newWindow kind show sh).2 w.
Proof.
  unfold isController, newWindow; simpl. intros Hok (b & Hb & Hk)%fmap_Some.
  rewrite lookup_insert_ne, Hb; [simpl; congruence|]. intros <-.
  assert (0 < nextWindow sh < nextWindow sh)%nat by (apply Hok; by eexists). lia.
Qed.

Lemma isController_hideController sh w : isController sh w -> isController (hideController sh) w.
Proof.
  intros Hw. unfold hideController. destruct (controllerWindow sh); [|done].
  by apply isController_setVisible.
Qed.

Lemma running_hideController sh : running (hideController sh) = running sh.
Proof. unfold hideController. by destruct (controllerWindow sh). Qed.

Lemma isController_closeWindow sh w w' : isController sh w -> isController (closeWindow w' sh) w.
Proof.
  intros Hw. unfold closeWindow. destruct (windows sh !! w') as [b'|] eqn:Hb'; [|done].
  destruct (bw_kind b') eqn:Hk'; [|by apply isController_hideController].
  unfold isController in *; simpl. rewrite lookup_delete_ne; [done|]. intros <-.
  rewrite Hb' in Hw. simpl in Hw. congruence.
Qed.

Lemma running_closeWindow w sh : running (closeWindow w sh) = running sh.
Proof.
  unfold closeWindow. destruct (windows sh !! w) as [b|]; [|done].
  destruct (bw_kind b); [done|apply running_hideController].
Qed.

Lemma isController_quit sh w : isController sh w -> isController (quit sh) w.
Proof.
  unfold isController. intros (b & Hb & Hk)%fmap_Some.
  destruct (quit_lookup_controller sh w b Hb (eq_sym Hk)) as (b' & -> & Hk'). simpl. congruence.
Qed.

Lemma running_quit sh w : isController sh w -> running (quit sh) = true.
Proof.
  intros Hw%isController_quit. unfold quit at 1; simpl. apply bool_decide_eq_true.
  intros Hempty. unfold isController, quit in Hw; simpl in Hw.
  by rewrite Hempty, lookup_empty in Hw.
Qed.

(** A step keeps every controller window, and with one the application
    keeps running. *)
Lemma shell_step_controller sh ev sh' w :
  shell_ok sh -> isController sh w -> running sh = true -> shell_step sh ev = Some sh' ->
  isController sh' w /\ running sh' = true.
Proof.
  intros Hok Hw Hrun [= <-]. destruct ev; simpl.
  - unfold createWindow. split; [|done].
    by apply (isController_newWindow sh w MainWindow false).
  - unfold showController, createControllerWindow.
    destruct (controllerWindow sh) as [c|] eqn:Hc; [rewrite Hc|simpl]; split; try done.
    + by apply isController_setVisible.
    + by apply isController_setVisible, (isController_newWindow sh w ControllerWindow true).
  - split; [by apply isController_hideController|by rewrite running_hideController].
  - unfold closeController. destruct (controllerWindow sh); split; try done.
    + by apply (isController_closeWindow sh).
    + simpl. by rewrite running_closeWindow.
  - unfold controllerCommand. by destruct (mainWindow sh).
  - case_bool_decide as Hmain.
    + unfold userClosesMain. rewrite Hmain. unfold windowAllClosed.
      pose proof (isController_closeWindow sh w w0 Hw) as Hw'.
      destruct (_ && _); [split; [by apply isController_quit|by eapply running_quit]|].
      split; [done|]. by rewrite running_closeWindow.
    + split; [by apply isController_closeWindow|by rewrite running_closeWindow].
  - unfold activate. case_bool_decide; [|done]. unfold createWindow. split; [|done].
    by apply (isController_newWindow sh w MainWindow false).
  - split; [by apply isController_quit|by eapply running_quit].
  - unfold readyToShow. destruct (mainWindow sh); split; try done.
    by apply isController_setVisible.
Qed.

Lemma shell_reachable_running isDarwin sh :
  shell_reachable isDarwin sh -> running sh = false -> windows sh = ∅.
Proof.
  revert sh.
  apply (reachable_invariant _ _ _ (fun sh => running sh = false -> windows sh = ∅)); [done|].
  intros s ev s' _ [Hrun _] [= <-].
  assert (forall sh, running (quit sh) = false -> windows (quit sh) = ∅) as Hquit.
  { intros sh. unfold quit; simpl. intros Hq%bool_decide_eq_false. by apply dec_stable. }
  pose proof running_closeWindow as Hclose.
  destruct ev; simpl; try (by rewrite Hrun); try (by apply Hquit).
  - unfold showController, createControllerWindow. destruct (controllerWindow s) eqn:Hc.
    + rewrite Hc. simpl. by rewrite Hrun.
    + simpl. by rewrite Hrun.
  - unfold hideController. destruct (controllerWindow s); simpl; by rewrite Hrun.
  - unfold closeController. destruct (controllerWindow s); simpl; rewrite ?Hclose; by rewrite Hrun.
  - unfold controllerCommand. destruct (mainWindow s); simpl; by rewrite Hrun.
  - case_bool_decide as Hmain; [|rewrite Hclose; by rewrite Hrun].
    unfold userClosesMain. rewrite Hmain. unfold windowAllClosed.
    destruct (_ && _); [by apply Hquit|]. rewrite Hclose. by rewrite Hrun.
  - unfold activate. case_bool_decide; simpl; by rewrite Hrun.
  - unfold readyToShow. destruct (mainWindow s); simpl; by rewrite Hrun.
Qed.

(** C27. Once a controller window exists the application cannot end: no
    handler destroys a controller window, its [close] listener refuses every
    close, and [app.quit()] ends the application only when no window is
    left.  Whatever happens afterwards, the window exists and the
    application is running. *)
Theorem controller_blocks_quit isDarwin sh w evs sh' :
  shell_reachable isDarwin sh -> isController sh w ->
  runG shell_enabled shell_step evs sh = Some sh' ->
  isController sh' w /\ running sh' = true.
Proof.
  intros Hreach Hw. assert (running sh = true) as Hrun.
  { destruct (running sh) eqn:Hr; [done|].
    apply (shell_reachable_running _ _ Hreach) in Hr. unfold isController in Hw.
    by rewrite Hr, lookup_empty in Hw. }
  apply shell_reachable_ok in Hreach as Hok. clear Hreach.
  revert sh Hw Hrun Hok. induction evs as [|ev evs IH]; intros sh Hw Hrun Hok; simpl.
  - by intros [= <-].
  - case_decide as Hen; [|done]. simpl. intros Hrest.
    destruct (shell_step_controller sh ev _ w Hok Hw Hrun eq_refl) as [Hw' Hrun'].
    eapply IH; [done..| |done]. by eapply shell_step_ok.
Qed.

(** Without a controller window [app.quit()] ends the application. *)
Lemma quit_ends sh : controllers sh = ∅ -> running (quit sh) = false.
Proof.
  intros Hc. unfold quit; simpl. rewrite Hc. apply bool_decide_eq_false.
  destruct (controllerWindow sh); intros Hne; apply Hne; [apply alter_empty|done].
Qed.

(** ** Every show and close leaves a window behind *)

Definition cycle (sh : Shell) : Shell := closeController (showController sh).

Lemma cycle_spec sh :
  controllerWindow sh = None ->
  cycle sh
  = mkShell (mainWindow sh) None
      (<[nextWindow sh := mkBrowserWindow ControllerWindow false]> (windows sh))
      (S (nextWindow sh)) (running sh) (darwin sh) (commandsSent sh).
Proof.
  intros Hc. unfold cycle, showController, createControllerWindow. rewrite Hc. simpl.
  unfold closeController; simpl. unfold closeWindow, setVisible; simpl.
  rewrite alter_insert_eq, lookup_insert_eq; simpl.
  unfold withController, withWindows; simpl. f_equal.
  by rewrite alter_insert_eq.
Qed.

(** C33. [close-controller] clears the reference but the window refuses to
    close: every show followed by a close leaves one more hidden controller
    window that nothing refers to.  After [n] rounds there are [n] of them,
    next to the windows that were there before. *)
Theorem controller_cycles_leak n sh :
  controllerWindow sh = None ->
  let sh' := Nat.iter n cycle sh in
  controllerWindow sh' = None /\
  nextWindow sh' = (n + nextWindow sh)%nat /\
  (forall k, (k < n)%nat ->
     windows sh' !! (nextWindow sh + k)%nat = Some (mkBrowserWindow ControllerWindow false)) /\
  (forall w, (w < nextWindow sh)%nat -> windows sh' !! w = windows sh !! w).
Proof.
  intros Hc. induction n as [|n (IHc & IHn & IHnew & IHold)]; simpl.
  - split_and!; [done..|intros k Hk; lia|done].
  - rewrite (cycle_spec _ IHc); simpl. rewrite IHn. split_and!; [done..| |].
    + intros k Hk. destruct (decide (k = n)) as [->|Hne].
      * rewrite Nat.add_comm. apply lookup_insert_eq.
      * rewrite lookup_insert_ne by lia. apply IHnew. lia.
    + intros w Hw. rewrite lookup_insert_ne by lia. by apply IHold.
Qed.

(** ** The console *)

Lemma consoleMethod_Ok line c : (consoleMethod line c).1 = Ok tt.
Proof.
  unfold consoleMethod. destruct (consoleDisabled c); [done|].
  by destruct (writeOriginal line c) as [[[]|e] c'].
Qed.

Lemma safeLog_eq line c : safeLog line c = consoleMethod line c.
Proof.
  unfold safeLog, safeLogWith. pose proof (consoleMethod_Ok line c) as Hok.
  unfold consoleMethod in *. destruct (consoleDisabled c); [done|].
  by destruct (writeOriginal line c) as [[[]|e] c'].
Qed.

Lemma safeError_eq line c : safeError line c = consoleMethod line c.
Proof.
  unfold safeError, safeErrorWith. pose proof (consoleMethod_Ok line c) as Hok.
  unfold consoleMethod in *. destruct (consoleDisabled c); [done|].
  by destruct (writeOriginal line c) as [[[]|e] c'].
Qed.

(** With the console methods replaced, [safeLog] and [safeError] are
    the replaced method: they never throw, a failed write loses the line, and
    the handling [safeLog] has for errors other than a closed pipe is never
    reached, so that such a failure is not reported and does not set the
    latch. *)
Theorem safeLog_consoleMethod line c :
  safeLog line c = consoleMethod line c /\
  safeError line c = consoleMethod line c /\
  (safeLog line c).1 = Ok tt /\
  (forall code rest, script c = WriteThrows code :: rest -> consoleDisabled c = false ->
     (safeLog line c).2 = mkConsole (String.eqb code "EPIPE") rest (printed c)).
Proof.
  split_and!; [apply safeLog_eq|apply safeError_eq|by rewrite safeLog_eq, consoleMethod_Ok|].
  intros code rest Hs Hd. rewrite safeLog_eq. unfold consoleMethod, writeOriginal.
  rewrite Hd, Hs. simpl. by destruct (String.eqb code "EPIPE").
Qed.

(** The lines logged one after the other. *)
Definition logAll (lines : list string) (c : Console) : Console :=
  foldl (fun c line => (safeLog line c).2) c lines.

(** Once the latch is set nothing is written or attempted. *)
Lemma logAll_disabled lines c : consoleDisabled c = true -> logAll lines c = c.
Proof.
  intros Hd. induction lines as [|line lines IH]; simpl; [done|].
  unfold safeLog, safeLogWith. by rewrite Hd.
Qed.

(** The latch is never reset, and what was printed stays. *)
Lemma logAll_monotone lines c :
  (consoleDisabled c = true -> consoleDisabled (logAll lines c) = true) /\
  printed c `prefix_of` printed (logAll lines c).
Proof.
  revert c. induction lines as [|line lines IH]; intros c; simpl; [done|].
  destruct (IH (safeLog line c).2) as [IHd IHp]. rewrite safeLog_eq in *.
  split.
  - intros Hd. apply IHd. unfold consoleMethod. by rewrite Hd.
  - etransitivity; [|apply IHp]. unfold consoleMethod, writeOriginal.
    destruct (consoleDisabled c); [done|].
    destruct (script c) as [|[|code] rest]; simpl; try (by apply prefix_app_r).
    by destruct (String.eqb code "EPIPE").
Qed.

(** ** Worked runs *)

Definition shellOf (evs : list ShellEvent) : Shell :=
  default (initialShell false) (runG shell_enabled shell_step evs (initialShell false)).

Lemma shellOf_reachable evs :
  is_Some (runG shell_enabled shell_step evs (initialShell false)) ->
  shell_reachable false (shellOf evs).
Proof.
  intros [sh Hrun]. unfold shellOf. rewrite Hrun. simpl.
  eapply runG_reachable; [apply reach_init|done].
Qed.

(** The controller was shown once and closed again. *)
Definition shellAfterController : Shell := shellOf [Ready; ShowController; CloseController].

Lemma shellAfterController_reachable : shell_reachable false shellAfterController.
Proof. apply shellOf_reachable, (bool_decide_unpack _). by vm_compute. Qed.

Lemma shell_reachable_refs_witness :
  bw_kind <$> windows shellAfterController !! 1%nat = Some MainWindow.
Proof.
  by apply (shell_reachable_refs false shellAfterController shellAfterController_reachable).
Defined.

(** The user closes the main window and picks Quit twice: the application
    still runs, with the hidden controller window as its only window. *)
Lemma controller_blocks_quit_witness :
  exists sh',
    runG shell_enabled shell_step [UserCloses 1; MenuQuit; MenuQuit] shellAfterController
    = Some sh' /\
    running sh' = true /\ mainWindow sh' = None /\ controllerWindow sh' = None.
Proof.
  destruct (runG shell_enabled shell_step [UserCloses 1; MenuQuit; MenuQuit]
              shellAfterController) as [sh'|] eqn:Hrun; [|by vm_compute in Hrun].
  exists sh'. split; [done|].
  destruct (controller_blocks_quit false shellAfterController 2 _ sh'
              shellAfterController_reachable ltac:(by vm_compute) Hrun) as [_ Hrunning].
  split; [done|]. vm_compute in Hrun. by injection Hrun as <-.
Defined.

Lemma controller_cycles_leak_witness :
  controllerWindow (Nat.iter 3 cycle (shellOf [Ready])) = None /\
  windows (Nat.iter 3 cycle (shellOf [Ready])) !! (nextWindow (shellOf [Ready]) + 2)%nat
  = Some (mkBrowserWindow ControllerWindow false).
Proof.
  destruct (controller_cycles_leak 3 (shellOf [Ready]) eq_refl) as (Hc & _ & Hnew & _).
  split; [exact Hc|]. apply (Hnew 2%nat). lia.
Defined.

(** A broken pipe on the second line: the first line is printed, the
    second is lost and sets the latch, the third is not attempted. *)
Example scenario_console_latch :
  logAll ["a"; "b"; "c"] (mkConsole false [Written; WriteThrows "EPIPE"; Written] [])
  = mkConsole true [Written] ["a"].
Proof. reflexivity. Qed.

(** Another failure loses its line without setting the latch. *)
Example scenario_console_other_error :
  logAll ["a"; "b"] (mkConsole false [WriteThrows "EIO"; Written] [])
  = mkConsole false [] ["b"].
Proof. reflexivity. Qed.

(** The main window is hidden until it is ready, and shown then; when it
    was closed before, nothing is shown. *)
Example scenario_ready_to_show :
  bw_visible <$> windows (shellOf [Ready]) !! 1%nat = Some false /\
  bw_visible <$> windows (shellOf [Ready; ReadyToShow]) !! 1%nat = Some true /\
  shellOf [Ready; ShowController; UserCloses 1; ReadyToShow]
  = shellOf [Ready; ShowController; UserCloses 1].
Proof. by vm_compute. Qed.
