(* ===== verification/Views.v ===== *)
(** * Views: the timeline strip and the asset library panel

    Models the two view components of src/src/App_simple.js that compute
    something: [SimpleTimeline] turns a click into a time and times into
    pixels; [AssetLibraryPanel] turns dropped files into media objects.

    - [SimpleTimeline]: [clickTime] is the time [handleTimelineClick] seeks
      to, [playheadLeft], [clipLeft] and [clipWidth] are the [left] and
      [width] style values.  All at [pixelsPerSecond] pixels per second, the
      drawn items shifted by [inset] pixels.
    - [AssetLibraryPanel]: [handleFiles] is the loop of [handleDrop] and of
      [handleFileInput]; [handleVideoImport] starts loading the metadata of a
      file, and [onloadedmetadata] is the callback that builds the media
      object and hands it to [App].  The files whose metadata has not arrived
      are the [loading] list: callbacks may come in any order, or never.
    - [panel_step] is the user interface as a whole: the events of the panel
      and of the strip, each calling the handler of [App] it is bound to.
      The panel never calls [onMediaReorder] and nothing calls
      [setImportedVideo].

    Theorems: a click puts the play-head [inset] pixels to the right of the
    pointer; only video files are imported, in the order their metadata
    arrives, and two object URLs are created per file and never revoked;
    files whose metadata arrives in the same millisecond get the same id, and
    deleting one deletes the other; every state reached through the views is
    a state [App] reaches under its guard ([panel_reachable_app]), so the
    boxes of the clips never overlap on screen, and the library holds only
    what the panel built; whatever the order of the metadata callbacks, the
    files in the library and the files still loading stay the same files
    up to permutation. *)

From Stdlib Require Import QArith Qminmax Lqa ZArith List String.
From stdpp Require Import base tactics option list strings pretty.
From S2P Require Import Prelude Timeline.

(** ** [SimpleTimeline] *)

Definition pixelsPerSecond : Q := 50.

(** The shift of the play-head and of the clip boxes. *)
Definition inset : Q := 10.

(** [Math.max(0, x / pixelsPerSecond)] with [x = e.clientX - rect.left] *)
Definition clickTime (clientX rectLeft : Q) : Q :=
  Qmax 0 ((clientX - rectLeft) / pixelsPerSecond).

(** [handleTimelineClick]: [onSeek] is [handleTimelineSeek]. *)
Definition handleTimelineClick (clientX rectLeft : Q) (st : AppState) : AppState :=
  handleTimelineSeek (clickTime clientX rectLeft) st.

(** [left] of the play-head *)
Definition playheadLeft (currentTime : Q) : Q := currentTime * pixelsPerSecond + inset.

(** [left] and [width] of a clip's box *)
Definition clipLeft (c : Clip) : Q := startTime c * pixelsPerSecond + inset.
Definition clipWidth (c : Clip) : Q := clip_duration c * pixelsPerSecond.

(** [clip.media?.name || clip.name || 'Clip'] *)
Definition clipLabel (c : Clip) : string :=
  default "Clip" (orStr (orStr (media_name <$> clip_media c) (clip_name c)) None).

(** [isPlaying ? 'Pause' : 'Play'] *)
Definition playButtonLabel (isPlaying : bool) : string :=
  if isPlaying then "Pause" else "Play".

(** ** [AssetLibraryPanel] *)

(** A [File] of a drop or of the file input. *)
Record File := mkFile {
  file_name : string;
  file_type : string;
  file_size : N;
}.

(** [file.type.startsWith('video/')] *)
Definition isVideo (f : File) : bool := String.prefix "video/" (file_type f).

(** The panel: [App]'s state, the files whose metadata is awaited (each
    with the object URL given to its video element), and the object URLs
    created so far, none of which is ever revoked. *)
Record Panel := mkPanel {
  panelApp : AppState;
  loading : list (File * nat);
  urlsCreated : nat;
  isDragOver : bool;
}.

Definition initialPanel : Panel :=
  {| panelApp := initialApp; loading := []; urlsCreated := 0; isDragOver := false |}.

(** [URL.createObjectURL(file)]: the URLs are numbered. *)
Definition objectURL (n : nat) : string := "blob:" +:+ pretty n.

(** [handleVideoImport] up to [video.src = ...]. *)
Definition handleVideoImport (file : File) (p : Panel) : Panel :=
  {| panelApp := panelApp p; loading := loading p ++ [(file, urlsCreated p)];
     urlsCreated := S (urlsCreated p); isDragOver := isDragOver p |}.

(** The loop of [handleDrop] and [handleFileInput]. *)
Definition handleFiles (files : list File) (p : Panel) : Panel :=
  foldl (fun p file => if isVideo file then handleVideoImport file p else p) p files.

Definition setIsDragOver (b : bool) (p : Panel) : Panel :=
  {| panelApp := panelApp p; loading := loading p; urlsCreated := urlsCreated p; isDragOver := b |}.

Definition handleDragOver : Panel -> Panel := setIsDragOver true.
Definition handleDragLeave : Panel -> Panel := setIsDragOver false.
Definition handleDrop (files : list File) (p : Panel) : Panel :=
  handleFiles files (setIsDragOver false p).
Definition handleFileInput : list File -> Panel -> Panel := handleFiles.

(** The object literal [mediaItem]; [duration] is [video.duration], absent
    when it is [NaN]. *)
Definition mediaItem (now : Z) (file : File) (duration : option Q) (url : nat) : Media :=
  {| media_id := Some ("media-" +:+ pretty now);
     media_name := file_name file;
     media_duration := duration;
     media_type := file_type file;
     media_size := file_size file;
     media_url := Some (objectURL url);
     media_path := None |}.

(** [video.onloadedmetadata] of the [i]-th file that is loading. *)
Definition onloadedmetadata (i : nat) (duration : option Q) (now : Z) (p : Panel) : Panel :=
  match loading p !! i with
  | Some (file, _) =>
      {| panelApp := handleVideoImported (mediaItem now file duration (urlsCreated p)) (panelApp p);
         loading := delete i (loading p);
         urlsCreated := S (urlsCreated p);
         isDragOver := isDragOver p |}
  | None => p
  end.

(** [media.duration ? ... : 'Unknown duration']: whether a duration is
    shown. *)
Definition showsDuration (m : Media) : bool :=
  match media_duration m with
  | Some d => truthyQ d
  | None => false
  end.

(** The metadata of the loading files arrives in the order they were
    started. *)
Fixpoint loadInOrder (loads : list (option Q * Z)) (p : Panel) : Panel :=
  match loads with
  | [] => p
  | (duration, now) :: loads => loadInOrder loads (onloadedmetadata 0 duration now p)
  end.

(** ** The click and the play-head *)

Lemma clickTime_nonneg clientX rectLeft : 0 <= clickTime clientX rectLeft.
Proof. apply Q.le_max_l. Qed.
Lemma handleTimelineSeek_time t st : currentTimelineTime (handleTimelineSeek t st) = t.
Proof. by destruct st. Qed.

Lemma clickTime_right x rectLeft :
  0 <= x -> clickTime (rectLeft + x) rectLeft == x / pixelsPerSecond.
Proof.
  intros Hx. unfold clickTime, pixelsPerSecond. rewrite Q.max_r; [field|].
  assert ((rectLeft + x - rectLeft) / 50 == x / 50) as -> by field.
  apply Qle_shift_div_l; lra.
Qed.

Lemma clickTime_left x rectLeft : x <= 0 -> clickTime (rectLeft + x) rectLeft == 0.
Proof.
  intros Hx. unfold clickTime, pixelsPerSecond. rewrite Q.max_l; [done|].
  assert ((rectLeft + x - rectLeft) / 50 == x / 50) as -> by field.
  apply Qle_shift_div_r; lra.
Qed.

(** A click on the strip seeks to a time that is never negative, and
    the play-head is then drawn [inset] pixels to the right of the pointer:
    the handler called with the position at which the play-head is drawn
    moves it by a fifth of a second.  (Which clicks reach the handler is
    the subject of [Render].) *)
Theorem click_playhead_offset x rectLeft t st :
  0 <= x -> 0 <= t ->
  let seek := fun clientX => currentTimelineTime (handleTimelineClick clientX rectLeft st) in
  0 <= seek (rectLeft + x) /\
  playheadLeft (seek (rectLeft + x)) == x + inset /\
  seek (rectLeft + playheadLeft t) == t + (1 # 5).
Proof.
  intros Hx Ht seek. subst seek. unfold handleTimelineClick.
  rewrite !handleTimelineSeek_time. split_and!.
  - apply clickTime_nonneg.
  - unfold playheadLeft. rewrite clickTime_right by done.
    unfold pixelsPerSecond, inset. field.
  - rewrite clickTime_right; unfold playheadLeft, pixelsPerSecond, inset; [field|lra].
Qed.

(** ** The boxes of the clips *)

Lemma clipBox_wf c :
  clip_wf c -> inset <= clipLeft c /\ 0 < clipWidth c /\
  clipLeft c + clipWidth c == playheadLeft (endTime c).
Proof.
  unfold clip_wf, clipLeft, clipWidth, playheadLeft, pixelsPerSecond, inset.
  intros (Hs & Hd & He & _). rewrite He. split_and!; [lra|lra|ring].
Qed.

(** On a well-formed timeline the boxes of the clips are drawn side by
    side: each starts at or after the right edge of the ones before it, has
    a positive width, and ends where the play-head is drawn at the clip's
    end. *)
Lemma clip_boxes_side_by_side clips i j a b :
  timeline_ok clips -> clips !! i = Some a -> clips !! j = Some b -> (i < j)%nat ->
  clipLeft a + clipWidth a <= clipLeft b /\
  0 < clipWidth a /\
  clipLeft a + clipWidth a == playheadLeft (endTime a).
Proof.
  intros [Hwf Hsorted] Ha Hb Hij.
  assert (clip_wf a) as Hwa by (eapply Forall_lookup_1; eauto).
  destruct (clipBox_wf a Hwa) as (_ & Hw & He). split_and!; [|done..].
  pose proof (StronglySorted_lookup _ _ _ _ _ _ Hsorted Ha Hb Hij) as Hbefore.
  unfold before in Hbefore. rewrite He.
  unfold playheadLeft, clipLeft, pixelsPerSecond. lra.
Qed.

(** ** Import *)

Lemma handleFiles_app files1 files2 p :
  handleFiles (files1 ++ files2) p = handleFiles files2 (handleFiles files1 p).
Proof. apply foldl_app. Qed.

(** Numbers the files from [n] on. *)
Fixpoint numbered (n : nat) (files : list File) : list (File * nat) :=
  match files with
  | [] => []
  | f :: fs => (f, n) :: numbered (S n) fs
  end.

Lemma numbered_length n files : length (numbered n files) = length files.
Proof. revert n. induction files as [|f fs IH]; intros n; simpl; auto. Qed.

(** The loop starts loading the video files, in order, and nothing else. *)
Lemma handleFiles_spec files p :
  handleFiles files p
  = {| panelApp := panelApp p;
       loading := loading p ++ numbered (urlsCreated p) (filter (fun f => isVideo f = true) files);
       urlsCreated := (urlsCreated p + length (filter (fun f => isVideo f = true) files))%nat;
       isDragOver := isDragOver p |}.
Proof.
  revert p. induction files as [|f fs IH]; intros p; simpl.
  - rewrite app_nil_r, Nat.add_0_r. by destruct p.
  - rewrite IH, filter_cons. destruct (isVideo f) eqn:Hv; simpl.
    + rewrite <- app_assoc. f_equal. lia.
    + done.
Qed.

(** The media objects of files whose metadata arrives in order. *)
Fixpoint imported (url : nat) (files : list File) (loads : list (option Q * Z)) : list Media :=
  match files, loads with
  | f :: fs, (duration, now) :: loads => mediaItem now f duration url :: imported (S url) fs loads
  | _, _ => []
  end.

Lemma loadInOrder_spec loads : forall files p,
  length loads = length files -> (exists n, loading p = numbered n files) ->
  loadInOrder loads p
  = {| panelApp := setImportedMedia (fun prev => prev ++ imported (urlsCreated p) files loads)
                     (panelApp p);
       loading := [];
       urlsCreated := (urlsCreated p + length files)%nat;
       isDragOver := isDragOver p |}.
Proof.
  induction loads as [|[d now] loads IH]; intros [|f fs] p Hlen [n Hload]; try done.
  - simpl in *. rewrite Nat.add_0_r. destruct p as [a l u o]. simpl in *. subst l.
    f_equal. destruct a. unfold setImportedMedia; simpl. by rewrite app_nil_r.
  - simpl. unfold onloadedmetadata at 1. rewrite Hload. simpl.
    rewrite (IH fs); simpl; [|by injection Hlen|by eexists].
    f_equal; [|lia]. destruct (panelApp p). unfold handleVideoImported, setImportedMedia; simpl.
    by rewrite <- app_assoc.
Qed.

(** C26. Dropping files imports exactly the video files among them: once
    their metadata has arrived, in the order they were dropped, the library
    has grown by one media object per video file, in that order, with the
    file's name, type and size and the duration reported; nothing is loading
    any more, and two object URLs were created per video file. *)
Theorem handleDrop_imports files loads p :
  loading p = [] ->
  length loads = length (filter (fun f => isVideo f = true) files) ->
  let videos := filter (fun f => isVideo f = true) files in
  let p' := loadInOrder loads (handleDrop files p) in
  importedMedia (panelApp p')
  = importedMedia (panelApp p) ++ imported (urlsCreated p + length videos) videos loads /\
  loading p' = [] /\
  urlsCreated p' = (urlsCreated p + 2 * length videos)%nat /\
  isDragOver p' = false.
Proof.
  intros Hl Hlen videos p'. subst videos p'. unfold handleDrop.
  rewrite handleFiles_spec. simpl. rewrite Hl. simpl.
  rewrite (loadInOrder_spec loads (filter (fun f => isVideo f = true) files));
    [|done|by eexists].
  simpl. split_and!; [done..|lia|done].
Qed.

Lemma imported_lookup url files loads i m :
  imported url files loads !! i = Some m ->
  exists f d now, files !! i = Some f /\ loads !! i = Some (d, now) /\
                  m = mediaItem now f d (url + i).
Proof.
  revert url files loads. induction i as [|i IH]; intros url [|f fs] [|[d now] loads]; try done.
  - simpl. intros [= <-]. exists f, d, now. by rewrite Nat.add_0_r.
  - simpl. intros (f' & d' & now' & ? & ? & ->)%IH. exists f', d', now'.
    split_and!; [done..|f_equal; lia].
Qed.

(** ** Ids are milliseconds *)

(** The id of an imported media is the millisecond in which its
    metadata arrived.  Two files whose metadata arrives in the same
    millisecond get the same id, and deleting one of them from the library
    deletes both, with every clip of either. *)
Theorem same_millisecond_twins now f1 f2 d1 d2 u1 u2 st :
  let m1 := mediaItem now f1 d1 u1 in
  let m2 := mediaItem now f2 d2 u2 in
  let st' := handleMediaDelete (media_id m1)
               (handleVideoImported m2 (handleVideoImported m1 st)) in
  media_id m1 = media_id m2 /\
  (m1 ∉ importedMedia st') /\ (m2 ∉ importedMedia st') /\
  importedMedia st' = filter (fun m => media_id m <> media_id m1) (importedMedia st) /\
  Forall (fun c => clipMediaId c <> media_id m2) (timelineClips st').
Proof.
  intros m1 m2 st'. subst st'. split; [done|].
  unfold handleMediaDelete, handleVideoImported; simpl.
  rewrite !filter_app, !filter_cons_False, !filter_nil, !app_nil_r by (by intros []).
  split_and!; [| |done|].
  - intros [Hne _]%list_elem_of_filter. by apply Hne.
  - intros [Hne _]%list_elem_of_filter. by apply Hne.
  - apply Forall_forall. by intros c [Hne _]%list_elem_of_filter.
Qed.

(** ** The panel and the strip as the user interface of [App] *)

(** What the user and the browser do to the two views. *)
Inductive PanelEvent :=
| DragOver
| DragLeave
| Drop (files : list File)
| FileInput (files : list File)
| LoadedMetadata (i : nat) (duration : option Q) (now : Z)
| ClickAdd (k : nat) (now : Z)
| ClickDelete (k : nat)
| ClickStrip (clientX rectLeft : Q)
| ClickPlay.

Definition onApp (f : AppState -> AppState) (p : Panel) : Panel :=
  {| panelApp := f (panelApp p); loading := loading p; urlsCreated := urlsCreated p;
     isDragOver := isDragOver p |}.

(** One event, one render.  The buttons of the [k]-th item of the list call
    [onAddToTimeline(media)] and [onMediaDelete(media.id)]. *)
Definition panel_step (p : Panel) (ev : PanelEvent) : option Panel :=
  match ev with
  | DragOver => Some (handleDragOver p)
  | DragLeave => Some (handleDragLeave p)
  | Drop files => Some (handleDrop files p)
  | FileInput files => Some (handleFileInput files p)
  | LoadedMetadata i duration now =>
      if decide (is_Some (loading p !! i)) then Some (onloadedmetadata i duration now p) else None
  | ClickAdd k now =>
      media ← importedMedia (panelApp p) !! k;
      Some (onApp (handleAddToTimeline (timelineClips (panelApp p)) now media) p)
  | ClickDelete k =>
      media ← importedMedia (panelApp p) !! k;
      Some (onApp (handleMediaDelete (media_id media)) p)
  | ClickStrip clientX rectLeft => Some (onApp (handleTimelineClick clientX rectLeft) p)
  | ClickPlay => Some (onApp handleTimelinePlayPause p)
  end.

(** A video element reports a duration that is not negative, or [NaN]. *)
Definition panel_enabled (p : Panel) (ev : PanelEvent) : Prop :=
  match ev with
  | LoadedMetadata _ (Some d) _ => 0 <= d
  | _ => True
  end.

#[global] Instance panel_enabled_dec p ev : Decision (panel_enabled p ev).
Proof. unfold panel_enabled. destruct ev as [| | | |? [d|] ?| | | |]; apply _. Defined.

Definition panel_reachable : Panel -> Prop :=
  reachable initialPanel panel_enabled panel_step.

(** The event of [App] a panel event raises, if any. *)
Definition raised (p : Panel) (ev : PanelEvent) : option AppEvent :=
  match ev with
  | LoadedMetadata i duration now =>
      '(file, _) ← loading p !! i;
      Some (VideoImported (mediaItem now file duration (urlsCreated p)))
  | ClickAdd k now => AddToTimeline now <$> importedMedia (panelApp p) !! k
  | ClickDelete k => (fun m => MediaDelete (media_id m)) <$> importedMedia (panelApp p) !! k
  | ClickStrip clientX rectLeft => Some (TimelineSeek (clickTime clientX rectLeft))
  | ClickPlay => Some TimelinePlayPause
  | _ => None
  end.

Lemma handleFiles_app_state files p : panelApp (handleFiles files p) = panelApp p.
Proof. by rewrite handleFiles_spec. Qed.

(** A step of the views is a step of [App] that its guard allows, or leaves
    [App] alone. *)
Lemma panel_step_app p ev p' :
  panel_enabled p ev -> panel_step p ev = Some p' ->
  match raised p ev with
  | Some aev => app_enabled (panelApp p) aev /\ app_step (panelApp p) aev = Some (panelApp p')
  | None => panelApp p' = panelApp p
  end.
Proof.
  intros Hen Hstep. destruct ev; simpl in *; simplify_eq; try done.
  - unfold handleDrop. by rewrite handleFiles_app_state.
  - unfold handleFileInput. by rewrite handleFiles_app_state.
  - case_decide as Hl; [|done]. destruct Hl as [[file url] Hl]. simplify_eq.
    unfold onloadedmetadata. rewrite Hl. simpl. split; [|done].
    unfold media_wf. simpl. by destruct duration.
  - destruct (importedMedia (panelApp p) !! k) as [media|] eqn:Hk; [|done].
    simpl in *. simplify_eq. split; [|done]. by eapply list_elem_of_lookup_2.
  - destruct (importedMedia (panelApp p) !! k) as [media|] eqn:Hk; [|done].
    simpl in *. by simplify_eq.
Qed.

Lemma panel_reachable_app p : panel_reachable p -> app_reachable (panelApp p).
Proof.
  apply (reachable_invariant _ _ _ (fun p => app_reachable (panelApp p))).
  - constructor.
  - intros p0 ev p1 Hr Hen Hstep. pose proof (panel_step_app p0 ev p1 Hen Hstep) as H.
    destruct (raised p0 ev) as [aev|]; [|by rewrite H].
    destruct H as [Ha Hs]. by eapply reach_step.
Qed.

(** ** What the library holds *)

(** A media object the panel built: a video with an id and an object URL
    that was created. *)
Definition imported_ok (urls : nat) (m : Media) : Prop :=
  String.prefix "video/" (media_type m) = true /\
  is_Some (media_id m) /\
  exists u, media_url m = Some (objectURL u) /\ (u < urls)%nat.

Record panel_ok (p : Panel) : Prop := {
  pk_loading : Forall (fun fu => isVideo fu.1 = true /\ (fu.2 < urlsCreated p)%nat) (loading p);
  pk_media : Forall (imported_ok (urlsCreated p)) (importedMedia (panelApp p));
  pk_preview : importedVideo (panelApp p) = None;
}.

Lemma imported_ok_mono urls urls' m : (urls <= urls')%nat -> imported_ok urls m -> imported_ok urls' m.
Proof. intros Hle (Ht & Hi & u & Hu & Hlt). split_and!; [done..|]. exists u. split; [done|lia]. Qed.

Lemma numbered_ok n files :
  Forall (fun f => isVideo f = true) files ->
  Forall (fun fu => isVideo fu.1 = true /\ (fu.2 < n + length files)%nat) (numbered n files).
Proof.
  intros Hv. revert n. induction Hv as [|f fs Hf _ IH]; intros n; simpl; constructor.
  - simpl. split; [done|lia].
  - eapply Forall_impl; [apply (IH (S n))|]. intros fu [? ?]. split; [done|lia].
Qed.

Lemma handleFiles_ok files p : panel_ok p -> panel_ok (handleFiles files p).
Proof.
  intros [Hl Hm Hp]. rewrite handleFiles_spec. split; simpl; [|by eapply Forall_impl;
    [exact Hm|intros m; apply imported_ok_mono; lia]|done].
  apply Forall_app. split.
  - eapply Forall_impl; [exact Hl|]. intros fu [? ?]. split; [done|lia].
  - apply numbered_ok, Forall_forall. by intros f [Hf _]%list_elem_of_filter.
Qed.

Lemma setIsDragOver_ok b p : panel_ok p -> panel_ok (setIsDragOver b p).
Proof. by intros [? ? ?]. Qed.

Lemma onloadedmetadata_ok i duration now p :
  panel_ok p -> panel_ok (onloadedmetadata i duration now p).
Proof.
  intros [Hl Hm Hp]. unfold onloadedmetadata.
  destruct (loading p !! i) as [[file url]|] eqn:Hi; [|done]. split; simpl.
  - rewrite Forall_forall in *. intros fu Hfu%list_elem_of_delete_inv.
    destruct (Hl fu Hfu). split; [done|lia].
  - destruct (panelApp p) eqn:Hpa. simpl in *. apply Forall_app. split.
    + eapply Forall_impl; [exact Hm|]. intros m. apply imported_ok_mono. lia.
    + constructor; [|done]. split_and!; simpl.
      * rewrite Forall_forall in Hl. by apply (Hl (file, url)), list_elem_of_lookup_2 with i.
      * by eexists.
      * eexists. split; [done|lia].
  - by destruct (panelApp p).
Qed.

Lemma panel_step_ok p ev p' :
  panel_ok p -> panel_step p ev = Some p' -> panel_ok p'.
Proof.
  intros Hp Hstep. destruct ev; simpl in *; simplify_eq.
  - by apply setIsDragOver_ok.
  - by apply setIsDragOver_ok.
  - by apply handleFiles_ok, setIsDragOver_ok.
  - by apply handleFiles_ok.
  - case_decide; [|done]. simplify_eq. by apply onloadedmetadata_ok.
  - destruct (importedMedia (panelApp p) !! k) as [media|]; [|done]. simpl in *. simplify_eq.
    destruct Hp as [Hl Hm Hv]. split; simpl; [done| |].
    + by rewrite handleAddToTimeline_media.
    + unfold handleAddToTimeline. destruct (Nat.eqb _ _); by destruct (panelApp p).
  - destruct (importedMedia (panelApp p) !! k) as [media|]; [|done]. simpl in *. simplify_eq.
    destruct Hp as [Hl Hm Hv]. split; simpl; [done| |by destruct (panelApp p)].
    by apply Forall_filter.
  - destruct Hp as [Hl Hm Hv]. split; simpl; [done|by destruct (panelApp p)..].
  - destruct Hp as [Hl Hm Hv]. split; simpl; [done|by destruct (panelApp p)..].
Qed.

Lemma panel_reachable_ok p : panel_reachable p -> panel_ok p.
Proof.
  apply reachable_invariant.
  - split; simpl; [constructor|constructor|done].
  - intros. by eapply panel_step_ok.
Qed.

(** C28. In every state the user reaches through the panel and the strip,
    whatever the order in which the metadata of the files arrives, the boxes
    of the clips are drawn side by side: each starts at or after the right
    edge of the ones before it, has a positive width, and ends where the
    play-head is drawn at the clip's end. *)
Theorem panel_reachable_boxes p i j a b :
  panel_reachable p ->
  timelineClips (panelApp p) !! i = Some a -> timelineClips (panelApp p) !! j = Some b ->
  (i < j)%nat ->
  clipLeft a + clipWidth a <= clipLeft b /\
  0 < clipWidth a /\
  clipLeft a + clipWidth a == playheadLeft (endTime a).
Proof.
  intros Hr%panel_reachable_app%app_reachable_ok. destruct Hr as [_ Hok].
  by apply clip_boxes_side_by_side.
Qed.

(** In every state the user reaches through the panel and the strip,
    whatever the order in which the metadata arrives, the library holds only
    videos, each with an id and an object URL the panel created, only videos
    are loading, and [importedVideo], the file the preview is given, was
    never set. *)
Theorem panel_reachable_library p :
  panel_reachable p ->
  Forall (imported_ok (urlsCreated p)) (importedMedia (panelApp p)) /\
  Forall (fun fu => isVideo fu.1 = true) (loading p) /\
  importedVideo (panelApp p) = None.
Proof.
  intros [Hl Hm Hv]%panel_reachable_ok. split_and!; [done| |done].
  eapply Forall_impl; [exact Hl|]. by intros fu [? _].
Qed.

(** ** The metadata may arrive in any order *)

(** The file a media object was built from. *)
Definition fileOf (m : Media) : File := mkFile (media_name m) (media_type m) (media_size m).

(** The files the panel holds: imported, or still loading. *)
Definition held (p : Panel) : list File :=
  (fileOf <$> importedMedia (panelApp p)) ++ (fst <$> loading p).

Definition isLoaded (ev : PanelEvent) : Prop :=
  match ev with
  | LoadedMetadata _ _ _ => True
  | _ => False
  end.

#[global] Instance isLoaded_dec ev : Decision (isLoaded ev).
Proof. destruct ev; apply _. Defined.

(** A callback moves one file from the loading list to the library. *)
Lemma onloadedmetadata_held i duration now p :
  is_Some (loading p !! i) -> held (onloadedmetadata i duration now p) ≡ₚ held p.
Proof.
  intros [[file url] Hi]. unfold held, onloadedmetadata. rewrite Hi. simpl.
  destruct (panelApp p) as [? media ? ? ? ? ?]. simpl.
  rewrite fmap_app, <- app_assoc. f_equal. simpl.
  rewrite (delete_Permutation (loading p) i (file, url) Hi) at 2.
  by destruct file.
Qed.

(** C24. Whatever the order in which the metadata of the files arrives, no file
    is lost and none is imported twice: the files in the library and the
    files still loading are, together, the same files as before. *)
Theorem metadata_any_order evs p p' :
  Forall isLoaded evs -> runG panel_enabled panel_step evs p = Some p' -> held p' ≡ₚ held p.
Proof.
  intros Hall. revert p. induction Hall as [|ev evs Hev _ IH]; intros p; simpl.
  - by intros [= <-].
  - case_decide as Hen; [|done]. destruct ev; try done. simpl.
    case_decide as Hi; [|done]. simpl. intros ->%IH. by apply onloadedmetadata_held.
Qed.

(** Once every callback has come, the library holds the dropped videos,
    each once, in the order their metadata arrived. *)
Corollary drop_any_order files evs p' :
  Forall isLoaded evs ->
  runG panel_enabled panel_step evs (handleDrop files initialPanel) = Some p' ->
  loading p' = [] ->
  fileOf <$> importedMedia (panelApp p') ≡ₚ filter (fun f => isVideo f = true) files.
Proof.
  intros Hall Hrun Hl. pose proof (metadata_any_order _ _ _ Hall Hrun) as H.
  unfold held in H. rewrite Hl in H. simpl in H. rewrite app_nil_r in H. rewrite H.
  unfold handleDrop. rewrite handleFiles_spec. simpl.
  generalize 0%nat. induction (filter _ files) as [|f fs IH]; intros n; simpl; [done|].
  by rewrite IH.
Qed.

(** ** Worked runs *)

Definition clipAt (start duration : Q) : Clip :=
  {| clip_id := "clip"; clip_media := None; startTime := start; clip_duration := duration;
     endTime := start + duration; track := 0; trimStart := 0; trimEnd := duration;
     clip_name := None; clip_path := None |}.

Lemma click_playhead_offset_witness :
  playheadLeft (currentTimelineTime (handleTimelineClick (100 + 40) 100 initialApp))
  == 40 + inset.
Proof.
  destruct (click_playhead_offset 40 100 0 initialApp) as (_ & H & _); [lra..|exact H].
Defined.

Definition dropped : list File :=
  [mkFile "a.mp4" "video/mp4" 10; mkFile "b.png" "image/png" 5; mkFile "c.webm" "video/webm" 7].

Lemma handleDrop_imports_witness :
  map media_name
    (importedMedia (panelApp (loadInOrder [(Some 5, 1000%Z); (None, 1001%Z)]
                                (handleDrop dropped initialPanel))))
  = ["a.mp4"; "c.webm"].
Proof.
  destruct (handleDrop_imports dropped [(Some 5, 1000%Z); (None, 1001%Z)] initialPanel
              eq_refl eq_refl) as (-> & _).
  reflexivity.
Defined.

(** A session at the panel: two videos and a picture are dropped, the
    metadata of the second video arrives first, both are put on the
    timeline, and the user seeks and plays. *)
Definition uiSession : list PanelEvent :=
  [DragOver; Drop dropped; LoadedMetadata 1 (Some 3) 1001; LoadedMetadata 0 (Some 5) 1002;
   ClickAdd 0 2000; ClickAdd 1 3000; ClickStrip 140 100; ClickPlay].

Definition panelAfter : Panel :=
  default initialPanel (runG panel_enabled panel_step uiSession initialPanel).

Lemma panelAfter_reachable : panel_reachable panelAfter.
Proof.
  apply (runG_reachable panel_enabled panel_step initialPanel uiSession initialPanel);
    [constructor|by vm_compute].
Qed.

Definition clipOf (p : Panel) (i : nat) : Clip :=
  default (clipAt 0 0) (timelineClips (panelApp p) !! i).

Lemma panel_reachable_boxes_witness :
  clipLeft (clipOf panelAfter 0) + clipWidth (clipOf panelAfter 0)
  <= clipLeft (clipOf panelAfter 1).
Proof.
  apply (panel_reachable_boxes panelAfter 0 1 (clipOf panelAfter 0) (clipOf panelAfter 1)
           panelAfter_reachable); [by vm_compute|by vm_compute|lia].
Defined.

Lemma panel_reachable_library_witness :
  Forall (imported_ok (urlsCreated panelAfter)) (importedMedia (panelApp panelAfter)).
Proof. apply (panel_reachable_library panelAfter panelAfter_reachable). Defined.

Lemma metadata_any_order_witness :
  held (default initialPanel
          (runG panel_enabled panel_step [LoadedMetadata 1 (Some 3) 1001; LoadedMetadata 0 None 1002]
             (handleDrop dropped initialPanel)))
  ≡ₚ held (handleDrop dropped initialPanel).
Proof.
  destruct (runG _ _ _ _) as [p'|] eqn:Hrun; [simpl|discriminate Hrun].
  apply (metadata_any_order [LoadedMetadata 1 (Some 3) 1001; LoadedMetadata 0 None 1002]
           (handleDrop dropped initialPanel) p'); [by repeat constructor|exact Hrun].
Defined.

(** The library lists the videos in the order their metadata arrived, four
    object URLs were created for two videos, and the second click on play
    paused what the first append had started. *)
Example scenario_ui_session :
  media_name <$> importedMedia (panelApp panelAfter) = ["c.webm"; "a.mp4"] /\
  urlsCreated panelAfter = 4%nat /\
  loading panelAfter = [] /\
  isVideoPlaying (panelApp panelAfter) = false.
Proof. by vm_compute. Qed.
