(* ===== verification/Equiv.v ===== *)
(** * Equiv: the state of App up to the value of its numbers

    A JavaScript number is modelled by a rational, and a rational has many
    fractions: [1 # 2] and [2 # 4] are the same time.  The states of
    [Timeline] hold such numbers in the durations of the media, in the times
    of the clips and in the play-head, so two states that the program
    cannot tell apart may differ as terms.  This file makes that precise.
    It is a check of the model, which shows that nothing proved of
    [Timeline] depends on the fraction chosen for a number; it states
    nothing of the program that the other files do not.

    - [≡] on [Media], [Clip], [AppState] and [AppEvent] compares the
      numbers by value ([Qeq]) and everything else by equality; lists and
      options of them are compared pointwise.
    - Every handler of src/src/App_simple.js modelled in [Timeline], and
      the arithmetic of the strip in [Views], is [Proper] for it: equal
      inputs give equal outputs, whatever fractions stand for the numbers.
    - So are the invariants: a well-formed, overlap-free timeline stays so
      when its numbers are written differently.

    Theorems: runs of [App] from equal states on equal events end in equal
    states ([app_run_proper]); the invariant of the timeline and the
    absence of overlap are invariant under [≡]. *)

From Stdlib Require Import QArith Qminmax Lqa ZArith List String Morphisms.
From stdpp Require Import base tactics option list strings sorting.
From S2P Require Import Prelude Timeline Views.

(** ** Equality by value *)

#[global] Instance Q_equiv : Equiv Q := Qeq.
#[global] Instance Q_equivalence : Equivalence (≡@{Q}) := Q_Setoid.

#[global] Instance Media_equiv : Equiv Media := fun a b =>
  media_id a = media_id b /\ media_name a = media_name b /\
  media_duration a ≡ media_duration b /\ media_type a = media_type b /\
  media_size a = media_size b /\ media_url a = media_url b /\ media_path a = media_path b.

#[global] Instance Clip_equiv : Equiv Clip := fun a b =>
  clip_id a = clip_id b /\ clip_media a ≡ clip_media b /\
  startTime a ≡ startTime b /\ clip_duration a ≡ clip_duration b /\
  endTime a ≡ endTime b /\ track a = track b /\
  trimStart a ≡ trimStart b /\ trimEnd a ≡ trimEnd b /\
  clip_name a = clip_name b /\ clip_path a = clip_path b.

#[global] Instance AppState_equiv : Equiv AppState := fun a b =>
  importedVideo a ≡ importedVideo b /\ importedMedia a ≡ importedMedia b /\
  timelineClips a ≡ timelineClips b /\ selectedClip a ≡ selectedClip b /\
  showClipDetails a = showClipDetails b /\
  currentTimelineTime a ≡ currentTimelineTime b /\
  isVideoPlaying a = isVideoPlaying b.

Inductive AppEvent_equiv : Equiv AppEvent :=
| AddToTimeline_equiv now m m' : m ≡ m' -> AddToTimeline now m ≡ AddToTimeline now m'
| VideoImported_equiv m m' : m ≡ m' -> VideoImported m ≡ VideoImported m'
| MediaDelete_equiv i : MediaDelete i ≡ MediaDelete i
| MediaReorder_equiv i j : MediaReorder i j ≡ MediaReorder i j
| TimelinePlayPause_equiv : TimelinePlayPause ≡ TimelinePlayPause
| TimelineSeek_equiv t t' : t ≡ t' -> TimelineSeek t ≡ TimelineSeek t'
| VideoTimeUpdate_equiv t t' : t ≡ t' -> VideoTimeUpdate t ≡ VideoTimeUpdate t'.

#[global] Existing Instance AppEvent_equiv.

(** Splits an equation between records into the equations of its fields. *)
Ltac equiv_fields :=
  repeat match goal with
    | H : @equiv Media _ _ _ |- _ => destruct H as (? & ? & ? & ? & ? & ? & ?)
    | H : @equiv Clip _ _ _ |- _ => destruct H as (? & ? & ? & ? & ? & ? & ? & ? & ? & ?)
    | H : @equiv AppState _ _ _ |- _ => destruct H as (? & ? & ? & ? & ? & ? & ?)
    end.

#[global] Instance Media_equivalence : Equivalence (≡@{Media}).
Proof.
  split.
  - by intros a.
  - intros a b ?. equiv_fields. hnf. by split_and!.
  - intros a b c ? ?. equiv_fields. hnf. split_and!; by etrans.
Qed.

#[global] Instance Clip_equivalence : Equivalence (≡@{Clip}).
Proof.
  split.
  - by intros a.
  - intros a b ?. equiv_fields. hnf. by split_and!.
  - intros a b c ? ?. equiv_fields. hnf. split_and!; by etrans.
Qed.

#[global] Instance AppState_equivalence : Equivalence (≡@{AppState}).
Proof.
  split.
  - by intros a.
  - intros a b ?. equiv_fields. hnf. by split_and!.
  - intros a b c ? ?. equiv_fields. hnf. split_and!; by etrans.
Qed.

#[global] Instance AppEvent_equivalence : Equivalence (≡@{AppEvent}).
Proof.
  split.
  - intros []; by constructor.
  - destruct 1; by constructor.
  - destruct 1; inversion_clear 1; constructor; by etrans.
Qed.

(** ** The handlers respect it *)

#[global] Instance truthyQ_proper : Proper ((≡) ==> (=)) truthyQ.
Proof. intros x y H. unfold truthyQ. f_equal. apply eq_true_iff_eq. rewrite !Qeq_bool_iff.
  split; intros Hz; [by rewrite <- H|by rewrite H]. Qed.

#[global] Instance orNum_proper : Proper ((≡) ==> (≡) ==> (≡)) orNum.
Proof.
  intros a b Hab d e Hde. destruct Hab as [x y Hxy|]; simpl; [|done].
  rewrite (truthyQ_proper _ _ Hxy). by destruct (truthyQ y).
Qed.

#[global] Instance Qplus_equiv_proper : Proper ((≡) ==> (≡) ==> (≡)) Qplus.
Proof. intros ? ? H ? ? H'. unfold equiv, Q_equiv in *. by rewrite H, H'. Qed.

#[global] Instance Qmult_equiv_proper : Proper ((≡) ==> (≡) ==> (≡)) Qmult.
Proof. intros ? ? H ? ? H'. unfold equiv, Q_equiv in *. by rewrite H, H'. Qed.

#[global] Instance Qmax_equiv_proper : Proper ((≡) ==> (≡) ==> (≡)) Qmax.
Proof. intros ? ? H ? ? H'. unfold equiv, Q_equiv in *. by rewrite H, H'. Qed.

#[global] Instance clipEnd_proper : Proper ((≡) ==> (≡)) clipEnd.
Proof.
  intros a b H. equiv_fields. unfold clipEnd.
  apply orNum_proper; [by constructor|]. apply Qplus_equiv_proper; [done|].
  apply orNum_proper; [by constructor|done].
Qed.

(** [Math.max] of equal arguments. *)
Lemma Math_max_equiv x y xs ys : x ≡ y -> xs ≡ ys -> Math_max x xs ≡ Math_max y ys.
Proof.
  intros Hxy Hl. revert x y Hxy. induction Hl as [|a b xs ys Hab _ IH]; intros x y Hxy; [done|].
  simpl. apply IH. by apply Qmax_equiv_proper.
Qed.

#[global] Instance lastClipEndTime_proper : Proper ((≡) ==> (≡)) lastClipEndTime.
Proof.
  intros l k H. unfold lastClipEndTime. destruct H as [|a b l k Hab Hl]; simpl; [done|].
  apply Math_max_equiv; [by apply clipEnd_proper|].
  induction Hl; simpl; constructor; [by apply clipEnd_proper|done].
Qed.

#[global] Instance newClip_proper : Proper ((=) ==> (≡) ==> (≡) ==> (≡)) newClip.
Proof.
  intros now ? <- m m' Hm t t' Ht. pose proof Hm as Hm'. equiv_fields. hnf. simpl.
  assert (orNum (media_duration m) 5 ≡ orNum (media_duration m') 5) by by apply orNum_proper.
  split_and!; try done; [by constructor|by apply Qplus_equiv_proper].
Qed.

(** The cells of the state, read and written. *)
#[global] Instance importedMedia_proper : Proper ((≡) ==> (≡)) importedMedia.
Proof. by intros a b (? & ? & ? & ? & ? & ? & ?). Qed.
#[global] Instance timelineClips_proper : Proper ((≡) ==> (≡)) timelineClips.
Proof. by intros a b (? & ? & ? & ? & ? & ? & ?). Qed.
#[global] Instance currentTimelineTime_proper : Proper ((≡) ==> (≡)) currentTimelineTime.
Proof. by intros a b (? & ? & ? & ? & ? & ? & ?). Qed.
#[global] Instance isVideoPlaying_proper : Proper ((≡) ==> (=)) isVideoPlaying.
Proof. by intros a b (? & ? & ? & ? & ? & ? & ?). Qed.

#[global] Instance setImportedMedia_proper :
  Proper (((≡) ==> (≡)) ==> (≡) ==> (≡)) setImportedMedia.
Proof. intros f g Hf a b H. equiv_fields. hnf. simpl. split_and!; try done. by apply Hf. Qed.

#[global] Instance setTimelineClips_proper :
  Proper (((≡) ==> (≡)) ==> (≡) ==> (≡)) setTimelineClips.
Proof. intros f g Hf a b H. equiv_fields. hnf. simpl. split_and!; try done. by apply Hf. Qed.

#[global] Instance setCurrentTimelineTime_proper :
  Proper (((≡) ==> (≡)) ==> (≡) ==> (≡)) setCurrentTimelineTime.
Proof. intros f g Hf a b H. equiv_fields. hnf. simpl. split_and!; try done. by apply Hf. Qed.

#[global] Instance setIsVideoPlaying_proper :
  Proper (((=) ==> (=)) ==> (≡) ==> (≡)) setIsVideoPlaying.
Proof. intros f g Hf a b H. equiv_fields. hnf. simpl. split_and!; try done. by apply Hf. Qed.

#[global] Instance handleAddToTimeline_proper :
  Proper ((≡) ==> (=) ==> (≡) ==> (≡) ==> (≡)) handleAddToTimeline.
Proof.
  intros snap snap' Hs now ? <- m m' Hm st st' Hst. unfold handleAddToTimeline.
  rewrite <- (length_proper _ _ Hs).
  assert (setTimelineClips (fun prev => prev ++ [newClip now m (lastClipEndTime snap)]) st
          ≡ setTimelineClips (fun prev => prev ++ [newClip now m' (lastClipEndTime snap')]) st')
    as H1.
  { apply setTimelineClips_proper; [|done]. intros l k Hl. apply app_proper; [done|].
    constructor; [|done]. apply newClip_proper; [done..|by apply lastClipEndTime_proper]. }
  destruct (Nat.eqb _ _); [|done]. by apply setIsVideoPlaying_proper; [intros ? ? _|].
Qed.

#[global] Instance handleVideoImported_proper : Proper ((≡) ==> (≡) ==> (≡)) handleVideoImported.
Proof.
  intros m m' Hm st st' Hst. apply setImportedMedia_proper; [|done].
  intros l k Hl. apply app_proper; [done|]. by constructor.
Qed.

#[global] Instance media_id_proper : Proper ((≡) ==> (=)) media_id.
Proof. by intros a b (? & ? & ? & ? & ? & ? & ?). Qed.

#[global] Instance clipMediaId_proper : Proper ((≡) ==> (=)) clipMediaId.
Proof.
  intros a b H. unfold clipMediaId. equiv_fields.
  destruct H0 as [m m' Hm|]; [|done]. by equiv_fields.
Qed.

#[global] Instance handleMediaDelete_proper : Proper ((=) ==> (≡) ==> (≡)) handleMediaDelete.
Proof.
  intros i ? <- st st' Hst. unfold handleMediaDelete.
  apply setTimelineClips_proper.
  - intros l k Hl. apply list_filter_proper; [|done]. intros c c' Hc. by rewrite (clipMediaId_proper _ _ Hc).
  - apply setImportedMedia_proper; [|done].
    intros l k Hl. apply list_filter_proper; [|done]. intros m m' Hm.
    by rewrite (media_id_proper _ _ Hm).
Qed.

#[global] Instance reorder_proper i j : Proper ((≡) ==> (≡)) (reorder i j).
Proof.
  intros l k H. unfold reorder. destruct (list_lookup_proper i _ _ H) as [x y Hxy|]; [|done].
  constructor. apply app_proper; [by rewrite H|]. constructor; [done|]. by rewrite H.
Qed.

#[global] Instance handleMediaReorder_proper i j : Proper ((≡) ==> (≡)) (handleMediaReorder i j).
Proof.
  intros st st' Hst. unfold handleMediaReorder.
  destruct (reorder_proper i j _ _ (importedMedia_proper _ _ Hst)) as [l k Hl|]; [|done].
  constructor. by apply setImportedMedia_proper; [intros ? ? _|].
Qed.

#[global] Instance handleTimelinePlayPause_proper : Proper ((≡) ==> (≡)) handleTimelinePlayPause.
Proof. intros st st' Hst. by apply setIsVideoPlaying_proper; [intros ? ? ->|]. Qed.

#[global] Instance handleTimelineSeek_proper : Proper ((≡) ==> (≡) ==> (≡)) handleTimelineSeek.
Proof. intros t t' Ht st st' Hst. by apply setCurrentTimelineTime_proper; [intros ? ? _|]. Qed.

#[global] Instance handleVideoTimeUpdate_proper :
  Proper ((≡) ==> (≡) ==> (≡)) handleVideoTimeUpdate.
Proof. intros t t' Ht st st' Hst. by apply setCurrentTimelineTime_proper; [intros ? ? _|]. Qed.

(** ** The invariants respect it *)

(** Rewrites with the equations between the numbers of two records. *)
Ltac rewrite_fields :=
  unfold equiv, Q_equiv in *;
  repeat match goal with H : Qeq _ _ |- _ => rewrite H; clear H end.

#[global] Instance clip_wf_proper : Proper ((≡) ==> iff) clip_wf.
Proof. intros a b H. equiv_fields. unfold clip_wf. by rewrite_fields. Qed.

#[global] Instance before_proper : Proper ((≡) ==> (≡) ==> iff) before.
Proof. intros a b H c d H'. equiv_fields. unfold before. by rewrite_fields. Qed.

#[global] Instance overlap_proper : Proper ((≡) ==> (≡) ==> iff) overlap.
Proof. intros a b H c d H'. equiv_fields. unfold overlap. by rewrite_fields. Qed.

#[global] Instance media_wf_proper : Proper ((≡) ==> iff) media_wf.
Proof.
  intros a b H. equiv_fields. unfold media_wf.
  destruct H1 as [x y Hxy|]; [|done]. by rewrite_fields.
Qed.

(** A property of the items that respects [≡] holds of all items of equal
    lists alike. *)
Lemma Forall_equiv {A} `{Equiv A} (P : A -> Prop) :
  Proper ((≡) ==> iff) P -> Proper ((≡) ==> iff) (Forall P).
Proof.
  intros HP l k Hl. induction Hl as [|x y l k Hxy _ IH]; [done|].
  by rewrite !Forall_cons, IH, (HP _ _ Hxy).
Qed.

Lemma Forall_rel_equiv {A} `{Equiv A} (R : relation A) x y l k :
  Proper ((≡) ==> (≡) ==> iff) R -> x ≡ y -> l ≡ k -> Forall (R x) l <-> Forall (R y) k.
Proof.
  intros HR Hxy Hl. induction Hl as [|a b l k Hab _ IH]; [done|].
  by rewrite !Forall_cons, IH, (HR _ _ Hxy _ _ Hab).
Qed.

Lemma StronglySorted_equiv {A} `{Equiv A} (R : relation A) :
  Proper ((≡) ==> (≡) ==> iff) R -> Proper ((≡) ==> iff) (StronglySorted R).
Proof.
  intros HR l k Hl. induction Hl as [|x y l k Hxy Hl IH]; [done|].
  split; inversion_clear 1; constructor; try (by apply IH);
    by eapply (Forall_rel_equiv R x y l k).
Qed.

#[global] Instance timeline_ok_proper : Proper ((≡) ==> iff) timeline_ok.
Proof.
  intros l k H. unfold timeline_ok.
  by rewrite (Forall_equiv clip_wf _ _ _ H), (StronglySorted_equiv before _ _ _ H).
Qed.

#[global] Instance app_ok_proper : Proper ((≡) ==> iff) app_ok.
Proof.
  intros a b H. unfold app_ok.
  rewrite (Forall_equiv media_wf _ _ _ (importedMedia_proper _ _ H)).
  by rewrite (timeline_ok_proper _ _ (timelineClips_proper _ _ H)).
Qed.

(** ** The strip respects it *)

#[global] Instance clickTime_proper : Proper ((≡) ==> (≡) ==> (≡)) clickTime.
Proof. intros x y H r s H'. unfold clickTime. by rewrite_fields. Qed.

#[global] Instance playheadLeft_proper : Proper ((≡) ==> (≡)) playheadLeft.
Proof. intros x y H. unfold playheadLeft. by rewrite_fields. Qed.

#[global] Instance clipLeft_proper : Proper ((≡) ==> (≡)) clipLeft.
Proof. intros a b H. equiv_fields. unfold clipLeft. by rewrite_fields. Qed.

#[global] Instance clipWidth_proper : Proper ((≡) ==> (≡)) clipWidth.
Proof. intros a b H. equiv_fields. unfold clipWidth. by rewrite_fields. Qed.

#[global] Instance handleTimelineClick_proper :
  Proper ((≡) ==> (≡) ==> (≡) ==> (≡)) handleTimelineClick.
Proof.
  intros x y H r s H' st st' Hst. unfold handleTimelineClick.
  apply handleTimelineSeek_proper; [by apply clickTime_proper|done].
Qed.

(** ** Steps and runs *)

#[global] Instance app_step_proper : Proper ((≡) ==> (≡) ==> (≡)) app_step.
Proof.
  intros st st' Hst ev ev' Hev. destruct Hev; simpl; try constructor.
  - apply handleAddToTimeline_proper; [by apply timelineClips_proper|done..].
  - by apply handleVideoImported_proper.
  - by apply handleMediaDelete_proper.
  - by apply handleMediaReorder_proper.
  - by apply handleTimelinePlayPause_proper.
  - by apply handleTimelineSeek_proper.
  - by apply handleVideoTimeUpdate_proper.
Qed.

(** [App] cannot tell two fractions of the same number apart: runs
    from equal states on equal events, the numbers compared by value, both
    fail or end in equal states. *)
Theorem app_run_equiv evs evs' st st' :
  evs ≡ evs' -> st ≡ st' -> runO app_step evs st ≡ runO app_step evs' st'.
Proof.
  intros Hevs. revert st st'.
  induction Hevs as [|ev ev' evs evs' Hev _ IH]; intros st st' Hst; simpl.
  - by constructor.
  - destruct (app_step_proper _ _ Hst _ _ Hev) as [s s' Hs|]; [by apply IH|constructor].
Qed.

(** What holds of a reachable state holds of every state equal to it: the
    timeline is well formed and its clips follow one another. *)
Theorem app_reachable_equiv_ok st st' : app_reachable st -> st ≡ st' -> app_ok st'.
Proof. intros Hst Heq. rewrite <- Heq. by apply app_reachable_ok. Qed.

(** Equal timelines have the same end, and the next clip is placed at the
    same time on both. *)
Lemma placement_equiv now m clips clips' :
  clips ≡ clips' ->
  startTime (newClip now m (lastClipEndTime clips))
  ≡ startTime (newClip now m (lastClipEndTime clips')).
Proof. intros H. simpl. by rewrite H. Qed.

(** ** Worked runs *)

(** The same video with its duration written as two fractions. *)
Definition halfSecond (duration : Q) : Media :=
  {| media_id := Some "media-1"; media_name := "a.mp4"; media_duration := Some duration;
     media_type := "video/mp4"; media_size := 10; media_url := Some "blob:1";
     media_path := None |}.

Definition importAndAdd (duration : Q) : list AppEvent :=
  [VideoImported (halfSecond duration); AddToTimeline 1 (halfSecond duration);
   AddToTimeline 2 (halfSecond duration)].

Lemma app_run_equiv_witness :
  runO app_step (importAndAdd (1 # 2)) initialApp
  ≡ runO app_step (importAndAdd (2 # 4)) initialApp.
Proof.
  apply (app_run_equiv (importAndAdd (1 # 2)) (importAndAdd (2 # 4)) initialApp initialApp).
  - assert (halfSecond (1 # 2) ≡ halfSecond (2 # 4)) by (hnf; simpl; split_and!; by try constructor).
    by repeat constructor.
  - done.
Defined.

(** As terms the two runs differ: the second clip starts at [1 # 2] in one
    and at [2 # 4] in the other. *)
Example scenario_fractions :
  runO app_step (importAndAdd (1 # 2)) initialApp
  <> runO app_step (importAndAdd (2 # 4)) initialApp /\
  (startTime <$> timelineClips (default initialApp (runO app_step (importAndAdd (2 # 4)) initialApp)))
  = [0; 0 + (2 # 4)].
Proof. split; [intros [=]|by vm_compute]. Qed.
