(* ===== verification/Menu.v ===== *)
(** * Menu: the application menu

    Models the menu src/public/electron.js installs with
    [Menu.setApplicationMenu]: the [template] (three submenus, their items
    with label, accelerator and [click] listener, the items that only name
    a [role], the separators), what a click on an item runs, and the key
    combination that triggers it.

    A [click] listener is one of two closures: the empty one (its body is a
    TODO comment) and the one that calls [app.quit()].  An item with a role
    is carried out by Electron on the focused window and changes nothing of
    [Shell].  [CmdOrCtrl] in an accelerator stands for [Cmd] on macOS and
    for [Ctrl] elsewhere.

    Theorems: a click on the menu is a step of [Shell] ([MenuQuit]) or no
    step at all, so the states reached with the menu are the reachable
    states of [Shell]; of the four commands of the File menu only Quit does
    anything; the accelerators are pairwise distinct on both platforms; the
    accelerator of Quit is what [CmdOrCtrl+Q] stands for. *)

From Stdlib Require Import List String.
From stdpp Require Import base tactics option list strings gmap.
From S2P Require Import Prelude Shell.

(** ** The template *)

Inductive Role :=
| undo | redo | cut | copy | paste
| reload | forceReload | toggleDevTools | resetZoom | zoomIn | zoomOut | togglefullscreen.

#[global] Instance Role_eq_dec : EqDecision Role.
Proof. solve_decision. Defined.

(** The two [click] listeners of the template. *)
Inductive Click := Todo | AppQuit.

#[global] Instance Click_eq_dec : EqDecision Click.
Proof. solve_decision. Defined.

Inductive MenuItem :=
| Item (label accelerator : string) (click : Click)
| RoleItem (role : Role)
| Separator.

#[global] Instance MenuItem_eq_dec : EqDecision MenuItem.
Proof. solve_decision. Defined.

Record Submenu := mkSubmenu {
  label : string;
  submenu : list MenuItem;
}.

(** [process.platform === 'darwin' ? 'Cmd+Q' : 'Ctrl+Q'] *)
Definition quitAccelerator (isDarwin : bool) : string :=
  if isDarwin then "Cmd+Q" else "Ctrl+Q".

Definition template (isDarwin : bool) : list Submenu :=
  [ mkSubmenu "File"
      [ Item "New Project" "CmdOrCtrl+N" Todo;
        Item "Open Project" "CmdOrCtrl+O" Todo;
        Separator;
        Item "Export Video" "CmdOrCtrl+E" Todo;
        Separator;
        Item "Quit" (quitAccelerator isDarwin) AppQuit ];
    mkSubmenu "Edit"
      [ RoleItem undo; RoleItem redo; Separator; RoleItem cut; RoleItem copy; RoleItem paste ];
    mkSubmenu "View"
      [ RoleItem reload; RoleItem forceReload; RoleItem toggleDevTools; Separator;
        RoleItem resetZoom; RoleItem zoomIn; RoleItem zoomOut; Separator;
        RoleItem togglefullscreen ] ].

(** [Menu.buildFromTemplate(template)]: the items of the menu, submenu by
    submenu. *)
Definition buildFromTemplate (t : list Submenu) : list MenuItem :=
  mjoin (submenu <$> t).

(** The menu [Menu.setApplicationMenu] installs for a shell. *)
Definition applicationMenu (sh : Shell) : list Submenu := template (darwin sh).

(** ** Clicks *)

(** A [click] listener runs. *)
Definition click (c : Click) (sh : Shell) : Shell :=
  match c with
  | Todo => sh
  | AppQuit => quit sh
  end.

(** A click on an item: its listener runs; a role is Electron's business;
    a separator cannot be clicked. *)
Definition clickItem (item : MenuItem) (sh : Shell) : option Shell :=
  match item with
  | Item _ _ c => Some (click c sh)
  | RoleItem _ => Some sh
  | Separator => None
  end.

(** The item at position [j] of submenu [i]. *)
Definition itemAt (t : list Submenu) (i j : nat) : option MenuItem :=
  t !! i ≫= fun sm => submenu sm !! j.

(** The user picks item [j] of submenu [i] while the application runs. *)
Definition menu_step (sh : Shell) (i j : nat) : option Shell :=
  if running sh then itemAt (applicationMenu sh) i j ≫= fun item => clickItem item sh
  else None.

(** ** Accelerators *)

(** What an accelerator stands for on the platform. *)
Definition resolveAccelerator (isDarwin : bool) (a : string) : string :=
  if String.prefix "CmdOrCtrl+" a
  then (if isDarwin then "Cmd+" else "Ctrl+") +:+ String.substring 10 (String.length a - 10) a
  else a.

Definition acceleratorOf (isDarwin : bool) (item : MenuItem) : option string :=
  match item with
  | Item _ a _ => Some (resolveAccelerator isDarwin a)
  | _ => None
  end.

(** The accelerators the template registers. *)
Definition accelerators (isDarwin : bool) : list string :=
  omap (acceleratorOf isDarwin) (buildFromTemplate (template isDarwin)).

(** The item a key combination triggers. *)
Definition triggered (isDarwin : bool) (keys : string) : option MenuItem :=
  List.find (fun item => bool_decide (acceleratorOf isDarwin item = Some keys))
    (buildFromTemplate (template isDarwin)).

(** The user presses a key combination while the application runs. *)
Definition press (keys : string) (sh : Shell) : option Shell :=
  if running sh then triggered (darwin sh) keys ≫= fun item => clickItem item sh
  else None.

(** ** A click is a step of the shell, or none *)

Lemma itemAt_In t i j item : itemAt t i j = Some item -> In item (buildFromTemplate t).
Proof.
  unfold itemAt, buildFromTemplate. intros H.
  destruct (t !! i) as [sm|] eqn:Hi; [simpl in H|done].
  apply list_elem_of_In, list_elem_of_join. exists (submenu sm). split.
  - by eapply list_elem_of_lookup_2.
  - apply list_elem_of_fmap. exists sm. split; [done|]. by eapply list_elem_of_lookup_2.
Qed.

(** The listeners of the template: [Todo] on every item but Quit. *)
Lemma template_listeners isDarwin l a c :
  In (Item l a c) (buildFromTemplate (template isDarwin)) ->
  c = Todo \/ (l = "Quit" /\ a = quitAccelerator isDarwin /\ c = AppQuit).
Proof. simpl. intros H. repeat (destruct H as [H|H]; [simplify_eq; eauto|]). done. Qed.

Lemma clickItem_step isDarwin item sh sh' :
  In item (buildFromTemplate (template isDarwin)) -> clickItem item sh = Some sh' ->
  sh' = sh \/ sh' = quit sh.
Proof.
  destruct item as [l a c| |]; simpl; [|naive_solver..].
  intros [->|(_ & _ & ->)]%template_listeners [= <-]; eauto.
Qed.

Lemma menu_step_shell sh i j sh' :
  menu_step sh i j = Some sh' ->
  running sh = true /\ (sh' = sh \/ shell_step sh MenuQuit = Some sh').
Proof.
  unfold menu_step. destruct (running sh); [|done]. intros H. split; [done|].
  destruct (itemAt (applicationMenu sh) i j) as [item|] eqn:Hat; [simpl in H|done].
  apply itemAt_In in Hat. destruct (clickItem_step _ _ _ _ Hat H) as [->| ->]; eauto.
Qed.

Lemma press_shell sh keys sh' :
  press keys sh = Some sh' ->
  running sh = true /\ (sh' = sh \/ shell_step sh MenuQuit = Some sh').
Proof.
  unfold press. destruct (running sh); [|done]. intros H. split; [done|].
  destruct (triggered (darwin sh) keys) as [item|] eqn:Ht; [simpl in H|done].
  apply find_some in Ht as [Hin _].
  destruct (clickItem_step _ _ _ _ Hin H) as [->| ->]; eauto.
Qed.

(** The states reached with the menu are states of the shell. *)
Theorem menu_step_reachable isDarwin sh i j sh' :
  shell_reachable isDarwin sh -> menu_step sh i j = Some sh' ->
  shell_reachable isDarwin sh'.
Proof.
  intros Hreach [Hrun [->|Hstep]]%menu_step_shell; [done|].
  eapply reach_step; [done| |done]. by split.
Qed.

(** ** What the File menu does *)

(** Of the commands of the File menu only Quit changes anything: New
    Project, Open Project and Export Video leave the shell as it is, on
    either platform, and so does every other item. *)
Theorem file_menu_inert sh i j l a c sh' :
  itemAt (applicationMenu sh) i j = Some (Item l a c) -> l <> "Quit" ->
  menu_step sh i j = Some sh' -> sh' = sh.
Proof.
  intros Hat Hl. unfold menu_step. rewrite Hat. destruct (running sh); [simpl|done].
  apply itemAt_In, template_listeners in Hat as [->|(-> & _)]; [|done].
  by intros [= <-].
Qed.

(** The three commands are there, with a listener that does nothing. *)
Lemma file_menu_todo isDarwin :
  Forall (fun l => exists a, In (Item l a Todo) (buildFromTemplate (template isDarwin)))
    ["New Project"; "Open Project"; "Export Video"].
Proof. repeat constructor; eexists; simpl; eauto 10. Qed.

(** ** Accelerators *)

(** [Cmd+Q] and [Ctrl+Q], chosen by hand, are what [CmdOrCtrl+Q] stands
    for. *)
Lemma quitAccelerator_resolves isDarwin :
  quitAccelerator isDarwin = resolveAccelerator isDarwin "CmdOrCtrl+Q".
Proof. by destruct isDarwin. Qed.

(** No two items share a key combination. *)
Lemma accelerators_NoDup isDarwin : NoDup (accelerators isDarwin).
Proof. destruct isDarwin; vm_compute; by repeat (constructor; [set_solver|]); constructor. Qed.

(** The key combination of Quit quits, and no other combination does
    anything to the shell. *)
Theorem press_spec sh keys sh' :
  press keys sh = Some sh' ->
  sh' = if decide (keys = quitAccelerator (darwin sh)) then quit sh else sh.
Proof.
  unfold press. destruct (running sh); [|done].
  destruct (triggered (darwin sh) keys) as [item|] eqn:Ht; [simpl|done].
  apply find_some in Ht as [Hin Hk%bool_decide_eq_true].
  destruct item as [l a c| |]; [|done..]. simpl in Hk. injection Hk as <-.
  intros [= <-]. destruct (darwin sh); simpl in Hin;
    repeat (destruct Hin as [Hin|Hin]; [by simplify_eq|]); done.
Qed.

(** ** Worked runs *)

Example scenario_menu_quit :
  let sh := shellOf [Ready; ReadyToShow] in
  itemAt (applicationMenu sh) 0 5 = Some (Item "Quit" "Ctrl+Q" AppQuit) /\
  (running <$> menu_step sh 0 5) = Some false /\
  (running <$> press "Ctrl+Q" sh) = Some false /\
  press "Cmd+Q" sh = None /\
  menu_step sh 0 0 = Some sh /\ menu_step sh 0 2 = None /\ menu_step sh 2 0 = Some sh.
Proof. by vm_compute. Qed.

(** With a controller window the application survives Quit from the
    menu. *)
Example scenario_menu_quit_blocked :
  let sh := shellOf [Ready; ShowController] in
  (running <$> menu_step sh 0 5) = Some true /\
  (size <$> (windows <$> menu_step sh 0 5)) = Some 1%nat.
Proof. by vm_compute. Qed.
