(* ===== verification/Settle.v ===== *)
(** * Settle: the stop events of the recorders drain

    [mediaRecorder.stop()] makes a recorder inactive at once and queues its
    [stop] event; the browser delivers the event later, which runs
    [mediaRecorder.onstop] of src/src/components/ScreenRecorder.js.  The
    handler stops the tracks of the stream in [streamRef], and a recorder
    that still records that stream (one started while the event was
    waiting) stops with them and queues an event of its own: a delivery
    can add to the queue.  This file is about how long that can go on.

    - [backlog] counts the [stop] events queued, [pending] the events
      still to come at most: one per queued event and one per recorder
      that still records.  Both are sums over the recorders ([total]).
    - [settle] is the browser delivering the queued events one after the
      other until none is left.  It is defined by well-founded recursion on
      [pending]: [onstop] starts no recorder, so every delivery takes one
      from it.  [settle], [nextStop] and the two counts describe the
      browser's event queue; the code they run is [fireStop], that is
      [onstop].

    Theorems: a delivery takes at least one from [pending] and at most one
    from [backlog]; no sequence of [stop] events is longer than [pending];
    [settle] is reached by such a sequence, at least as long as the queue
    was, and leaves nothing queued and the stream of [streamRef] stopped
    with no recorder on it; it hands over one recording per event, all with
    the chunks [chunksRef] held when draining began. *)

From Stdlib Require Import ZArith List String Strings.Byte Lia.
From stdpp Require Import base tactics option list strings gmap sets.
From Equations.Prop Require Import Equations Logic.
From S2P Require Import Prelude Capture.

(** ** Sums over the recorders *)

Section total.
Context {A : Type}.
Implicit Types (w : A -> nat) (m : gmap nat A).

Definition total w m : nat := map_fold (fun _ x n => (w x + n)%nat) 0%nat m.

Lemma total_empty w : total w ∅ = 0%nat.
Proof. apply map_fold_empty. Qed.

Lemma total_insert w m i x : m !! i = None -> total w (<[i:=x]> m) = (w x + total w m)%nat.
Proof. intros Hi. unfold total. rewrite map_fold_insert_L; [done|intros; lia|done]. Qed.

Lemma total_delete w m i x : m !! i = Some x -> total w m = (w x + total w (delete i m))%nat.
Proof.
  intros Hi. rewrite <- (insert_delete_id m i x) at 1 by done.
  apply total_insert, lookup_delete_eq.
Qed.

Lemma total_fmap w (f : A -> A) m : total w (f <$> m) = total (w ∘ f) m.
Proof. unfold total. by rewrite map_fold_fmap. Qed.

Lemma total_mono w w' m : (forall x, (w x <= w' x)%nat) -> (total w m <= total w' m)%nat.
Proof.
  intros Hw. induction m as [|i x m Hi IH] using map_ind; [by rewrite !total_empty|].
  rewrite !total_insert by done. specialize (Hw x). lia.
Qed.

(** Changing one entry changes the sum by the change of its weight. *)
Lemma total_alter w (g : A -> A) m i x :
  m !! i = Some x -> (total w (alter g i m) + w x = total w m + w (g x))%nat.
Proof.
  intros Hi. rewrite (total_delete w m i x Hi).
  rewrite (total_delete w (alter g i m) i (g x)) by (by rewrite lookup_alter_eq, Hi).
  rewrite delete_alter_eq. lia.
Qed.

Lemma total_zero w m : total w m = 0%nat <-> map_Forall (fun _ x => w x = 0%nat) m.
Proof.
  induction m as [|i x m Hi IH] using map_ind.
  - rewrite total_empty. split; [intros _; apply map_Forall_empty|done].
  - rewrite total_insert, map_Forall_insert by done. rewrite <- IH. lia.
Qed.

End total.

(** ** The queue *)

Definition stopQueued (p : nat * MediaRecorder) : Prop := mr_stopQueued p.2 = true.

#[global] Instance stopQueued_dec p : Decision (stopQueued p).
Proof. unfold stopQueued. apply _. Defined.

(** The recorders whose [stop] event has not fired yet. *)
Definition queued (st : Session) : gmap nat MediaRecorder :=
  filter stopQueued (recorders (browser st)).

(** The recorder whose event the browser delivers next. *)
Definition nextStop (st : Session) : option nat := fst <$> head (map_to_list (queued st)).

(** One for a queued [stop] event. *)
Definition waiting (m : MediaRecorder) : nat := if mr_stopQueued m then 1 else 0.

(** The [stop] events a recorder can still cause: the one queued, and the one
    it queues when it stops. *)
Definition due (m : MediaRecorder) : nat :=
  ((if decide (mr_state m = recording) then 1 else 0) + waiting m)%nat.

(** The number of [stop] events queued. *)
Definition backlog (st : Session) : nat := total waiting (recorders (browser st)).

(** A bound on the [stop] events still to come. *)
Definition pending (st : Session) : nat := total due (recorders (browser st)).

Definition isStop (ev : CaptureEvent) : Prop :=
  match ev with
  | StopFired _ _ => True
  | _ => False
  end.

#[global] Instance isStop_dec ev : Decision (isStop ev).
Proof. destruct ev; apply _. Defined.

(** The flag of a recorder whose event fires. *)
Definition fired (m : MediaRecorder) : MediaRecorder :=
  mkMediaRecorder (mr_stream m) (mr_state m) false.

(** ** One delivery *)

(** What [fireStop] changes: the flag of the recorder and, with the tracks
    of the stream in [streamRef], the recorders on it; the recordings
    handed over; the live streams and the counter of handles. *)
Lemma fireStop_recorders r stamp st :
  recorders (browser (exec (fireStop r stamp) st))
  = match streamRef (refs st) with
    | Some s => endedOn s <$> alter fired r (recorders (browser st))
    | None => alter fired r (recorders (browser st))
    end.
Proof. destruct_session st. handler_unfold. cbn. by destruct sref. Qed.

(** With no recorder recording, only the flag changes. *)
Lemma fireStop_recorders_idle r stamp st :
  (forall i m, recorders (browser st) !! i = Some m -> mr_state m <> recording) ->
  recorders (browser (exec (fireStop r stamp) st)) = alter fired r (recorders (browser st)).
Proof.
  intros Hidle. rewrite fireStop_recorders. destruct (streamRef _) as [s|]; [|done].
  apply map_eq. intros i. rewrite lookup_fmap.
  destruct (alter fired r (recorders (browser st)) !! i) as [x|] eqn:Hx; [|done].
  simpl. f_equal. unfold endedOn. rewrite bool_decide_eq_false_2; [done|]. intros [_ Hrec].
  apply lookup_alter_Some in Hx as [(_ & m & Hm & ->)|[_ Hm]]; by eapply Hidle.
Qed.

Lemma fireStop_chunks r stamp st :
  chunksRef (refs (exec (fireStop r stamp) st)) = chunksRef (refs st).
Proof. destruct_session st. handler_unfold. cbn. by destruct sref. Qed.

Lemma fireStop_streamRef r stamp st :
  streamRef (refs (exec (fireStop r stamp) st)) = streamRef (refs st).
Proof. destruct_session st. handler_unfold. cbn. by destruct sref. Qed.

Lemma fireStop_liveStreams r stamp st :
  liveStreams (browser (exec (fireStop r stamp) st))
  = match streamRef (refs st) with
    | Some s => liveStreams (browser st) ∖ {[ s ]}
    | None => liveStreams (browser st)
    end.
Proof. destruct_session st. handler_unfold. cbn. by destruct sref. Qed.

Lemma fireStop_delivered r stamp st :
  exists url,
    delivered (exec (fireStop r stamp) st)
    = delivered st ++ [recordingFile stamp (newBlob (chunksRef (refs st)) "video/webm") url].
Proof. destruct_session st. handler_unfold. cbn. destruct sref; by eexists. Qed.

Lemma due_endedOn s m : (due (endedOn s m) <= due m)%nat.
Proof.
  unfold endedOn. case_bool_decide as H; [|done]. destruct H as [_ H].
  unfold due, waiting. simpl. rewrite decide_True by done. destruct (mr_stopQueued m); lia.
Qed.

Lemma waiting_endedOn s m : (waiting m <= waiting (endedOn s m))%nat.
Proof.
  unfold endedOn. case_bool_decide; [|done]. unfold waiting. simpl.
  destruct (mr_stopQueued m); lia.
Qed.

Lemma stop_enabled_queued st r stamp :
  capture_enabled st (StopFired r stamp) <-> is_Some (queued st !! r).
Proof.
  unfold queued. simpl. split.
  - destruct (recorders (browser st) !! r) as [m|] eqn:Hr; [|done]. intros [= Hq].
    exists m. by apply map_lookup_filter_Some.
  - intros [m [Hr Hq]%map_lookup_filter_Some]. rewrite Hr. simpl. by f_equal.
Qed.

(** The sums after a delivery, against the sums with the flag cleared. *)
Lemma total_fireStop w r stamp st :
  total w (recorders (browser (exec (fireStop r stamp) st)))
  = match streamRef (refs st) with
    | Some s => total (w ∘ endedOn s) (alter fired r (recorders (browser st)))
    | None => total w (alter fired r (recorders (browser st)))
    end.
Proof. rewrite fireStop_recorders. destruct (streamRef _); [apply total_fmap|done]. Qed.

(** A delivery takes at least one from the events still to come: [onstop]
    stops recorders and starts none. *)
Lemma pending_fireStop st r stamp :
  capture_enabled st (StopFired r stamp) ->
  (S (pending (exec (fireStop r stamp) st)) <= pending st)%nat.
Proof.
  simpl. destruct (recorders (browser st) !! r) as [m|] eqn:Hr; [|done]. intros [= Hq].
  unfold pending. rewrite total_fireStop.
  pose proof (total_alter due fired _ _ _ Hr) as Ha.
  assert (S (due (fired m)) = due m) as Hd.
  { unfold due, waiting. simpl. rewrite Hq. lia. }
  destruct (streamRef _) as [s|]; [|lia].
  pose proof (total_mono (due ∘ endedOn s) due (alter fired r (recorders (browser st)))
                (due_endedOn s)). lia.
Qed.

(** A delivery takes at most one from the queue, and may add to it. *)
Lemma backlog_fireStop st r stamp :
  capture_enabled st (StopFired r stamp) ->
  (backlog st <= S (backlog (exec (fireStop r stamp) st)))%nat.
Proof.
  simpl. destruct (recorders (browser st) !! r) as [m|] eqn:Hr; [|done]. intros [= Hq].
  unfold backlog. rewrite total_fireStop.
  pose proof (total_alter waiting fired _ _ _ Hr) as Ha.
  assert (S (waiting (fired m)) = waiting m) as Hd by (unfold waiting; simpl; by rewrite Hq).
  destruct (streamRef _) as [s|]; [|lia].
  pose proof (total_mono waiting (waiting ∘ endedOn s) (alter fired r (recorders (browser st)))
                (waiting_endedOn s)). lia.
Qed.

Lemma nextStop_Some st r : nextStop st = Some r -> is_Some (queued st !! r).
Proof.
  unfold nextStop. destruct (map_to_list (queued st)) as [|[r' m] l] eqn:Hl; [done|].
  intros [= <-]. exists m. apply elem_of_map_to_list. rewrite Hl. by left.
Qed.

Lemma backlog_zero st : backlog st = 0%nat <-> queued st = ∅.
Proof.
  unfold backlog, queued. rewrite total_zero, map_empty_filter.
  apply forall_proper; intros i. apply forall_proper; intros m. unfold stopQueued, waiting.
  simpl. split; intros H Hi; specialize (H Hi); destruct (mr_stopQueued m); done.
Qed.

Lemma nextStop_None st : nextStop st = None -> backlog st = 0%nat.
Proof.
  unfold nextStop. destruct (map_to_list (queued st)) eqn:Hl; [|done].
  intros _. by apply backlog_zero, map_to_list_empty_iff.
Qed.

(** ** Draining the queue *)

(** The browser delivers the queued [stop] events; [stamp] is what
    [new Date().toLocaleString()] answers in the handler of each. *)
Equations? settle (stamp : nat -> string) (st : Session) : Session by wf (pending st) lt :=
  settle stamp st with inspect (nextStop st) := {
    | exist _ (Some r) Hr => settle stamp (exec (fireStop r (stamp r)) st)
    | exist _ None _ => st }.
Proof.
  apply nextStop_Some, (stop_enabled_queued _ _ (stamp r)), pending_fireStop in Hr. lia.
Qed.

(** The same with a bound on the number of deliveries; [pending] is
    enough. *)
Fixpoint settleN (n : nat) (stamp : nat -> string) (st : Session) : Session :=
  match n, nextStop st with
  | S n, Some r => settleN n stamp (exec (fireStop r (stamp r)) st)
  | _, _ => st
  end.

(** ** Every sequence of stop events ends *)

(** A run of [stop] events takes at least its length from [pending], and at
    most its length from the queue. *)
Lemma stop_run_pending evs st st' :
  Forall isStop evs -> capture_run evs st = Some st' ->
  (length evs + pending st' <= pending st)%nat /\ (backlog st <= length evs + backlog st')%nat.
Proof.
  intros Hall. revert st. induction Hall as [|ev evs Hev _ IH]; intros st; simpl.
  - intros [= <-]. lia.
  - case_decide as Hen; [|done]. simpl. intros Hrun%IH.
    destruct ev; try done. pose proof (pending_fireStop _ _ _ Hen).
    pose proof (backlog_fireStop _ _ _ Hen). simpl in *. lia.
Qed.

(** The [stop] handler cannot keep the component busy: a sequence of [stop]
    events longer than [pending] cannot happen, whatever recorders and
    stamps it names. *)
Theorem stop_events_bounded evs st :
  Forall isStop evs -> (pending st < length evs)%nat -> capture_run evs st = None.
Proof.
  intros Hall Hlt. destruct (capture_run evs st) as [st'|] eqn:Hrun; [|done].
  apply stop_run_pending in Hrun; [lia|done].
Qed.

(** No [stop] event can happen once the queue is empty. *)
Lemma stop_disabled st r stamp : backlog st = 0%nat -> ~ capture_enabled st (StopFired r stamp).
Proof.
  intros Hz%backlog_zero [m Hm]%stop_enabled_queued. by rewrite Hz, lookup_empty in Hm.
Qed.

(** [settle] is a run of [stop] events. *)
Lemma settle_run stamp st :
  exists evs, Forall isStop evs /\ capture_run evs st = Some (settle stamp st).
Proof.
  funelim (settle stamp st); [|by exists []].
  destruct H as (evs & Hall & Hrun). exists (StopFired r (stamp r) :: evs).
  split; [by constructor|]. erewrite runG_cons; [done| |done].
  by apply stop_enabled_queued, nextStop_Some.
Qed.

Lemma settle_backlog stamp st : backlog (settle stamp st) = 0%nat.
Proof. funelim (settle stamp st); [done|]. by apply nextStop_None. Qed.

(** [settle] is [settleN] with any bound from [pending] on. *)
Lemma settle_settleN stamp st n :
  (pending st <= n)%nat -> settle stamp st = settleN n stamp st.
Proof.
  revert n. funelim (settle stamp st); intros n Hn.
  - pose proof (nextStop_Some _ _ Hr) as Hb.
    apply (stop_enabled_queued _ _ (stamp r)), pending_fireStop in Hb.
    destruct n as [|n]; [lia|]. simpl. rewrite Hr. apply H. lia.
  - destruct n; simpl; [done|]. by rewrite e.
Qed.

(** ** After a delivery *)

(** Once a [stop] event has been delivered the stream of [streamRef] is
    stopped and no recorder records it, and so it stays through further
    deliveries. *)
Definition released (st : Session) : Prop :=
  forall s, streamRef (refs st) = Some s ->
    (s ∉ liveStreams (browser st)) /\
    forall r m, recorders (browser st) !! r = Some m -> mr_stream m = s ->
                mr_state m <> recording.

Lemma fireStop_released r stamp st : released (exec (fireStop r stamp) st).
Proof.
  intros s. rewrite fireStop_streamRef, fireStop_liveStreams, fireStop_recorders.
  intros ->. split; [set_solver|]. intros i m (x & <- & _)%lookup_fmap_Some.
  unfold endedOn. case_bool_decide as H; simpl; [done|]. intros Hs Hx. by apply H.
Qed.

Lemma stop_run_released evs st st' :
  Forall isStop evs -> evs <> [] -> capture_run evs st = Some st' -> released st'.
Proof.
  intros Hall. revert st.
  induction Hall as [|ev evs Hev Hall IH]; intros st Hne; simpl; [done|].
  case_decide as Hen; [|done]. simpl. destruct ev; try done.
  destruct evs as [|ev' evs]; [intros [= <-]; apply fireStop_released|].
  by apply IH.
Qed.

(** ** What draining hands over *)

(** A run of [stop] events keeps the chunks and hands over one recording per
    event, each made of all the chunks. *)
Lemma stop_run_delivered evs st st' :
  Forall isStop evs -> capture_run evs st = Some st' ->
  chunksRef (refs st') = chunksRef (refs st) /\
  exists files,
    delivered st' = delivered st ++ files /\ length files = length evs /\
    Forall (fun f => rec_blob f = newBlob (chunksRef (refs st)) "video/webm") files.
Proof.
  intros Hall. revert st. induction Hall as [|ev evs Hev _ IH]; intros st; simpl.
  - intros [= <-]. split; [done|]. exists []. by rewrite app_nil_r.
  - case_decide as Hen; [|done]. destruct ev as [| | | | | | | |r stamp| |]; try done.
    simpl. intros (Hc & files & Hd & Hl & Hf)%IH.
    rewrite fireStop_chunks in Hc, Hf. split; [done|].
    destruct (fireStop_delivered r stamp st) as [url Hurl].
    eexists (_ :: files). rewrite Hd. unfold capture_handler. rewrite Hurl, <- app_assoc.
    split_and!; [done|simpl; by f_equal|by constructor].
Qed.

(** C31. Draining hands over one recording per delivery, at least one per
    queued event and at most one per recorder stopped or still recording;
    all have the same content, the chunks [chunksRef] held at the
    beginning, whichever recorder the event belongs to. *)
Theorem settle_delivered stamp st :
  exists files,
    delivered (settle stamp st) = delivered st ++ files /\
    (backlog st <= length files <= pending st)%nat /\
    Forall (fun f => rec_blob f = newBlob (chunksRef (refs st)) "video/webm") files.
Proof.
  destruct (settle_run stamp st) as (evs & Hall & Hrun).
  destruct (stop_run_delivered _ _ _ Hall Hrun) as (_ & files & Hd & Hl & Hf).
  pose proof (stop_run_pending _ _ _ Hall Hrun) as Hlen. rewrite settle_backlog in Hlen.
  exists files. split_and!; [done|lia..|done].
Qed.

(** C12. Draining ends, although a delivery can add to the queue: [settle],
    defined by well-founded recursion on the [stop] events still to come,
    is reached by a run of [stop] events, at least one per event queued at
    the beginning and at most one more per recorder that was recording.
    Afterwards no [stop] event is left to deliver and, when there was one,
    the stream of [streamRef] is stopped and no recorder records it. *)
Theorem settle_quiescent stamp st :
  exists evs,
    Forall isStop evs /\ capture_run evs st = Some (settle stamp st) /\
    (backlog st <= length evs <= pending st)%nat /\
    (forall r s, ~ capture_enabled (settle stamp st) (StopFired r s)) /\
    ((0 < backlog st)%nat -> released (settle stamp st)).
Proof.
  destruct (settle_run stamp st) as (evs & Hall & Hrun). exists evs.
  pose proof (stop_run_pending _ _ _ Hall Hrun) as Hlen.
  rewrite settle_backlog in Hlen. split_and!; [done|done|lia..| |].
  - intros r s. apply stop_disabled, settle_backlog.
  - intros Hq. apply (stop_run_released evs st); [done| |done]. intros ->. simpl in Hlen. lia.
Qed.

(** Draining keeps the state reachable. *)
Lemma settle_reachable isElectron stamp st :
  capture_reachable isElectron st -> capture_reachable isElectron (settle stamp st).
Proof.
  intros Hreach. destruct (settle_run stamp st) as (evs & _ & Hrun).
  by eapply runG_reachable.
Qed.

(** ** Worked runs *)

(** Two recorders were started; the tracks of the first stream ended, then
    the user stopped the second: two [stop] events are queued. *)
Definition sessionStopping : Session :=
  runFrom sessionTwice [DataAvailable 2 c1; DataAvailable 5 c3; TracksEnded 1; ClickStop].

Lemma stop_events_bounded_witness :
  capture_run [StopFired 2 "a"; StopFired 5 "a"; StopFired 5 "a"] sessionStopping = None.
Proof.
  apply (stop_events_bounded [StopFired 2 "a"; StopFired 5 "a"; StopFired 5 "a"] sessionStopping).
  - repeat constructor.
  - vm_compute. lia.
Defined.

(** Draining hands over two recordings, both with the chunks of both
    recorders; a third [stop] event cannot happen. *)
Example scenario_settle :
  let st := settleN (pending sessionStopping) (fun _ => "a") sessionStopping in
  backlog sessionStopping = 2%nat /\
  map (fun f => blob_data (rec_blob f)) (delivered st) = [[x01; x02; x03]; [x01; x02; x03]] /\
  backlog st = 0%nat /\
  capture_run [StopFired 2 "a"; StopFired 5 "a"; StopFired 5 "a"] sessionStopping = None.
Proof. by vm_compute. Qed.

(** A recording was stopped and the next one started before the [stop]
    event of the first was delivered. *)
Definition sessionRestarted : Session :=
  runFrom sessionReady
    [ClickStart; Granted 0 None None; DataAvailable 2 c1; ClickStop;
     ClickStart; Granted 0 None None; DataAvailable 5 c3].

(** One event is queued, two are delivered: the handler of the first stops
    the tracks of the new stream, which ends the new recording.  Both
    recordings handed over hold the chunk of the second; the chunk of the
    first is lost.  The component goes on showing a recording, its timer
    running, with no recorder recording. *)
Example scenario_restart :
  let st := settleN (pending sessionRestarted) (fun _ => "a") sessionRestarted in
  backlog sessionRestarted = 1%nat /\ pending sessionRestarted = 2%nat /\
  map (fun f => blob_data (rec_blob f)) (delivered st) = [[x03]; [x03]] /\
  backlog st = 0%nat /\ pending st = 0%nat /\
  isRecording (view st) = true /\ intervals (browser st) = {[ 6%nat ]} /\
  liveStreams (browser st) = {[ 1%nat ]}.
Proof. by vm_compute. Qed.
