(* ===== verification/Lifecycle.v ===== *)
(** * Lifecycle: the capture state machine of the design, and the recorder as its implementation

    The design describes capture as a machine with the phases [Idle],
    [SourceSelected], [Recording] and [Finalizing], with an abort from every
    phase but [Idle].  This file states that machine ([lifecycle], a
    labelled transition relation, and [lifecycle_step], the same as a
    function) and relates the component of
    src/src/components/ScreenRecorder.js ([Capture]) to it.

    - [machineOf] reads a state of the component as a state of the design:
      the phase from [isRecording], from the queued [stop] events and from
      [selectedSource], the accumulated chunks from [chunksRef], the assets
      from what [onRecordingComplete] received.
    - [labels] says what an event of the component is in terms of the
      design.  The component keeps the source selected after a recording
      and after a failed start: in terms of the design it picks the same
      source again at once.
    - [orderly] is what the design assumes of the surroundings: a recording
      is started only when none is being started or finalised, and the
      device is not lost.  [tidy] is the invariant of the states reached
      under that assumption.

    Theorems: on the design, assets appear only by a hand-over and a
    session hands over its chunks in order; every orderly step of the
    component is the run of the design [labels] names, and keeps the state
    tidy, so every orderly run of the component is a run of the design; a
    lost device and a start during finalising are not: the two steps the
    component then takes are no step of the design. *)

From Stdlib Require Import ZArith List String Strings.Byte Lia.
From stdpp Require Import base tactics option list strings gmap sets.
From S2P Require Import Prelude Capture Settle.

(** ** The design *)

Inductive Phase :=
| Idle
| SourceSelected (source : Source)
| Recording (accumulatedChunks : list Blob)
| Finalizing (accumulatedChunks : list Blob).

(** The machine: its phase and the assets it has handed over. *)
Record Machine := mkMachine {
  phase : Phase;
  assets : list Blob;
}.

Inductive Label :=
| Pick (source : Source)
| Start
| Chunk (c : Blob)
| Stop
| Handoff
| Abort.

(** The content of the asset made of the accumulated chunks. *)
Definition assetOf (chunks : list Blob) : Blob := newBlob chunks "video/webm".

(** The transitions.  The design does not say when the last chunk of a
    recording arrives; a recorder delivers it after the stop, so chunks are
    accepted until the hand-over ([lc_flush]). *)
Inductive lifecycle : Machine -> Label -> Machine -> Prop :=
| lc_pick s reg :
    lifecycle (mkMachine Idle reg) (Pick s) (mkMachine (SourceSelected s) reg)
| lc_start s reg :
    lifecycle (mkMachine (SourceSelected s) reg) Start (mkMachine (Recording []) reg)
| lc_chunk cs c reg :
    lifecycle (mkMachine (Recording cs) reg) (Chunk c) (mkMachine (Recording (cs ++ [c])) reg)
| lc_flush cs c reg :
    lifecycle (mkMachine (Finalizing cs) reg) (Chunk c) (mkMachine (Finalizing (cs ++ [c])) reg)
| lc_stop cs reg :
    lifecycle (mkMachine (Recording cs) reg) Stop (mkMachine (Finalizing cs) reg)
| lc_handoff cs reg :
    lifecycle (mkMachine (Finalizing cs) reg) Handoff (mkMachine Idle (reg ++ [assetOf cs]))
| lc_abort p reg :
    p <> Idle -> lifecycle (mkMachine p reg) Abort (mkMachine Idle reg).

(** The same as a function. *)
Definition lifecycle_step (m : Machine) (l : Label) : option Machine :=
  match l, phase m with
  | Pick s, Idle => Some (mkMachine (SourceSelected s) (assets m))
  | Start, SourceSelected _ => Some (mkMachine (Recording []) (assets m))
  | Chunk c, Recording cs => Some (mkMachine (Recording (cs ++ [c])) (assets m))
  | Chunk c, Finalizing cs => Some (mkMachine (Finalizing (cs ++ [c])) (assets m))
  | Stop, Recording cs => Some (mkMachine (Finalizing cs) (assets m))
  | Handoff, Finalizing cs => Some (mkMachine Idle (assets m ++ [assetOf cs]))
  | Abort, (SourceSelected _ | Recording _ | Finalizing _) => Some (mkMachine Idle (assets m))
  | _, _ => None
  end.

Abbreviation lifecycle_run := (runO lifecycle_step).

Definition initialMachine : Machine := mkMachine Idle [].

(** ** The component as a machine of the design *)

(** No [stop] event is queued. *)
Definition noneQueued (st : Session) : Prop :=
  map_Forall (fun _ m => mr_stopQueued m = false) (recorders (browser st)).

#[global] Instance noneQueued_dec st : Decision (noneQueued st).
Proof. unfold noneQueued. apply _. Defined.

Definition phaseOf (st : Session) : Phase :=
  if isRecording (view st) then Recording (chunksRef (refs st))
  else if decide (noneQueued st) then
    match selectedSource (view st) with
    | Some s => SourceSelected s
    | None => Idle
    end
  else Finalizing (chunksRef (refs st)).

Definition machineOf (st : Session) : Machine :=
  mkMachine (phaseOf st) (rec_blob <$> delivered st).

(** The component keeps its source: back in [Idle] it picks it again. *)
Definition picks (st : Session) : list Label :=
  match selectedSource (view st) with
  | Some s => [Pick s]
  | None => []
  end.

(** What an event of the component is for the design. *)
Definition labels (st : Session) (ev : CaptureEvent) : list Label :=
  match ev with
  | SelectSource s =>
      match phaseOf st with
      | Idle => [Pick s]
      | SourceSelected _ => [Abort; Pick s]
      | _ => []
      end
  | Granted _ None None => [Start]
  | Granted _ _ _ | Denied _ _ => Abort :: picks st
  | DataAvailable _ data => if decide (nonempty data) then [Chunk data] else []
  | ClickStop => [Stop]
  | StopFired _ _ => Handoff :: picks st
  | _ => []
  end.

(** What the design assumes: one session at a time, and no device is
    lost. *)
Definition orderly (st : Session) (ev : CaptureEvent) : Prop :=
  match ev with
  | ClickStart => requests st = [] /\ noneQueued st
  | TracksEnded _ => False
  | _ => True
  end.

#[global] Instance orderly_dec st ev : Decision (orderly st ev).
Proof. destruct ev; simpl; apply _. Defined.

Definition orderly_enabled (st : Session) (ev : CaptureEvent) : Prop :=
  capture_enabled st ev /\ orderly st ev.

#[global] Instance orderly_enabled_dec st ev : Decision (orderly_enabled st ev).
Proof. unfold orderly_enabled. apply _. Defined.

Definition orderly_reachable (isElectron : bool) : Session -> Prop :=
  reachable (initialSession isElectron) orderly_enabled capture_step.

(** The labels of a run of the component. *)
Fixpoint trace (evs : list CaptureEvent) (st : Session) : list Label :=
  match evs with
  | [] => []
  | ev :: evs => labels st ev ++ trace evs (exec (capture_handler ev) st)
  end.

(** The states of orderly runs: while the component shows a recording its
    recorder records, nothing is queued and no request is in flight; at
    most one [stop] event is queued; a request is in flight only with a
    source selected and nothing else going on; only the recorder of the ref
    records. *)
Record tidy (st : Session) : Prop := {
  tidy_recording :
    isRecording (view st) = true ->
    requests st = [] /\ noneQueued st /\
    exists r m, mediaRecorderRef (refs st) = Some r /\
                recorders (browser st) !! r = Some m /\ mr_state m = recording;
  tidy_queued r1 m1 r2 m2 :
    recorders (browser st) !! r1 = Some m1 -> mr_stopQueued m1 = true ->
    recorders (browser st) !! r2 = Some m2 -> mr_stopQueued m2 = true -> r1 = r2;
  tidy_requests :
    requests st <> [] ->
    is_Some (selectedSource (view st)) /\ isRecording (view st) = false /\
    noneQueued st /\ length (requests st) = 1%nat;
  tidy_recorders r m :
    recorders (browser st) !! r = Some m -> mr_state m = recording ->
    isRecording (view st) = true /\ mediaRecorderRef (refs st) = Some r;
}.

(** ** The design by itself *)

Lemma lifecycle_step_spec m l m' : lifecycle m l m' <-> lifecycle_step m l = Some m'.
Proof.
  split.
  - destruct 1 as [| | | | | |p reg Hp]; try done. by destruct p.
  - destruct m as [p reg], l, p; simpl; intros [= <-]; by constructor.
Qed.

(** Assets are only added, and only by a hand-over of what was
    accumulated. *)
Lemma lifecycle_assets m l m' :
  lifecycle m l m' ->
  assets m' = assets m \/
  exists cs, l = Handoff /\ phase m = Finalizing cs /\ assets m' = assets m ++ [assetOf cs].
Proof. destruct 1; simpl; eauto. Qed.

Lemma lifecycle_run_assets ls m m' :
  lifecycle_run ls m = Some m' -> assets m `prefix_of` assets m'.
Proof.
  revert m. induction ls as [|l ls IH]; intros m; simpl; [by intros [= <-]|].
  destruct (lifecycle_step m l) as [m1|] eqn:Hl; [|done]. intros Hrun%IH.
  apply lifecycle_step_spec, lifecycle_assets in Hl as [Heq|(cs & _ & _ & Heq)];
    rewrite Heq in Hrun; [done|].
  etrans; [|done]. by apply prefix_app_r.
Qed.

Lemma lifecycle_run_chunks cs cs0 reg :
  lifecycle_run (Chunk <$> cs) (mkMachine (Recording cs0) reg)
  = Some (mkMachine (Recording (cs0 ++ cs)) reg).
Proof.
  revert cs0. induction cs as [|c cs IH]; intros cs0; simpl; [by rewrite app_nil_r|].
  by rewrite IH, <- app_assoc.
Qed.

(** A session of the design: the asset handed over holds the chunks in the
    order they arrived. *)
Theorem lifecycle_session s cs reg :
  lifecycle_run (Pick s :: Start :: (Chunk <$> cs) ++ [Stop; Handoff]) (mkMachine Idle reg)
  = Some (mkMachine Idle (reg ++ [assetOf cs])).
Proof. simpl. by rewrite runO_app, lifecycle_run_chunks. Qed.

(** A partial recording is never promoted: a session that is aborted
    leaves the assets as they were. *)
Theorem lifecycle_aborted s cs reg :
  lifecycle_run (Pick s :: Start :: (Chunk <$> cs) ++ [Abort]) (mkMachine Idle reg)
  = Some (mkMachine Idle reg).
Proof. simpl. by rewrite runO_app, lifecycle_run_chunks. Qed.

(** ** Orderly runs stay tidy *)

Lemma initialSession_tidy isElectron : tidy (initialSession isElectron).
Proof. split; simpl; try done. Qed.

(** Closes a goal in which a recorder is queued although none is, or
    records although none does. *)
Ltac absurd_recorder :=
  match goal with
  | Hnq : (forall i x, ?recs !! i = Some x -> mr_stopQueued x = false),
    H : ?recs !! _ = Some ?m, H0 : mr_stopQueued ?m = true |- _ =>
      rewrite (Hnq _ _ H) in H0; discriminate
  | Hidle : (forall r m, ?recs !! r = Some m -> mr_state m <> recording),
    H : ?recs !! _ = Some ?m, H0 : mr_state ?m = recording |- _ =>
      destruct (Hidle _ _ H H0)
  end.

(** A step that leaves the recorders, the requests, [isRecording] and the
    ref of the recorder alone, and does not forget the source, keeps the
    state tidy. *)
Lemma tidy_frame st st' :
  isRecording (view st') = isRecording (view st) ->
  requests st' = requests st ->
  recorders (browser st') = recorders (browser st) ->
  mediaRecorderRef (refs st') = mediaRecorderRef (refs st) ->
  (is_Some (selectedSource (view st)) -> is_Some (selectedSource (view st'))) ->
  tidy st -> tidy st'.
Proof.
  intros Hi Hq Hr Hm Hs [H1 H2 H3 H4].
  split; unfold noneQueued in *; rewrite ?Hi, ?Hq, ?Hr, ?Hm; try done.
  intros Hne. destruct (H3 Hne) as (? & ? & ? & ?). auto.
Qed.

(** The events that only touch what [tidy_frame] leaves free. *)
Definition quiet (ev : CaptureEvent) : Prop :=
  match ev with
  | SourcesLoaded _ | ToggleSelector | SelectSource _ | DataAvailable _ _ | TimerFired _ => True
  | _ => False
  end.

Lemma tidy_quiet st ev : quiet ev -> tidy st -> tidy (exec (capture_handler ev) st).
Proof.
  intros Hq. apply tidy_frame; revert Hq; step_cases st ev; try done.
Qed.

Lemma delete_single {A} (l : list A) i : length l = 1%nat -> is_Some (l !! i) -> delete i l = [].
Proof. destruct l as [|a [|b l]], i; simpl; try done; by intros _ [? ?]. Qed.

(** A request is in flight: a source is selected, nothing is recorded or
    queued, and the request is the only one. *)
Lemma tidy_pending st i :
  tidy st -> is_Some (requests st !! i) ->
  is_Some (selectedSource (view st)) /\ isRecording (view st) = false /\ noneQueued st /\
  delete i (requests st) = [].
Proof.
  intros [_ _ H _] Hi. destruct H as (? & ? & ? & ?); [by intros Heq; rewrite Heq in Hi; destruct Hi|].
  split_and!; try done. by apply delete_single.
Qed.

Lemma tidy_idle st r m :
  tidy st -> isRecording (view st) = false -> recorders (browser st) !! r = Some m ->
  mr_state m <> recording.
Proof. intros [_ _ _ H] Hi Hr Hm. destruct (H r m Hr Hm) as [? _]. congruence. Qed.

Lemma tidy_click_start st :
  tidy st -> orderly_enabled st ClickStart -> tidy (exec (capture_handler ClickStart) st).
Proof.
  intros Ht [Hen [Hreq Hnq]]. destruct (selectedSource (view st)) as [s|] eqn:Hsel.
  2: { revert Ht. apply tidy_frame; revert Hsel; destruct_session st; handler_unfold; cbn;
       by intros ->. }
  destruct Ht as [H1 H2 H3 H4]. revert Hen Hreq Hnq Hsel H1 H2 H3 H4.
  destruct_session st. handler_unfold. cbn. intros -> -> Hnq -> H1 H2 H3 H4.
  split; cbn; try done.
Qed.

Lemma tidy_denied st i e :
  tidy st -> capture_enabled st (Denied i e) -> tidy (exec (capture_handler (Denied i e)) st).
Proof.
  intros Ht Hen. destruct (tidy_pending _ _ Ht Hen) as (Hsel & Hrec & Hnq & Hdel).
  destruct Ht as [H1 H2 H3 H4]. revert Hen Hsel Hrec Hnq Hdel H1 H2 H3 H4.
  destruct_session st. handler_unfold. cbn. intros Hen Hsel -> Hnq -> H1 H2 H3 H4.
  split; cbn; try done.
Qed.

Lemma tidy_granted st i ctor start :
  tidy st -> capture_enabled st (Granted i ctor start) ->
  tidy (exec (capture_handler (Granted i ctor start)) st).
Proof.
  intros Ht Hen. destruct (tidy_pending _ _ Ht Hen) as (Hsel & Hrec & Hnq & Hdel).
  pose proof (fun r m => tidy_idle st r m Ht Hrec) as Hidle.
  destruct Ht as [H1 H2 H3 H4]. revert Hen Hsel Hrec Hnq Hdel Hidle H1 H2 H3 H4.
  unfold noneQueued, map_Forall.
  destruct_session st. destruct ctor, start; handler_unfold; cbn.
  all: intros Hen Hsel -> Hnq -> Hidle H1 H2 H3 H4; split; cbn; try done.
  all: unfold noneQueued, map_Forall; cbn.
  all: intros; lookup_cases; simplify_eq/=; try done; try absurd_recorder.
  split_and!; [done| |eexists _, _; by rewrite lookup_alter_eq, lookup_insert_eq].
  intros; lookup_cases; simplify_eq/=; eauto.
Qed.

Lemma tidy_click_stop st :
  tidy st -> capture_enabled st ClickStop -> tidy (exec (capture_handler ClickStop) st).
Proof.
  intros [H1 H2 H3 H4] Hen. destruct (H1 Hen) as (Hreq & Hnq & r & m & Hm & Hr & Hs).
  revert Hen Hreq Hnq Hm Hr Hs H1 H2 H3 H4. unfold noneQueued, map_Forall.
  destruct_session st. handler_unfold. cbn. intros -> -> Hnq -> Hr Hs H1 H2 H3 H4.
  rewrite bool_decide_eq_true_2 by (simpl; rewrite Hr; simpl; by rewrite Hs).
  cbn. destruct tref; cbn.
  all: split; cbn; try done.
  all: unfold noneQueued, map_Forall; cbn.
  all: intros; lookup_cases; simplify_eq/=; try done; try absurd_recorder.
  all: match goal with
       | H : _ !! _ = Some ?m, H0 : mr_state ?m = recording |- _ =>
           by destruct (H4 _ _ H H0) as [_ [= ?]]
       end.
Qed.

(** A [stop] event is queued: the component shows no recording and no
    request is in flight. *)
Lemma tidy_finalizing st r stamp :
  tidy st -> capture_enabled st (StopFired r stamp) ->
  isRecording (view st) = false /\ requests st = [] /\ ~ noneQueued st.
Proof.
  intros [H1 _ H3 _] Hen. simpl in Hen.
  destruct (recorders (browser st) !! r) as [m|] eqn:Hr; [|done]. injection Hen as Hm.
  assert (~ noneQueued st) as Hnq by (intros Hnq; by rewrite (Hnq _ _ Hr) in Hm).
  split_and!; [|  |done].
  - destruct (isRecording (view st)); [|done]. by destruct H1 as (_ & ? & _).
  - destruct (requests st) as [|x l] eqn:Hl; [done|]. by destruct H3 as (_ & _ & ? & _).
Qed.

Lemma tidy_stop_fired st r stamp :
  tidy st -> capture_enabled st (StopFired r stamp) ->
  tidy (exec (capture_handler (StopFired r stamp)) st).
Proof.
  intros Ht Hen. destruct (tidy_finalizing _ _ _ Ht Hen) as (Hrec & Hreq & _).
  pose proof (fun r m => tidy_idle st r m Ht Hrec) as Hidle.
  destruct Ht as [H1 H2 H3 H4]. revert Hen Hrec Hreq Hidle H1 H2 H3 H4.
  destruct_session st. handler_unfold. cbn. intros Hen -> -> Hidle H1 H2 H3 H4.
  destruct sref; cbn.
  all: split; cbn; try done.
  all: intros; lookup_cases; repeat case_bool_decide; destruct_and?; simplify_eq/=;
    try done; try absurd_recorder; eauto.
Qed.

Lemma tidy_step st ev st' :
  tidy st -> orderly_enabled st ev -> capture_step st ev = Some st' -> tidy st'.
Proof.
  intros Ht [Hen Hord] [= <-].
  destruct ev; try (by apply tidy_quiet);
    eauto using tidy_click_start, tidy_granted, tidy_denied, tidy_click_stop, tidy_stop_fired.
  by apply tidy_click_start.
Qed.

(** Every state of an orderly run is tidy. *)
Lemma orderly_reachable_tidy isElectron st : orderly_reachable isElectron st -> tidy st.
Proof.
  apply reachable_invariant; [apply initialSession_tidy|].
  intros s e s' Hs He Hstep. by eapply tidy_step.
Qed.

(** ** Orderly steps are steps of the design *)

Lemma phaseOf_recording st :
  isRecording (view st) = true -> phaseOf st = Recording (chunksRef (refs st)).
Proof. unfold phaseOf. by intros ->. Qed.

Lemma phaseOf_finalizing st :
  isRecording (view st) = false -> ~ noneQueued st ->
  phaseOf st = Finalizing (chunksRef (refs st)).
Proof. unfold phaseOf. intros -> Hq. by rewrite decide_False. Qed.

Lemma phaseOf_waiting st :
  isRecording (view st) = false -> noneQueued st ->
  phaseOf st = from_option SourceSelected Idle (selectedSource (view st)).
Proof. unfold phaseOf. intros -> Hq. rewrite decide_True by done. by destruct selectedSource. Qed.

(** Picking the kept source again. *)
Lemma lifecycle_run_picks st reg :
  lifecycle_run (picks st) (mkMachine Idle reg)
  = Some (mkMachine (from_option SourceSelected Idle (selectedSource (view st))) reg).
Proof. unfold picks. by destruct selectedSource. Qed.

(** The state of the design depends on five cells. *)
Lemma machineOf_frame st st' :
  isRecording (view st') = isRecording (view st) ->
  selectedSource (view st') = selectedSource (view st) ->
  recorders (browser st') = recorders (browser st) ->
  chunksRef (refs st') = chunksRef (refs st) ->
  delivered st' = delivered st ->
  machineOf st' = machineOf st.
Proof.
  intros Hi Hs Hr Hc Hd. unfold machineOf, phaseOf, noneQueued. rewrite Hi, Hs, Hc, Hd.
  destruct (isRecording (view st)); [done|]. f_equal.
  destruct (decide _) as [H|H], (decide _) as [H'|H']; try done; rewrite Hr in *; done.
Qed.

Lemma refines_silent st ev :
  match ev with
  | SourcesLoaded _ | ToggleSelector | ClickStart | TimerFired _ => True
  | _ => False
  end ->
  machineOf (exec (capture_handler ev) st) = machineOf st.
Proof. intros Hq. apply machineOf_frame; revert Hq; step_cases st ev; done. Qed.

(** While a recorder delivers data the design records or finalises. *)
Lemma tidy_delivering st r data :
  tidy st -> capture_enabled st (DataAvailable r data) ->
  phaseOf st = Recording (chunksRef (refs st)) \/ phaseOf st = Finalizing (chunksRef (refs st)).
Proof.
  intros Ht Hen. simpl in Hen.
  destruct (recorders (browser st) !! r) as [m|] eqn:Hr; [|done].
  destruct (isRecording (view st)) eqn:Hrec; [left; by apply phaseOf_recording|].
  right. apply phaseOf_finalizing; [done|]. intros Hnq.
  destruct Hen as [Hm|Hm]; [by eapply tidy_idle|by rewrite (Hnq _ _ Hr) in Hm].
Qed.

Lemma machineOf_setChunksRef l st :
  machineOf (exec (setChunksRef l) st)
  = mkMachine match phaseOf st with
              | Recording _ => Recording l
              | Finalizing _ => Finalizing l
              | p => p
              end (assets (machineOf st)).
Proof.
  destruct_session st. unfold machineOf, phaseOf, noneQueued. cbn.
  destruct rec; [done|]. destruct (decide _); [|done]. by destruct sel.
Qed.

Lemma refines_data st r data :
  tidy st -> capture_enabled st (DataAvailable r data) ->
  lifecycle_run (labels st (DataAvailable r data)) (machineOf st)
  = Some (machineOf (exec (capture_handler (DataAvailable r data)) st)).
Proof.
  intros Ht Hen. simpl capture_handler. rewrite exec_ondataavailable, machineOf_setChunksRef.
  rewrite filter_cons, filter_nil. unfold labels, machineOf at 1.
  destruct (tidy_delivering _ _ _ Ht Hen) as [-> | ->]; destruct (decide (nonempty data)); simpl;
    by rewrite ?app_nil_r.
Qed.

Lemma refines_select st s :
  lifecycle_run (labels st (SelectSource s)) (machineOf st)
  = Some (machineOf (exec (capture_handler (SelectSource s)) st)).
Proof.
  destruct_session st. unfold labels, machineOf, phaseOf, noneQueued. handler_unfold. cbn.
  destruct rec; [done|]. destruct (decide _); [|done]. by destruct sel.
Qed.

Lemma refines_granted st i ctor start :
  tidy st -> capture_enabled st (Granted i ctor start) ->
  lifecycle_run (labels st (Granted i ctor start)) (machineOf st)
  = Some (machineOf (exec (capture_handler (Granted i ctor start)) st)).
Proof.
  intros Ht Hen. destruct (tidy_pending _ _ Ht Hen) as ([s Hsel] & Hrec & Hnq & _).
  unfold labels, picks, machineOf at 1. rewrite (phaseOf_waiting _ Hrec Hnq), Hsel.
  revert Hen Hsel Hrec Hnq. unfold machineOf, phaseOf, noneQueued, map_Forall.
  destruct_session st. destruct ctor, start; handler_unfold; cbn.
  all: intros Hen -> -> Hnq; try done.
  all: rewrite decide_True; [done|]; intros; lookup_cases; simplify_eq/=; eauto.
Qed.

Lemma refines_denied st i e :
  tidy st -> capture_enabled st (Denied i e) ->
  lifecycle_run (labels st (Denied i e)) (machineOf st)
  = Some (machineOf (exec (capture_handler (Denied i e)) st)).
Proof.
  intros Ht Hen. destruct (tidy_pending _ _ Ht Hen) as ([s Hsel] & Hrec & Hnq & _).
  assert (machineOf (exec (capture_handler (Denied i e)) st) = machineOf st) as ->
    by (apply machineOf_frame; destruct_session st; by handler_unfold).
  unfold labels, picks, machineOf. by rewrite (phaseOf_waiting _ Hrec Hnq), Hsel.
Qed.

Lemma refines_click_stop st :
  tidy st -> capture_enabled st ClickStop ->
  lifecycle_run (labels st ClickStop) (machineOf st)
  = Some (machineOf (exec (capture_handler ClickStop) st)).
Proof.
  intros [H1 _ _ _] Hen. destruct (H1 Hen) as (_ & Hnq & r & m & Hm & Hr & Hs).
  unfold labels, machineOf at 1. rewrite (phaseOf_recording _ Hen). simpl.
  revert Hen Hm Hr Hs. clear. unfold machineOf, phaseOf, noneQueued, map_Forall.
  destruct_session st. handler_unfold. cbn. intros -> -> Hr Hs.
  rewrite bool_decide_eq_true_2 by (simpl; rewrite Hr; simpl; by rewrite Hs).
  cbn. destruct tref; cbn.
  all: rewrite decide_False; [done|]; intros Hnq.
  all: pose proof (Hnq r (mkMediaRecorder (mr_stream m) inactive true)) as Hl.
  all: rewrite lookup_alter_eq, Hr in Hl; by specialize (Hl eq_refl).
Qed.

Lemma fireStop_view r stamp st : view (exec (fireStop r stamp) st) = view st.
Proof. destruct_session st. handler_unfold. cbn. by destruct sref. Qed.

(** The one queued [stop] event has fired: none is left. *)
Lemma tidy_drained st r stamp :
  tidy st -> capture_enabled st (StopFired r stamp) ->
  noneQueued (exec (fireStop r stamp) st).
Proof.
  intros Ht Hen i x. destruct (tidy_finalizing _ _ _ Ht Hen) as (Hrec & _ & _).
  rewrite fireStop_recorders_idle by (intros j m; by apply tidy_idle).
  destruct Ht as [_ H2 _ _]. simpl in Hen.
  destruct (recorders (browser st) !! r) as [m|] eqn:Hr; [|done]. injection Hen as Hm.
  intros Hx. lookup_cases; [done|]. destruct (mr_stopQueued x) eqn:Hq; [|done].
  by destruct (H2 _ _ _ _ Hr Hm H0 Hq).
Qed.

Lemma refines_stop_fired st r stamp :
  tidy st -> capture_enabled st (StopFired r stamp) ->
  lifecycle_run (labels st (StopFired r stamp)) (machineOf st)
  = Some (machineOf (exec (capture_handler (StopFired r stamp)) st)).
Proof.
  intros Ht Hen. destruct (tidy_finalizing _ _ _ Ht Hen) as (Hrec & _ & Hnq).
  unfold labels, machineOf at 1. rewrite (phaseOf_finalizing _ Hrec Hnq).
  cbn [runO lifecycle_step phase assets]. rewrite lifecycle_run_picks.
  change (capture_handler (StopFired r stamp)) with (fireStop r stamp).
  unfold machineOf. destruct (fireStop_delivered r stamp st) as [url ->].
  rewrite phaseOf_waiting, fireStop_view, fmap_app;
    [done|by rewrite fireStop_view|by apply tidy_drained].
Qed.

(** Every step the recorder takes in an orderly run is the run of the
    design that [labels] names, and the state stays tidy. *)
Lemma orderly_step_refines st ev st' :
  tidy st -> orderly_enabled st ev -> capture_step st ev = Some st' ->
  lifecycle_run (labels st ev) (machineOf st) = Some (machineOf st') /\ tidy st'.
Proof.
  intros Ht Hen Hstep. split; [|by eapply tidy_step].
  destruct Hen as [Hen Hord]. injection Hstep as <-.
  destruct ev; try done;
    eauto using refines_select, refines_granted, refines_denied, refines_data,
      refines_click_stop, refines_stop_fired.
  all: simpl labels; simpl runO; f_equal; symmetry; by apply refines_silent.
Qed.

(** C6. The recorder implements the capture machine of the design: every
    orderly run of the component, from a tidy state, is a run of the design
    from the state read off before it to the state read off after it, with
    the labels of its events as trace; and it ends in a tidy state. *)
Theorem orderly_run_refines evs st st' :
  tidy st -> runG orderly_enabled capture_step evs st = Some st' ->
  lifecycle_run (trace evs st) (machineOf st) = Some (machineOf st') /\ tidy st'.
Proof.
  revert st. induction evs as [|ev evs IH]; intros st Ht; simpl; [by intros [= <-]|].
  case_decide as Hen; [|done]. simpl. intros Hrun.
  destruct (orderly_step_refines st ev _ Ht Hen eq_refl) as [Hl Ht'].
  destruct (IH _ Ht' Hrun) as [Hls Ht'']. split; [|done].
  by rewrite runO_app, Hl.
Qed.

(** The assets of an orderly run only grow. *)
Corollary orderly_run_assets evs st st' :
  tidy st -> runG orderly_enabled capture_step evs st = Some st' ->
  (rec_blob <$> delivered st) `prefix_of` (rec_blob <$> delivered st').
Proof.
  intros Ht Hrun. destruct (orderly_run_refines _ _ _ Ht Hrun) as [Hl _].
  apply (lifecycle_run_assets _ _ _ Hl).
Qed.

(** ** Where the recorder leaves the design *)

(** While the design records, no step adds an asset. *)
Lemma lifecycle_recording_assets m l m' cs :
  lifecycle m l m' -> phase m = Recording cs -> assets m' = assets m.
Proof.
  intros [Heq|(cs' & _ & Hp & _)]%lifecycle_assets Hrec; [done|congruence].
Qed.

(** A lost device: the tracks end, the recorder queues its [stop] event,
    and the event fires while the component still shows a recording.  That
    step hands the partial recording over; it is no step of the design,
    which aborts the session and discards the chunks. *)
Theorem stop_while_recording_not_design st r stamp l :
  isRecording (view st) = true ->
  ~ lifecycle (machineOf st) l (machineOf (exec (fireStop r stamp) st)).
Proof.
  intros Hrec Hl. apply (lifecycle_recording_assets _ _ _ (chunksRef (refs st))) in Hl.
  - unfold machineOf in Hl. simpl in Hl.
    destruct (fireStop_delivered r stamp st) as [url Hd]. rewrite Hd, fmap_app in Hl.
    apply (f_equal length) in Hl. rewrite length_app in Hl. simpl in Hl. lia.
  - by apply phaseOf_recording.
Qed.

(** C30. A start while the [stop] event of the last recording is still queued:
    the new start empties the chunk buffer, so the event hands over an
    empty recording, and [onstop] stops the tracks of the stream in the
    ref, which is the new one: the new recorder stops and queues a [stop]
    event of its own, while the component goes on showing a recording. *)
Theorem restart_while_finalizing st s r m stamp :
  isRecording (view st) = false -> selectedSource (view st) = Some s ->
  recorders (browser st) !! r = Some m -> mr_stopQueued m = true ->
  (r < nextId (browser st))%nat ->
  let n := nextId (browser st) in
  exists st',
    capture_run [ClickStart; Granted (length (requests st)) None None; StopFired r stamp] st
    = Some st' /\
    rec_blob <$> delivered st' = (rec_blob <$> delivered st) ++ [assetOf []] /\
    isRecording (view st') = true /\ chunksRef (refs st') = [] /\
    streamRef (refs st') = Some n /\ (n ∉ liveStreams (browser st')) /\
    recorders (browser st') !! S n = Some (mkMediaRecorder n inactive true).
Proof.
  intros Hrec Hsel Hr Hm Hlt n. subst n.
  change [ClickStart; ?g; ?f] with ([ClickStart; g] ++ [f]).
  rewrite runG_app, (run_start st s Hrec Hsel). cbn [mbind option_bind].
  eexists. split.
  - erewrite runG_cons; [reflexivity| |reflexivity].
    simpl. rewrite lookup_insert_ne by lia. by rewrite Hr, <- Hm.
  - destruct (fireStop_delivered r stamp (started st)) as [url Hd].
    change (capture_handler (StopFired r stamp)) with (fireStop r stamp).
    rewrite Hd, fmap_app, fireStop_view, fireStop_chunks, fireStop_streamRef,
      fireStop_liveStreams, fireStop_recorders.
    split_and!; try done; simpl; [set_solver|].
    rewrite lookup_fmap, lookup_alter_ne, lookup_insert_eq by lia. simpl.
    unfold endedOn. by rewrite bool_decide_eq_true_2.
Qed.

(** ** Worked runs *)

Definition c4 : Blob := chunk [x04].

(** A session from the first render to the hand-over; the last chunk
    arrives after the click on stop. *)
Definition orderlySession : list CaptureEvent :=
  [SourcesLoaded [screen0]; ToggleSelector; SelectSource screen0; ClickStart;
   Granted 0 None None; DataAvailable 2 c1; DataAvailable 2 c2; DataAvailable 2 c3; TimerFired 3;
   ClickStop; DataAvailable 2 c4; StopFired 2 "11/8/2026, 10:00:00 AM"].

Lemma orderly_run_refines_witness :
  lifecycle_run (trace orderlySession (initialSession true)) (machineOf (initialSession true))
  = Some (machineOf (runFrom (initialSession true) orderlySession)) /\
  tidy (runFrom (initialSession true) orderlySession).
Proof.
  apply (orderly_run_refines orderlySession (initialSession true)).
  - apply initialSession_tidy.
  - by vm_compute.
Defined.

(** The trace of that session, and the design's state at its end: one
    asset, holding the chunks with data in the order they came. *)
Example scenario_orderly_session :
  trace orderlySession (initialSession true)
  = [Pick screen0; Start; Chunk c1; Chunk c3; Stop; Chunk c4; Handoff; Pick screen0] /\
  machineOf (runFrom (initialSession true) orderlySession)
  = mkMachine (SourceSelected screen0) [assetOf [c1; c3; c4]].
Proof. by vm_compute. Qed.

(** The user stops, and starts again before the [stop] event is
    delivered. *)
Lemma restart_while_finalizing_witness :
  let st := runFrom sessionRecording [ClickStop] in
  exists st',
    capture_run [ClickStart; Granted (length (requests st)) None None; StopFired 2 "a"] st
    = Some st' /\
    rec_blob <$> delivered st' = (rec_blob <$> delivered st) ++ [assetOf []] /\
    isRecording (view st') = true /\ chunksRef (refs st') = [] /\
    streamRef (refs st') = Some (nextId (browser st)) /\
    (nextId (browser st) ∉ liveStreams (browser st')) /\
    recorders (browser st') !! S (nextId (browser st))
    = Some (mkMediaRecorder (nextId (browser st)) inactive true).
Proof.
  apply (restart_while_finalizing (runFrom sessionRecording [ClickStop]) screen0 2
           (mkMediaRecorder 1 inactive true) "a"); try by vm_compute.
  vm_compute. lia.
Defined.

(** The device is lost after the first chunk: the design aborts and has no
    asset, the recorder hands the chunk over and goes on showing a
    recording. *)
Example scenario_device_loss :
  let st := runFrom sessionRecording [TracksEnded 1; StopFired 2 "a"] in
  lifecycle_run [Abort] (machineOf sessionRecording) = Some (mkMachine Idle []) /\
  machineOf st = mkMachine (Recording [c1]) [assetOf [c1]].
Proof. by vm_compute. Qed.

(** A denied request and a second try: the design aborts, picks the source
    again and records. *)
Example scenario_denied_then_granted :
  trace [ClickStart; Denied 0 (DOMException "NotAllowedError" "Permission denied");
         ClickStart; Granted 0 None None] sessionReady
  = [Abort; Pick screen0; Start].
Proof. by vm_compute. Qed.
