(* ===== verification/Wire.v ===== *)
(** * Wire: the values that cross between the renderer and the main process

    The arguments of [ipcRenderer.invoke] and the value a handler of
    [ipcMain.handle] returns are copied from one process to the other: what
    arrives is plain data.  [Value] is that data.  The handlers of
    src/public/electron.js take such values apart with parameter patterns
    ([{ videoPath, timestamp = 1 }]) and member reads, and build their
    answers as object literals; this file gives those operations on
    [Value], and a small language of types [Ty] in which the shape of an
    argument or of an answer can be stated and checked.

    - [field], [destructure], [orDefault], [arg]: the reads the handlers
      make.
    - [has_type] is the typing relation and [check] decides it
      ([check_has_type]).  An object type lists the members it constrains;
      a member that is absent reads as [undefined], so an optional member
      has a union type with [TUndefined].
    - [ofOption], [ofN], [asString], [asNumber], [asN] and the like convert
      between values and the types of the models, with their round trips. *)

From Stdlib Require Import QArith ZArith List String.
From stdpp Require Import base tactics option list strings.
From S2P Require Import Prelude Timeline.

(** ** Values *)

#[warnings="-register-all"]
Inductive Value :=
| VUndefined
| VNull
| VBool (b : bool)
| VNumber (q : Q)
| VString (s : string)
| VArray (items : list Value)
| VObject (fields : list (string * Value)).

(** Induction with a hypothesis for every item of an array and every member
    of an object. *)
Lemma Value_ind' (P : Value -> Prop) :
  P VUndefined -> P VNull -> (forall b, P (VBool b)) -> (forall q, P (VNumber q)) ->
  (forall s, P (VString s)) ->
  (forall items, Forall P items -> P (VArray items)) ->
  (forall fields, Forall (fun kv => P kv.2) fields -> P (VObject fields)) ->
  forall v, P v.
Proof.
  intros Hu Hn Hb Hq Hs Ha Ho.
  fix go 1. intros [| |b|q|s|items|fields];
    [exact Hu|exact Hn|exact (Hb b)|exact (Hq q)|exact (Hs s)| |].
  - apply Ha. induction items as [|v items IH]; constructor; [apply go|apply IH].
  - apply Ho. induction fields as [|[k v] fields IH]; constructor; [apply go|apply IH].
Qed.

(** Equality of values, member by member. *)
Fixpoint Value_eqb (x y : Value) : bool :=
  match x, y with
  | VUndefined, VUndefined | VNull, VNull => true
  | VBool a, VBool b => bool_decide (a = b)
  | VNumber a, VNumber b => bool_decide (a = b)
  | VString a, VString b => bool_decide (a = b)
  | VArray xs, VArray ys =>
      (fix go (xs ys : list Value) : bool :=
         match xs, ys with
         | [], [] => true
         | x :: xs, y :: ys => Value_eqb x y && go xs ys
         | _, _ => false
         end) xs ys
  | VObject xs, VObject ys =>
      (fix go (xs ys : list (string * Value)) : bool :=
         match xs, ys with
         | [], [] => true
         | (k, x) :: xs, (l, y) :: ys => bool_decide (k = l) && Value_eqb x y && go xs ys
         | _, _ => false
         end) xs ys
  | _, _ => false
  end.

Lemma Value_eqb_eq x y : Value_eqb x y = true <-> x = y.
Proof.
  revert y. induction x as [| |b|q|s|items IH|fields IH] using Value_ind';
    intros [| |b'|q'|s'|items'|fields']; simpl; try (split; congruence).
  - rewrite bool_decide_eq_true. split; congruence.
  - rewrite bool_decide_eq_true. split; congruence.
  - rewrite bool_decide_eq_true. split; congruence.
  - revert items'. induction IH as [|x xs Hx _ IHxs]; intros [|y ys]; try (split; congruence).
    rewrite andb_true_iff, Hx. specialize (IHxs ys). split.
    + intros [-> Hr]. apply IHxs in Hr. congruence.
    + intros [= -> <-]. split; [done|]. by apply IHxs.
  - revert fields'. induction IH as [|[k x] xs Hx _ IHxs]; intros [|[l y] ys];
      try (split; congruence).
    rewrite !andb_true_iff, bool_decide_eq_true. simpl in Hx. rewrite Hx.
    specialize (IHxs ys). split.
    + intros [[-> ->] Hr]. apply IHxs in Hr. congruence.
    + intros [= -> -> <-]. split; [done|]. by apply IHxs.
Qed.

#[global] Instance Value_eq_dec : EqDecision Value.
Proof.
  intros x y. destruct (Value_eqb x y) eqn:E.
  - left. by apply Value_eqb_eq.
  - right. intros H%Value_eqb_eq. congruence.
Defined.

(** ** Reading values *)

(** The member [k] of an object literal's members. *)
Fixpoint assoc (k : string) (fields : list (string * Value)) : option Value :=
  match fields with
  | [] => None
  | (k', v) :: fields => if String.eqb k k' then Some v else assoc k fields
  end.

(** [v?.k], and [v.k] for a [v] that is neither [undefined] nor [null]:
    a member that is not there reads as [undefined]. *)
Definition field (k : string) (v : Value) : Value :=
  match v with
  | VObject fields => default VUndefined (assoc k fields)
  | _ => VUndefined
  end.

Definition nullish (v : Value) : bool :=
  match v with
  | VUndefined | VNull => true
  | _ => false
  end.

(** A parameter pattern [{ ... }] applied to [v]: it throws when there is
    nothing to take apart. *)
Definition destructure (v : Value) : result JsError Value :=
  if nullish v then Throw (TypeError "Cannot destructure property of undefined")
  else Ok v.

(** [k = d] in a parameter pattern: the default stands in for [undefined]
    only. *)
Definition orDefault (d : Value) (v : Value) : Value :=
  match v with
  | VUndefined => d
  | _ => v
  end.

(** The [i]-th argument of a call; an argument that was not passed is
    [undefined]. *)
Definition arg (i : nat) (args : list Value) : Value := default VUndefined (args !! i).

(** ** Types *)

#[warnings="-register-all"]
Inductive Ty :=
| TAny
| TUndefined
| TNull
| TBool
| TTrue
| TFalse
| TNumber
| TNat
| TString
| TLit (s : string)
| TArray (t : Ty)
| TObject (members : list (string * Ty))
| TUnion (a b : Ty).

Lemma Ty_ind' (P : Ty -> Prop) :
  P TAny -> P TUndefined -> P TNull -> P TBool -> P TTrue -> P TFalse -> P TNumber -> P TNat ->
  P TString -> (forall s, P (TLit s)) ->
  (forall t, P t -> P (TArray t)) ->
  (forall members, Forall (fun kt => P kt.2) members -> P (TObject members)) ->
  (forall a b, P a -> P b -> P (TUnion a b)) ->
  forall t, P t.
Proof.
  intros H1 H2 H3 H4 H5 H6 H7 H8 H9 Hl Ha Ho Hu.
  fix go 1. intros [| | | | | | | | |s|t|members|a b];
    [exact H1|exact H2|exact H3|exact H4|exact H5|exact H6|exact H7|exact H8|exact H9
    |exact (Hl s)| | |].
  - apply Ha, go.
  - apply Ho. induction members as [|[k t] members IH]; constructor; [apply go|apply IH].
  - apply Hu; apply go.
Qed.

(** A number that is a natural number. *)
Definition isNat (q : Q) : bool := bool_decide (Qden q = 1%positive) && (0 <=? Qnum q)%Z.

Definition optional (t : Ty) : Ty := TUnion TUndefined t.

(** The typing relation. *)
Inductive has_type : Value -> Ty -> Prop :=
| ty_any v : has_type v TAny
| ty_undefined : has_type VUndefined TUndefined
| ty_null : has_type VNull TNull
| ty_bool b : has_type (VBool b) TBool
| ty_true : has_type (VBool true) TTrue
| ty_false : has_type (VBool false) TFalse
| ty_number q : has_type (VNumber q) TNumber
| ty_nat q : isNat q = true -> has_type (VNumber q) TNat
| ty_string s : has_type (VString s) TString
| ty_lit s : has_type (VString s) (TLit s)
| ty_array items t : Forall (fun v => has_type v t) items -> has_type (VArray items) (TArray t)
| ty_object fields members :
    Forall (fun kt => has_type (field kt.1 (VObject fields)) kt.2) members ->
    has_type (VObject fields) (TObject members)
| ty_union_l v a b : has_type v a -> has_type v (TUnion a b)
| ty_union_r v a b : has_type v b -> has_type v (TUnion a b).

(** The checker. *)
Fixpoint check (t : Ty) (v : Value) : bool :=
  match t with
  | TAny => true
  | TUndefined => match v with VUndefined => true | _ => false end
  | TNull => match v with VNull => true | _ => false end
  | TBool => match v with VBool _ => true | _ => false end
  | TTrue => match v with VBool b => b | _ => false end
  | TFalse => match v with VBool b => negb b | _ => false end
  | TNumber => match v with VNumber _ => true | _ => false end
  | TNat => match v with VNumber q => isNat q | _ => false end
  | TString => match v with VString _ => true | _ => false end
  | TLit s => match v with VString s' => String.eqb s s' | _ => false end
  | TArray t => match v with VArray items => forallb (check t) items | _ => false end
  | TObject members =>
      match v with
      | VObject _ => forallb (fun '(k, t) => check t (field k v)) members
      | _ => false
      end
  | TUnion a b => check a v || check b v
  end.

(** ** The checker decides the typing relation *)

Lemma forallb_Forall {A} (f : A -> bool) l :
  forallb f l = true <-> Forall (fun x => f x = true) l.
Proof.
  induction l as [|x l IH]; simpl; [done|].
  rewrite andb_true_iff, IH, Forall_cons. done.
Qed.

Lemma check_sound t v : check t v = true -> has_type v t.
Proof.
  revert v. induction t as [| | | | | | | | |s|t IH|members IH|a b IHa IHb] using Ty_ind';
    intros v; simpl.
  all: try (destruct v as [| |[]| | | |]; (done || by constructor)).
  - destruct v as [| | | |s'| |]; try done. intros ->%String.eqb_eq. constructor.
  - destruct v as [| | | | |items|]; try done. intros H%forallb_Forall.
    constructor. eapply Forall_impl; [exact H|]. intros x. apply IH.
  - destruct v as [| | | | | |fields]; try done. intros H%forallb_Forall.
    constructor. rewrite Forall_forall in IH, H. apply Forall_forall.
    intros [k t] Hin. apply (IH _ Hin). exact (H _ Hin).
  - intros [H|H]%orb_true_iff; [apply ty_union_l|apply ty_union_r]; auto.
Qed.

Lemma check_complete t v : has_type v t -> check t v = true.
Proof.
  revert v. induction t as [| | | | | | | | |s|t IH|members IH|a b IHa IHb] using Ty_ind';
    intros v Hv; inversion Hv as [| | | | | | | | | |? ? Hall|? ? Hall| |]; subst; simpl;
    try done.
  - apply String.eqb_refl.
  - apply forallb_Forall. eapply Forall_impl; [exact Hall|]. intros x. apply IH.
  - apply forallb_Forall. rewrite Forall_forall in IH, Hall. apply Forall_forall.
    intros [k t] Hin. apply (IH _ Hin). exact (Hall _ Hin).
  - rewrite IHa by done. done.
  - rewrite (IHb v) by done. apply orb_true_r.
Qed.

Lemma check_has_type t v : check t v = true <-> has_type v t.
Proof. split; [apply check_sound|apply check_complete]. Qed.

#[global] Instance has_type_dec v t : Decision (has_type v t).
Proof.
  destruct (check t v) eqn:E.
  - left. by apply check_sound.
  - right. intros H%check_complete. congruence.
Defined.

(** ** Reading typed values *)

(** A member an object type constrains has the type it says. *)
Lemma has_type_field v members k t :
  has_type v (TObject members) -> In (k, t) members -> has_type (field k v) t.
Proof.
  intros Hv Hin%list_elem_of_In. inversion Hv as [| | | | | | | | | | |fields ms Hall| |]; subst.
  rewrite Forall_forall in Hall. exact (Hall (k, t) Hin).
Qed.

(** An item of a typed array has the item type. *)
Lemma has_type_items items t : has_type (VArray items) (TArray t) -> Forall (fun v => has_type v t) items.
Proof. by inversion 1. Qed.

(** A typed object can be taken apart. *)
Lemma destructure_object v members : has_type v (TObject members) -> destructure v = Ok v.
Proof. by inversion 1. Qed.

Lemma has_type_union v a b : has_type v (TUnion a b) -> has_type v a \/ has_type v b.
Proof. inversion 1; by eauto. Qed.

Lemma has_type_optional v t : has_type v (optional t) -> v = VUndefined \/ has_type v t.
Proof. inversion 1 as [| | | | | | | | | | | |? ? ? Hu|]; subst; [|by right]. inversion Hu. by left. Qed.

(** ** Conversions *)

Definition ofOption {A} (f : A -> Value) (x : option A) : Value :=
  match x with
  | Some a => f a
  | None => VUndefined
  end.

Definition ofN (n : N) : Value := VNumber (inject_Z (Z.of_N n)).
Definition ofNat (n : nat) : Value := VNumber (inject_Z (Z.of_nat n)).

Definition asString (v : Value) : option string :=
  match v with
  | VString s => Some s
  | _ => None
  end.

Definition asNumber (v : Value) : option Q :=
  match v with
  | VNumber q => Some q
  | _ => None
  end.

Definition asN (v : Value) : option N :=
  match v with
  | VNumber q => if isNat q then Some (Z.to_N (Qnum q)) else None
  | _ => None
  end.

Definition asNat (v : Value) : option nat := N.to_nat <$> asN v.

Definition asArray (v : Value) : option (list Value) :=
  match v with
  | VArray items => Some items
  | _ => None
  end.

(** An optional member: absent, or converted. *)
Definition asOptional {A} (f : Value -> option A) (v : Value) : option (option A) :=
  match v with
  | VUndefined => Some None
  | _ => Some <$> f v
  end.

Lemma isNat_inject_Z z : isNat (inject_Z z) = (0 <=? z)%Z.
Proof. reflexivity. Qed.

Lemma asN_ofN n : asN (ofN n) = Some n.
Proof.
  unfold asN, ofN. rewrite isNat_inject_Z. simpl.
  destruct (0 <=? Z.of_N n)%Z eqn:E; [by rewrite N2Z.id|]. apply Z.leb_gt in E. lia.
Qed.

Lemma asNat_ofNat n : asNat (ofNat n) = Some n.
Proof.
  unfold asNat, asN, ofNat. rewrite isNat_inject_Z. simpl.
  destruct (0 <=? Z.of_nat n)%Z eqn:E; [|apply Z.leb_gt in E; lia].
  simpl. f_equal. lia.
Qed.

Lemma has_type_ofN n : has_type (ofN n) TNat.
Proof. constructor. rewrite isNat_inject_Z. apply Z.leb_le. lia. Qed.

Lemma has_type_ofNat n : has_type (ofNat n) TNat.
Proof. constructor. rewrite isNat_inject_Z. apply Z.leb_le. lia. Qed.

Lemma has_type_ofOption {A} (f : A -> Value) t x :
  (forall a, has_type (f a) t) -> has_type (ofOption f x) (optional t).
Proof. intros H. destruct x; [apply ty_union_r, H|apply ty_union_l; constructor]. Qed.

(** What has a type can be read at that type. *)
Lemma asString_typed v : has_type v TString -> is_Some (asString v).
Proof. inversion 1. by eexists. Qed.

Lemma asString_lit v s : has_type v (TLit s) -> asString v = Some s.
Proof. by inversion 1. Qed.

Lemma asNumber_typed v : has_type v TNumber -> is_Some (asNumber v).
Proof. inversion 1. by eexists. Qed.

Lemma asN_typed v : has_type v TNat -> is_Some (asN v).
Proof. inversion 1 as [| | | | | | |q Hq| | | | | |]; subst. simpl. rewrite Hq. by eexists. Qed.

Lemma asOptional_typed {A} (f : Value -> option A) t v :
  (forall v, has_type v t -> is_Some (f v)) ->
  has_type v (optional t) -> is_Some (asOptional f v).
Proof.
  intros Hf [->|Hv]%has_type_optional; [by eexists|].
  destruct (Hf v Hv) as [a Ha]. unfold asOptional. rewrite Ha. destruct v; by eexists.
Qed.

Create HintDb wire.

#[global] Hint Resolve has_type_ofN has_type_ofNat ty_string ty_number ty_bool ty_any
  ty_undefined ty_null ty_true ty_false ty_lit : wire.
