(* ===== verification/Main.v ===== *)
(** * Main: the main process as one request handler

    Composes the handlers src/public/electron.js registers with
    [ipcMain.handle] into the function the renderer sees: a channel and
    arguments go in, a reply comes out and the main process has changed.

    - [ofFileEntry], [ofVideoInfo], [ofScreenSource], [ofMetadata],
      [ofSaveAnswer], [ofLoadAnswer] are the object literals the handlers
      return, as [Value]s; [ofMedia] and [ofClip] are the literals
      [mediaItem] and [newClip] of src/src/App_simple.js, [toMedia] and
      [toClip] read them back.
    - [bindParams] is the parameter list of each handler applied to the
      arguments of a call: it yields the [Request] the body then works on,
      or the error the parameter pattern throws.
    - [handle] runs the body: the handlers of [Probe], [Export],
      [Persistence] and [Shell] on the state [MainProcess], with what the
      dialogs, [desktopCapturer], [ffprobe] and the engine answer given by
      [Env].  [dispatch] is both; [call] puts the wrapper of [Bridge] in
      front of it.
    - [resultTy] and [paramTy] state the shape of the answer and of the
      argument of every channel.

    Theorems: every reply of every handler has the type of its channel;
    arguments of the parameter type are bound without a throw, to a request
    of the channel; the channels [bindParams] knows are the ones [Bridge]
    lists; clips and media survive the copy; a call from a window without
    Electron never reaches the main process. *)

From Stdlib Require Import QArith ZArith List String.
From stdpp Require Import base tactics option list strings gmap.
From S2P Require Import Prelude Timeline Host Probe Export Persistence Shell Bridge Wire.

(** ** Answers as values *)

(** [{ path: filePath, name: ..., size: stats.size, type: type }] *)
Definition ofFileEntry (e : FileEntry) : Value :=
  VObject [("path", VString (fe_path e)); ("name", VString (fe_name e));
           ("size", ofN (fe_size e)); ("type", VString (fe_type e))].

(** The renderer's arguments as the handler of [get-video-info] looks at
    them. *)
Definition toArg (v : Value) : Arg :=
  match v with
  | VString s => ArgString s
  | _ => ArgOther
  end.

Definition ofArg (a : Arg) : Value :=
  match a with
  | ArgString s => VString s
  | _ => VUndefined
  end.

(** [{ path, name, size, exists: true }] and [{ exists: false, error }] *)
Definition ofVideoInfo (i : VideoInfo) : Value :=
  if vi_exists i then
    VObject [("path", ofOption ofArg (vi_path i)); ("name", ofOption VString (vi_name i));
             ("size", ofOption ofN (vi_size i)); ("exists", VBool true)]
  else VObject [("exists", VBool false); ("error", ofOption VString (vi_error i))].

(** [{ id, name, thumbnail, type }] *)
Definition ofScreenSource (s : ScreenSource) : Value :=
  VObject [("id", VString (ss_id s)); ("name", VString (ss_name s));
           ("thumbnail", VString (ss_thumbnail s)); ("type", VString (ss_type s))].

(** The object [get-metadata] resolves with; [fps] is [null] without a
    frame rate. *)
Definition ofMetadata (m : Metadata Value) : Value :=
  VObject [("duration", ofOption VNumber (md_duration m)); ("size", ofOption ofN (md_size m));
           ("width", ofOption ofN (md_width m)); ("height", ofOption ofN (md_height m));
           ("fps", default VNull (md_fps m)); ("bitrate", ofOption ofN (md_bitrate m));
           ("codec", ofOption VString (md_codec m));
           ("audioCodec", ofOption VString (md_audioCodec m));
           ("audioChannels", ofOption ofN (md_audioChannels m));
           ("audioSampleRate", ofOption VString (md_audioSampleRate m))].

(** [{ success: true, path }] and [{ success: false, canceled: true }] *)
Definition ofSaveAnswer (a : SaveAnswer) : Value :=
  match a with
  | Saved path => VObject [("success", VBool true); ("path", VString path)]
  | SaveCanceled => VObject [("success", VBool false); ("canceled", VBool true)]
  end.

(** [{ success: true, data, path }] and [{ success: false, canceled: true }] *)
Definition ofLoadAnswer (a : LoadAnswer Value) : Value :=
  match a with
  | Loaded data path =>
      VObject [("success", VBool true); ("data", data); ("path", VString path)]
  | LoadCanceled => VObject [("success", VBool false); ("canceled", VBool true)]
  end.

(** ** Media and clips as values *)

(** The members of the literal [mediaItem] a handler can read.  Its [file]
    is a [File] of the page and has no [Value]; [toMedia] reads the named
    members of any object and ignores what else it holds, so the theorems
    on arguments ([dispatch_export_reads]) do not depend on its absence.
    Whether Electron delivers an argument that holds a [File] is not
    modelled. *)
Definition ofMedia (m : Media) : Value :=
  VObject [("id", ofOption VString (media_id m)); ("name", VString (media_name m));
           ("duration", ofOption VNumber (media_duration m));
           ("type", VString (media_type m)); ("size", ofN (media_size m));
           ("url", ofOption VString (media_url m)); ("path", ofOption VString (media_path m))].

(** The literal [newClip]. *)
Definition ofClip (c : Clip) : Value :=
  VObject [("id", VString (clip_id c)); ("media", ofOption ofMedia (clip_media c));
           ("startTime", VNumber (startTime c)); ("duration", VNumber (clip_duration c));
           ("endTime", VNumber (endTime c)); ("track", ofNat (track c));
           ("trimStart", VNumber (trimStart c)); ("trimEnd", VNumber (trimEnd c));
           ("name", ofOption VString (clip_name c)); ("path", ofOption VString (clip_path c))].

Definition toMedia (v : Value) : option Media :=
  id ← asOptional asString (field "id" v);
  name ← asString (field "name" v);
  duration ← asOptional asNumber (field "duration" v);
  type ← asString (field "type" v);
  size ← asN (field "size" v);
  url ← asOptional asString (field "url" v);
  path ← asOptional asString (field "path" v);
  Some (mkMedia id name duration type size url path).

Definition toClip (v : Value) : option Clip :=
  id ← asString (field "id" v);
  media ← asOptional toMedia (field "media" v);
  start ← asNumber (field "startTime" v);
  duration ← asNumber (field "duration" v);
  end_ ← asNumber (field "endTime" v);
  track ← asNat (field "track" v);
  trimStart ← asNumber (field "trimStart" v);
  trimEnd ← asNumber (field "trimEnd" v);
  name ← asOptional asString (field "name" v);
  path ← asOptional asString (field "path" v);
  Some (mkClip id media start duration end_ track trimStart trimEnd name path).

(** ** The shapes of arguments and answers *)

Definition fileEntryTy : Ty :=
  TObject [("path", TString); ("name", TString); ("size", TNat);
           ("type", TUnion (TLit "image") (TLit "video"))].

Definition videoInfoTy : Ty :=
  TUnion
    (TObject [("exists", TTrue); ("path", TString); ("name", TString); ("size", TNat)])
    (TObject [("exists", TFalse); ("error", TString)]).

Definition screenSourceTy : Ty :=
  TObject [("id", TString); ("name", TString); ("thumbnail", TString);
           ("type", TUnion (TLit "screen") (TLit "window"))].

Definition metadataTy : Ty :=
  TObject [("duration", optional TNumber); ("size", optional TNat);
           ("width", optional TNat); ("height", optional TNat); ("fps", TAny);
           ("bitrate", optional TNat); ("codec", optional TString);
           ("audioCodec", optional TString); ("audioChannels", optional TNat);
           ("audioSampleRate", optional TString)].

Definition canceledTy : Ty := TObject [("success", TFalse); ("canceled", TTrue)].

Definition saveAnswerTy : Ty :=
  TUnion (TObject [("success", TTrue); ("path", TString)]) canceledTy.

Definition loadAnswerTy : Ty :=
  TUnion (TObject [("success", TTrue); ("data", TAny); ("path", TString)]) canceledTy.

Definition mediaTy : Ty :=
  TObject [("id", optional TString); ("name", TString); ("duration", optional TNumber);
           ("type", TString); ("size", TNat); ("url", optional TString);
           ("path", optional TString)].

Definition clipTy : Ty :=
  TObject [("id", TString); ("media", optional mediaTy); ("startTime", TNumber);
           ("duration", TNumber); ("endTime", TNumber); ("track", TNat);
           ("trimStart", TNumber); ("trimEnd", TNumber); ("name", optional TString);
           ("path", optional TString)].

(** What a handler answers on a channel. *)
Definition resultTy (channel : string) : Ty :=
  if String.eqb channel "open-file-dialog" then TArray fileEntryTy
  else if String.eqb channel "get-video-info" then videoInfoTy
  else if String.eqb channel "get-screen-sources" then TArray screenSourceTy
  else if String.eqb channel "start-screen-recording"
       then TObject [("success", TTrue); ("sourceId", TAny)]
  else if String.eqb channel "extract-thumbnail" then TString
  else if String.eqb channel "get-metadata" then metadataTy
  else if String.eqb channel "trim-video" then TString
  else if String.eqb channel "export-timeline" then TString
  else if String.eqb channel "save-project" then saveAnswerTy
  else if String.eqb channel "load-project" then loadAnswerTy
  else TUndefined.

(** What the body of a handler is written for as its first argument. *)
Definition paramTy (channel : string) : Ty :=
  if String.eqb channel "extract-thumbnail"
  then TObject [("videoPath", TString); ("timestamp", optional TNumber)]
  else if String.eqb channel "trim-video"
  then TObject [("inputPath", TString); ("outputPath", TString); ("startTime", TNumber);
                ("duration", TNumber)]
  else if String.eqb channel "export-timeline"
  then TObject [("clips", TArray clipTy); ("outputPath", TString);
                ("resolution", optional TString)]
  else if String.eqb channel "controller-command" then TString
  else TAny.

(** ** Requests *)

(** A call with its parameters bound. *)
Inductive Request :=
| OpenFileDialog
| GetVideoInfo (args : list Value)
| GetScreenSources
| StartScreenRecording (sourceId : Value)
| ExtractThumbnail (videoPath timestamp : Value)
| GetMetadata (videoPath : Value)
| TrimVideo (inputPath outputPath : string) (startTime duration : Q)
| ExportTimeline (clips : list Clip) (outputPath : string) (resolution : option string)
| SaveProject (projectData : Value)
| LoadProject
| ShowController
| HideController
| CloseController
| ControllerCommand (command : string).

Definition channelOf (r : Request) : string :=
  match r with
  | OpenFileDialog => "open-file-dialog"
  | GetVideoInfo _ => "get-video-info"
  | GetScreenSources => "get-screen-sources"
  | StartScreenRecording _ => "start-screen-recording"
  | ExtractThumbnail _ _ => "extract-thumbnail"
  | GetMetadata _ => "get-metadata"
  | TrimVideo _ _ _ _ => "trim-video"
  | ExportTimeline _ _ _ => "export-timeline"
  | SaveProject _ => "save-project"
  | LoadProject => "load-project"
  | ShowController => "show-controller"
  | HideController => "hide-controller"
  | CloseController => "close-controller"
  | ControllerCommand _ => "controller-command"
  end.

(** What binding the parameters of a handler comes to. *)
Inductive Binding :=
| Bound (r : Request)
| BindThrows (e : JsError)     (** the parameter pattern throws *)
| Untyped                      (** arguments the body is not written for *)
| Unhandled.                   (** no handler on the channel *)

(** The parameter pattern [{ ... }] of a handler, then the members the body
    needs at their types. *)
Definition bindObject (v : Value) (k : Value -> option Request) : Binding :=
  match destructure v with
  | Throw e => BindThrows e
  | Ok o => from_option Bound Untyped (k o)
  end.

(** [clips] as the clips of the timeline. *)
Definition toClips (v : Value) : option (list Clip) := asArray v ≫= mapM toClip.

(** The parameter list of each handler, applied to the arguments the
    renderer sent. *)
Definition bindParams (channel : string) (args : list Value) : Binding :=
  let a := arg 0 args in
  if String.eqb channel "open-file-dialog" then Bound OpenFileDialog
  else if String.eqb channel "get-video-info" then Bound (GetVideoInfo args)
  else if String.eqb channel "get-screen-sources" then Bound GetScreenSources
  else if String.eqb channel "start-screen-recording" then Bound (StartScreenRecording a)
  else if String.eqb channel "extract-thumbnail" then
    bindObject a (fun o =>
      Some (ExtractThumbnail (field "videoPath" o) (orDefault (VNumber 1) (field "timestamp" o))))
  else if String.eqb channel "get-metadata" then Bound (GetMetadata a)
  else if String.eqb channel "trim-video" then
    bindObject a (fun o =>
      inputPath ← asString (field "inputPath" o);
      outputPath ← asString (field "outputPath" o);
      start ← asNumber (field "startTime" o);
      duration ← asNumber (field "duration" o);
      Some (TrimVideo inputPath outputPath start duration))
  else if String.eqb channel "export-timeline" then
    bindObject a (fun o =>
      clips ← toClips (field "clips" o);
      outputPath ← asString (field "outputPath" o);
      resolution ← asOptional asString (field "resolution" o);
      Some (ExportTimeline clips outputPath resolution))
  else if String.eqb channel "save-project" then Bound (SaveProject a)
  else if String.eqb channel "load-project" then Bound LoadProject
  else if String.eqb channel "show-controller" then Bound ShowController
  else if String.eqb channel "hide-controller" then Bound HideController
  else if String.eqb channel "close-controller" then Bound CloseController
  else if String.eqb channel "controller-command" then
    from_option (fun c => Bound (ControllerCommand c)) Untyped (asString a)
  else Unhandled.

(** ** The world and the main process *)

(** What the surroundings answer while a request is handled. *)
Record Env := mkEnv {
  env_now : Z;                                        (** [Date.now()] *)
  env_openDialog : OpenDialogResult;                  (** the dialog of [open-file-dialog] *)
  env_saveDialog : result JsError SaveDialogResult;
  env_loadDialog : result JsError LoadDialogResult;
  env_sources : result JsError (list DesktopSource);  (** [desktopCapturer.getSources] *)
  env_probe : result JsError ProbeData;               (** [ffprobe] *)
  env_engine : list RunEvent;                         (** what the ffmpeg command emits *)
}.

(** How the promise of [ipcRenderer.invoke] ends. *)
Inductive Reply :=
| Replied (v : Value)
| Failed (e : JsError)
| RejectedBecause (reason : string)
| Pending.

Definition ofResult (r : result JsError Value) : Reply :=
  match r with
  | Ok v => Replied v
  | Throw e => Failed e
  end.

Definition ofSettled (r : option (result JsError string)) : Reply :=
  match r with
  | Some (Ok s) => Replied (VString s)
  | Some (Throw e) => Failed e
  | None => Pending
  end.

Definition ofOutcome (o : Outcome Value) : Reply :=
  match o with
  | Resolved v => Replied v
  | Rejected e => Failed e
  | NeverSettles _ => Pending
  end.

Definition mapOutcome {A B} (f : A -> B) (o : Outcome A) : Outcome B :=
  match o with
  | Resolved a => Resolved (f a)
  | Rejected e => Rejected e
  | NeverSettles e => NeverSettles e
  end.

Section Main.
Context {F : Type} `{!FileSystem F} `{!Json Value}.
Context (basename extname toLowerCase base64 : string -> string).
Context (tempDir : string) (pathJoin : string -> string -> string).
Context (eval : string -> result JsError Value).

(** The windows and the state the handlers of media work on. *)
Record MainProcess := mkMainProcess {
  mp_shell : Shell;
  mp_main : MainState F;
}.

Definition withShell (sh : Shell) (mp : MainProcess) : MainProcess :=
  {| mp_shell := sh; mp_main := mp_main mp |}.

Definition withMainState (st : MainState F) (mp : MainProcess) : MainProcess :=
  {| mp_shell := mp_shell mp; mp_main := st |}.

(** The listeners of the screenshot command on the state of the main
    process. *)
Definition thumbnailListeners (output : string) (ev : FfmpegEvent) (st : MainState F)
    : MainState F * option (result JsError string) :=
  let '(fs', r) := thumbnailOn base64 output ev (fs st) in (withFs fs' st, r).

(** The [catch] of [get-screen-sources] writes to the console. *)
Definition logSources (answer : result JsError (list DesktopSource)) (st : MainState F)
    : MainState F :=
  match answer with
  | Ok _ => st
  | Throw _ => logLine "Main process: Error getting screen sources:" st
  end.

(** The body of the handler of a request. *)
Definition handle (r : Request) (env : Env) (mp : MainProcess) : Reply * MainProcess :=
  let st := mp_main mp in
  match r with
  | OpenFileDialog =>
      (ofResult ((fun es => VArray (ofFileEntry <$> es))
                   <$> openFileDialog basename extname toLowerCase (env_openDialog env) (fs st)),
       mp)
  | GetVideoInfo args =>
      (Replied (ofVideoInfo (invoke (getVideoInfo basename (fs st)) (toArg <$> args))), mp)
  | GetScreenSources =>
      (Replied (VArray (ofScreenSource <$> getScreenSources (env_sources env))),
       withMainState (logSources (env_sources env) st) mp)
  | StartScreenRecording sourceId =>
      let '(success, sourceId) := startScreenRecording sourceId in
      (Replied (VObject [("success", VBool success); ("sourceId", sourceId)]), mp)
  | ExtractThumbnail _ _ =>
      let output := thumbnailFile tempDir pathJoin (env_now env) in
      let '(st', r) := jobRun (thumbnailListeners output) (env_engine env) st in
      (ofSettled r, withMainState st' mp)
  | GetMetadata _ => (ofOutcome (mapOutcome ofMetadata (getMetadata eval (env_probe env))), mp)
  | TrimVideo inputPath outputPath start duration =>
      let '(st', r) := trimVideo inputPath outputPath start duration (env_engine env) st in
      (ofSettled r, withMainState st' mp)
  | ExportTimeline clips outputPath resolution =>
      let '(st', r) :=
        exportTimeline tempDir pathJoin (env_now env) clips outputPath resolution
          (env_engine env) st in
      (ofSettled r, withMainState st' mp)
  | SaveProject projectData =>
      let '(r, st') := saveProject projectData (env_saveDialog env) st in
      (ofResult (ofSaveAnswer <$> r), withMainState st' mp)
  | LoadProject =>
      let '(r, st') := loadProject (env_loadDialog env) st in
      (ofResult (ofLoadAnswer <$> r), withMainState st' mp)
  | ShowController => (Replied VUndefined, withShell (showController (mp_shell mp)) mp)
  | HideController => (Replied VUndefined, withShell (hideController (mp_shell mp)) mp)
  | CloseController => (Replied VUndefined, withShell (closeController (mp_shell mp)) mp)
  | ControllerCommand command =>
      (Replied VUndefined, withShell (controllerCommand command (mp_shell mp)) mp)
  end.

(** [ipcMain] receives an invocation: the handler of the channel is called
    with the arguments; without a handler the call is rejected. *)
Definition dispatch (channel : string) (args : list Value) (env : Env) (mp : MainProcess)
    : option (Reply * MainProcess) :=
  match bindParams channel args with
  | Bound r => Some (handle r env mp)
  | BindThrows e => Some (Failed e, mp)
  | Unhandled => Some (RejectedBecause ("No handler registered for '" +:+ channel +:+ "'"), mp)
  | Untyped => None
  end.

(** A call of a method of the wrapper [electronAPI] in window [w]. *)
Definition call (w : Window) (name : string) (args : list Value) (env : Env)
    (mp : MainProcess) : option (Reply * MainProcess) :=
  match request w name with
  | Some (Does (Invoke channel)) => dispatch channel args env mp
  | Some (RejectedWith reason) => Some (RejectedBecause reason, mp)
  | Some (Does _) | Some Nothing => Some (Replied VUndefined, mp)
  | Some NotAFunction =>
      Some (Failed (TypeError ("window.electronAPI." +:+ name +:+ " is not a function")), mp)
  | None => Some (Failed (TypeError ("electronAPI." +:+ name +:+ " is not a function")), mp)
  end.

End Main.

Arguments MainProcess F : clear implicits.
Arguments mkMainProcess {F} mp_shell mp_main.
Arguments mp_shell {F} m.
Arguments mp_main {F} m.

(** ** Clips and media survive the copy *)

Lemma asOptional_ofOption {A} (f : Value -> option A) (g : A -> Value) x :
  (forall a, f (g a) = Some a) -> (forall a, g a <> VUndefined) ->
  asOptional f (ofOption g x) = Some x.
Proof.
  intros Hfg Hg. destruct x as [a|]; simpl; [|done]. unfold asOptional. rewrite Hfg.
  specialize (Hg a). by destruct (g a).
Qed.

Lemma asOptional_string x : asOptional asString (ofOption VString x) = Some x.
Proof. by apply asOptional_ofOption. Qed.

Lemma asOptional_number x : asOptional asNumber (ofOption VNumber x) = Some x.
Proof. by apply asOptional_ofOption. Qed.

Lemma toMedia_ofMedia m : toMedia (ofMedia m) = Some m.
Proof.
  destruct m. unfold toMedia, ofMedia. cbn -[asOptional ofOption asN ofN asNat ofNat toMedia ofMedia].
  rewrite !asOptional_string, asOptional_number, asN_ofN. done.
Qed.

Lemma toClip_ofClip c : toClip (ofClip c) = Some c.
Proof.
  destruct c. unfold toClip, ofClip. cbn -[asOptional ofOption asN ofN asNat ofNat toMedia ofMedia].
  rewrite !asOptional_string, asNat_ofNat.
  rewrite (asOptional_ofOption toMedia ofMedia) by (done || apply toMedia_ofMedia). done.
Qed.

(** The clips the renderer sends are the clips the handler works on. *)
Lemma toClips_ofClips clips : toClips (VArray (ofClip <$> clips)) = Some clips.
Proof.
  unfold toClips. simpl. apply mapM_Some. induction clips; constructor; [|done].
  apply toClip_ofClip.
Qed.

(** ** Typed values can be read *)

#[local] Hint Resolve ty_union_l ty_union_r : wire.

(** The member [k] of a value of an object type, at its type. *)
Ltac member H k t :=
  let Hm := fresh "Hm" in
  pose proof (has_type_field _ _ k t H ltac:(simpl; tauto)) as Hm.

(** Rewrites the reads of members whose type is known. *)
Ltac read_members :=
  repeat match goal with
    | H : has_type ?v TString |- _ => apply asString_typed in H as [? ->]
    | H : has_type ?v TNumber |- _ => apply asNumber_typed in H as [? ->]
    | H : has_type ?v TNat |- _ =>
        first [apply asN_typed in H as [? ->]
              |let H' := fresh in
               pose proof (asN_typed _ H) as [? H']; unfold asNat; rewrite H'; clear H H']
    | H : has_type ?v (optional TString) |- _ =>
        apply (asOptional_typed asString _ _ asString_typed) in H as [? ->]
    | H : has_type ?v (optional TNumber) |- _ =>
        apply (asOptional_typed asNumber _ _ asNumber_typed) in H as [? ->]
    end; simpl.

Lemma toMedia_typed v : has_type v mediaTy -> is_Some (toMedia v).
Proof.
  intros H. member H "id" (optional TString). member H "name" TString.
  member H "duration" (optional TNumber). member H "type" TString. member H "size" TNat.
  member H "url" (optional TString). member H "path" (optional TString).
  unfold toMedia. read_members. by eexists.
Qed.

Lemma toClip_typed v : has_type v clipTy -> is_Some (toClip v).
Proof.
  intros H. member H "id" TString. member H "media" (optional mediaTy).
  member H "startTime" TNumber. member H "duration" TNumber. member H "endTime" TNumber.
  member H "track" TNat. member H "trimStart" TNumber. member H "trimEnd" TNumber.
  member H "name" (optional TString). member H "path" (optional TString).
  apply (asOptional_typed toMedia _ _ toMedia_typed) in Hm0 as [? Hmedia].
  unfold toClip. rewrite Hmedia. read_members. by eexists.
Qed.

Lemma toClips_typed v : has_type v (TArray clipTy) -> is_Some (toClips v).
Proof.
  inversion 1 as [| | | | | | | | | |items ? Hall| | |]; subst. unfold toClips. simpl.
  apply mapM_is_Some. eapply Forall_impl; [exact Hall|]. intros x. apply toClip_typed.
Qed.

(** What the renderer builds has the types the handlers are written for. *)
Lemma ofMedia_typed m : has_type (ofMedia m) mediaTy.
Proof.
  destruct m as [[?|] ? [?|] ? ? [?|] [?|]];
    apply ty_object; repeat (apply Forall_cons_2 || apply Forall_nil_2); simpl;
    eauto with wire.
Qed.

Lemma ofClip_typed c : has_type (ofClip c) clipTy.
Proof.
  destruct c as [? media ? ? ? ? ? ? [?|] [?|]];
    apply ty_object; repeat (apply Forall_cons_2 || apply Forall_nil_2); simpl;
    eauto with wire.
  all: destruct media; simpl; eauto using ofMedia_typed with wire.
Qed.

(** ** Binding the parameters *)

(** Case analysis on the channel, in the order of [bindParams]. *)
Ltac channel_cases channel :=
  repeat match goal with
    | |- context [String.eqb channel ?s] =>
        destruct (String.eqb_spec channel s) as [->|?]; simpl
    | H : context [String.eqb channel ?s] |- _ =>
        destruct (String.eqb_spec channel s) as [->|?]; simpl in H
    end.

Lemma bindObject_Bound v k r :
  bindObject v k = Bound r -> exists o, destructure v = Ok o /\ k o = Some r.
Proof.
  unfold bindObject. destruct (destructure v) as [o|e]; [|done].
  destruct (k o) as [r'|] eqn:Hk; [|done]. intros [= <-]. eauto.
Qed.

Lemma bindObject_handled v k : bindObject v k <> Unhandled.
Proof. unfold bindObject. destruct (destructure v) as [o|e]; [|done]. by destruct (k o). Qed.

(** A bound request is a request of the channel. *)
Lemma bindParams_channel channel args r :
  bindParams channel args = Bound r -> channelOf r = channel.
Proof.
  unfold bindParams. intros H. channel_cases channel; try by simplify_eq.
  all: try (apply bindObject_Bound in H as (o & _ & H); by simplify_option_eq).
  destruct (asString (arg 0 args)); simpl in H; by simplify_eq.
Qed.

(** [bindParams] knows exactly the channels with a handler. *)
Theorem bindParams_handled channel args :
  bindParams channel args = Unhandled <-> channel ∉ handled.
Proof.
  split.
  - intros H Hin%list_elem_of_In. simpl in Hin.
    repeat (destruct Hin as [<-|Hin]; [cbv beta iota delta [bindParams] in H; simpl in H;
      try done; try (by apply bindObject_handled in H)|]); [|done].
    by destruct (asString (arg 0 args)).
  - intros Hout. assert (forall s, In s handled -> String.eqb channel s = false) as Hne.
    { intros s Hs. apply String.eqb_neq. intros ->. by apply Hout, list_elem_of_In. }
    unfold bindParams. by rewrite !Hne by (simpl; tauto).
Qed.

(** Arguments of the parameter type are bound, to a request of the
    channel: the parameter pattern does not throw and the body finds every
    member it reads. *)
Theorem bindParams_typed channel args :
  channel ∈ handled -> has_type (arg 0 args) (paramTy channel) ->
  exists r, bindParams channel args = Bound r /\ channelOf r = channel.
Proof.
  intros Hin%list_elem_of_In Hty.
  assert (exists r, bindParams channel args = Bound r) as [r Hr]; [|by eauto using bindParams_channel].
  simpl in Hin.
  repeat (destruct Hin as [<-|Hin]; [cbv beta iota delta [bindParams paramTy] in *; simpl in *;
    try (by eexists)|]); [| | | |done].
  - unfold bindObject. rewrite (destructure_object _ _ Hty). by eexists.
  - unfold bindObject. rewrite (destructure_object _ _ Hty). simpl.
    member Hty "inputPath" TString. member Hty "outputPath" TString.
    member Hty "startTime" TNumber. member Hty "duration" TNumber.
    read_members. by eexists.
  - unfold bindObject. rewrite (destructure_object _ _ Hty). simpl.
    member Hty "clips" (TArray clipTy). member Hty "outputPath" TString.
    member Hty "resolution" (optional TString).
    apply toClips_typed in Hm as [clips ->]. read_members. by eexists.
  - read_members. by eexists.
Qed.

(** ** Every reply has the type of its channel *)

Lemma mapR_Forall {E A B} (f : A -> result E B) (P : B -> Prop) xs ys :
  (forall x y, f x = Ok y -> P y) -> mapR f xs = Ok ys -> Forall P ys.
Proof.
  intros Hf. revert ys. induction xs as [|x xs IH]; simpl; intros ys.
  - intros [= <-]. constructor.
  - destruct (f x) as [y|e] eqn:Hx; [simpl|done].
    destruct (mapR f xs) as [ys'|e]; [simpl|done]. intros [= <-]. constructor; eauto.
Qed.

Lemma ofResult_Replied r v : ofResult r = Replied v -> r = Ok v.
Proof. destruct r; simpl; congruence. Qed.

Lemma ofSettled_typed r v : ofSettled r = Replied v -> has_type v TString.
Proof. destruct r as [[s|e]|]; simpl; intros [= <-]. constructor. Qed.

(** Builds the typing of an object literal member by member. *)
Ltac typed_object :=
  apply ty_object; repeat (apply Forall_cons_2 || apply Forall_nil_2); simpl;
  eauto using has_type_ofOption with wire.

Lemma ofMetadata_typed m : has_type (ofMetadata m) metadataTy.
Proof. unfold metadataTy. typed_object. Qed.

Lemma ofSaveAnswer_typed a : has_type (ofSaveAnswer a) saveAnswerTy.
Proof. destruct a; [apply ty_union_l|apply ty_union_r]; typed_object. Qed.

Lemma ofLoadAnswer_typed a : has_type (ofLoadAnswer a) loadAnswerTy.
Proof. destruct a; [apply ty_union_l|apply ty_union_r]; typed_object. Qed.

Lemma ofScreenSource_typed s : has_type (ofScreenSource (mappedSource s)) screenSourceTy.
Proof. unfold mappedSource. typed_object. destruct (String.prefix _ _); eauto with wire. Qed.

Section Typed.
Context {F : Type} `{!FileSystem F} `{!Json Value}.
Context (basename extname toLowerCase base64 : string -> string).
Context (tempDir : string) (pathJoin : string -> string -> string).
Context (eval : string -> result JsError Value).

#[local] Abbreviation handle := (handle basename extname toLowerCase base64 tempDir pathJoin eval).
#[local] Abbreviation dispatch :=
  (dispatch basename extname toLowerCase base64 tempDir pathJoin eval).
#[local] Abbreviation call := (call basename extname toLowerCase base64 tempDir pathJoin eval).

Lemma fileEntry_typed (fs : F) p e :
  fileEntry basename extname toLowerCase fs p = Ok e -> has_type (ofFileEntry e) fileEntryTy.
Proof.
  unfold fileEntry. destruct (statSync p fs); [simpl|done]. intros [= <-].
  unfold fileType. typed_object. case_bool_decide; eauto with wire.
Qed.

Lemma openFileDialog_typed answer (fs : F) es :
  openFileDialog basename extname toLowerCase answer fs = Ok es ->
  has_type (VArray (ofFileEntry <$> es)) (TArray fileEntryTy).
Proof.
  unfold openFileDialog. intros H. constructor. apply Forall_fmap.
  destruct (_ && _); [|injection H as <-; constructor].
  eapply mapR_Forall; [|exact H]. apply fileEntry_typed.
Qed.

(** The answer of [get-video-info] for what its parameter is bound to. *)
Lemma videoInfo_typed a (fs : F) : has_type (ofVideoInfo (videoInfo basename a fs)) videoInfoTy.
Proof.
  unfold videoInfo, ofVideoInfo. destruct a as [|p|]; simpl; try (apply ty_union_r; typed_object).
  destruct (statSync p fs); simpl; [apply ty_union_l|apply ty_union_r]; typed_object.
Qed.

(** Every handler answers in the shape of its channel: whatever the
    request, the files, the dialogs, the capturer, [ffprobe] and the engine
    do, a reply that arrives has the type [resultTy] gives the channel. *)
Lemma handle_typed r env (mp mp' : MainProcess F) v :
  handle r env mp = (Replied v, mp') -> has_type v (resultTy (channelOf r)).
Proof.
  destruct r; simpl.
  - intros [= H%ofResult_Replied _]. apply result_fmap_Ok in H as (es & Hes & ->).
    by eapply openFileDialog_typed.
  - intros [= <- _]. apply videoInfo_typed.
  - intros [= <- _]. constructor. apply Forall_fmap. destruct (env_sources env); simpl; [|constructor].
    apply Forall_fmap, Forall_forall. intros s _. apply ofScreenSource_typed.
  - intros [= <- _]. typed_object.
  - destruct (jobRun _ _ _) as [st' r]. intros [= H _]. by eapply ofSettled_typed.
  - intros [= H _]. destruct (getMetadata eval (env_probe env)); simplify_eq/=.
    apply ofMetadata_typed.
  - destruct (trimVideo _ _ _ _ _ _) as [st' r]. intros [= H _]. by eapply ofSettled_typed.
  - destruct (exportTimeline _ _ _ _ _ _ _ _) as [st' r]. intros [= H _]. by eapply ofSettled_typed.
  - destruct (saveProject _ _ _) as [[a|e] st']; intros [= <- _]. apply ofSaveAnswer_typed.
  - destruct (loadProject _ _) as [[a|e] st']; intros [= <- _]. apply ofLoadAnswer_typed.
  - intros [= <- _]. constructor.
  - intros [= <- _]. constructor.
  - intros [= <- _]. constructor.
  - intros [= <- _]. constructor.
Qed.

(** ** Requests from end to end *)

(** C7. The interface is typed: a call on a handled channel whose argument
    has the parameter type of the channel reaches the body of the handler
    (no parameter pattern throws, no member the body reads is missing), and
    the reply, when one arrives, has the result type of the channel. *)
Theorem dispatch_typed channel args env (mp : MainProcess F) :
  channel ∈ handled -> has_type (arg 0 args) (paramTy channel) ->
  exists reply mp',
    dispatch channel args env mp = Some (reply, mp') /\
    forall v, reply = Replied v -> has_type v (resultTy channel).
Proof.
  intros Hin Hty. destruct (bindParams_typed _ _ Hin Hty) as (r & Hr & Hch).
  unfold dispatch, Main.dispatch. rewrite Hr.
  destruct (handle r env mp) as [reply mp'] eqn:Hh.
  exists reply, mp'. split; [done|]. intros v ->. rewrite <- Hch. by eapply handle_typed.
Qed.

(** C29. The three handlers that take their parameter apart reject a call
    without an argument, or with [null], before their body runs: nothing is
    written, nothing is logged, no window changes. *)
Theorem dispatch_without_options channel args env (mp : MainProcess F) :
  channel ∈ ["extract-thumbnail"; "trim-video"; "export-timeline"] ->
  nullish (arg 0 args) = true ->
  dispatch channel args env mp
  = Some (Failed (TypeError "Cannot destructure property of undefined"), mp).
Proof.
  intros Hin Hnull. unfold dispatch, Main.dispatch.
  assert (bindParams channel args
          = BindThrows (TypeError "Cannot destructure property of undefined")) as ->; [|done].
  apply list_elem_of_In in Hin. simpl in Hin.
  destruct Hin as [<-|[<-|[<-|[]]]]; cbv beta iota delta [bindParams]; simpl;
    unfold bindObject, destructure; by rewrite Hnull.
Qed.

(** The handler of [get-video-info] answers [exists: false] to every
    call. *)
Theorem dispatch_getVideoInfo args env (mp : MainProcess F) :
  dispatch "get-video-info" args env mp
  = Some (Replied (VObject [("exists", VBool false);
                            ("error", VString "path must be a string")]), mp).
Proof. reflexivity. Qed.

(** Whatever object the renderer sends, [exportTimeline] runs on the members
    its parameter pattern takes from it; what else the object holds is not
    read. *)
Lemma dispatch_export_reads opts clips outputPath resolution env (mp : MainProcess F) :
  toClips (field "clips" opts) = Some clips ->
  asString (field "outputPath" opts) = Some outputPath ->
  asOptional asString (field "resolution" opts) = Some resolution ->
  dispatch "export-timeline" [opts] env mp
  = Some (handle (ExportTimeline clips outputPath resolution) env mp).
Proof.
  intros Hc Ho Hr. unfold dispatch, Main.dispatch. cbv beta iota delta [bindParams].
  change (arg 0 [opts]) with opts. cbn [String.eqb Ascii.eqb Bool.eqb].
  unfold bindObject. destruct opts; try done.
  cbn [destructure nullish]. by rewrite Hc, Ho, Hr.
Qed.

(** The clips of the renderer reach [exportTimeline] as they are. *)
Lemma dispatch_export clips outputPath env (mp : MainProcess F) :
  dispatch "export-timeline"
    [VObject [("clips", VArray (ofClip <$> clips)); ("outputPath", VString outputPath)]] env mp
  = Some (handle (ExportTimeline clips outputPath None) env mp).
Proof. apply dispatch_export_reads; [|done..]. cbn. apply toClips_ofClips. Qed.

(** A project saved through the bridge and loaded again is the project that
    was sent. *)
Theorem dispatch_save_load data p rest env env' (mp mp1 : MainProcess F) reply :
  readsBack data ->
  env_loadDialog env' = Ok (mkLoadDialogResult false (p :: rest)) ->
  dispatch "save-project" [data] env mp = Some (Replied reply, mp1) ->
  reply = ofSaveAnswer (Saved p) ->
  dispatch "load-project" [] env' mp1 = Some (Replied (ofLoadAnswer (Loaded data p)), mp1).
Proof.
  intros Hback Hl. unfold dispatch, Main.dispatch. simpl. change (arg 0 [data]) with data.
  destruct (saveProject data (env_saveDialog env) (mp_main mp)) as [[a|e] st1] eqn:Hs;
    simpl; [|done].
  intros [= <- <-] Heq. destruct a as [q|]; simpl in Heq; simplify_eq. rewrite Hl.
  by rewrite (save_load_roundtrip _ _ _ _ _ _ Hback Hs).
Qed.

(** ** The windows and the files do not interfere *)

(** A request changes the windows by a step of [Shell] or not at all, and
    then only the windows. *)
Lemma handle_shell r env (mp mp' : MainProcess F) reply :
  handle r env mp = (reply, mp') ->
  mp_shell mp' = mp_shell mp \/
  (mp_main mp' = mp_main mp /\
   exists ev, shell_step (mp_shell mp) ev = Some (mp_shell mp') /\
              (running (mp_shell mp) = true -> shell_enabled (mp_shell mp) ev)).
Proof.
  destruct r; simpl; try (intros [= _ <-]; by left).
  - destruct (jobRun _ _ _). intros [= _ <-]. by left.
  - destruct (trimVideo _ _ _ _ _ _). intros [= _ <-]. by left.
  - destruct (exportTimeline _ _ _ _ _ _ _ _). intros [= _ <-]. by left.
  - destruct (saveProject _ _ _). intros [= _ <-]. by left.
  - destruct (loadProject _ _). intros [= _ <-]. by left.
  - intros [= _ <-]. right. split; [done|]. by exists Shell.ShowController.
  - intros [= _ <-]. right. split; [done|]. by exists Shell.HideController.
  - intros [= _ <-]. right. split; [done|]. by exists Shell.CloseController.
  - intros [= _ <-]. right. split; [done|]. by exists (Shell.ControllerCommand command).
Qed.

(** Whatever the renderer asks for while the application runs, the windows
    stay in a reachable state of [Shell]. *)
Theorem dispatch_reachable isDarwin channel args env (mp mp' : MainProcess F) reply :
  shell_reachable isDarwin (mp_shell mp) -> running (mp_shell mp) = true ->
  dispatch channel args env mp = Some (reply, mp') ->
  shell_reachable isDarwin (mp_shell mp').
Proof.
  intros Hreach Hrun. unfold dispatch, Main.dispatch.
  destruct (bindParams channel args) as [r|e| |]; [|by intros [= _ <-]|done|by intros [= _ <-]].
  intros [= [->|(_ & ev & Hstep & Hen)]%handle_shell]; [done|].
  eapply reach_step; [done|by apply Hen|done].
Qed.

(** ** Calls through the wrapper *)

(** Without Electron no call reaches the main process. *)
Theorem call_outside_electron w name m args env (mp : MainProcess F) :
  List.find (fun m => String.eqb (wr_name m) name) electronAPI = Some m ->
  isElectron w && hasObject w (wr_object m) = false ->
  call w name args env mp
  = Some (if wr_returns m then RejectedBecause "Not running in Electron"
          else Replied VUndefined, mp).
Proof.
  intros Hf Hg. unfold call, Main.call, request. rewrite Hf. simpl.
  unfold callWrapped. rewrite Hg. by destruct (wr_returns m).
Qed.

(** In the window the preload script set up, a method of the wrapper that
    returns a promise is the handler of its channel. *)
Theorem call_in_electron w name m args env (mp : MainProcess F) :
  List.find (fun m => String.eqb (wr_name m) name) electronAPI = Some m ->
  wr_returns m = true -> hasElectronAPI w = true -> hasFfmpeg w = true ->
  exists channel,
    channel ∈ handled /\ call w name args env mp = dispatch channel args env mp.
Proof.
  intros Hf Hret Hapi Hff. unfold call, Main.call, request. rewrite Hf. simpl.
  unfold callWrapped, isElectron. rewrite Hapi, orb_true_r. simpl.
  assert (hasObject w (wr_object m) = true) as -> by (destruct (wr_object m); simpl; done).
  apply find_some in Hf as [Hin _]. simpl in Hin.
  repeat (destruct Hin as [<-|Hin]; [simpl in Hret; first [discriminate Hret|eexists; split;
    [|reflexivity]; apply list_elem_of_In; simpl; tauto]|]); done.
Qed.

End Typed.

(** ** Worked runs *)

(** A stand-in for [JSON] on projects that are a text: the text is its own
    print.  [undefined] has no print, and neither it nor [null] has a
    [name]; a name that is absent prints as [undefined]. *)
#[global] Instance doc_json : Json Value := {|
  stringify v :=
    match v with
    | VUndefined => Ok None
    | _ => Ok (Some (default "" (asString v)))
    end;
  parse s := Ok (VString s);
  nameText v :=
    match v with
    | VUndefined => Throw (TypeError "Cannot read properties of undefined (reading 'name')")
    | VNull => Throw (TypeError "Cannot read properties of null (reading 'name')")
    | _ => Ok (default "undefined" (asString (field "name" v)))
    end;
|}.

(** The handlers on the disk model, with POSIX paths. *)
Definition dispatch0 :=
  dispatch posixBasename posixExtname asciiLowerCase (fun s => s) "/tmp" posixJoin
    (fun rate => VNumber <$> ratioOnly rate).

Definition call0 :=
  call posixBasename posixExtname asciiLowerCase (fun s => s) "/tmp" posixJoin
    (fun rate => VNumber <$> ratioOnly rate).

(** The main window is up, the media files are on the disk. *)
Definition mainProcess0 : MainProcess Disk :=
  mkMainProcess (shellOf [Ready; ReadyToShow]) (mainOf mediaDisk).

(** The user picks the first video and the project file, the screen is the
    only source, the engine reports half way and ends. *)
Definition env0 : Env :=
  {| env_now := 1700000000000;
     env_openDialog := mkOpenDialogResult false ["/media/Intro.MP4"];
     env_saveDialog := Ok (mkSaveDialogResult false (Some "/p/a.clipforge"));
     env_loadDialog := Ok (mkLoadDialogResult false ["/p/a.clipforge"]);
     env_sources := Ok [mkDesktopSource "screen:0" "Entire Screen" "data:image/png;base64,"];
     env_probe := Ok (probeOf [audioStream; videoStream "25/1"]);
     env_engine := [Engine (FfProgress (Some 50)); Engine FfEnd] |}.

Definition trimOptions : Value :=
  VObject [("inputPath", VString "/media/Intro.MP4"); ("outputPath", VString "/out/a.mp4");
           ("startTime", VNumber 1); ("duration", VNumber 2)].

Lemma dispatch_typed_witness :
  exists reply mp',
    dispatch0 "trim-video" [trimOptions] env0 mainProcess0 = Some (reply, mp') /\
    forall v, reply = Replied v -> has_type v (resultTy "trim-video").
Proof.
  apply (dispatch_typed posixBasename posixExtname asciiLowerCase (fun s => s) "/tmp" posixJoin
           (fun rate => VNumber <$> ratioOnly rate) "trim-video" [trimOptions] env0 mainProcess0).
  - apply list_elem_of_In. simpl. tauto.
  - apply check_sound. reflexivity.
Defined.

Lemma dispatch_without_options_witness :
  dispatch0 "export-timeline" [] env0 mainProcess0
  = Some (Failed (TypeError "Cannot destructure property of undefined"), mainProcess0).
Proof.
  apply (dispatch_without_options posixBasename posixExtname asciiLowerCase (fun s => s) "/tmp"
           posixJoin (fun rate => VNumber <$> ratioOnly rate) "export-timeline" [] env0
           mainProcess0); [|reflexivity].
  apply list_elem_of_In. simpl. tauto.
Defined.

Lemma dispatch_reachable_witness :
  shell_reachable false
    (mp_shell (default mainProcess0
                 (snd <$> dispatch0 "show-controller" [] env0 mainProcess0))).
Proof.
  destruct (dispatch0 "show-controller" [] env0 mainProcess0) as [[reply mp']|] eqn:Hd;
    [simpl|discriminate Hd].
  apply (dispatch_reachable posixBasename posixExtname asciiLowerCase (fun s => s) "/tmp"
           posixJoin (fun rate => VNumber <$> ratioOnly rate) false "show-controller" [] env0
           mainProcess0 mp' reply); [|reflexivity|exact Hd].
  apply shellOf_reachable, (bool_decide_unpack _). by vm_compute.
Defined.

Lemma call_outside_electron_witness :
  call0 browserTab "saveProject" [VString "{}"] env0 mainProcess0
  = Some (RejectedBecause "Not running in Electron", mainProcess0).
Proof.
  apply (call_outside_electron posixBasename posixExtname asciiLowerCase (fun s => s) "/tmp"
           posixJoin (fun rate => VNumber <$> ratioOnly rate) browserTab "saveProject"
           (mkWrapped "saveProject" ElectronAPI "saveProject" true)); reflexivity.
Defined.

(** What the renderer gets on each channel. *)
Example scenario_replies :
  (fst <$> dispatch0 "open-file-dialog" [] env0 mainProcess0)
  = Some (Replied (VArray [VObject [("path", VString "/media/Intro.MP4");
                                    ("name", VString "Intro.MP4"); ("size", VNumber 10);
                                    ("type", VString "video")]])) /\
  (fst <$> dispatch0 "get-video-info" [VString "/media/Intro.MP4"] env0 mainProcess0)
  = Some (Replied (VObject [("exists", VBool false);
                            ("error", VString "path must be a string")])) /\
  (fst <$> dispatch0 "get-screen-sources" [] env0 mainProcess0)
  = Some (Replied (VArray [VObject [("id", VString "screen:0");
                                    ("name", VString "Entire Screen");
                                    ("thumbnail", VString "data:image/png;base64,");
                                    ("type", VString "screen")]])) /\
  (fst <$> dispatch0 "trim-video" [trimOptions] env0 mainProcess0)
  = Some (Replied (VString "/out/a.mp4")) /\
  (fst <$> dispatch0 "extract-thumbnail" [VObject [("videoPath", VString "/media/Intro.MP4")]]
             env0 mainProcess0)
  = Some (Failed (SystemError "ENOENT" "/tmp/thumb_1700000000000.jpg")) /\
  (fst <$> dispatch0 "delete-everything" [] env0 mainProcess0)
  = Some (RejectedBecause "No handler registered for 'delete-everything'").
Proof. by vm_compute. Qed.

(** Arguments of other types are outside what the bodies are written
    for. *)
Example scenario_untyped :
  dispatch0 "trim-video" [VObject [("inputPath", VNumber 1)]] env0 mainProcess0 = None /\
  dispatch0 "controller-command" [VNumber 1] env0 mainProcess0 = None /\
  bindParams "extract-thumbnail" [VString "x.mp4"]
  = Bound (ExtractThumbnail VUndefined (VNumber 1)).
Proof. by vm_compute. Qed.

(** Saving a text through the bridge, then loading it. *)
Example scenario_save_load :
  match call0 electronWindow "saveProject" [VString "{}"] env0 mainProcess0 with
  | Some (Replied v, mp1) =>
      v = VObject [("success", VBool true); ("path", VString "/p/a.clipforge")] /\
      (fst <$> call0 electronWindow "loadProject" [] env0 mp1)
      = Some (Replied (VObject [("success", VBool true); ("data", VString "{}");
                                ("path", VString "/p/a.clipforge")]))
  | _ => False
  end.
Proof. by vm_compute. Qed.
