(* ===== verification/System.v ===== *)
(** * System: the renderer and the main process together

    The two processes meet in two places, and this file follows a value
    across each.

    - The timeline of [App] and [export-timeline].  The clips the user
      builds in the views ([panel_step] of [Views]) are made from media
      objects of [handleVideoImport], which carry an object URL and no
      [path]; the handler of [Export] reads [clip.media?.path || clip.path].
      [pathless] is the invariant of the views; the theorem is that no
      timeline the user can build is accepted by the export handler.  The
      sources have no caller of [export-timeline], so the theorem is
      stated for every argument object from which the handler reads the
      clips of the views, whatever else the object holds.
    - The source list of [ScreenRecorder] and [get-screen-sources].
      [loadSources] is the effect [ScreenRecorder] runs when it mounts
      ([loadScreenSources] of src/src/components/ScreenRecorder.js): the
      call through the wrapper of [Bridge], the handler of [Probe], the
      copy back, and the event of [Capture] it ends in.  The theorems are
      that the selector lists the sources of [desktopCapturer], in order and
      with their kinds, and that a failure of [desktopCapturer] leaves the
      user without a source, without a message, and without any way to
      start a recording. *)

From Stdlib Require Import QArith ZArith List String.
From stdpp Require Import base tactics option list strings gmap sets.
From S2P Require Import Prelude Timeline Host Probe Export Persistence Shell Bridge Capture Views Wire Main.

(** ** The timeline of the views has no paths *)

Definition noPath (m : Media) : Prop := media_path m = None.

(** No media of the library and no clip of the timeline names a file. *)
Definition pathless (st : AppState) : Prop :=
  Forall noPath (importedMedia st) /\
  Forall (fun c => clipFilePath c = None) (timelineClips st).

(** The media an event brings in, if it brings one. *)
Definition brings (ev : AppEvent) : option Media :=
  match ev with
  | VideoImported media => Some media
  | _ => None
  end.

Lemma newClip_noPath now media last : noPath media -> clipFilePath (newClip now media last) = None.
Proof. unfold noPath, clipFilePath. simpl. by intros ->. Qed.

Lemma clipMediaId_filter_pathless mediaId clips :
  Forall (fun c => clipFilePath c = None) clips ->
  Forall (fun c => clipFilePath c = None) (filter (fun c => clipMediaId c <> mediaId) clips).
Proof. apply Forall_filter. Qed.

(** Every handler of [App] keeps the state without paths when the media it
    is given has none. *)
Lemma app_step_pathless st ev st' :
  pathless st -> app_enabled st ev -> from_option noPath True (brings ev) ->
  app_step st ev = Some st' -> pathless st'.
Proof.
  intros [Hm Hc] Hen Hev Hstep. destruct ev; simpl in *; simplify_eq.
  - split; [by rewrite handleAddToTimeline_media|].
    rewrite handleAddToTimeline_clips. apply Forall_app. split; [done|].
    constructor; [|done]. apply newClip_noPath. rewrite Forall_forall in Hm. by apply Hm.
  - split; [|done]. simpl. apply Forall_app. by split; [|constructor].
  - split; [by apply Forall_filter|by apply clipMediaId_filter_pathless].
  - unfold handleMediaReorder in Hstep.
    destruct (reorder fromIndex toIndex (importedMedia st)) as [l|] eqn:Hr; [|done].
    simplify_eq. split; [|done]. simpl. by rewrite (reorder_perm _ _ _ _ Hr).
  - done.
  - done.
  - done.
Qed.

(** What the views raise has no path. *)
Lemma raised_noPath p ev aev :
  raised p ev = Some aev -> from_option noPath True (brings aev).
Proof.
  destruct ev; simpl; try done; intros H; simplify_option_eq; try done.
  destruct H0 as [file url]. by simplify_eq.
Qed.

Lemma panel_reachable_pathless p : panel_reachable p -> pathless (panelApp p).
Proof.
  apply (reachable_invariant _ _ _ (fun p => pathless (panelApp p))).
  - by split; constructor.
  - intros p0 ev p1 Hp Hen Hstep. pose proof (panel_step_app p0 ev p1 Hen Hstep) as H.
    destruct (raised p0 ev) as [aev|] eqn:Hr; [|by rewrite H].
    destruct H as [Ha Hs]. eapply app_step_pathless; [done..| |done].
    by eapply raised_noPath.
Qed.

(** ** Exporting the timeline of the views *)

(** An argument for [export-timeline] that carries the clips of a timeline
    and nothing but the members the handler reads.  The renderer has no
    call of [exportTimeline]; the theorems below are stated for every
    argument and use this one in their worked runs. *)
Definition exportOptions (clips : list Clip) (outputPath : string) : Value :=
  VObject [("clips", VArray (ofClip <$> clips)); ("outputPath", VString outputPath)].

(** [opts] is an argument of [export-timeline] from which the handler reads
    [clips]: its parameter pattern finds the clips in the member [clips],
    a text in [outputPath] and a text or nothing in [resolution].  What
    else [opts] and its clips hold is not read. *)
Definition carries (opts : Value) (clips : list Clip) : Prop :=
  toClips (field "clips" opts) = Some clips /\
  is_Some (asString (field "outputPath" opts)) /\
  is_Some (asOptional asString (field "resolution" opts)).

Lemma exportOptions_carries clips outputPath : carries (exportOptions clips outputPath) clips.
Proof.
  split; [|by split; eexists]. unfold exportOptions.
  cbn [field assoc String.eqb Ascii.eqb Bool.eqb default from_option]. apply toClips_ofClips.
Qed.

Lemma concatContent_pathless c clips :
  clipFilePath c = None ->
  concatContent (c :: clips)
  = Throw (TypeError "Cannot read properties of undefined (reading 'replace')").
Proof. intros H. unfold concatContent. simpl. unfold concatLine. by rewrite H. Qed.

Section Exporting.
Context {F : Type} `{!FileSystem F} `{!Json Value}.
Context (basename extname toLowerCase base64 : string -> string).
Context (tempDir : string) (pathJoin : string -> string -> string).
Context (eval : string -> result JsError Value).

#[local] Abbreviation dispatch :=
  (dispatch basename extname toLowerCase base64 tempDir pathJoin eval).
#[local] Abbreviation call := (call basename extname toLowerCase base64 tempDir pathJoin eval).

(** C10. No timeline the user can build in the views can be exported:
    whatever object reaches [export-timeline], if the clips the handler
    reads from it are the clips of the views (any other member, a [file]
    among them, is not read), the handler finds no path in its first clip,
    the call is rejected with a type error, one line goes to the console
    and no file is written. *)
Theorem ui_timeline_not_exportable p opts env (mp : MainProcess F) :
  panel_reachable p -> timelineClips (panelApp p) <> [] ->
  carries opts (timelineClips (panelApp p)) ->
  dispatch "export-timeline" [opts] env mp
  = Some (Failed (TypeError "Cannot read properties of undefined (reading 'replace')"),
          withMainState (logLine "Error exporting timeline:" (mp_main mp)) mp).
Proof.
  intros [_ Hc]%panel_reachable_pathless Hne (Hclips & [outputPath Hout] & [resolution Hres]).
  rewrite (dispatch_export_reads _ _ _ _ _ _ _ _ _ _ _ _ _ Hclips Hout Hres).
  destruct (timelineClips (panelApp p)) as [|c clips]; [done|].
  apply Forall_cons in Hc as [Hc _]. simpl.
  unfold exportTimeline, exportStart. by rewrite (concatContent_pathless _ _ Hc).
Qed.

End Exporting.

(** ** The source list of the recorder *)

(** A source as [ScreenRecorder] reads it: [source.id], [source.name],
    [source.thumbnail], [source.type]. *)
Definition toSource (v : Value) : option Source :=
  id ← asString (field "id" v);
  name ← asString (field "name" v);
  thumbnail ← asString (field "thumbnail" v);
  type ← asString (field "type" v);
  Some (mkSource id name thumbnail type).

Definition toSources (v : Value) : option (list Source) := asArray v ≫= mapM toSource.

(** The source of the recorder for a source of the handler. *)
Definition sourceOf (s : ScreenSource) : Source :=
  mkSource (ss_id s) (ss_name s) (ss_thumbnail s) (ss_type s).

Lemma toSources_ofScreenSources l :
  toSources (VArray (ofScreenSource <$> l)) = Some (sourceOf <$> l).
Proof.
  unfold toSources. simpl. apply mapM_Some. induction l; simpl; constructor; [done|].
  apply IHl.
Qed.

(** A typed answer can be read. *)
Lemma toSources_typed v : has_type v (TArray screenSourceTy) -> is_Some (toSources v).
Proof.
  inversion 1 as [| | | | | | | | | |items ? Hall| | |]; subst. unfold toSources. simpl.
  apply mapM_is_Some. eapply Forall_impl; [exact Hall|]. intros x Hx. simpl.
  member Hx "id" TString. member Hx "name" TString. member Hx "thumbnail" TString.
  pose proof (has_type_field _ _ "type" _ Hx ltac:(simpl; tauto)) as Ht.
  unfold toSource. read_members.
  destruct (has_type_union _ _ _ Ht) as [Hl|Hl]; rewrite (asString_lit _ _ Hl); by eexists.
Qed.

Section Sources.
Context {F : Type} `{!FileSystem F} `{!Json Value}.
Context (basename extname toLowerCase base64 : string -> string).
Context (tempDir : string) (pathJoin : string -> string -> string).
Context (eval : string -> result JsError Value).

#[local] Abbreviation call := (call basename extname toLowerCase base64 tempDir pathJoin eval).

(** The effect of [ScreenRecorder] on mount: in Electron it asks for the
    sources and, when the answer arrives, stores it.  The result is the
    event of the recorder this ends in, if any, and the main process
    afterwards. *)
Definition loadSources (w : Window) (env : Env) (mp : MainProcess F)
    : option CaptureEvent * MainProcess F :=
  if isElectron w then
    match call w "getScreenSources" [] env mp with
    | Some (Replied v, mp') => (SourcesLoaded <$> toSources v, mp')
    | Some (_, mp') => (None, mp')
    | None => (None, mp)
    end
  else (None, mp).

(** In the window the preload script set up the recorder gets the sources
    of [desktopCapturer], in order; the main process is as before, but for
    the console when [desktopCapturer] failed. *)
Lemma loadSources_electron w env (mp : MainProcess F) :
  hasElectronAPI w = true ->
  loadSources w env mp
  = (Some (SourcesLoaded (sourceOf <$> getScreenSources (env_sources env))),
     withMainState (logSources (env_sources env) (mp_main mp)) mp).
Proof.
  intros Hapi. unfold loadSources, call, Main.call, request, callWrapped, isElectron.
  repeat (rewrite ?Hapi, ?orb_true_r; simpl).
  unfold dispatch. simpl. by rewrite toSources_ofScreenSources.
Qed.

(** Outside Electron the recorder asks for nothing. *)
Lemma loadSources_browser w env (mp : MainProcess F) :
  isElectron w = false -> loadSources w env mp = (None, mp).
Proof. intros H. unfold loadSources. by rewrite H. Qed.

End Sources.

(** ** Without a source there is no recording *)

(** The recorder with an empty source list and nothing going on. *)
Record stranded (st : Session) : Prop := {
  st_sources : screenSources (view st) = [];
  st_selected : selectedSource (view st) = None;
  st_loaded : loadPending st = false;
  st_idle : isRecording (view st) = false;
  st_requests : requests st = [];
  st_recorders : recorders (browser st) = ∅;
  st_streams : liveStreams (browser st) = ∅;
  st_intervals : intervals (browser st) = ∅;
  st_delivered : delivered st = [];
  st_alerts : alerts st = [];
}.

Lemma loadScreenSources_stranded isElectron :
  stranded (exec (loadScreenSources []) (initialSession isElectron)).
Proof. by split. Qed.

(** Nothing that can happen to a stranded recorder changes that. *)
Lemma capture_step_stranded st ev st' :
  stranded st -> capture_enabled st ev -> capture_step st ev = Some st' -> stranded st'.
Proof.
  intros [Hs Hsel Hl Hi Hr Hrec Hst Hint Hd Ha] Hen [= <-]. revert Hs Hsel Hl Hi Hr Hrec Hst Hint Hd Ha Hen.
  destruct_session st. simpl. intros -> -> -> -> -> -> -> -> -> ->.
  destruct ev; simpl; try done; try (by intros [? ?%elem_of_nil]);
    try (by intros [? ?]); try (by intros ?%elem_of_empty).
Qed.

Lemma capture_run_stranded evs st st' :
  stranded st -> capture_run evs st = Some st' -> stranded st'.
Proof.
  revert st. induction evs as [|ev evs IH]; intros st Hst; simpl; [by intros [= <-]|].
  case_decide as Hen; [|done]. simpl. apply IH. by eapply capture_step_stranded.
Qed.

Section Stranded.
Context {F : Type} `{!FileSystem F} `{!Json Value}.
Context (basename extname toLowerCase base64 : string -> string).
Context (tempDir : string) (pathJoin : string -> string -> string).
Context (eval : string -> result JsError Value).

#[local] Abbreviation loadSources :=
  (loadSources basename extname toLowerCase base64 tempDir pathJoin eval).

(** C20. When [desktopCapturer] fails, the recorder is handed an empty list:
    whatever the user does afterwards, no recording starts and nothing is
    handed over; the user is shown no message, the only trace is a line on
    the console of the main process. *)
Theorem capturer_failure_strands w env (mp : MainProcess F) e evs st :
  hasElectronAPI w = true -> env_sources env = Throw e ->
  exists ev mp',
    loadSources w env mp = (Some ev, mp') /\
    console (mp_main mp')
    = console (mp_main mp) ++ ["Main process: Error getting screen sources:"] /\
    (capture_run (ev :: evs) (initialSession (isElectron w)) = Some st ->
     isRecording (view st) = false /\ delivered st = [] /\ alerts st = []).
Proof.
  intros Hapi He. rewrite (loadSources_electron _ _ _ _ _ _ _ _ _ _ Hapi), He.
  eexists _, _. split; [done|]. split; [done|]. simpl.
  assert (isElectron w = true) as -> by (unfold isElectron; by rewrite Hapi, orb_true_r).
  rewrite decide_True by done. simpl. intros Hrun.
  pose proof (capture_run_stranded _ _ _ (loadScreenSources_stranded true) Hrun) as Hs.
  split_and!; apply Hs.
Qed.

End Stranded.

(** ** Worked runs *)

(** The timeline of the session at the panel is rejected. *)
Lemma ui_timeline_not_exportable_witness :
  dispatch0 "export-timeline"
    [exportOptions (timelineClips (panelApp panelAfter)) "/out/movie.mp4"] env0 mainProcess0
  = Some (Failed (TypeError "Cannot read properties of undefined (reading 'replace')"),
          withMainState (logLine "Error exporting timeline:" (mp_main mainProcess0))
            mainProcess0).
Proof.
  apply (ui_timeline_not_exportable posixBasename posixExtname asciiLowerCase (fun s => s)
           "/tmp" posixJoin (fun rate => VNumber <$> ratioOnly rate) panelAfter
           (exportOptions (timelineClips (panelApp panelAfter)) "/out/movie.mp4")
           env0 mainProcess0 panelAfter_reachable).
  - by vm_compute.
  - apply exportOptions_carries.
Defined.

(** [desktopCapturer] has failed. *)
Definition envNoCapturer : Env :=
  {| env_now := env_now env0; env_openDialog := env_openDialog env0;
     env_saveDialog := env_saveDialog env0; env_loadDialog := env_loadDialog env0;
     env_sources := Throw (EngineError "Failed to get sources.");
     env_probe := env_probe env0; env_engine := env_engine env0 |}.

Lemma capturer_failure_strands_witness :
  exists ev mp',
    loadSources posixBasename posixExtname asciiLowerCase (fun s => s) "/tmp" posixJoin
      (fun rate => VNumber <$> ratioOnly rate) electronWindow envNoCapturer mainProcess0
    = (Some ev, mp') /\
    console (mp_main mp')
    = console (mp_main mainProcess0) ++ ["Main process: Error getting screen sources:"] /\
    (capture_run (ev :: [ClickStart; ToggleSelector; ClickStart])
       (initialSession (isElectron electronWindow))
     = Some (runFrom (initialSession true)
               [SourcesLoaded []; ClickStart; ToggleSelector; ClickStart]) ->
     isRecording (view (runFrom (initialSession true)
                          [SourcesLoaded []; ClickStart; ToggleSelector; ClickStart])) = false /\
     delivered (runFrom (initialSession true)
                  [SourcesLoaded []; ClickStart; ToggleSelector; ClickStart]) = [] /\
     alerts (runFrom (initialSession true)
               [SourcesLoaded []; ClickStart; ToggleSelector; ClickStart]) = []).
Proof.
  apply (capturer_failure_strands posixBasename posixExtname asciiLowerCase (fun s => s) "/tmp"
           posixJoin (fun rate => VNumber <$> ratioOnly rate) electronWindow envNoCapturer
           mainProcess0 (EngineError "Failed to get sources.")); reflexivity.
Defined.

(** The selector of the recorder shows the screen the capturer reports;
    with a source selected a recording starts. *)
Example scenario_sources :
  (fst (loadSources posixBasename posixExtname asciiLowerCase (fun s => s) "/tmp" posixJoin
          (fun rate => VNumber <$> ratioOnly rate) electronWindow env0 mainProcess0))
  = Some (SourcesLoaded [mkSource "screen:0" "Entire Screen" "data:image/png;base64," "screen"]) /\
  (fst (loadSources posixBasename posixExtname asciiLowerCase (fun s => s) "/tmp" posixJoin
          (fun rate => VNumber <$> ratioOnly rate) browserTab env0 mainProcess0)) = None.
Proof. by vm_compute. Qed.

(** The same clips with a path on their media are exported. *)
Example scenario_export_with_paths :
  (fst <$> dispatch0 "export-timeline" [exportOptions [clipX; clipY] "/out/movie.mp4"] env0
             mainProcess0)
  = Some (Replied (VString "/out/movie.mp4")).
Proof. by vm_compute. Qed.
