(* ===== verification/Render.v ===== *)
(** * Render: what the components put on screen

    Models the render results of src/src/App_simple.js as data: the props
    [VideoPreviewPanel] hands to the preview, and the elements
    [SimpleTimeline] returns, each with its position, its stacking level
    ([zIndex]), its [onClick] binding and its React [key].

    The browser decides which element a click lands on: among the elements
    under the pointer, the one painted last.  Positioned elements are
    painted by stacking level, and in document order within a level; [hit]
    is that rule.  A click runs the [onClick] of the element it lands on;
    here no ancestor has one.

    Theorems: the preview is never told to play and never sees the imported
    file; a click anywhere on the strip that is not on the button or the
    play-head runs [handleTimelineClick], also on a clip, so a clip cannot
    be picked; the play-head swallows the clicks that land on it, also where
    it crosses the button; the keys of the media list are distinct when
    every import brings a new id, and two clips added in one millisecond
    have the same key. *)

From Stdlib Require Import QArith ZArith List String.
From stdpp Require Import base tactics option list strings pretty.
From S2P Require Import Prelude Timeline Model Views.

(** ** [VideoPreviewPanel] *)

(** The props of [VideoPreview]. *)
Record PreviewProps := mkPreviewProps {
  pv_currentTime : Q;
  pv_isPlaying : bool;
  pv_clips : list Clip;
}.

(** [VideoPreviewPanel]: of its five props it passes on three, and
    [isPlaying] is the literal [false]. *)
Definition VideoPreviewPanel (videoFile : option Media) (timelineClips : list Clip)
    (currentTimelineTime : Q) : PreviewProps :=
  {| pv_currentTime := currentTimelineTime; pv_isPlaying := false; pv_clips := timelineClips |}.

(** The panel as [App] renders it. *)
Definition previewOf (st : AppState) : PreviewProps :=
  VideoPreviewPanel (importedVideo st) (timelineClips st) (currentTimelineTime st).

(** ** [SimpleTimeline] *)

(** The two [onClick] bindings of the strip. *)
Inductive StripHandler := OnPlayPause | OnTimelineClick.

#[global] Instance StripHandler_eq_dec : EqDecision StripHandler.
Proof. solve_decision. Defined.

(** A positioned child of the strip: [left] and [width] in pixels where the
    style gives them, the [zIndex] where it gives one. *)
Record Element := mkElement {
  el_key : option string;
  el_left : option Q;
  el_width : option Q;
  el_zIndex : option Z;
  el_onClick : option StripHandler;
  el_text : option string;
}.

Definition playButton (isPlaying : bool) : Element :=
  {| el_key := None; el_left := Some 10; el_width := None; el_zIndex := Some 100%Z;
     el_onClick := Some OnPlayPause; el_text := Some (playButtonLabel isPlaying) |}.

Definition playhead (currentTime : Q) : Element :=
  {| el_key := None; el_left := Some (playheadLeft currentTime); el_width := Some 2;
     el_zIndex := Some 100%Z; el_onClick := None; el_text := None |}.

Definition clipBox (c : Clip) : Element :=
  {| el_key := Some (clip_id c); el_left := Some (clipLeft c); el_width := Some (clipWidth c);
     el_zIndex := None; el_onClick := None; el_text := Some (clipLabel c) |}.

Definition clickArea : Element :=
  {| el_key := None; el_left := Some 0; el_width := None; el_zIndex := Some 50%Z;
     el_onClick := Some OnTimelineClick; el_text := None |}.

(** The children of the strip, in document order. *)
Definition SimpleTimeline (clips : list Clip) (currentTime : Q) (isPlaying : bool)
    : list Element :=
  playButton isPlaying :: playhead currentTime :: (clipBox <$> clips) ++ [clickArea].

(** The strip as [App] renders it. *)
Definition stripOf (st : AppState) : list Element :=
  SimpleTimeline (timelineClips st) (currentTimelineTime st) (isVideoPlaying st).

(** ** Which element a click lands on *)

(** The stacking level of an element; without [zIndex] it is [0]. *)
Definition level (e : Element) : Z := default 0%Z (el_zIndex e).

(** Whether the element at [j] is painted over the one at [i]. *)
Definition paintedOver (els : list Element) (i j : nat) : bool :=
  match els !! i, els !! j with
  | Some a, Some b => (level a <? level b)%Z || ((level a =? level b)%Z && (i <? j)%nat)
  | _, _ => false
  end.

(** Of the elements under the pointer, the one painted last. *)
Definition hit (els : list Element) (under : list nat) : option nat :=
  foldl (fun top j =>
           match top with
           | Some i => if paintedOver els i j then Some j else Some i
           | None => if decide (is_Some (els !! j)) then Some j else None
           end) None under.

(** The handler a click runs. *)
Definition clickOn (els : list Element) (under : list nat) : option StripHandler :=
  hit els under ≫= fun i => els !! i ≫= el_onClick.

(** Positions in the strip. *)
Definition buttonAt : nat := 0.
Definition playheadAt : nat := 1.
Definition boxAt (k : nat) : nat := 2 + k.
Definition clickAreaAt (clips : list Clip) : nat := 2 + length clips.

(** ** The preview *)

(** The preview is never told to play, and the file [importedVideo] plays
    no part in what it is given. *)
Lemma preview_never_plays st :
  pv_isPlaying (previewOf st) = false /\
  forall video, previewOf (mkApp video (importedMedia st) (timelineClips st) (selectedClip st)
                             (showClipDetails st) (currentTimelineTime st) (isVideoPlaying st))
                = previewOf st.
Proof. by split. Qed.

(** ** The strip *)

Lemma strip_lookup_button clips t playing :
  SimpleTimeline clips t playing !! buttonAt = Some (playButton playing).
Proof. done. Qed.

Lemma strip_lookup_playhead clips t playing :
  SimpleTimeline clips t playing !! playheadAt = Some (playhead t).
Proof. done. Qed.

Lemma strip_lookup_clip clips t playing k :
  (k < length clips)%nat ->
  SimpleTimeline clips t playing !! boxAt k = clipBox <$> clips !! k.
Proof.
  intros Hk. unfold SimpleTimeline, boxAt. simpl.
  rewrite lookup_app_l by (by rewrite length_fmap). apply list_lookup_fmap.
Qed.

Lemma strip_lookup_clickArea clips t playing :
  SimpleTimeline clips t playing !! clickAreaAt clips = Some clickArea.
Proof.
  unfold SimpleTimeline, clickAreaAt. simpl.
  rewrite lookup_app_r by (by rewrite length_fmap). by rewrite length_fmap, Nat.sub_diag.
Qed.

(** An element of the strip is the button, the play-head, a clip or the
    click area. *)
Lemma strip_lookup clips t playing i e :
  SimpleTimeline clips t playing !! i = Some e ->
  (i = buttonAt /\ e = playButton playing) \/ (i = playheadAt /\ e = playhead t) \/
  (exists k c, i = boxAt k /\ clips !! k = Some c /\ e = clipBox c) \/
  (i = clickAreaAt clips /\ e = clickArea).
Proof.
  destruct i as [|[|k]]; simpl; [intros [= <-]; by left|intros [= <-]; by right; left|].
  intros [He|[Hk He]]%lookup_app_Some.
  - rewrite list_lookup_fmap in He. destruct (clips !! k) as [c|] eqn:Hc; [|done].
    simplify_eq/=. right; right; left. by exists k, c.
  - rewrite length_fmap in Hk, He. apply list_lookup_singleton_Some in He as [Hz <-].
    right; right; right. split; [|done]. unfold clickAreaAt. lia.
Qed.

(** Of two elements under the pointer. *)
Lemma hit_two els i j a b :
  els !! i = Some a -> els !! j = Some b ->
  hit els [i; j] = Some (if paintedOver els i j then j else i).
Proof.
  intros Hi Hj. unfold hit. simpl. rewrite decide_True by (by eexists).
  by destruct (paintedOver els i j).
Qed.

(** The click area is painted over every clip. *)
Lemma clickArea_over_clips clips t playing k :
  (k < length clips)%nat ->
  paintedOver (SimpleTimeline clips t playing) (boxAt k) (clickAreaAt clips) = true /\
  paintedOver (SimpleTimeline clips t playing) (clickAreaAt clips) (boxAt k) = false.
Proof.
  intros Hk. unfold paintedOver.
  rewrite strip_lookup_clip, strip_lookup_clickArea by done.
  apply lookup_lt_is_Some in Hk as [c ->]. done.
Qed.

(** A click on a clip, away from the button and the play-head, runs
    [handleTimelineClick]: it seeks, and the clip is not picked. *)
Theorem click_on_clip_seeks clips t playing k :
  (k < length clips)%nat ->
  clickOn (SimpleTimeline clips t playing) [boxAt k; clickAreaAt clips] = Some OnTimelineClick /\
  clickOn (SimpleTimeline clips t playing) [clickAreaAt clips; boxAt k] = Some OnTimelineClick.
Proof.
  intros Hk. destruct (clickArea_over_clips clips t playing k Hk) as [Hover Hunder].
  pose proof (strip_lookup_clickArea clips t playing) as Ha.
  pose proof (strip_lookup_clip clips t playing k Hk) as Hb.
  apply lookup_lt_is_Some in Hk as [c Hc]. rewrite Hc in Hb. unfold clickOn.
  rewrite (hit_two _ _ _ _ _ Hb Ha), (hit_two _ _ _ _ _ Ha Hb), Hover, Hunder.
  cbn [mbind option_bind]. by rewrite Ha.
Qed.

(** A click that lands on the play-head runs nothing, on the click area and
    where the play-head crosses the button alike. *)
Theorem playhead_swallows_clicks clips t playing :
  clickOn (SimpleTimeline clips t playing) [playheadAt; clickAreaAt clips] = None /\
  clickOn (SimpleTimeline clips t playing) [buttonAt; playheadAt; clickAreaAt clips] = None /\
  clickOn (SimpleTimeline clips t playing) [buttonAt; clickAreaAt clips] = Some OnPlayPause.
Proof.
  unfold clickOn, hit. cbn [foldl]. unfold paintedOver.
  rewrite !strip_lookup_clickArea, !strip_lookup_button, !strip_lookup_playhead.
  rewrite !decide_True by (by eexists). by simpl.
Qed.

(** ** Keys *)

(** [key={media.id}] of the asset list, [key={clip.id}] of the strip. *)
Definition mediaKeys (st : AppState) : list (option string) := media_id <$> importedMedia st.
Definition clipKeys (st : AppState) : list string := omap el_key (stripOf st).

Lemma clipKeys_ids st : clipKeys st = clip_id <$> timelineClips st.
Proof.
  unfold clipKeys, stripOf, SimpleTimeline. simpl. rewrite omap_app. simpl.
  rewrite app_nil_r. induction (timelineClips st) as [|c l IH]; simpl; [done|]. by f_equal.
Qed.

Lemma app_reachable_fresh_sound st : app_reachable_fresh st -> app_sound st.
Proof.
  apply reachable_invariant; [apply initialApp_sound|].
  intros s e s' Hs He Hstep. by eapply app_step_sound.
Qed.

(** The keys of the asset list are distinct when every import brings a new
    id. *)
Theorem mediaKeys_NoDup st : app_reachable_fresh st -> NoDup (mediaKeys st).
Proof. intros Hs%app_reachable_fresh_sound. apply Hs. Qed.

(** Two clips added in the same millisecond have the same key. *)
Theorem clipKeys_collide now m1 m2 st :
  let st' := handleAddToTimeline (timelineClips st) now m2
               (handleAddToTimeline (timelineClips st) now m1 st) in
  ~ NoDup (clipKeys st').
Proof.
  intros st'. subst st'. rewrite clipKeys_ids, !handleAddToTimeline_clips, <- app_assoc, fmap_app.
  simpl. intros [_ [_ Hnd]]%NoDup_app. apply NoDup_cons in Hnd as [Hin _]. apply Hin. by left.
Qed.

(** ** Worked runs *)

(** The strip of the session at the panel: two boxes side by side, the
    play-head at the time the click chose. *)
Example scenario_strip :
  let els := stripOf (panelApp panelAfter) in
  length els = 5%nat /\
  (el_text <$> els) = [Some "Play"; None; Some "c.webm"; Some "a.mp4"; None] /\
  (Qred <$> (omap el_left els)) = [10; 50; 10; 160; 0] /\
  clickOn els [boxAt 1; clickAreaAt (timelineClips (panelApp panelAfter))]
  = Some OnTimelineClick /\
  pv_isPlaying (previewOf (handleTimelinePlayPause (panelApp panelAfter))) = false /\
  isVideoPlaying (handleTimelinePlayPause (panelApp panelAfter)) = true.
Proof. by vm_compute. Qed.
