(* ===== verification/Process.v ===== *)
(** * Process: the main process as a whole

    src/public/electron.js is one module: the windows, the request handlers
    and the console latch share its variables.  [Shell] models the windows
    and the latch side by side and [Main] the handlers; this file puts them
    together as they run.

    - [Process] is the module's state: the windows and what the handlers
      touch ([MainProcess]), the console with its latch ([Console]), and
      [isDev].
    - Every line a handler passes to [console.error] or [console.warn]
      goes through the replaced console methods: [relay] sends the lines a
      request [emitted] through [consoleMethod].  [sourcesLog] is the three
      [safeLog] calls of [get-screen-sources].  A line is the text printed
      where its arguments are texts and numbers, and the first argument
      where the others are objects or errors.
    - [createWindowP] is [createWindow] with all it does: the window, the
      line on the URL ([startUrl]), and the developer tools ([openDevTools]),
      opened when [isDev] holds and the latch is not set, whose failure on
      a closed pipe sets the latch.  [windowReady] is the [ready-to-show]
      listener with its line; when the window is gone the call of [show]
      throws, which the [uncaughtException] listener reports.
    - [process_step] is the module reacting to what happens: the
      application becoming ready or active, the page failing to load, a
      request of the renderer, an exception nobody caught, the user closing
      a window or quitting.  [closeThrows] gives the exceptions the [close]
      listeners of controller windows throw when [controllerWindow] is
      [null]; they reach the [uncaughtException] listener like any other.

    Theorems: the console goes one way ([later] is a preorder that every
    operation on the console respects): through any run the lines printed
    stay printed, and once the latch is set the console is left alone for
    good ([process_run_later]); the windows of the process stay in a
    reachable state of [Shell]; the step is
    defined for everything but requests with arguments of the wrong shape;
    the console decides nothing but what is printed
    ([console_noninterference]); the handlers only add to what they passed
    to the console, and on a console that works a request prints exactly
    the lines of its handler ([invokeP_prints]); what the developer tools
    do to the latch. *)

From Stdlib Require Import QArith ZArith List String.
From stdpp Require Import base tactics option list strings pretty gmap.
From S2P Require Import Prelude Timeline Host Probe Export Persistence Shell Bridge Wire Main.

(** ** The console calls of the handlers *)

(** The lines passed to the replaced [console.error] and [console.warn]. *)
Definition relay (lines : list string) (c : Console) : Console :=
  foldl (fun c line => (consoleMethod line c).2) c lines.

(** The lines a handler passed to the console between two states. *)
Definition emitted {F} (before after : MainState F) : list string :=
  drop (length (console before)) (console after).

(** The [safeLog] calls of [get-screen-sources]: one before
    [desktopCapturer] is asked, two after it answered.  The list of the
    mapped sources that the last call prints is left out of the line. *)
Definition sourcesLog (answer : result JsError (list DesktopSource)) (c : Console) : Console :=
  let c := (safeLog "Main process: Getting screen sources..." c).2 in
  match answer with
  | Ok sources =>
      let c := (safeLog ("Main process: Found " +:+ pretty (length sources) +:+ " screen sources")
                  c).2 in
      (safeLog "Main process: Mapped sources:" c).2
  | Throw _ => c
  end.

(** The lines of [sourcesLog]. *)
Definition sourcesLines (answer : result JsError (list DesktopSource)) : list string :=
  "Main process: Getting screen sources..." ::
  match answer with
  | Ok sources =>
      ["Main process: Found " +:+ pretty (length sources) +:+ " screen sources";
       "Main process: Mapped sources:"]
  | Throw _ => []
  end.

(** A console that works: the latch is not set and the writes to come
    succeed. *)
Definition healthy (c : Console) : Prop := consoleDisabled c = false /\ script c = [].

#[global] Instance healthy_dec c : Decision (healthy c).
Proof. unfold healthy. apply _. Defined.

(** [isDev ? 'http://localhost:3000' : `file://${path.join(__dirname, '../build/index.html')}`] *)
Definition startUrl (pathJoin : string -> string -> string) (isDev : bool) (dirname : string)
    : string :=
  if isDev then "http://localhost:3000"
  else "file://" +:+ pathJoin dirname "../build/index.html".

(** [if (isDev && !consoleDisabled) { try { openDevTools() } catch ... }];
    [thrown] is what [openDevTools] throws, if it does. *)
Definition openDevTools (thrown : option JsError) (isDev : bool) (c : Console) : Console :=
  if isDev && negb (consoleDisabled c) then
    match thrown with
    | Some e => if isEPIPE e then disable c else c
    | None => c
    end
  else c.

(** ** The process *)

Section Process.
Context {F : Type} `{!FileSystem F} `{!Json Value}.
Context (basename extname toLowerCase base64 : string -> string).
Context (tempDir : string) (pathJoin : string -> string -> string).
Context (eval : string -> result JsError Value).
(** [__dirname] *)
Context (dirname : string).

#[local] Abbreviation dispatch :=
  (dispatch basename extname toLowerCase base64 tempDir pathJoin eval).

Record Process := mkProcess {
  pr_main : MainProcess F;
  pr_console : Console;
  pr_isDev : bool;
}.

Definition withConsole (c : Console) (p : Process) : Process :=
  {| pr_main := pr_main p; pr_console := c; pr_isDev := pr_isDev p |}.

Definition withWindowsOf (sh : Shell) (p : Process) : Process :=
  {| pr_main := withShell sh (pr_main p); pr_console := pr_console p; pr_isDev := pr_isDev p |}.

(** [createWindow], all of it. *)
Definition createWindowP (devTools : option JsError) (p : Process) : Process :=
  let p := withWindowsOf (createWindow (mp_shell (pr_main p))) p in
  let c := (safeLog ("Loading URL: " +:+ startUrl pathJoin (pr_isDev p) dirname)
              (pr_console p)).2 in
  withConsole (openDevTools devTools (pr_isDev p) c) p.

(** The [ready-to-show] listener: the line, then [mainWindow.show()], which
    throws when the window was closed meanwhile; nobody catches that. *)
Definition windowReady (p : Process) : Process :=
  let c := (safeLog "Window ready to show" (pr_console p)).2 in
  match mainWindow (mp_shell (pr_main p)) with
  | Some _ => withConsole c (withWindowsOf (readyToShow (mp_shell (pr_main p))) p)
  | None =>
      withConsole
        (uncaughtException (TypeError "Cannot read properties of null (reading 'show')") c) p
  end.

(** The [activate] listener. *)
Definition activateP (devTools : option JsError) (p : Process) : Process :=
  if bool_decide (windows (mp_shell (pr_main p)) = ∅) then createWindowP devTools p else p.

(** A request of the renderer: the handler runs, and what it passed to the
    console goes through the replaced methods. *)
Definition invokeP (channel : string) (args : list Value) (env : Env) (p : Process)
    : option (Reply * Process) :=
  match dispatch channel args env (pr_main p) with
  | Some (reply, mp') =>
      let c := if String.eqb channel "get-screen-sources"
               then sourcesLog (env_sources env) (pr_console p) else pr_console p in
      Some (reply,
            {| pr_main := mp';
               pr_console := relay (emitted (mp_main (pr_main p)) (mp_main mp')) c;
               pr_isDev := pr_isDev p |})
  | None => None
  end.

(** What [controllerWindow.hide()] throws when the variable is [null]. *)
Definition hideOfNull : JsError := TypeError "Cannot read properties of null (reading 'hide')".

(** What the [close] listeners throw in an event of the windows: while
    [controllerWindow] is [null], one exception for every controller window
    that is asked to close.  Nobody catches them. *)
Definition closeThrows (sh : Shell) (ev : ShellEvent) : list JsError :=
  match controllerWindow sh, ev with
  | None, UserCloses w =>
      match bw_kind <$> windows sh !! w with
      | Some ControllerWindow => [hideOfNull]
      | _ => []
      end
  | None, MenuQuit => (fun _ => hideOfNull) <$> map_to_list (controllers sh)
  | _, _ => []
  end.

(** The [uncaughtException] listener on each of them, in turn. *)
Definition uncaughtAll (es : list JsError) (c : Console) : Console :=
  foldl (fun c e => uncaughtException e c) c es.

Inductive ProcessEvent :=
| AppReady (devTools : option JsError)
| Activated (devTools : option JsError)
| LoadRejected
| DidFailLoad
| WindowReady
| Invoked (channel : string) (args : list Value) (env : Env)
| Uncaught (e : JsError)
| Rejection (e : JsError)
| Window (ev : ShellEvent).

Definition process_step (p : Process) (ev : ProcessEvent) : option Process :=
  match ev with
  | AppReady devTools => Some (createWindowP devTools p)
  | Activated devTools => Some (activateP devTools p)
  | LoadRejected => Some (withConsole (safeError "Failed to load URL:" (pr_console p)).2 p)
  | DidFailLoad => Some (withConsole (safeError "Failed to load page:" (pr_console p)).2 p)
  | WindowReady => Some (windowReady p)
  | Invoked channel args env => snd <$> invokeP channel args env p
  | Uncaught e => Some (withConsole (uncaughtException e (pr_console p)) p)
  | Rejection e => Some (withConsole (unhandledRejection e (pr_console p)) p)
  | Window ev =>
      let sh := mp_shell (pr_main p) in
      (fun sh' => withConsole (uncaughtAll (closeThrows sh ev) (pr_console p))
                    (withWindowsOf sh' p)) <$> shell_step sh ev
  end.

(** The events of the windows that other events do not stand for. *)
Definition plainWindowEvent (ev : ShellEvent) : Prop :=
  match ev with
  | UserCloses _ | MenuQuit => True
  | _ => False
  end.

#[global] Instance plainWindowEvent_dec ev : Decision (plainWindowEvent ev).
Proof. destruct ev; apply _. Defined.

Definition process_enabled (p : Process) (ev : ProcessEvent) : Prop :=
  let sh := mp_shell (pr_main p) in
  match ev with
  | AppReady _ => shell_enabled sh Ready
  | Activated _ => shell_enabled sh Activate
  | WindowReady => shell_enabled sh ReadyToShow
  | LoadRejected | DidFailLoad | Invoked _ _ _ => running sh = true
  | Uncaught _ | Rejection _ => True
  | Window ev => plainWindowEvent ev /\ shell_enabled sh ev
  end.

#[global] Instance process_enabled_dec p ev : Decision (process_enabled p ev).
Proof. destruct ev; simpl; apply _. Defined.

(** The process at start: no window, the console as the start-up test left
    it. *)
Definition initialProcess (isDarwin isDev : bool) (st : MainState F) (c : Console) : Process :=
  {| pr_main := mkMainProcess (initialShell isDarwin) st;
     pr_console := startupTest consoleMethod c; pr_isDev := isDev |}.

Definition process_reachable (isDarwin isDev : bool) (st : MainState F) (c : Console)
    : Process -> Prop :=
  reachable (initialProcess isDarwin isDev st c) process_enabled process_step.

End Process.

Arguments Process F : clear implicits.

(** ** The console goes one way *)

(** [c'] comes after [c]: what was printed stays, and once the latch is set
    nothing changes any more, neither the latch nor the writes to come. *)
Definition later (c c' : Console) : Prop :=
  (consoleDisabled c = true -> c' = c) /\ printed c `prefix_of` printed c'.

#[global] Instance later_preorder : PreOrder later.
Proof.
  split; [by intros c|].
  intros a b c [Hab Pab] [Hbc Pbc]. split; [|by etrans].
  intros Hd. specialize (Hab Hd). subst b. by apply Hbc.
Qed.

Create HintDb console discriminated.

Lemma later_disable c : later c (disable c).
Proof. split; [|done]. destruct c as [d s p]. simpl. by intros ->. Qed.

Lemma later_consoleMethod line c : later c (consoleMethod line c).2.
Proof.
  unfold consoleMethod. destruct (consoleDisabled c) eqn:Hd; [done|].
  split; [by rewrite Hd|]. unfold writeOriginal.
  destruct (script c) as [|[|code] rest]; simpl; try (by apply prefix_app_r).
  by destruct (String.eqb code "EPIPE").
Qed.

Lemma later_safeLog line c : later c (safeLog line c).2.
Proof. rewrite safeLog_eq. apply later_consoleMethod. Qed.

Lemma later_safeError line c : later c (safeError line c).2.
Proof. rewrite safeError_eq. apply later_consoleMethod. Qed.

Lemma later_uncaught label e c : later c (uncaughtWith consoleMethod label e c).
Proof.
  unfold uncaughtWith. destruct (isEPIPE e); [apply later_disable|].
  destruct (consoleDisabled c) eqn:Hd; simpl; [done|].
  pose proof (consoleMethod_Ok label c) as Hok. pose proof (later_consoleMethod label c) as Hl.
  destruct (consoleMethod label c) as [[[]|?] c']; simpl in *; done.
Qed.

Lemma later_uncaughtAll es c : later c (uncaughtAll es c).
Proof.
  revert c. induction es as [|e es IH]; intros c; [done|]. simpl.
  etrans; [apply later_uncaught|apply IH].
Qed.

Lemma later_startupTest c : later c (startupTest consoleMethod c).
Proof.
  unfold startupTest.
  pose proof (consoleMethod_Ok "ClipForge starting..." c) as Hok.
  pose proof (later_consoleMethod "ClipForge starting..." c) as Hl.
  destruct (consoleMethod _ c) as [[[]|?] c']; simpl in *; done.
Qed.

Lemma later_relay lines c : later c (relay lines c).
Proof.
  revert c. induction lines as [|line lines IH]; intros c; simpl; [done|].
  etrans; [|apply IH]. apply later_consoleMethod.
Qed.

Lemma later_sourcesLog answer c : later c (sourcesLog answer c).
Proof.
  unfold sourcesLog. destruct answer; repeat (etrans; [|apply later_safeLog]); done.
Qed.

Lemma later_openDevTools thrown isDev c : later c (openDevTools thrown isDev c).
Proof.
  unfold openDevTools. destruct (isDev && _); [|done].
  destruct thrown as [e|]; [|done]. destruct (isEPIPE e); [apply later_disable|done].
Qed.

(** The [safeLog] calls of [get-screen-sources] are calls of the replaced
    method. *)
Lemma sourcesLog_relay answer c : sourcesLog answer c = relay (sourcesLines answer) c.
Proof. unfold sourcesLog, sourcesLines. destruct answer; simpl; by rewrite !safeLog_eq. Qed.

(** On a console that works every line is printed. *)
Lemma relay_healthy lines c :
  healthy c -> relay lines c = mkConsole false [] (printed c ++ lines).
Proof.
  revert c. induction lines as [|line lines IH]; intros [d s p] [Hd Hs]; simpl in *; subst.
  - by rewrite app_nil_r.
  - rewrite IH by done. simpl. by rewrite <- app_assoc.
Qed.

(** Once the latch is set no line is. *)
Lemma relay_disabled lines c : consoleDisabled c = true -> relay lines c = c.
Proof. intros Hd. by apply later_relay. Qed.

#[export] Hint Resolve later_disable later_uncaughtAll later_consoleMethod later_safeLog
  later_safeError later_uncaught later_startupTest later_relay later_sourcesLog later_openDevTools : console.

Section ProcessFacts.
Context {F : Type} `{!FileSystem F} `{!Json Value}.
Context (basename extname toLowerCase base64 : string -> string).
Context (tempDir : string) (pathJoin : string -> string -> string).
Context (eval : string -> result JsError Value).
Context (dirname : string).

#[local] Abbreviation dispatch :=
  (dispatch basename extname toLowerCase base64 tempDir pathJoin eval).
#[local] Abbreviation invokeP :=
  (invokeP basename extname toLowerCase base64 tempDir pathJoin eval).
#[local] Abbreviation createWindowP := (createWindowP pathJoin dirname).
#[local] Abbreviation activateP := (activateP pathJoin dirname).
#[local] Abbreviation process_step :=
  (process_step basename extname toLowerCase base64 tempDir pathJoin eval dirname).
#[local] Abbreviation process_reachable :=
  (process_reachable basename extname toLowerCase base64 tempDir pathJoin eval dirname).

Implicit Types (p : Process F) (c : Console).

Lemma later_createWindowP devTools p :
  later (pr_console p) (pr_console (createWindowP devTools p)).
Proof.
  unfold createWindowP, Process.createWindowP, withConsole, withWindowsOf. cbn [pr_console pr_isDev].
  etrans; [|apply later_openDevTools]. apply later_safeLog.
Qed.

Lemma later_windowReady p : later (pr_console p) (pr_console (windowReady p)).
Proof.
  unfold windowReady. destruct (mainWindow _); cbn [pr_console withConsole]; [apply later_safeLog|].
  etrans; [|apply later_uncaught]. apply later_safeLog.
Qed.

Lemma later_invokeP channel args env p reply p' :
  invokeP channel args env p = Some (reply, p') -> later (pr_console p) (pr_console p').
Proof.
  unfold invokeP, Process.invokeP. destruct (dispatch _ _ _ _) as [[r mp']|]; [|done].
  intros [= _ <-]. cbn [pr_console]. etrans; [|apply later_relay].
  destruct (String.eqb _ _); [apply later_sourcesLog|done].
Qed.

(** One step of the process and the console. *)
Lemma process_step_later p ev p' :
  process_step p ev = Some p' -> later (pr_console p) (pr_console p').
Proof.
  unfold process_step, Process.process_step. destruct ev;
    try (intros [= <-]; cbn [withConsole pr_console]; by auto with console).
  - intros [= <-]. apply later_createWindowP.
  - intros [= <-]. unfold activateP, Process.activateP.
    case_bool_decide; [apply later_createWindowP|done].
  - intros [= <-]. apply later_windowReady.
  - destruct (Process.invokeP _ _ _ _ _ _ _ _ _ _ _) as [[r q]|] eqn:Hi; [|done].
    intros [= <-]. by eapply later_invokeP.
  - intros [= <-]. apply later_uncaught.
  - intros [= <-]. apply later_uncaught.
Qed.

(** C36. Whatever happens in the main process and in whatever order (windows
    created, pages failing to load, requests of the renderer with the lines
    their handlers pass to the console, exceptions nobody caught), the
    lines printed stay printed, and once [consoleDisabled] is set the
    console is left alone for good: the latch stays set, nothing more is
    printed and no write is attempted. *)
Theorem process_run_later evs p p' :
  runO process_step evs p = Some p' ->
  printed (pr_console p) `prefix_of` printed (pr_console p') /\
  (consoleDisabled (pr_console p) = true -> pr_console p' = pr_console p).
Proof.
  revert p. induction evs as [|ev evs IH]; intros p; simpl.
  - by intros [= <-].
  - destruct (process_step p ev) as [q|] eqn:Hstep; [|done].
    intros [Hp Hd]%IH. destruct (process_step_later _ _ _ Hstep) as [Hd' Hp'].
    split; [by etrans|]. intros H. specialize (Hd' H). rewrite Hd' in *. by apply Hd.
Qed.

(** ** The windows of the process *)

(** A step of the process is a step of [Shell] on its windows, or leaves
    them alone. *)
Lemma process_step_shell p ev p' :
  process_enabled p ev -> process_step p ev = Some p' ->
  mp_shell (pr_main p') = mp_shell (pr_main p) \/
  exists sev, shell_enabled (mp_shell (pr_main p)) sev /\
              shell_step (mp_shell (pr_main p)) sev = Some (mp_shell (pr_main p')).
Proof.
  unfold process_step, Process.process_step. destruct ev; cbn [process_enabled]; intros Hen.
  - intros [= <-]. right. by exists Ready.
  - intros [= <-]. right. exists Activate. split; [done|].
    unfold activateP, Process.activateP, shell_step, activate. by destruct (bool_decide _).
  - intros [= <-]. by left.
  - intros [= <-]. by left.
  - intros [= <-]. right. exists ReadyToShow. split; [done|].
    unfold windowReady, shell_step, readyToShow. by destruct (mainWindow _).
  - unfold Process.invokeP, Main.dispatch.
    destruct (bindParams channel args) as [r|e| |]; cbn; try (intros [= <-]; by left).
    destruct (Main.handle _ _ _ _ _ _ _ _ _ _) as [reply mp'] eqn:Hh. intros [= <-].
    cbn [pr_main]. apply handle_shell in Hh as [->|(_ & sev & Hstep & Hsev)]; [by left|].
    right. exists sev. split; [by apply Hsev|done].
  - intros [= <-]. by left.
  - intros [= <-]. by left.
  - destruct Hen as [_ Hen]. destruct (shell_step _ _) as [sh|] eqn:Hs; [|done].
    intros [= <-]. right. by exists ev.
Qed.

(** Whatever the process goes through (the application becoming ready or
    active, the page failing to load, requests of the renderer, exceptions,
    the user closing windows or quitting), its windows are in a reachable
    state of [Shell], so that every invariant of the window references
    holds of the whole main process, and [isDev] is what it was at start. *)
Theorem process_reachable_shell isDarwin isDev st c p :
  process_reachable isDarwin isDev st c p ->
  shell_reachable isDarwin (mp_shell (pr_main p)) /\ pr_isDev p = isDev.
Proof.
  induction 1 as [|p ev p' _ [IHs IHd] Hen Hstep]; [split; [apply reach_init|done]|].
  split.
  - destruct (process_step_shell _ _ _ Hen Hstep) as [->|(sev & Hsev & Hs)]; [done|].
    by eapply reach_step.
  - revert Hstep. unfold process_step, Process.process_step, activateP, Process.activateP, windowReady.
    destruct ev; try (intros [= <-]; done).
    + intros [= <-]. by case_bool_decide.
    + intros [= <-]. by destruct (mainWindow _).
    + unfold Process.invokeP. destruct (Main.dispatch _ _ _ _ _ _ _ _ _ _ _) as [[]|]; [|done].
      by intros [= <-].
Qed.

(** The step is defined for everything but a request whose arguments have
    no reading the handler could work with. *)
Theorem process_step_defined p ev :
  process_step p ev = None <->
  exists channel args env, ev = Invoked channel args env /\ bindParams channel args = Untyped.
Proof.
  unfold process_step, Process.process_step. split.
  - destruct ev; try done.
    + unfold Process.invokeP, Main.dispatch.
      destruct (bindParams channel args) as [r|e| |] eqn:Hb; cbn; try done.
      * by destruct (Main.handle _ _ _ _ _ _ _ _ _ _).
      * intros _. by exists channel, args, env.
  - intros (channel & args & env & -> & Hb). unfold Process.invokeP, Main.dispatch.
    by rewrite Hb.
Qed.

(** ** What the console does not decide *)

(** The console decides nothing but what is printed: with another console
    (other lines printed, writes that fail, the latch set) the windows, the
    files and the messages after a step are the same. *)
Theorem console_noninterference c p ev :
  pr_main <$> process_step (withConsole c p) ev = pr_main <$> process_step p ev.
Proof.
  unfold process_step, Process.process_step, activateP, Process.activateP, windowReady, Process.invokeP.
  destruct ev; cbn [withConsole pr_main pr_console pr_isDev]; try done.
  - by case_bool_decide.
  - by destruct (mainWindow _).
  - by destruct (Main.dispatch _ _ _ _ _ _ _ _ _ _ _) as [[]|].
Qed.

(** ** The lines of the handlers *)

(** The handlers only add lines to what they passed to the console. *)
Lemma jobRun_console (on : FfmpegEvent -> MainState F -> MainState F * option (result JsError string))
    evs (st : MainState F) :
  (forall ev st, console st `prefix_of` console (on ev st).1) ->
  console st `prefix_of` console (jobRun on evs st).1.
Proof.
  intros Hon. revert st. induction evs as [|[ev|] evs IH]; intros st; simpl; [done| |apply (IH (destroySender st))].
  specialize (Hon ev st). destruct (on ev st) as [st1 r1]. specialize (IH st1).
  destruct (jobRun on evs st1) as [st2 r2]. simpl in *. by etrans.
Qed.

Lemma sendProgress_console channel q (st : MainState F) :
  console (sendProgress channel q st) = console st.
Proof. unfold sendProgress. by destruct (senderAlive st). Qed.

Lemma removeManifest_console manifest (st : MainState F) :
  console st `prefix_of` console (removeManifest manifest st).
Proof. unfold removeManifest. destruct (unlinkSync _ _); simpl; [done|apply prefix_app_r; done]. Qed.

Lemma logged_console {A} line (r : result JsError A * MainState F) (st : MainState F) :
  console st `prefix_of` console r.2 -> console st `prefix_of` console (logged line r).2.
Proof. destruct r as [[a|e] st']; simpl; [done|]. intros H. by apply prefix_app_r. Qed.

Lemma logged_pair {A B} (g : A -> B) (pr : A * MainState F) (mp : MainProcess F) l :
  l `prefix_of` console pr.2 ->
  l `prefix_of` console (mp_main (let '(r, st') := pr in (g r, withMainState st' mp)).2).
Proof. by destruct pr. Qed.

Lemma handle_console r env (mp : MainProcess F) :
  console (mp_main mp)
  `prefix_of` console (mp_main (handle basename extname toLowerCase base64 tempDir pathJoin eval
                                  r env mp).2).
Proof.
  destruct r; simpl; try done.
  - destruct (env_sources env); simpl; [done|by apply prefix_app_r].
  - pose proof (jobRun_console (thumbnailListeners base64
        (thumbnailFile tempDir pathJoin (env_now env))) (env_engine env) (mp_main mp)) as H.
    destruct (jobRun _ _ _); simpl in *. apply H. intros ev st.
    unfold thumbnailListeners. by destruct (thumbnailOn _ _ _ _).
  - unfold trimVideo. pose proof (jobRun_console (trimOn outputPath) (env_engine env)
        (mp_main mp)) as H.
    destruct (jobRun _ _ _); simpl in *. apply H. intros [q| |e] st; simpl; try done.
    by rewrite sendProgress_console.
  - unfold exportTimeline, exportStart.
    destruct (_ ≫= _) as [fs'|e]; simpl; [|by apply prefix_app_r].
    match goal with |- context [jobRun ?on ?evs ?st] =>
      pose proof (jobRun_console on evs st) as H; destruct (jobRun on evs st) end.
    simpl in *. apply H. intros [q| |e] st; simpl;
      [by rewrite sendProgress_console|apply removeManifest_console..].
  - unfold saveProject. apply logged_pair, logged_console.
    destruct (defaultPath _); [|done].
    destruct (env_saveDialog env) as [[canceled [filePath|]]|e]; simpl; try done.
    destruct (negb canceled && truthyS filePath); simpl; [|done].
    by destruct (writeProject _ _ _).
  - unfold loadProject. apply logged_pair, logged_console.
    destruct (env_loadDialog env) as [[canceled [|filePath ?]]|e]; simpl; try done.
    by destruct (negb canceled).
Qed.

Lemma dispatch_console channel args env (mp mp' : MainProcess F) reply :
  dispatch channel args env mp = Some (reply, mp') ->
  console (mp_main mp') = console (mp_main mp) ++ emitted (mp_main mp) (mp_main mp').
Proof.
  unfold dispatch, Main.dispatch, emitted. intros Hd.
  assert (console (mp_main mp) `prefix_of` console (mp_main mp')) as [k ->].
  { destruct (bindParams channel args); simplify_eq; try done.
    pose proof (handle_console r env mp) as H. by rewrite Hd in H. }
  by rewrite drop_app_length.
Qed.

(** On a console that works a request prints the lines of its handler, in
    the order the handler wrote them; the console still works afterwards. *)
Theorem invokeP_prints channel args env p reply p' :
  healthy (pr_console p) -> invokeP channel args env p = Some (reply, p') ->
  healthy (pr_console p') /\
  printed (pr_console p')
  = printed (pr_console p)
    ++ (if String.eqb channel "get-screen-sources" then sourcesLines (env_sources env) else [])
    ++ emitted (mp_main (pr_main p)) (mp_main (pr_main p')).
Proof.
  intros Hc. unfold invokeP, Process.invokeP.
  destruct (dispatch _ _ _ _) as [[r mp']|]; [|done]. intros [= _ <-]. cbn [pr_console pr_main].
  destruct (String.eqb _ _).
  - rewrite sourcesLog_relay, (relay_healthy _ _ Hc), relay_healthy by done.
    split; [done|]. simpl. by rewrite <- app_assoc.
  - by rewrite (relay_healthy _ _ Hc).
Qed.

(** ** The developer tools *)

(** Outside development the developer tools are not opened: what opening
    them would have done is of no consequence. *)
Lemma createWindowP_production devTools p :
  pr_isDev p = false -> createWindowP devTools p = createWindowP None p.
Proof. intros Hd. unfold createWindowP, Process.createWindowP, openDevTools. simpl. by rewrite Hd. Qed.

(** In development, developer tools that fail on a closed pipe set the
    latch: the line on the URL is the last one printed. *)
Theorem devTools_epipe p syscall :
  pr_isDev p = true -> healthy (pr_console p) ->
  pr_console (createWindowP (Some (SystemError "EPIPE" syscall)) p)
  = mkConsole true [] (printed (pr_console p) ++ ["Loading URL: http://localhost:3000"]).
Proof.
  intros Hd Hc. unfold createWindowP, Process.createWindowP. cbn [pr_console pr_isDev withConsole withWindowsOf].
  rewrite Hd, safeLog_eq. change (consoleMethod ?l ?c).2 with (relay [l] c).
  by rewrite relay_healthy.
Qed.

End ProcessFacts.

(** ** Worked runs *)

(** The process in development on the disk model; the module is in
    [/app/public]. *)
Definition step0 : Process Disk -> ProcessEvent -> option (Process Disk) :=
  process_step posixBasename posixExtname asciiLowerCase (fun s => s) "/tmp" posixJoin
    (fun rate => VNumber <$> ratioOnly rate) "/app/public".

Definition process0 (isDarwin : bool) : Process Disk :=
  initialProcess isDarwin true (mainOf mediaDisk) (mkConsole false [] []).

Definition processAfter (isDarwin : bool) (evs : list ProcessEvent) : Process Disk :=
  default (process0 isDarwin) (runG process_enabled step0 evs (process0 isDarwin)).

(** [desktopCapturer] fails. *)
Definition envFailing : Env :=
  {| env_now := env_now env0; env_openDialog := env_openDialog env0;
     env_saveDialog := env_saveDialog env0; env_loadDialog := env_loadDialog env0;
     env_sources := Throw (EngineError "Failed to get sources.");
     env_probe := env_probe env0; env_engine := env_engine env0 |}.

Definition closedPipe : JsError := SystemError "EPIPE" "write".

(** What happens after the window is up: a request that fails, a page that
    does not load, an exception. *)
Definition afterwards : list ProcessEvent :=
  [WindowReady; Invoked "get-screen-sources" [] envFailing; DidFailLoad;
   Uncaught (TypeError "x is not a function");
   Invoked "get-screen-sources" [] env0].

Lemma processAfter_reachable isDarwin evs :
  is_Some (runG process_enabled step0 evs (process0 isDarwin)) ->
  process_reachable posixBasename posixExtname asciiLowerCase (fun s => s) "/tmp" posixJoin
    (fun rate => VNumber <$> ratioOnly rate) "/app/public" isDarwin true (mainOf mediaDisk)
    (mkConsole false [] []) (processAfter isDarwin evs).
Proof.
  intros [p Hrun]. unfold processAfter. rewrite Hrun. simpl.
  eapply runG_reachable; [apply reach_init|done].
Qed.

(** The developer tools failed on a closed pipe; then the rest happens. *)
Lemma process_run_later_witness :
  printed (pr_console (processAfter false [AppReady (Some closedPipe)]))
  `prefix_of` printed (pr_console (processAfter false (AppReady (Some closedPipe) :: afterwards))) /\
  (consoleDisabled (pr_console (processAfter false [AppReady (Some closedPipe)])) = true ->
   pr_console (processAfter false (AppReady (Some closedPipe) :: afterwards))
   = pr_console (processAfter false [AppReady (Some closedPipe)])).
Proof.
  apply (process_run_later posixBasename posixExtname asciiLowerCase (fun s => s) "/tmp"
           posixJoin (fun rate => VNumber <$> ratioOnly rate) "/app/public" afterwards).
  by vm_compute.
Defined.

(** The window is up, the controller was shown, a request failed. *)
Lemma process_reachable_shell_witness :
  shell_reachable false
    (mp_shell (pr_main (processAfter false
       [AppReady None; WindowReady; Invoked "show-controller" [] env0;
        Invoked "get-screen-sources" [] envFailing]))) /\
  pr_isDev (processAfter false
       [AppReady None; WindowReady; Invoked "show-controller" [] env0;
        Invoked "get-screen-sources" [] envFailing]) = true.
Proof.
  apply (process_reachable_shell posixBasename posixExtname asciiLowerCase (fun s => s) "/tmp"
           posixJoin (fun rate => VNumber <$> ratioOnly rate) "/app/public" false true
           (mainOf mediaDisk) (mkConsole false [] [])).
  apply processAfter_reachable, (bool_decide_unpack _). by vm_compute.
Defined.

(** With a console that works every line is printed. *)
Example scenario_lines :
  pr_console (processAfter false (AppReady None :: afterwards))
  = mkConsole false []
      ["ClipForge starting..."; "Loading URL: http://localhost:3000"; "Window ready to show";
       "Main process: Getting screen sources..."; "Main process: Error getting screen sources:";
       "Failed to load page:"; "Uncaught Exception:";
       "Main process: Getting screen sources..."; "Main process: Found 1 screen sources";
       "Main process: Mapped sources:"].
Proof. by vm_compute. Qed.

(** After the pipe was closed, the failure of [desktopCapturer] leaves no
    trace: the renderer gets the empty list, the console nothing. *)
Example scenario_no_trace :
  pr_console (processAfter false (AppReady (Some closedPipe) :: afterwards))
  = mkConsole true [] ["ClipForge starting..."; "Loading URL: http://localhost:3000"] /\
  (fst <$> invokeP posixBasename posixExtname asciiLowerCase (fun s => s) "/tmp" posixJoin
             (fun rate => VNumber <$> ratioOnly rate) "get-screen-sources" [] envFailing
             (processAfter false [AppReady (Some closedPipe)]))
  = Some (Replied (VArray [])).
Proof. by vm_compute. Qed.

(** On macOS the window is closed before it was ready: the listener throws,
    the [uncaughtException] listener prints the error and the process goes
    on without a window. *)
Example scenario_closed_before_ready :
  let p := processAfter true [AppReady None; Window (UserCloses 1); WindowReady] in
  printed (pr_console p)
  = ["ClipForge starting..."; "Loading URL: http://localhost:3000"; "Window ready to show";
     "Uncaught Exception:"] /\
  windows (mp_shell (pr_main p)) = ∅ /\ running (mp_shell (pr_main p)) = true.
Proof. by vm_compute. Qed.

(** The controller was shown and closed: its window is still there, hidden,
    and [controllerWindow] is [null].  On quit its [close] listener prevents
    the close and then throws; the error is printed and the application
    goes on with that one window. *)
Example scenario_quit_with_orphan :
  let p := processAfter false
             [AppReady None; WindowReady; Invoked "show-controller" [] env0;
              Invoked "close-controller" [] env0; Window MenuQuit] in
  printed (pr_console p)
  = ["ClipForge starting..."; "Loading URL: http://localhost:3000"; "Window ready to show";
     "Uncaught Exception:"] /\
  windows (mp_shell (pr_main p)) = {[ 2%nat := mkBrowserWindow ControllerWindow false ]} /\
  controllerWindow (mp_shell (pr_main p)) = None /\ running (mp_shell (pr_main p)) = true.
Proof. by vm_compute. Qed.
